(* ===== verification/_CoqProject ===== *)
-Q . S2P
Prelude.v
Ring.v
Cstring.v
Kernel.v
Spinlock.v
ProcCore.v
Sched.v
Console.v
Vm.v
Bio.v
Quiet.v
Cache.v
Log.v
Crash.v
Txn.v
Inode.v
Fs.v
Files.v
Balloc.v
Dir.v
Pipe.v
File.v
Atomic.v
Proc.v
Limits.v
Typed.v
Kbd.v
Tty.v
Sysarg.v
Exec.v
Users.v
Sysfile.v
Trap.v
User.v
Umalloc.v
Ulib.v
Grep.v
Programs.v
Login.v
Shell.v
Grammar.v
Shellrun.v
Pmanager.v
Tests.v
Mkfs.v
Image.v
Mp.v
Ide.v
Boot.v
Gates.v
Apic.v
