(* ===== verification/Prelude.v ===== *)
(** * A verification of the ELE3021 xv6 kernel

    The program is xv6, a teaching operating system in C for 32-bit x86
    machines with several CPUs, extended by three course projects: two more
    schedulers, administrator mode with memory limits, and users with file
    permissions.  This library models the kernel under src/xv6-public, its boot
    loader, its drivers, the program that builds its disk and the user programs
    as executable functions, and proves what its parts promise.

    ** The model

    The state [kstate] (Kernel) is a record of the kernel's static tables:
    cpus[], ptable, the spin locks, physical memory, the buffer cache, the disk,
    the log, the inode and file tables, pipes, the user table and the console.
    Structs are records with the fields of the source, a pointer into a table is
    an index, a pointer to a page is its address, a C integer is a [Z] kept in
    range by the wrap-around of its type, a C array is a list and a C string is
    the bytes from a pointer on.

    A kernel path is a term of [M] (below): it runs until it returns, stops the
    machine or gives up the processor.  The stops are panic(), an access that C
    leaves undefined (out of bounds, null) and a loop that exceeds its fuel.
    Giving up the processor is a [Switch], in swtch and in each turn of a
    spinning acquire; the path goes on in whatever state it is resumed, so that
    a theorem about a path is a theorem about its interleavings.  [safe G R Q]
    is the rely/guarantee judgement on paths: [G] holds at each switch if the
    others take steps of [R], and [Q] holds at the end; in [gsafe] the steps of
    the others also change a ghost value, such as what they took from a pipe.
    [runs] and [drive] are
    finite runs; [wp] and equations [m s = Done (Ok a) t] are for paths that do
    not give up the processor.

    A user program is a term of [U] (User): a tree of system calls over the
    program's memory.  [uwp R X m Q] is total correctness of the program against
    a kernel [R], which says what each call may answer; [usafe] follows a
    program that need not end.

    Drivers run over abstract devices: a class gives the operations on ports and
    registers, a second class the laws of the device's protocol (the ATA
    commands in Ide and Boot, the register window in Apic), and each theorem
    that uses the laws has a witness with a concrete device.

    ** Files

    - Prelude: integers, paths, the logic, arrays, shared lemmas, tactics.
    - Ring: ring buffers with wrapping counters.
    - Cstring: string.c and the string functions of ulib.c.
    - Kernel: the data structures of param.h, proc.h, spinlock.h, sleeplock.h,
      buf.h, fs.h, file.h, x86.h, and [kstate].
    - Spinlock: spinlock.c; mycpu, cpuid and myproc of proc.c.
    - ProcCore: sched, yield, sleep, wakeup of proc.c; switchuvm of vm.c.
    - Sched: the three versions of scheduler() in proc.c.
    - Console: the output half of console.c.
    - Vm: kalloc.c and vm.c.
    - Bio: sleeplock.c, memide.c, bio.c.  Quiet: paths without contention.
      Cache: theorems on bio.c.
    - Log: log.c.  Crash: its theorems.  Txn: transactions as seen by the
      layers above.
    - Inode and Fs: fs.c, with consoleread and consolewrite of console.c.
      Files, Balloc and Dir: theorems on readi, writei, balloc and the
      directory functions.
    - Pipe: pipe.c.  File: file.c.  Atomic: a write through file.c and the log.
    - Proc: the rest of proc.c.  Limits and Typed: its theorems.
    - Kbd: kbd.c and the input half of console.c.  Tty: their theorem.
    - Sysarg: the argument functions of syscall.c.
    - Exec: exec.c and exec2 of PRJ02_syscall.c.
    - Users: PRJ03_syscall.c.  Sysfile: sysfile.c.
    - Trap: trap.c, the table of syscall.c, sysproc.c, PRAC_syscall.c,
      PRJ01_syscall.c and PRJ02_syscall.c.
    - User: system calls and programs.  Umalloc: umalloc.c.  Ulib: printf.c and
      the rest of ulib.c.
    - Grep: grep.c.  Programs: cat, wc, echo, kill, ln, ls, mkdir, rm, zombie and
      the user programs of PRJ03.  Login: init.c and login.c.  Pmanager:
      pmanager.c.
    - Shell: the parser of sh.c.  Grammar: its theorems.  Shellrun: runcmd.
    - Tests: forktest.c, the tests of PRJ01, and small tests of PRAC and PRJ02.
    - Mkfs: mkfs.c.  Image: its theorem, through the kernel's own readers.
    - Mp: mp.c.  Ide: ide.c.  Boot: bootmain.c.
    - Gates: the descriptors of mmu.h; seginit of vm.c, tvinit and idtinit of
      trap.c.
    - Apic: lapic.c, ioapic.c, picirq.c and the registers of uart.c.

    ** What is shown

    Locks and processes.  Between acquires and releases, the depth of pushcli on
    every CPU is the number of locks held and a lock has one holder
    ([Spinlock.lock_discipline]); sleep, with the process table's lock free or
    taken by another CPU, has the caller's lock or is asleep on its channel
    whenever others run, and so loses no wakeup
    ([ProcCore.sleep_no_lost_wakeup]); kill marks the process it names
    ([Limits.kill_marks]); the entries of the process table keep the ranges of
    their fields, their descriptor tables and the NULs of their strings under
    every process call and the passes of the MLFQ scheduler, and no call leaves
    a descriptor table ([Typed.proc_entries_typed]).

    Schedulers.  Round robin dispatches every runnable process in one pass
    ([Sched.rr_pass_fair]); the two others never panic and each dispatch is one
    their policy allows, with any behaviour of the processes in between
    ([Sched.scheduler_mlfq_safe], [Sched.mlfq_iter_first],
    [Sched.scheduler_mlq_safe]).

    Memory.  The allocator is a stack of pages ([Vm.kmem_refines]); mappages and
    allocuvm map the range asked for, to fresh zeroed pages, and nothing else
    ([Vm.mappages_maps], [Vm.allocuvm_fresh]); system call arguments lie in the
    memory of the caller ([Sysarg.user_args_in_bounds]); memory limits are an
    invariant ([Limits.memory_limits_kept]) that only an administrator sets
    ([Limits.setmemorylimit_privileged]).

    File system, from the disk up.  The cache is transparent
    ([Cache.cache_transparent]); a transaction gathers its writes
    ([Crash.txn_update]), commit is atomic at every crash point
    ([Crash.commit_crash_safe]) and recovery, itself crash safe, computes what
    the header says ([Crash.recover_refines], [Crash.head_roundtrip]); balloc
    takes the lowest free block ([Balloc.balloc_lowest]); inodes survive the way
    to the disk and back ([Inode.dinode_roundtrip]); readi returns the bytes of
    the file and writei changes them, inside a transaction
    ([Files.readi_contents], [Files.writei_overwrites]); paths are cut into
    their elements ([Fs.skipelem_components]); a directory gives back the
    entries put into it ([Dir.dirlookup_finds], [Dir.dirlink_dirlookup]); a
    write through a file is atomic at every crash point
    ([Atomic.filewrite_atomic]); descriptors and permissions
    ([Sysfile.fdalloc_lowest], [Sysfile.may_open_exact]).  The kernel reads back
    from the image of mkfs the files that went into it ([Image.mkfs_image]).

    Devices and pipes.  A pipe is a FIFO queue under any interleaving of readers
    and writers: what others take and put while a call waits and what the call
    itself moves add up, and the call ends with no sleeper left that could go on
    ([Pipe.pipewrite_fifo], [Pipe.piperead_fifo],
    [Pipe.pipe_roundtrip]); the console is a line editor
    ([Tty.console_refines_editor]) whose screen is never left
    ([Console.cgaputc_total]); the IDE driver serves its requests in order
    ([Ide.ide_refines_fifo]).

    Start of the machine.  The boot loader puts the segments of the kernel where
    its headers say ([Boot.bootmain_loads]); how mpinit ends on each form of the
    tables ([Mp.mpinit_outcome]); only the two system call gates are open to
    user code, and every gate enters the kernel's code segment
    ([Gates.traps_enter_kernel]); an interrupt goes to the CPU it was enabled
    for, and to none before ([Apic.ioapic_routes]).

    User programs.  malloc and free keep a heap of disjoint blocks
    ([Umalloc.malloc_correct], [Umalloc.free_correct]); grep prints the lines
    that its regular expressions denote, of a text without NUL bytes
    ([Grep.match_decides], [Grep.grep_correct]; [Grep.grep_drops_partial_line]
    and [Grep.grep_drops_after_nul] are what it loses of others); wc counts ([Programs.wc_correct]); the shell parses
    what its grammar prints and always ends ([Grammar.parse_roundtrip],
    [Grammar.parse_terminates]) and connects processes as the command says
    ([Shellrun.runcmd_plumbing]); no shell starts without a password
    ([Login.login_guards_shell]); the process manager reads its commands
    ([Pmanager.pm_parse_correct]); forktest passes and the scheduler tests end
    ([Tests.forktest_passes], [Tests.ml_test_reaps], [Tests.mlfq_test_safe]).

    Users.  usercheck is membership in the table ([Users.usercheck_spec]) and a
    user that was added can log in ([Users.useradd_login]).

    Some theorems show where the code does not do what it means to:
    [Users.useradd_dup_wedges], [Users.useradd_overlong],
    [Sysfile.open_denied_breaks_log], [Sysfile.may_open_exact] (other modes),
    [Limits.kill_zero_dooms_next], [Sched.mlq_even_waits] and
    [Sched.mlfq_level_stale].

    ** Bounds and fuel

    Loops that the code bounds get as much fuel as their bound, computed from
    their arguments (pages of a range, blocks of a file, characters of a path);
    the theorems on them show a result, so that the fuel is enough.  Loops that
    wait (a spinning acquire, sleep loops, the for(;;) of a scheduler) run for
    [k_fuel] turns, a field of the state over which every theorem is
    quantified; they stop with [Hang] after that, and the theorems say which
    stops are possible.  The loops of user programs and of polling drivers take
    their fuel as an argument: the theorems ask for as much as the input is long
    (bytes to read, children to wait for) or the device is slow (reads of the
    status until it is ready), and show a result.

    ** What is not modelled

    Assembly (bootasm.S, entry.S, entryother.S, swtch.S, trapasm.S, usys.S,
    initcode.S), whose meaning is that of the processor: swtch is the switch
    point of the model, and the trap frame a record of the process.  main.c,
    which calls the initialisers once and starts the other CPUs in assembly: the
    state it leaves is the initial state of the model.  getcallerpcs, which
    walks the frames of the C stack for messages, and the debugging fields.
    usertests.c, stressfs.c and the remaining tests of PRAC and PRJ02, which
    exercise the kernel from outside, some by raw addresses and inline assembly.
    The kernel proper is modelled with the in-memory disk of memide.c; ide.c is
    verified on its own.  Inputs from devices are arguments of the paths that
    read them.  A CPU runs one path until its next switch: interrupts are
    separate paths and do not preempt a path that has them enabled.  The nesting
    depth ncli has no upper end.  switchuvm does not write the task segment's
    descriptor, and %cr3 is one register of the machine.  The malloc of the
    command constructors of sh.c and pmanager.c, which the code does not test,
    succeeds. *)

From stdpp Require Export base list gmap strings.
From Stdlib Require Export ZArith Lia Sorted.

Open Scope Z_scope.

(** ** Machine integers

    A C integer is a [Z] kept in its range by the wrap-around of its type:
    [uint] and [pde_t] are [u32], [int] is [i32], [short] is [i16], [ushort]
    is [u16], [uchar] is [u8]. *)

Definition u8 (x : Z) : Z := x mod 2 ^ 8.

Definition u16 (x : Z) : Z := x mod 2 ^ 16.

Definition u32 (x : Z) : Z := x mod 2 ^ 32.

Definition i16 (x : Z) : Z := (x + 2 ^ 15) mod 2 ^ 16 - 2 ^ 15.

Definition i32 (x : Z) : Z := (x + 2 ^ 31) mod 2 ^ 32 - 2 ^ 31.

(** ** Kernel code as resumptions

    A kernel path runs on a state [S] until it finishes, stops the machine
    ([Panic], [UB], [Hang]) or calls [swtch] ([Switch]): the continuation of a
    [Switch] receives the state in which the path is resumed, which other
    paths have changed in the meantime. *)

Inductive stop :=
| Panic (msg : string)   (* the kernel's panic() *)
| UB (what : string)     (* an access outside the object, a null dereference *)
| Hang (what : string).  (* a loop that does not end within its fuel *)

Inductive res (A : Type) :=
| Ok (a : A)
| Stop (why : stop).
Arguments Ok {A} a.
Arguments Stop {A} why.

Inductive exec (S A : Type) :=
| Done (r : res A) (s : S)
| Switch (s : S) (k : S -> exec S A).
Arguments Done {S A} r s.
Arguments Switch {S A} s k.

Definition M (S A : Type) : Type := S -> exec S A.

Definition ret {S A} (a : A) : M S A := fun s => Done (Ok a) s.

Definition halt {S A} (w : stop) : M S A := fun s => Done (Stop w) s.

Definition panic {S A} (msg : string) : M S A := halt (Panic msg).

Definition gets {S A} (f : S -> A) : M S A := fun s => Done (Ok (f s)) s.

Definition modify {S} (f : S -> S) : M S unit := fun s => Done (Ok tt) (f s).

Definition swtch {S} : M S unit := fun s => Switch s (fun s' => Done (Ok tt) s').

Fixpoint xbind {S A B} (e : exec S A) (f : A -> M S B) : exec S B :=
  match e with
  | Done (Ok a) s => f a s
  | Done (Stop w) s => Done (Stop w) s
  | Switch s k => Switch s (fun s' => xbind (k s') f)
  end.

Definition bind {S A B} (m : M S A) (f : A -> M S B) : M S B :=
  fun s => xbind (m s) f.

Declare Scope kernel_scope.
Delimit Scope kernel_scope with K.
Open Scope kernel_scope.

Notation "x <- m ;; k" := (bind m (fun x => k))
  (at level 100, m at next level, right associativity,
   format "'[v' x  <-  m  ;; '/' k ']'") : kernel_scope.
Notation "m ;;; k" := (bind m (fun _ => k))
  (at level 100, right associativity,
   format "'[v' m  ;;; '/' k ']'") : kernel_scope.

(** [if(c) m] with no else branch. *)
Definition when {S} (c : bool) (m : M S unit) : M S unit :=
  if c then m else ret tt.

(** [for(x in l) body(x)]. *)
Fixpoint mfor {S X} (l : list X) (body : X -> M S unit) : M S unit :=
  match l with
  | [] => ret tt
  | x :: l' => body x ;;; mfor l' body
  end.

(** A [for] loop whose body may return a result from the function: [Some r]
    leaves the loop with [r]. *)
Fixpoint mfor_ret {S X R} (l : list X) (body : X -> M S (option R)) : M S (option R) :=
  match l with
  | [] => ret None
  | x :: l' =>
      r <- body x ;;
      match r with
      | Some _ => ret r
      | None => mfor_ret l' body
      end
  end.

(** The value of a path that returns without giving up the processor. *)
Definition result {S A} (m : M S A) (s : S) : option A :=
  match m s with Done (Ok a) _ => Some a | _ => None end.

(** The state in which a path stops or gives up the processor. *)
Definition state_after {S A} (m : M S A) (s : S) : S :=
  match m s with Done _ t => t | Switch t _ => t end.

(** [while(c) body], given up as [Hang] after [n] iterations. *)
Fixpoint mwhile {S} (n : nat) (c : M S bool) (body : M S unit) : M S unit :=
  b <- c ;;
  if (b : bool) then
    match n with
    | O => halt (Hang "while")
    | Datatypes.S n' => body ;;; mwhile n' c body
    end
  else ret tt.

(** ** A rely/guarantee logic for kernel paths

    [safe G R Q e]: whenever the path gives up the processor the state
    satisfies [G], as long as the others answer each [Switch] by a step of
    [R]; when it finishes, its result and state satisfy [Q]. *)

Fixpoint safe {S A} (G : S -> Prop) (R : S -> S -> Prop)
    (Q : res A -> S -> Prop) (e : exec S A) : Prop :=
  match e with
  | Done r s => Q r s
  | Switch s k => G s /\ forall s', R s s' -> safe G R Q (k s')
  end.

(** The same with a ghost value beside the state, which the steps of the others
    change: a record of what they did while the path was switched out. *)

Fixpoint gsafe {S W A} (G : W -> S -> Prop) (R : S -> W -> S -> W -> Prop)
    (Q : W -> res A -> S -> Prop) (w : W) (e : exec S A) : Prop :=
  match e with
  | Done r s => Q w r s
  | Switch s k => G w s /\ forall s' w', R s w s' w' -> gsafe G R Q w' (k s')
  end.

(** The finite runs of a path whose switches are answered by steps of [R]: the
    states at the switches, the result and the final state. *)
Inductive runs {S A} (R : S -> S -> Prop) : exec S A -> list S -> res A -> S -> Prop :=
| runs_done r s : runs R (Done r s) [] r s
| runs_switch s k s' tr r sf :
    R s s' -> runs R (k s') tr r sf -> runs R (Switch s k) (s :: tr) r sf.

(** The run in which the answer to each switch is [w] of the switch state, for
    at most [n] switches. *)
Fixpoint drive {S A} (n : nat) (w : S -> S) (e : exec S A) : option (list S * res A * S) :=
  match e with
  | Done r s => Some ([], r, s)
  | Switch s k =>
      match n with
      | O => None
      | Datatypes.S n' =>
          match drive n' w (k (w s)) with
          | Some (tr, r, sf) => Some (s :: tr, r, sf)
          | None => None
          end
      end
  end.

(** [wp m Q s]: from [s] the path returns, without a stop and without giving up
    the processor, a value and a state that satisfy [Q]. *)
Definition wp {S A} (m : M S A) (Q : A -> S -> Prop) (s : S) : Prop :=
  match m s with
  | Done (Ok a) s' => Q a s'
  | _ => False
  end.

(** ** Fixed-size arrays

    C arrays are lists; [aget] and [aset] are the read and the write at an
    index in range. *)

Definition aget {A} `{Inhabited A} (l : list A) (i : nat) : A := default inhabitant (l !! i).

Definition idx (x : Z) : nat := Z.to_nat x.

(** The characters of a string literal, without the final NUL. *)
Fixpoint chars (s : string) : list Z :=
  match s with
  | EmptyString => []
  | String c s' => Z.of_N (Ascii.N_of_ascii c) :: chars s'
  end.

(** Little-endian words in a byte array. *)
Fixpoint le_load (n : nat) (l : list Z) (off : nat) : Z :=
  match n with
  | O => 0
  | S n' => aget l off + 256 * le_load n' l (S off)
  end.

Fixpoint le_store (n : nat) (l : list Z) (off : nat) (v : Z) : list Z :=
  match n with
  | O => l
  | S n' => le_store n' (<[off := v mod 256]> l) (S off) (v / 256)
  end.

Definition is_byte (b : Z) : Prop := 0 <= b < 256.

Definition bytes (l : list Z) : Prop := Forall is_byte l.

(** ** Lemmas on machine integers *)

Lemma u32_range x : 0 <= u32 x < 2 ^ 32.
Proof. apply Z.mod_pos_bound. lia. Qed.

Lemma u32_id x : 0 <= x < 2 ^ 32 -> u32 x = x.
Proof. apply Z.mod_small. Qed.

Lemma i32_range x : - 2 ^ 31 <= i32 x < 2 ^ 31.
Proof. unfold i32. pose proof (Z.mod_pos_bound (x + 2 ^ 31) (2 ^ 32)). lia. Qed.

Lemma i32_id x : - 2 ^ 31 <= x < 2 ^ 31 -> i32 x = x.
Proof. intros. unfold i32. rewrite Z.mod_small; lia. Qed.

Lemma u16_range x : 0 <= u16 x < 2 ^ 16.
Proof. apply Z.mod_pos_bound. lia. Qed.

Lemma u8_range x : 0 <= u8 x < 2 ^ 8.
Proof. apply Z.mod_pos_bound. lia. Qed.

(** ** Lemmas on resumptions *)

Lemma bind_ret_l {S A B} (a : A) (f : A -> M S B) s : bind (ret a) f s = f a s.
Proof. done. Qed.

Lemma bind_halt {S A B} w (f : A -> M S B) s : bind (halt w) f s = Done (Stop w) s.
Proof. done. Qed.

Lemma bind_gets {S A B} (g : S -> A) (f : A -> M S B) s : bind (gets g) f s = f (g s) s.
Proof. done. Qed.

Lemma bind_modify {S B} (g : S -> S) (f : unit -> M S B) s :
  bind (modify g) f s = f tt (g s).
Proof. done. Qed.

Lemma bind_Done {S A B} (m : M S A) (f : A -> M S B) s a s' :
  m s = Done (Ok a) s' -> bind m f s = f a s'.
Proof. unfold bind. by intros ->. Qed.

Lemma bind_Stop {S A B} (m : M S A) (f : A -> M S B) s w s' :
  m s = Done (Stop w) s' -> bind m f s = Done (Stop w) s'.
Proof. unfold bind. by intros ->. Qed.

Lemma result_inv {S A} (m : M S A) s a : result m s = Some a -> exists t, m s = Done (Ok a) t.
Proof. unfold result. destruct (m s) as [[b|w] t|]; [intros [= ->]; by exists t|done..]. Qed.

Lemma result_state {S A} (m : M S A) s a : result m s = Some a -> m s = Done (Ok a) (state_after m s).
Proof. unfold result, state_after. destruct (m s) as [[b|w] t|]; [by intros [= ->]|done..]. Qed.

(** A sequence that runs to its end, followed by more. *)
Lemma seq2_run {S A} (a b : M S unit) (c : M S A) s u :
  (a ;;; b) s = Done (Ok tt) u -> (a ;;; b ;;; c) s = c u.
Proof. unfold bind. destruct (a s) as [[[]|]|]; simpl; try done. by intros ->. Qed.

Lemma seq3_run {S A} (a b c : M S unit) (d : M S A) s u :
  (a ;;; b ;;; c) s = Done (Ok tt) u -> (a ;;; b ;;; c ;;; d) s = d u.
Proof.
  unfold bind. destruct (a s) as [[[]|]|]; simpl; try done.
  destruct (b s0) as [[[]|]|]; simpl; try done. by intros ->.
Qed.

Lemma seq4_run {S A} (a b c d : M S unit) (e : M S A) s u :
  (a ;;; b ;;; c ;;; d) s = Done (Ok tt) u -> (a ;;; b ;;; c ;;; d ;;; e) s = e u.
Proof.
  unfold bind. destruct (a s) as [[[]|]|]; simpl; try done.
  destruct (b s0) as [[[]|]|]; simpl; try done. destruct (c s1) as [[[]|]|]; simpl; try done. by intros ->.
Qed.

Lemma mfor_app {S X} (l1 l2 : list X) (f : X -> M S unit) s s1 :
  mfor l1 f s = Done (Ok tt) s1 -> mfor (l1 ++ l2) f s = mfor l2 f s1.
Proof.
  revert s. induction l1 as [|x l1 IH]; intros s; simpl.
  - unfold ret. by intros [= ->].
  - unfold bind. destruct (f x s) as [[a|w] s'|s' k]; simpl; try done. apply IH.
Qed.

(** A run of a sequence is a run of its first part and, if that returns, a run
    of the rest. *)
Lemma runs_xbind_inv {S A B} (R : S -> S -> Prop) (e : exec S A) (f : A -> M S B) tr r sf :
  runs R (xbind e f) tr r sf ->
  exists tr1 tr2 r1 s1, tr = tr1 ++ tr2 /\ runs R e tr1 r1 s1 /\
    match r1 with
    | Ok a => runs R (f a s1) tr2 r sf
    | Stop w => r = Stop w /\ tr2 = [] /\ sf = s1
    end.
Proof.
  revert tr. induction e as [r0 s0|s0 k IH]; intros tr; simpl.
  - destruct r0 as [a|w].
    + intros H. exists [], tr, (Ok a), s0. split_and!; [done|constructor|done].
    + intros H. inversion H; subst. exists [], [], (Stop w), sf. split_and!; [done|constructor|done..].
  - intros H. inversion H as [|s1 k1 s' tr' r' sf' HR Hrun]; subst.
    destruct (IH s' tr' Hrun) as (tr1 & tr2 & r1 & s1 & -> & H1 & H2).
    exists (s0 :: tr1), tr2, r1, s1. split_and!; [done|by econstructor|done].
Qed.

Lemma runs_bind_inv {S A B} (R : S -> S -> Prop) (m : M S A) (f : A -> M S B) s tr r sf :
  runs R (bind m f s) tr r sf ->
  exists tr1 tr2 r1 s1, tr = tr1 ++ tr2 /\ runs R (m s) tr1 r1 s1 /\
    match r1 with
    | Ok a => runs R (f a s1) tr2 r sf
    | Stop w => r = Stop w /\ tr2 = [] /\ sf = s1
    end.
Proof. apply runs_xbind_inv. Qed.

(** A driven run whose answers pass the check [chk] is a run. *)
Lemma drive_runs {S A} (R : S -> S -> Prop) (w : S -> S) (chk : S -> bool) n (e : exec S A) :
  (forall s, chk s = true -> R s (w s)) ->
  match drive n w e with Some (tr, _, _) => forallb chk tr | None => false end = true ->
  exists tr r sf, runs R e tr r sf.
Proof.
  intros HR. revert e. induction n as [|n IH]; intros [r s|s k]; cbn [drive]; [|done| |].
  1,2: intros _; exists [], r, s; constructor.
  specialize (IH (k (w s))). destruct (drive n w (k (w s))) as [[[tr r] sf]|]; [|done].
  cbn [forallb]. intros [Hs Htr]%andb_true_iff. destruct (IH Htr) as (tr' & r' & sf' & Hrun).
  exists (s :: tr'), r', sf'. econstructor; [by apply HR|done].
Qed.

(** ** Lemmas on [safe] *)

Section safe.
Context {S A B : Type} (G : S -> Prop) (R : S -> S -> Prop).

Lemma safe_mono (Q Q' : res A -> S -> Prop) e :
  (forall r s, Q r s -> Q' r s) -> safe G R Q e -> safe G R Q' e.
Proof.
  intros HQ. induction e as [r s|s k IH]; simpl; [apply HQ|].
  intros [HG Hk]. split; [done|]. intros s' HR. by apply IH, Hk.
Qed.

Lemma safe_xbind (Q : res B -> S -> Prop) (e : exec S A) (f : A -> M S B) :
  safe G R (fun r s => match r with
                       | Ok a => safe G R Q (f a s)
                       | Stop w => Q (Stop w) s
                       end) e ->
  safe G R Q (xbind e f).
Proof.
  induction e as [r s|s k IH]; simpl.
  - by destruct r.
  - intros [HG Hk]. split; [done|]. intros s' HR. by apply IH, Hk.
Qed.

Lemma safe_bind (Q : res B -> S -> Prop) (m : M S A) (f : A -> M S B) s :
  safe G R (fun r s => match r with
                       | Ok a => safe G R Q (f a s)
                       | Stop w => Q (Stop w) s
                       end) (m s) ->
  safe G R Q (bind m f s).
Proof. apply safe_xbind. Qed.
End safe.

Section gsafe.
Context {S W A B : Type} (G : W -> S -> Prop) (R : S -> W -> S -> W -> Prop).

Lemma gsafe_mono (Q Q' : W -> res A -> S -> Prop) w e :
  (forall w r s, Q w r s -> Q' w r s) -> gsafe G R Q w e -> gsafe G R Q' w e.
Proof.
  intros HQ. revert w. induction e as [r s|s k IH]; intros w; simpl; [apply HQ|].
  intros [HG Hk]. split; [done|]. intros s' w' HR. by apply IH, Hk.
Qed.

Lemma gsafe_done (Q : W -> res A -> S -> Prop) w r s : Q w r s -> gsafe G R Q w (Done r s).
Proof. done. Qed.

Lemma gsafe_bind (Q : W -> res B -> S -> Prop) (m : M S A) (f : A -> M S B) w s :
  gsafe G R (fun w r s => match r with
                          | Ok a => gsafe G R Q w (f a s)
                          | Stop x => Q w (Stop x) s
                          end) w (m s) ->
  gsafe G R Q w (bind m f s).
Proof.
  unfold bind. generalize (m s). intros e. revert w. induction e as [r s1|s1 k IH]; intros w; simpl.
  - by destruct r.
  - intros [HG Hk]. split; [done|]. intros s' w' HR. by apply IH, Hk.
Qed.
End gsafe.

Lemma safe_conseq {S A} (G G' : S -> Prop) (R R' : S -> S -> Prop)
    (Q : res A -> S -> Prop) e :
  (forall s, G s -> G' s) -> (forall s s', R' s s' -> R s s') ->
  safe G R Q e -> safe G' R' Q e.
Proof.
  intros HG HR. induction e as [r s|s k IH]; simpl; [done|].
  intros [? Hk]. split; [auto|]. intros s' ?. by apply IH, Hk, HR.
Qed.

(** A loop whose body keeps an invariant is safe with that invariant. *)
Lemma safe_mfor {S X} (G : S -> Prop) (R : S -> S -> Prop) (I : S -> Prop)
    (E : stop -> S -> Prop) (l : list X) (f : X -> M S unit) s :
  (forall x s, x ∈ l -> I s ->
     safe G R (fun r s' => match r with Ok _ => I s' | Stop w => E w s' end) (f x s)) ->
  I s ->
  safe G R (fun r s' => match r with Ok _ => I s' | Stop w => E w s' end) (mfor l f s).
Proof.
  revert s. induction l as [|x l IH]; intros s Hf HI; simpl; [done|].
  apply safe_bind.
  eapply safe_mono; [|apply Hf; [set_solver|done]].
  intros [[]|w] s'; simpl; [|done].
  intros HI'. apply IH; [|done]. intros y s'' Hy. apply Hf. set_solver.
Qed.

(** ** Lemmas on [wp] *)

Section wp.
Context {S : Type}.

Lemma wp_Done {A} (m : M S A) (Q : A -> S -> Prop) s :
  wp m Q s <-> exists a s', m s = Done (Ok a) s' /\ Q a s'.
Proof.
  unfold wp. split; [|by intros (a & s' & -> & HQ)].
  destruct (m s) as [[a|w] s'|s' k]; [|done..]. by exists a, s'.
Qed.

Lemma wp_eq {A} (m : M S A) (Q : A -> S -> Prop) s a s' :
  m s = Done (Ok a) s' -> Q a s' -> wp m Q s.
Proof. unfold wp. by intros ->. Qed.

Lemma wp_mono {A} (m : M S A) (Q Q' : A -> S -> Prop) s :
  wp m Q s -> (forall a s', Q a s' -> Q' a s') -> wp m Q' s.
Proof. unfold wp. destruct (m s) as [[a|w] s'|s' k]; [|done..]. auto. Qed.

Lemma wp_ret {A} (a : A) (Q : A -> S -> Prop) s : Q a s -> wp (ret a) Q s.
Proof. done. Qed.

Lemma wp_gets {A} (f : S -> A) (Q : A -> S -> Prop) s : Q (f s) s -> wp (gets f) Q s.
Proof. done. Qed.

Lemma wp_modify (f : S -> S) (Q : unit -> S -> Prop) s : Q tt (f s) -> wp (modify f) Q s.
Proof. done. Qed.

Lemma wp_bind {A B} (m : M S A) (f : A -> M S B) (Q : B -> S -> Prop) s :
  wp m (fun a => wp (f a) Q) s -> wp (bind m f) Q s.
Proof. unfold wp, bind. by destruct (m s) as [[a|w] s'|s' k]. Qed.

Lemma wp_when (c : bool) (m : M S unit) (Q : unit -> S -> Prop) s :
  (c = true -> wp m Q s) -> (c = false -> Q tt s) -> wp (when c m) Q s.
Proof. intros H1 H2. destruct c; [by apply H1|by apply H2]. Qed.

(** A loop with an invariant on the rest of the list. *)
Lemma wp_mfor {X} (I : list X -> S -> Prop) (f : X -> M S unit) l s (Q : unit -> S -> Prop) :
  I l s ->
  (forall x l s, I (x :: l) s -> wp (f x) (fun _ => I l) s) ->
  (forall s, I [] s -> Q tt s) ->
  wp (mfor l f) Q s.
Proof.
  intros HI Hf HQ. revert s HI. induction l as [|x l IH]; intros s HI; [by apply HQ|].
  cbn [mfor]. apply wp_bind. eapply wp_mono; [by apply Hf|]. intros [] s' HI'. by apply IH.
Qed.
End wp.

(** One step of a [wp] goal. *)
Ltac wstep :=
  match goal with
  | |- wp (bind _ _) _ _ => apply wp_bind
  | |- wp (ret _) _ _ => apply wp_ret
  | |- wp (gets _) _ _ => apply wp_gets
  | |- wp (modify _) _ _ => apply wp_modify
  end.

Ltac wsteps := repeat wstep.

(** ** Lemmas on arrays *)

Lemma aget_insert_eq {A} `{Inhabited A} (l : list A) i x :
  (i < length l)%nat -> aget (<[i := x]> l) i = x.
Proof. intros. unfold aget. by rewrite list_lookup_insert_eq. Qed.

Lemma aget_insert_ne {A} `{Inhabited A} (l : list A) i j x :
  i <> j -> aget (<[i := x]> l) j = aget l j.
Proof. intros. unfold aget. by rewrite list_lookup_insert_ne. Qed.

Lemma aget_lookup {A} `{Inhabited A} (l : list A) i x : l !! i = Some x -> aget l i = x.
Proof. unfold aget. by intros ->. Qed.

Lemma lookup_aget {A} `{Inhabited A} (l : list A) i :
  (i < length l)%nat -> l !! i = Some (aget l i).
Proof. intros Hi. unfold aget. destruct (lookup_lt_is_Some_2 l i Hi) as [x ->]. done. Qed.

Lemma alter_ext_at {A} (f g : A -> A) i (l : list A) :
  (forall x, l !! i = Some x -> f x = g x) -> alter f i l = alter g i l.
Proof.
  intros H. apply list_eq. intros j. destruct (decide (i = j)) as [<-|Hne].
  - rewrite !list_lookup_alter_eq. destruct (l !! i) eqn:E; simpl; [|done]. by rewrite H.
  - by rewrite !list_lookup_alter_ne.
Qed.

Lemma alter_id_at {A} (f : A -> A) i (l : list A) :
  (forall x, l !! i = Some x -> f x = x) -> alter f i l = l.
Proof.
  intros H. rewrite (alter_ext_at f (fun x => x) i l H). by apply list_alter_id.
Qed.

(** An update that keeps the projection [g] keeps the list of projections. *)
Lemma fmap_alter_same {A B} (g : A -> B) (f : A -> A) i (l : list A) :
  (forall x, g (f x) = g x) -> g <$> alter f i l = g <$> l.
Proof.
  intros H. apply list_eq. intros j. rewrite !list_lookup_fmap.
  destruct (decide (i = j)) as [<-|Hne].
  - rewrite list_lookup_alter_eq. destruct (l !! i); simpl; [by rewrite H|done].
  - by rewrite list_lookup_alter_ne.
Qed.

Lemma bytes_aget l i : bytes l -> is_byte (aget l i).
Proof.
  intros Hl. unfold aget, bytes in *. destruct (l !! i) as [x|] eqn:E; simpl.
  - by eapply Forall_lookup_1.
  - unfold is_byte, inhabitant. simpl. lia.
Qed.

Lemma le_load_range n l off : bytes l -> 0 <= le_load n l off < 256 ^ Z.of_nat n.
Proof.
  intros Hl. revert off. induction n as [|n IH]; intros off; [simpl; lia|].
  cbn [le_load]. rewrite Nat2Z.inj_succ, Z.pow_succ_r by lia.
  pose proof (IH (S off)). pose proof (bytes_aget l off Hl) as [??]. lia.
Qed.

Lemma length_le_store n l off v : length (le_store n l off v) = length l.
Proof.
  revert l off v. induction n; intros; simpl; [done|]. rewrite IHn. apply length_insert.
Qed.

Lemma le_store_bytes n l off v : bytes l -> bytes (le_store n l off v).
Proof.
  revert l off v. induction n; intros l off v Hl; simpl; [done|].
  apply IHn. apply Forall_insert; [done|]. apply Z.mod_pos_bound. lia.
Qed.

(** Bytes below the stored word keep their value. *)
Lemma aget_le_store_lt n l off v j :
  (j < off)%nat -> aget (le_store n l off v) j = aget l j.
Proof.
  revert l off v. induction n; intros l off v Hj; simpl; [done|].
  rewrite IHn by lia. apply aget_insert_ne. lia.
Qed.

Lemma aget_le_store_ge n l off v j :
  (off + n <= j)%nat -> aget (le_store n l off v) j = aget l j.
Proof.
  revert l off v. induction n; intros l off v Hj; simpl; [done|].
  rewrite IHn by lia. apply aget_insert_ne. lia.
Qed.

Lemma le_load_ext n l l' off :
  (forall j, (off <= j < off + n)%nat -> aget l j = aget l' j) ->
  le_load n l off = le_load n l' off.
Proof.
  revert off. induction n; intros off H; simpl; [done|].
  rewrite H by lia. f_equal. f_equal. apply IHn. intros. apply H. lia.
Qed.

(** Storing a word and loading it back. *)
Lemma le_load_store n l off v :
  (off + n <= length l)%nat ->
  le_load n (le_store n l off v) off = v mod 256 ^ Z.of_nat n.
Proof.
  revert l off v. induction n as [|n IH]; intros l off v Hlen.
  - simpl. by rewrite Z.mod_1_r.
  - cbn [le_load le_store]. rewrite aget_le_store_lt by lia.
    rewrite aget_insert_eq by lia. rewrite IH by (rewrite length_insert; lia).
    rewrite Nat2Z.inj_succ, Z.pow_succ_r by lia.
    rewrite Z.rem_mul_r by lia. lia.
Qed.

(** A load that does not overlap a store is unaffected. *)
Lemma le_load_store_ne n m l off off' v :
  (off' + m <= off \/ off + n <= off')%nat ->
  le_load m (le_store n l off v) off' = le_load m l off'.
Proof.
  intros H. apply le_load_ext. intros j Hj.
  destruct H; [apply aget_le_store_lt|apply aget_le_store_ge]; lia.
Qed.

(** ** Tactics *)

(** Run the first commands of a path whose results are known. *)
Ltac mstep :=
  repeat first
    [ rewrite bind_ret_l | rewrite bind_gets | rewrite bind_modify
    | erewrite bind_Done by eassumption ].

(** Split a boolean condition of the code and turn it into arithmetic. *)
Ltac bsplit :=
  repeat match goal with
  | H : (_ && _) = true |- _ => apply andb_prop in H as [? ?]
  | H : (_ || _) = false |- _ => apply orb_false_elim in H as [? ?]
  | H : (_ =? _) = true |- _ => apply Z.eqb_eq in H
  | H : (_ =? _) = false |- _ => apply Z.eqb_neq in H
  | H : (_ <? _) = true |- _ => apply Z.ltb_lt in H
  | H : (_ <? _) = false |- _ => apply Z.ltb_ge in H
  | H : (_ <=? _) = true |- _ => apply Z.leb_le in H
  | H : (_ <=? _) = false |- _ => apply Z.leb_gt in H
  | H : negb _ = true |- _ => apply negb_true_iff in H
  | H : negb _ = false |- _ => apply negb_false_iff in H
  | H : bool_decide _ = true |- _ => apply bool_decide_eq_true in H
  | H : bool_decide _ = false |- _ => apply bool_decide_eq_false in H
  end.

(** ** Hint databases

    [kernel] closes the range obligations of machine integers and arrays. *)
Create HintDb kernel.
Create Rewrite HintDb kernel.
#[export] Hint Resolve u32_range i32_range u16_range u8_range le_load_range
  le_store_bytes bytes_aget : kernel.
#[export] Hint Rewrite @length_le_store @length_insert @length_alter : kernel.
