(* ===== verification/Ring.v ===== *)
(** * Ring buffers

    An array of [N] cells with two uint counters that are never reduced: cell
    [i mod N] holds byte [i].  [N] divides 2^32, so the counters may wrap.
    Shared by the pipes and by the input buffer of the console. *)

From S2P Require Import Prelude.

Local Arguments u32 : simpl never.

Lemma u32_succ_l a b : u32 (u32 (a + 1) - b) = u32 (a - b + 1).
Proof. unfold u32. rewrite Zminus_mod_idemp_l. f_equal. lia. Qed.

Lemma u32_succ_r a b : u32 (a - u32 (b + 1)) = u32 (a - b - 1).
Proof. unfold u32. rewrite Zminus_mod_idemp_r. f_equal. lia. Qed.

Lemma u32_pred_l a b : u32 (u32 (a - 1) - b) = u32 (a - b - 1).
Proof. unfold u32. rewrite Zminus_mod_idemp_l. f_equal. lia. Qed.

Lemma u32_step a : u32 a + 1 < 2 ^ 32 -> u32 (a + 1) = u32 a + 1.
Proof.
  intros H. pose proof (u32_range a). rewrite <- (u32_id (u32 a + 1)) by lia.
  unfold u32. by rewrite Zplus_mod_idemp_l.
Qed.

Lemma u32_back a : 0 < u32 a -> u32 (a - 1) = u32 a - 1.
Proof.
  intros H. pose proof (u32_range a). rewrite <- (u32_id (u32 a - 1)) by lia. unfold u32.
  by rewrite Zminus_mod_idemp_l.
Qed.

Lemma u32_split a b c : u32 (b - a) + u32 (c - b) < 2 ^ 32 -> u32 (c - a) = u32 (b - a) + u32 (c - b).
Proof.
  intros H. pose proof (u32_range (b - a)). pose proof (u32_range (c - b)).
  rewrite <- (u32_id (u32 (b - a) + u32 (c - b))) by lia. unfold u32. rewrite <- Zplus_mod. f_equal. lia.
Qed.

Lemma u32_eq a b : 0 <= a < 2 ^ 32 -> 0 <= b < 2 ^ 32 -> u32 (b - a) = 0 -> a = b.
Proof.
  intros Ha Hb H0. unfold u32 in H0. apply Z.mod_divide in H0; [|lia]. destruct H0 as [k Hk]. lia.
Qed.

(** b == a + n, in uint arithmetic. *)
Lemma u32_ahead n a b :
  0 <= n < 2 ^ 32 -> 0 <= b < 2 ^ 32 -> (b =? u32 (a + n)) = (u32 (b - a) =? n).
Proof.
  intros Hn Hb. apply eq_iff_eq_true. rewrite !Z.eqb_eq. split.
  - intros ->. unfold u32. rewrite Zminus_mod_idemp_l. replace (a + n - a) with n by lia. by apply Z.mod_small.
  - intros <-. unfold u32. rewrite Zplus_mod_idemp_r. replace (a + (b - a)) with b by lia. by rewrite Z.mod_small.
Qed.

Lemma idx_add a b : 0 <= a -> 0 <= b -> idx (a + b) = (idx a + idx b)%nat.
Proof. apply Z2Nat.inj_add. Qed.

Section ring.
Context (N : Z).
Hypothesis HN : 0 < N < 2 ^ 32.
Hypothesis Hdiv : (N | 2 ^ 32).

(** The bytes from counter [a] up to counter [b]. *)
Definition ring (buf : list Z) (a b : Z) : list Z :=
  (fun k => aget buf (idx ((a + Z.of_nat k) mod N))) <$> seq 0 (idx (u32 (b - a))).

Lemma length_ring buf a b : length (ring buf a b) = idx (u32 (b - a)).
Proof. unfold ring. by rewrite length_fmap, length_seq. Qed.

Lemma ring_nil buf a : ring buf a a = [].
Proof. unfold ring. by rewrite Z.sub_diag. Qed.

Lemma ring_nil_inv buf a b : 0 <= a < 2 ^ 32 -> 0 <= b < 2 ^ 32 -> ring buf a b = [] -> a = b.
Proof.
  intros Ha Hb He. apply (f_equal length) in He. rewrite length_ring in He. simpl in He.
  pose proof (u32_range (b - a)). apply u32_eq; [done..|]. unfold idx in He. lia.
Qed.

Lemma u32_mod_size a : u32 a mod N = a mod N.
Proof.
  destruct Hdiv as [k Hk]. unfold u32. rewrite Hk, Z.mul_comm.
  assert (0 < k) by (assert (0 < k * N) by (rewrite <- Hk; lia); nia).
  rewrite Z.rem_mul_r, Z.mul_comm, Z.mod_add by lia. by rewrite Z.mod_mod by lia.
Qed.

(** The cell of counter [b] as seen from [a]. *)
Lemma ring_cell a b : (a + Z.of_nat (idx (u32 (b - a)))) mod N = b mod N.
Proof.
  pose proof (u32_range (b - a)). unfold idx. rewrite Z2Nat.id by lia.
  rewrite Zplus_mod, u32_mod_size, <- Zplus_mod. f_equal. lia.
Qed.

Lemma ring_push buf a b c :
  length buf = idx N -> u32 (b - a) < N ->
  ring (<[idx (b mod N) := c]> buf) a (u32 (b + 1)) = ring buf a b ++ [c].
Proof.
  intros Hl Hlen. pose proof (u32_range (b - a)) as Hrg.
  unfold ring. rewrite u32_succ_l, u32_step by lia.
  rewrite idx_add, Nat.add_1_r, seq_S, fmap_app by lia. simpl. f_equal.
  - apply list_fmap_ext. intros k j Hj%lookup_seq. destruct Hj as [-> Hj]. simpl. apply aget_insert_ne.
    pose proof (Z.mod_pos_bound b N ltac:(lia)). pose proof (Z.mod_pos_bound (a + Z.of_nat k) N ltac:(lia)).
    unfold idx. intros He. assert (b mod N = (a + Z.of_nat k) mod N) as He' by lia.
    assert ((u32 (b - a) - Z.of_nat k) mod N = 0) as Hz.
    { rewrite Zminus_mod, u32_mod_size, <- Zminus_mod.
      replace (b - a - Z.of_nat k) with (b - (a + Z.of_nat k)) by lia.
      by rewrite Zminus_mod, He', Z.sub_diag. }
    rewrite Z.mod_small in Hz; unfold idx in Hj; lia.
  - f_equal. rewrite (ring_cell a b). apply aget_insert_eq.
    pose proof (Z.mod_pos_bound b N ltac:(lia)). rewrite Hl. unfold idx. lia.
Qed.

Lemma ring_pop buf a b :
  0 < u32 (b - a) -> ring buf a b = aget buf (idx (a mod N)) :: ring buf (u32 (a + 1)) b.
Proof.
  intros Hpos. unfold ring. rewrite u32_succ_r, u32_back by done.
  replace (idx (u32 (b - a))) with (S (idx (u32 (b - a) - 1))) by (unfold idx; lia).
  cbn [seq]. rewrite fmap_cons. f_equal; [do 3 f_equal; lia|].
  rewrite <- fmap_S_seq, <- list_fmap_compose. apply list_fmap_ext. intros k j _. unfold compose.
  do 2 f_equal. rewrite <- (Zplus_mod_idemp_l (u32 _)), u32_mod_size, Zplus_mod_idemp_l. f_equal. lia.
Qed.

Lemma ring_app buf a b c :
  u32 (b - a) + u32 (c - b) < 2 ^ 32 -> ring buf a c = ring buf a b ++ ring buf b c.
Proof.
  intros H. pose proof (u32_range (b - a)). pose proof (u32_range (c - b)).
  unfold ring. rewrite (u32_split a b c) by done.
  rewrite idx_add, seq_app, fmap_app by lia. f_equal. simpl.
  rewrite <- (Nat.add_0_r (idx (u32 (b - a)))), <- fmap_add_seq, <- list_fmap_compose. apply list_fmap_ext. intros k j _. unfold compose.
  do 2 f_equal. rewrite Nat2Z.inj_add, Z.add_assoc, <- Zplus_mod_idemp_l.
  by rewrite ring_cell, Zplus_mod_idemp_l.
Qed.

Lemma ring_unpush buf a b :
  0 < u32 (b - a) ->
  ring buf a b = ring buf a (u32 (b - 1)) ++ [aget buf (idx (u32 (b - 1) mod N))].
Proof.
  intros Hpos. pose proof (u32_range (b - a)). unfold ring. rewrite u32_pred_l, u32_back by done.
  replace (idx (u32 (b - a))) with (S (idx (u32 (b - a) - 1))) by (unfold idx; lia).
  rewrite seq_S, fmap_app. simpl. do 3 f_equal.
  rewrite u32_mod_size.
  replace (u32 (b - a) - 1) with (u32 (b - 1 - a)).
  - by rewrite ring_cell.
  - rewrite <- u32_back by done. f_equal. lia.
Qed.
End ring.
