(* ===== verification/Cstring.v ===== *)
(** * The string library (string.c, ulib.c)

    A pointer into an object is the list of the object's bytes from the
    pointer on; [None] is an access past the end of the object.  Characters are
    their unsigned byte values.  memmove, whose arguments may overlap, works on
    one memory with two indices. *)

From S2P Require Import Prelude.

(** The string at a pointer: the bytes before the first NUL. *)
Fixpoint cstr (l : list Z) : option (list Z) :=
  match l with
  | [] => None
  | c :: l' => if c =? 0 then Some [] else option_map (cons c) (cstr l')
  end.

(** ** Reading *)

Fixpoint strlen (s : list Z) : option Z :=
  match s with
  | [] => None
  | c :: s' => if c =? 0 then Some 0 else option_map Z.succ (strlen s')
  end.

(** while( *p && *p == *q) p++, q++; return (uchar)*p - (uchar)*q; *)
Fixpoint strcmp (p q : list Z) : option Z :=
  match p, q with
  | a :: p', b :: q' =>
      if negb (a =? 0) && (a =? b) then strcmp p' q' else Some (a - b)
  | _, _ => None
  end.

Fixpoint strncmp (p q : list Z) (n : nat) {struct n} : option Z :=
  match n with
  | O => Some 0
  | S n' =>
      match p, q with
      | a :: p', b :: q' =>
          if negb (a =? 0) && (a =? b) then strncmp p' q' n' else Some (a - b)
      | _, _ => None
      end
  end.

Fixpoint memcmp (s1 s2 : list Z) (n : nat) {struct n} : option Z :=
  match n with
  | O => Some 0
  | S n' =>
      match s1, s2 with
      | a :: s1', b :: s2' => if negb (a =? b) then Some (a - b) else memcmp s1' s2' n'
      | _, _ => None
      end
  end.

(** strchr: the index of the first [c] before the NUL, [Some None] for NULL. *)
Fixpoint strchr (s : list Z) (c : Z) : option (option nat) :=
  match s with
  | [] => None
  | a :: s' =>
      if a =? 0 then Some None
      else if a =? c then Some (Some O)
      else option_map (option_map S) (strchr s' c)
  end.

(** atoi, in int arithmetic. *)
Fixpoint atoi_from (n : Z) (s : list Z) : option Z :=
  match s with
  | [] => None
  | c :: s' =>
      if (48 <=? c) && (c <=? 57) then atoi_from (i32 (n * 10 + c - 48)) s' else Some n
  end.

Definition atoi (s : list Z) : option Z := atoi_from 0 s.

(** ** Writing

    The result is the object of [s] after the copy; source and destination are
    different objects. *)

(** while(n-- > 0 && ( *s++ = *t++) != 0); while(n-- > 0) *s++ = 0; *)
Fixpoint zero_fill (s : list Z) (n : nat) {struct n} : option (list Z) :=
  match n, s with
  | O, _ => Some s
  | S n', _ :: s' => option_map (cons 0) (zero_fill s' n')
  | S _, [] => None
  end.

Fixpoint strncpy (s t : list Z) (n : nat) {struct n} : option (list Z) :=
  match n with
  | O => Some s
  | S n' =>
      match s, t with
      | _ :: s', c :: t' =>
          option_map (cons c) (if c =? 0 then zero_fill s' n' else strncpy s' t' n')
      | _, _ => None
      end
  end.

(** The loop of safestrcpy and the final *s = 0, with [n] the value of --n. *)
Fixpoint safecpy_loop (s t : list Z) (n : nat) {struct n} : option (list Z) :=
  match s with
  | [] => None
  | _ :: s' =>
      match n with
      | O => Some (0 :: s')
      | S n' =>
          match t with
          | [] => None
          | c :: t' =>
              if c =? 0 then
                match s' with
                | [] => None
                | _ :: s'' => Some (0 :: 0 :: s'')
                end
              else option_map (cons c) (safecpy_loop s' t' n')
          end
      end
  end.

Definition safestrcpy (s t : list Z) (n : Z) : option (list Z) :=
  if n <=? 0 then Some s else safecpy_loop s t (Z.to_nat (n - 1)).

Fixpoint strcpy (s t : list Z) : option (list Z) :=
  match s, t with
  | _ :: s', c :: t' => option_map (cons c) (if c =? 0 then Some s' else strcpy s' t')
  | _, _ => None
  end.

Fixpoint strcat (dst src : list Z) : option (list Z) :=
  match dst with
  | [] => None
  | c :: dst' => if c =? 0 then strcpy dst src else option_map (cons c) (strcat dst' src)
  end.

(** ** memset

    [dst] is the address of the object [m]. *)

Fixpoint stosb (m : list Z) (off : nat) (c : Z) (n : nat) : list Z :=
  match n with
  | O => m
  | S n' => stosb (<[off := c mod 256]> m) (S off) c n'
  end.

Fixpoint stosl (m : list Z) (off : nat) (v : Z) (n : nat) : list Z :=
  match n with
  | O => m
  | S n' => stosl (le_store 4 m off v) (off + 4) v n'
  end.

Definition memset (dst : Z) (m : list Z) (c : Z) (n : nat) : list Z :=
  if (dst mod 4 =? 0) && (n mod 4 =? 0)%nat then
    let c := Z.land c 255 in
    stosl m 0 (Z.lor (Z.lor (Z.lor (Z.shiftl c 24) (Z.shiftl c 16)) (Z.shiftl c 8)) c) (n / 4)
  else stosb m 0 c n.

(** ** memmove *)

Fixpoint move_up (m : list Z) (d s : nat) (n : nat) : list Z :=
  match n with
  | O => m
  | S n' => move_up (<[d := aget m s]> m) (S d) (S s) n'
  end.

(** The backward loop, [d] and [s] the ends of the regions. *)
Fixpoint move_down (m : list Z) (d s : nat) (n : nat) : list Z :=
  match n with
  | O => m
  | S n' => move_down (<[(d - 1)%nat := aget m (s - 1)]> m) (d - 1) (s - 1) n'
  end.

Definition memmove (m : list Z) (dst src n : nat) : list Z :=
  if (src <? dst)%nat && (dst <? src + n)%nat then move_down m (dst + n) (src + n) n
  else move_up m dst src n.

(** ** Lemmas: reading *)

Lemma cstr_len l s : cstr l = Some s -> (length s < length l)%nat.
Proof.
  revert s. induction l as [|c l IH]; intros s H; simpl in H; [done|].
  destruct (c =? 0); simplify_eq; simpl; [lia|].
  destruct (cstr l) as [s'|]; simplify_eq/=. specialize (IH s' eq_refl). lia.
Qed.

(** A terminated string is its bytes, none of them NUL, and the NUL. *)
Lemma cstr_spec l s :
  cstr l = Some s <-> Forall (fun c => c <> 0) s /\ exists rest, l = s ++ 0 :: rest.
Proof.
  split.
  - revert s. induction l as [|c l IH]; intros s H; simpl in H; [done|].
    destruct (Z.eqb_spec c 0) as [->|Hc]; simplify_eq; [split; [done|by exists l]|].
    destruct (cstr l) as [s'|]; simplify_eq/=. destruct (IH s' eq_refl) as [H1 [r ->]].
    split; [by constructor|by exists r].
  - intros [Hs [rest ->]]. induction Hs as [|c s Hc Hs IH]; simpl; [done|].
    rewrite (proj2 (Z.eqb_neq c 0)) by done. by rewrite IH.
Qed.

Lemma strlen_cstr l : strlen l = option_map (fun s => Z.of_nat (length s)) (cstr l).
Proof.
  induction l as [|c l IH]; simpl; [done|]. destruct (c =? 0); [done|].
  rewrite IH. destruct (cstr l); simpl; [|done]. f_equal. lia.
Qed.

(** strcmp is the difference of the first two bytes that differ, the NULs
    included: 0 exactly on equal strings. *)
Lemma strcmp_spec p q a b :
  cstr p = Some a -> cstr q = Some b ->
  exists r, strcmp p q = Some r /\ (r = 0 <-> a = b).
Proof.
  revert q a b. induction p as [|x p IH]; intros q a b Ha Hb; [done|].
  destruct q as [|y q]; [done|]. simpl in *.
  destruct (Z.eqb_spec x 0) as [->|Hx]; simplify_eq; simpl.
  - exists (0 - y). split; [done|]. destruct (Z.eqb_spec y 0) as [->|]; simplify_eq; [by split|].
    destruct (cstr q); simplify_eq/=. split; [lia|done].
  - destruct (cstr p) as [a'|] eqn:Hp; simplify_eq/=.
    destruct (Z.eqb_spec x y) as [->|Hxy].
    + rewrite (proj2 (Z.eqb_neq y 0)) in Hb by done. destruct (cstr q) as [b'|] eqn:Hq; simplify_eq/=.
      destruct (IH q a' b' eq_refl Hq) as (r & -> & Hr). exists r. split; [done|].
      rewrite Hr. split; [by intros ->|by intros [=]].
    + exists (x - y). split; [done|]. split; [lia|].
      destruct (Z.eqb_spec y 0); simplify_eq; [done|]. destruct (cstr q); simplify_eq/=. by intros [=].
Qed.

(** The bytes that a comparison of at most [n] characters depends on. *)
Fixpoint cprefix (n : nat) (l : list Z) : list Z :=
  match n, l with
  | S n', c :: l' => if c =? 0 then [] else c :: cprefix n' l'
  | _, _ => []
  end.

Lemma strncmp_spec p q n :
  (n <= length p)%nat -> (n <= length q)%nat ->
  exists r, strncmp p q n = Some r /\ (r = 0 <-> cprefix n p = cprefix n q).
Proof.
  revert p q. induction n as [|n IH]; intros p q Hp Hq; simpl; [by exists 0|].
  destruct p as [|x p]; [simpl in Hp; lia|]. destruct q as [|y q]; [simpl in Hq; lia|]. simpl in *.
  destruct (Z.eqb_spec x 0) as [->|Hx]; simpl.
  - exists (0 - y). split; [done|]. destruct (Z.eqb_spec y 0) as [->|]; [by split|]. split; [lia|done].
  - destruct (Z.eqb_spec x y) as [->|Hxy].
    + rewrite (proj2 (Z.eqb_neq y 0)) by done. destruct (IH p q) as (r & -> & Hr); [lia|lia|].
      exists r. split; [done|]. rewrite Hr. split; [by intros ->|by intros [=]].
    + exists (x - y). split; [done|]. split; [lia|]. destruct (Z.eqb_spec y 0); by intros [=].
Qed.

Lemma memcmp_spec p q n :
  (n <= length p)%nat -> (n <= length q)%nat ->
  exists r, memcmp p q n = Some r /\ (r = 0 <-> take n p = take n q).
Proof.
  revert p q. induction n as [|n IH]; intros p q Hp Hq; simpl; [by exists 0|].
  destruct p as [|x p]; [simpl in Hp; lia|]. destruct q as [|y q]; [simpl in Hq; lia|]. simpl in *.
  destruct (Z.eqb_spec x y) as [->|Hxy]; simpl.
  - destruct (IH p q) as (r & -> & Hr); [lia|lia|].
    exists r. split; [done|]. rewrite Hr. split; [by intros ->|by intros [=]].
  - exists (x - y). split; [done|]. split; [lia|by intros [=]].
Qed.

(** ** Lemmas: writing *)

Lemma zero_fill_spec s n :
  (n <= length s)%nat -> zero_fill s n = Some (replicate n 0 ++ drop n s).
Proof.
  revert s. induction n as [|n IH]; intros [|c s] H; simpl in *; try done; [lia|].
  by rewrite IH by lia.
Qed.

(** strncpy writes the first [n] bytes: the string cut at [n], then zeros. *)
Lemma strncpy_spec s t n :
  (n <= length s)%nat -> (n <= length t)%nat \/ is_Some (cstr t) ->
  strncpy s t n =
    Some (cprefix n t ++ replicate (n - length (cprefix n t)) 0 ++ drop n s).
Proof.
  revert s t. induction n as [|n IH]; intros s t Hs Ht; simpl; [done|].
  destruct s as [|x s]; [simpl in Hs; lia|].
  destruct t as [|c t]; [simpl in Ht; destruct Ht as [?|[??]]; [lia|done]|]. simpl in *.
  destruct (Z.eqb_spec c 0) as [->|Hc]; simpl.
  - by rewrite zero_fill_spec by lia.
  - rewrite IH; [done|lia|]. destruct Ht as [?|[r Hr]]; [left; lia|right].
    by destruct (cstr t).
Qed.

Lemma strcpy_spec s t a :
  cstr t = Some a -> (length a < length s)%nat ->
  strcpy s t = Some (a ++ 0 :: drop (S (length a)) s).
Proof.
  revert s a. induction t as [|c t IH]; intros s a Ha Hs; [done|]. simpl in Ha.
  destruct s as [|x s]; [simpl in Hs; lia|]. simpl.
  destruct (Z.eqb_spec c 0) as [->|Hc]; simplify_eq/=; [by rewrite drop_0|].
  destruct (cstr t) as [a'|]; simplify_eq/=. by rewrite (IH s a') by (done || lia).
Qed.

(** safestrcpy leaves a terminated string: [t] cut at [n - 1] bytes. *)
Lemma safecpy_loop_spec s t n :
  (S n <= length s)%nat -> (n <= length t)%nat \/ is_Some (cstr t) ->
  exists s', safecpy_loop s t n = Some s' /\ cstr s' = Some (cprefix n t) /\ length s' = length s.
Proof.
  revert s t. induction n as [|n IH]; intros s t Hs Ht; (destruct s as [|x s]; [simpl in Hs; lia|]);
    simpl; [by exists (0 :: s)|].
  destruct t as [|c t]; [simpl in Ht; destruct Ht as [?|[??]]; [lia|done]|]. simpl in *.
  destruct (Z.eqb_spec c 0) as [->|Hc]; simpl.
  - destruct s as [|y s]; [simpl in Hs; lia|]. by eexists.
  - destruct (IH s t) as (s' & -> & H1 & H2); [lia| |].
    { destruct Ht as [?|[r Hr]]; [left; lia|right]. by destruct (cstr t). }
    exists (c :: s'). simpl. rewrite (proj2 (Z.eqb_neq c 0)) by done. rewrite H1, H2. done.
Qed.

Lemma cprefix_cstr n t a : cstr t = Some a -> cprefix n t = take n a.
Proof.
  revert t a. induction n as [|n IH]; intros t a Ha; [by destruct t|].
  destruct t as [|c t]; [done|]. simpl in *. destruct (c =? 0); simplify_eq/=; [done|].
  destruct (cstr t) as [a'|] eqn:E; simplify_eq/=. f_equal. by apply IH.
Qed.

(** The copy of a string that fits is the whole string. *)
Lemma safestrcpy_fits s t a n :
  cstr t = Some a -> (length a < n)%nat -> (n <= length s)%nat ->
  exists s', safestrcpy s t (Z.of_nat n) = Some s' /\ cstr s' = Some a /\ length s' = length s.
Proof.
  intros Ha Hn Hs. unfold safestrcpy. rewrite (proj2 (Z.leb_gt _ 0)) by lia.
  destruct (safecpy_loop_spec s t (Z.to_nat (Z.of_nat n - 1))) as (s' & H1 & H2 & H3).
  - lia.
  - right. by rewrite Ha.
  - exists s'. rewrite (cprefix_cstr _ _ a), take_ge in H2 by (done || lia). done.
Qed.

(** ** Lemmas: memset and memmove *)

Lemma stosb_spec m off c n :
  (off + n <= length m)%nat ->
  stosb m off c n = take off m ++ replicate n (c mod 256) ++ drop (off + n) m.
Proof.
  revert m off. induction n as [|n IH]; intros m off H; simpl.
  - by rewrite Nat.add_0_r, take_drop.
  - rewrite IH by (rewrite length_insert; lia).
    rewrite (take_S_r _ _ (c mod 256)) by (apply list_lookup_insert_eq; lia).
    rewrite take_insert_ge, drop_insert_lt by lia. rewrite <- app_assoc. simpl.
    by replace (off + S n)%nat with (S off + n)%nat by lia.
Qed.

Lemma stosb_app m off c n k : stosb m off c (n + k) = stosb (stosb m off c n) (off + n) c k.
Proof.
  revert m off. induction n as [|n IH]; intros m off; simpl; [by rewrite Nat.add_0_r|].
  rewrite IH. f_equal. lia.
Qed.

(** The word of four equal bytes. *)
Lemma fill_word c :
  let b := Z.land c 255 in
  Z.lor (Z.lor (Z.lor (Z.shiftl b 24) (Z.shiftl b 16)) (Z.shiftl b 8)) b
  = (c mod 256) + 256 * ((c mod 256) + 256 * ((c mod 256) + 256 * (c mod 256))).
Proof.
  intros b. assert (b = c mod 256) as -> by (apply (Z.land_ones c 8); lia).
  pose proof (Z.mod_pos_bound c 256 ltac:(lia)) as Hb. set (x := c mod 256) in *.
  rewrite !Z.shiftl_mul_pow2 by lia.
  assert (forall a i, 0 <= a -> 0 <= i -> forall y, 0 <= y < 2 ^ i ->
    Z.lor (a * 2 ^ i) y = a * 2 ^ i + y) as Hlor.
  { intros a i Ha Hi y Hy. rewrite <- Z.add_lor_land.
    assert (Z.land (a * 2 ^ i) y = 0) as ->; [|lia].
    apply Z.bits_inj'. intros n Hn. rewrite Z.land_spec, Z.bits_0.
    destruct (Z.lt_ge_cases n i).
    - by rewrite Z.mul_pow2_bits_low.
    - destruct (decide (y = 0)) as [->|]; [by rewrite Z.bits_0, andb_false_r|].
      rewrite (Z.bits_above_log2 y n), andb_false_r; [done|lia|].
      assert (Z.log2 y < i) by (apply Z.log2_lt_pow2; lia). lia. }
  rewrite <- !Z.lor_assoc.
  rewrite (Hlor x 8) by lia. rewrite (Hlor x 16) by lia. rewrite (Hlor x 24) by lia. lia.
Qed.

Lemma le_store4_fill m off c :
  le_store 4 m off ((c mod 256) + 256 * ((c mod 256) + 256 * ((c mod 256) + 256 * (c mod 256))))
  = stosb m off c 4.
Proof.
  pose proof (Z.mod_pos_bound c 256 ltac:(lia)) as Hb. set (x := c mod 256) in *.
  assert (forall y, (x + 256 * y) mod 256 = x /\ (x + 256 * y) / 256 = y) as Hd.
  { intros y. split; [symmetry; apply (Z.mod_unique_pos _ _ y); lia|].
    symmetry; apply (Z.div_unique_pos _ _ _ x); lia. }
  cbn [le_store stosb]. fold x. rewrite !(proj1 (Hd _)), !(proj2 (Hd _)), !(proj1 (Hd _)).
  by rewrite (Z.mod_small x 256).
Qed.

Lemma stosl_stosb m off c k :
  stosl m off ((c mod 256) + 256 * ((c mod 256) + 256 * ((c mod 256) + 256 * (c mod 256)))) k
  = stosb m off c (k * 4).
Proof.
  revert m off. induction k as [|k IH]; intros m off; [done|]. cbn [stosl].
  rewrite le_store4_fill, IH. symmetry. apply (stosb_app m off c 4 (k * 4)).
Qed.

(** The word-at-a-time branch fills the same bytes. *)
Lemma memset_spec dst m c n :
  (n <= length m)%nat -> memset dst m c n = replicate n (c mod 256) ++ drop n m.
Proof.
  intros H. transitivity (stosb m 0 c n); [|by rewrite stosb_spec].
  unfold memset. destruct (_ && _) eqn:E; [|done].
  apply andb_true_iff in E as [_ E%Nat.eqb_eq]. cbv zeta. rewrite fill_word.
  rewrite stosl_stosb. f_equal. rewrite (Nat.div_mod_eq n 4) at 2. lia.
Qed.

Lemma move_up_length m d s n : length (move_up m d s n) = length m.
Proof. revert m d s. induction n as [|n IH]; intros; simpl; [done|]. by rewrite IH, length_insert. Qed.

Lemma move_down_length m d s n : length (move_down m d s n) = length m.
Proof. revert m d s. induction n as [|n IH]; intros; simpl; [done|]. by rewrite IH, length_insert. Qed.

Lemma move_up_aget m d s n i :
  (d + n <= length m)%nat -> (d <= s \/ s + n <= d)%nat ->
  aget (move_up m d s n) i =
    if decide (d <= i < d + n)%nat then aget m (s + (i - d)) else aget m i.
Proof.
  revert m d s. induction n as [|n IH]; intros m d s Hd Hs; simpl; [by rewrite decide_False by lia|].
  rewrite IH by (rewrite ?length_insert; lia).
  destruct (decide (i = d)) as [->|Hne].
  - rewrite decide_False by lia. rewrite decide_True by lia.
    rewrite aget_insert_eq by lia. f_equal. lia.
  - destruct (decide (S d <= i < S d + n)%nat).
    + rewrite decide_True by lia. rewrite aget_insert_ne by lia. f_equal. lia.
    + rewrite decide_False by lia. by rewrite aget_insert_ne by lia.
Qed.

Lemma move_down_aget m d s n i :
  (n <= d <= length m)%nat -> (n <= s <= d)%nat ->
  aget (move_down m d s n) i =
    if decide (d - n <= i < d)%nat then aget m (s - n + (i - (d - n))) else aget m i.
Proof.
  revert m d s. induction n as [|n IH]; intros m d s Hd Hs; simpl; [by rewrite decide_False by lia|].
  rewrite IH by (rewrite ?length_insert; lia).
  destruct (decide (i = d - 1)%nat) as [->|Hne].
  - rewrite decide_False by lia. rewrite decide_True by lia.
    rewrite aget_insert_eq by lia. f_equal. lia.
  - destruct (decide (d - 1 - n <= i < d - 1)%nat).
    + rewrite decide_True by lia. rewrite aget_insert_ne by lia. f_equal. lia.
    + rewrite decide_False by lia. by rewrite aget_insert_ne by lia.
Qed.

(** Memmove copies correctly whether or not the regions overlap: after
    it, the [n] bytes at [dst] are the [n] bytes that were at [src], and every
    other byte is unchanged. *)
Theorem memmove_correct m dst src n i :
  (dst + n <= length m)%nat -> (src + n <= length m)%nat ->
  length (memmove m dst src n) = length m /\
  aget (memmove m dst src n) i =
    if decide (dst <= i < dst + n)%nat then aget m (src + (i - dst)) else aget m i.
Proof.
  intros Hd Hs. unfold memmove.
  destruct ((src <? dst)%nat && (dst <? src + n)%nat) eqn:E.
  - apply andb_true_iff in E as [?%Nat.ltb_lt ?%Nat.ltb_lt]. split; [apply move_down_length|].
    rewrite move_down_aget by lia. replace (dst + n - n)%nat with dst by lia.
    by replace (src + n - n)%nat with src by lia.
  - apply andb_false_iff in E. rewrite !Nat.ltb_ge in E. split; [apply move_up_length|].
    apply move_up_aget; lia.
Qed.

Lemma memmove_correct_witness :
  memmove [1; 2; 3; 4; 5] 1 0 3 = [1; 1; 2; 3; 5] /\
  aget (memmove [1; 2; 3; 4; 5] 1 0 3) 3 = 3.
Proof.
  split; [done|]. rewrite (proj2 (memmove_correct [1; 2; 3; 4; 5] 1 0 3 3 ltac:(simpl; lia) ltac:(simpl; lia))).
  done.
Defined.
