(* ===== verification/Kernel.v ===== *)
(** * The kernel's data: the structs of the headers and the kernel state

    The records follow param.h, proc.h, spinlock.h, sleeplock.h, buf.h, fs.h,
    file.h and the static tables of the kernel's C files.  A pointer into one
    of the kernel's tables is the index of the entry ([None] for a null
    pointer), a pointer to a page is its kernel virtual address.  Debugging
    fields (lock names, call stacks) and the hardware descriptors of a CPU are
    left out. *)

From S2P Require Import Prelude.

(** ** Constants of param.h, fs.h, stat.h, file.h, mmu.h *)

Definition NPROC : nat := 64.

Definition NCPU : nat := 8.

Definition NOFILE : nat := 16.

Definition NFILE : nat := 100.

Definition NINODE : nat := 50.

Definition NDEV : Z := 10.

Definition ROOTDEV : Z := 1.

Definition ROOTINO : Z := 1.

Definition MAXARG : nat := 32.

Definition MAXOPBLOCKS : Z := 10.

Definition LOGSIZE : Z := MAXOPBLOCKS * 3.

Definition NBUF : nat := 30.

Definition FSSIZE : Z := 2000.

Definition BSIZE : Z := 512.

Definition NDIRECT : Z := 7.

Definition NINDIRECT : Z := BSIZE / 4.

Definition MAXFILE : Z := NDIRECT + NINDIRECT.

Definition DIRSIZ : nat := 14.

Definition MODE_RUSR : Z := 32.

Definition MODE_WUSR : Z := 16.

Definition MODE_XUSR : Z := 8.

Definition MODE_ROTH : Z := 4.

Definition MODE_WOTH : Z := 2.

Definition MODE_XOTH : Z := 1.

Definition T_DIR : Z := 1.

Definition T_FILE : Z := 2.

Definition T_DEV : Z := 3.

Definition PGSIZE : Z := 4096.

Definition KSTACKSIZE : Z := 4096.

Definition B_VALID : Z := 2.

Definition B_DIRTY : Z := 4.

(** ** Locks and sleep channels *)

(** The two families of sleep locks: an inode's and a buffer's. *)
Inductive slid := sl_inode (i : nat) | sl_buf (b : nat).

(** The spin locks of the kernel. *)
Inductive lockid :=
| lk_ptable | lk_ticks | lk_icache | lk_bcache | lk_log | lk_ftable
| lk_kmem | lk_cons | lk_ide | lk_utable
| lk_pipe (p : Z) | lk_sleep (l : slid).

(** The addresses processes sleep on. *)
Inductive chan :=
| ch_ticks | ch_log | ch_input
| ch_proc (p : nat) | ch_buf (b : nat) | ch_sleep (l : slid)
| ch_nread (p : Z) | ch_nwrite (p : Z).

#[export] Instance slid_eq_dec : EqDecision slid.
Proof. solve_decision. Defined.

#[export] Instance lockid_eq_dec : EqDecision lockid.
Proof. solve_decision. Defined.

#[export] Instance chan_eq_dec : EqDecision chan.
Proof. solve_decision. Defined.

(** Lock identities are countable, so that the locks form a finite map. *)
Definition lockid_code (l : lockid) : Z * Z :=
  match l with
  | lk_ptable => (0, 0) | lk_ticks => (1, 0) | lk_icache => (2, 0)
  | lk_bcache => (3, 0) | lk_log => (4, 0) | lk_ftable => (5, 0)
  | lk_kmem => (6, 0) | lk_cons => (7, 0) | lk_ide => (8, 0)
  | lk_utable => (9, 0) | lk_pipe p => (10, p)
  | lk_sleep (sl_inode i) => (11, Z.of_nat i)
  | lk_sleep (sl_buf i) => (12, Z.of_nat i)
  end.

Definition lockid_decode (c : Z * Z) : lockid :=
  match c.1 with
  | 0 => lk_ptable | 1 => lk_ticks | 2 => lk_icache | 3 => lk_bcache
  | 4 => lk_log | 5 => lk_ftable | 6 => lk_kmem | 7 => lk_cons
  | 8 => lk_ide | 9 => lk_utable | 10 => lk_pipe c.2
  | 11 => lk_sleep (sl_inode (Z.to_nat c.2))
  | _ => lk_sleep (sl_buf (Z.to_nat c.2))
  end.

#[export] Instance lockid_countable : Countable lockid.
Proof.
  refine (inj_countable' lockid_code lockid_decode _).
  intros [| | | | | | | | | | |[i|i]]; unfold lockid_decode; simpl; by rewrite ?Nat2Z.id.
Defined.

(** struct spinlock: [locked] and the CPU that holds it. *)
Record spinlock := mk_spinlock {
  locked : bool;
  lk_cpu : option nat
}.

(** struct sleeplock (its own spin lock is [lk_sleep]). *)
Record sleeplock := mk_sleeplock {
  slocked : bool;
  slpid : Z
}.

(** ** CPUs and processes (proc.h, x86.h) *)

(** struct cpu, with the interrupt flag of the CPU's eflags register; of the
    task state the kernel stack pointer esp0, which is the field that changes. *)
Record cpu := mk_cpu {
  apicid : Z;
  ncli : Z;
  intena : bool;
  cproc : option nat;
  iflag : bool;
  ts_esp0 : Z
}.

Inductive procstate := UNUSED | EMBRYO | SLEEPING | RUNNABLE | RUNNING | ZOMBIE.

#[export] Instance procstate_eq_dec : EqDecision procstate.
Proof. solve_decision. Defined.

Inductive execmode := USER | ADMINISTRATOR.

#[export] Instance execmode_eq_dec : EqDecision execmode.
Proof. solve_decision. Defined.

(** struct trapframe *)
Record trapframe := mk_tf {
  tf_edi : Z; tf_esi : Z; tf_ebp : Z; tf_ebx : Z; tf_edx : Z; tf_ecx : Z;
  tf_eax : Z; tf_gs : Z; tf_fs : Z; tf_es : Z; tf_ds : Z; tf_trapno : Z;
  tf_err : Z; tf_eip : Z; tf_cs : Z; tf_eflags : Z; tf_esp : Z; tf_ss : Z
}.

(** The code address in a saved context: [forkret] for a new process. *)
Inductive codeptr := cp_forkret | cp_code (a : Z).

(** struct context *)
Record context := mk_context {
  cx_edi : Z; cx_esi : Z; cx_ebx : Z; cx_ebp : Z; cx_eip : codeptr
}.

(** struct proc.  The trap frame and the context live on the process's kernel
    stack; the record holds their contents. *)
Record proc := mk_proc {
  sz : Z;
  pgdir : option Z;
  kstack : option Z;
  state : procstate;
  pid : Z;
  parent : option nat;
  tf : trapframe;
  pcontext : context;
  pchan : option chan;
  killed : bool;
  ofile : list (option nat);
  cwd : option nat;
  name : list Z;
  time_c : Z;
  priority : Z;
  level : Z;
  hold : Z;
  mode : execmode;
  limit : Z;
  userid : list Z
}.

(** ** Files, inodes, buffers, log (file.h, fs.h, buf.h, log.c, pipe.c) *)

Inductive filetype := FD_NONE | FD_PIPE | FD_INODE.

#[export] Instance filetype_eq_dec : EqDecision filetype.
Proof. solve_decision. Defined.

(** struct file *)
Record file := mk_file {
  ftype : filetype;
  fref : Z;
  readable : bool;
  writable : bool;
  fpipe : option Z;
  fip : option nat;
  foff : Z
}.

(** struct pipe (its spin lock is [lk_pipe]). *)
Record pipe := mk_pipe {
  pdata : list Z;
  nread : Z;
  nwrite : Z;
  readopen : bool;
  writeopen : bool
}.

(** struct inode *)
Record inode := mk_inode {
  idev : Z;
  inum : Z;
  iref : Z;
  ilk : sleeplock;
  ivalid : bool;
  itype : Z;
  imajor : Z;
  iminor : Z;
  inlink : Z;
  isize : Z;
  iaddrs : list Z;
  iuserid : list Z;
  imode : Z
}.

(** struct superblock *)
Record superblock := mk_sb {
  sb_size : Z; sb_nblocks : Z; sb_ninodes : Z; sb_nlog : Z;
  sb_logstart : Z; sb_inodestart : Z; sb_bmapstart : Z
}.

(** struct buf (the list links are the order [k_lru]). *)
Record buf := mk_buf {
  bflags : Z;
  bdev : Z;
  blockno : Z;
  blk : sleeplock;
  refcnt : Z;
  bdata : list Z
}.

(** struct log with its header *)
Record logst := mk_log {
  lstart : Z;
  lsize : Z;
  outstanding : Z;
  committing : bool;
  ldev : Z;
  lh_n : Z;
  lh_block : list Z
}.

(** The console's input buffer (console.c). *)
Record inputbuf := mk_input {
  in_buf : list Z;
  in_r : Z;
  in_w : Z;
  in_e : Z
}.

(** ** The kernel state *)

Record kstate := mk_kstate {
  (* spinlock.c, proc.c: CPUs, the CPU running this path, locks *)
  k_cpus : list cpu;
  k_me : nat;
  k_locks : gmap lockid spinlock;
  (* proc.c, trap.c *)
  k_proc : list proc;
  k_initproc : option nat;
  k_nextpid : Z;
  k_ticks : Z;
  (* forkret's static first; whether the build defines MLFQ_SCHED *)
  k_first : bool;
  k_mlfq : bool;
  (* kalloc.c, vm.c: the head of the free list (the links are in the pages),
     page contents by kernel address, the page table register, and the
     addresses end and data that kernel.ld defines *)
  k_freelist : option Z;
  k_uselock : bool;
  k_mem : gmap Z (list Z);
  k_kpgdir : option Z;
  k_cr3 : option Z;
  k_end : Z;
  k_data : Z;
  (* file.c, pipe.c *)
  k_file : list file;
  k_pipe : gmap Z pipe;
  (* fs.c, bio.c, ide.c, log.c *)
  k_sb : superblock;
  k_inode : list inode;
  k_buf : list buf;
  k_lru : list nat;
  k_disk : gmap Z (list Z);
  (* the block writes so far, oldest first *)
  k_hist : list (Z * list Z);
  k_log : logst;
  (* PRJ03_syscall.c: utable as the bytes of u and status, and ptr *)
  k_utab : list Z;
  k_uptr : option nat;
  (* console.c: serial output so far, CGA memory and cursor, cons.locking,
     input buffer *)
  k_out : list Z;
  k_crt : list Z;
  k_crtpos : Z;
  k_conslock : bool;
  k_input : inputbuf;
  (* kbd.c: the static variable shift of kbdgetc *)
  k_shift : Z;
  (* how many times a loop of the model may run *)
  k_fuel : nat
}.

(** ** Field updates

    [s <| f := v |>] is the state [s] with the field [f] set to [v],
    [s <| f ::= g |>] the state with [g] applied to the field. *)

Class Upd {R T : Type} (f : R -> T) := upd : (T -> T) -> R -> R.

Notation "s <| f ::= g |>" := (upd (f := f) g s)
  (at level 1, left associativity, f at next level, format "s  <|  f  ::=  g  |>").
Notation "s <| f := v |>" := (upd (f := f) (fun _ => v) s)
  (at level 1, left associativity, f at next level, format "s  <|  f  :=  v  |>").

(** The update of field [f] from the record's eta expansion [e]. *)
Ltac field_upd e f :=
  let e := eval unfold e in e in
  let e := eval pattern f in e in
  match e with
  | ?g _ => let r := eval cbv beta in (fun h s => g (fun s' => h (f s')) s) in exact r
  end.

Definition eta_kstate (s : kstate) : kstate :=
  mk_kstate (k_cpus s) (k_me s) (k_locks s) (k_proc s) (k_initproc s) (k_nextpid s)
    (k_ticks s) (k_first s) (k_mlfq s) (k_freelist s) (k_uselock s) (k_mem s) (k_kpgdir s) (k_cr3 s) (k_end s) (k_data s)
    (k_file s) (k_pipe s) (k_sb s) (k_inode s) (k_buf s) (k_lru s) (k_disk s) (k_hist s)
    (k_log s) (k_utab s) (k_uptr s) (k_out s) (k_crt s) (k_crtpos s)
    (k_conslock s) (k_input s) (k_shift s) (k_fuel s).

#[export] Instance upd_k_cpus : Upd k_cpus := ltac:(field_upd eta_kstate k_cpus).
#[export] Instance upd_k_me : Upd k_me := ltac:(field_upd eta_kstate k_me).
#[export] Instance upd_k_locks : Upd k_locks := ltac:(field_upd eta_kstate k_locks).
#[export] Instance upd_k_proc : Upd k_proc := ltac:(field_upd eta_kstate k_proc).
#[export] Instance upd_k_initproc : Upd k_initproc := ltac:(field_upd eta_kstate k_initproc).
#[export] Instance upd_k_nextpid : Upd k_nextpid := ltac:(field_upd eta_kstate k_nextpid).
#[export] Instance upd_k_ticks : Upd k_ticks := ltac:(field_upd eta_kstate k_ticks).
#[export] Instance upd_k_first : Upd k_first := ltac:(field_upd eta_kstate k_first).
#[export] Instance upd_k_freelist : Upd k_freelist := ltac:(field_upd eta_kstate k_freelist).
#[export] Instance upd_k_uselock : Upd k_uselock := ltac:(field_upd eta_kstate k_uselock).
#[export] Instance upd_k_mem : Upd k_mem := ltac:(field_upd eta_kstate k_mem).
#[export] Instance upd_k_kpgdir : Upd k_kpgdir := ltac:(field_upd eta_kstate k_kpgdir).
#[export] Instance upd_k_cr3 : Upd k_cr3 := ltac:(field_upd eta_kstate k_cr3).
#[export] Instance upd_k_file : Upd k_file := ltac:(field_upd eta_kstate k_file).
#[export] Instance upd_k_pipe : Upd k_pipe := ltac:(field_upd eta_kstate k_pipe).
#[export] Instance upd_k_sb : Upd k_sb := ltac:(field_upd eta_kstate k_sb).
#[export] Instance upd_k_inode : Upd k_inode := ltac:(field_upd eta_kstate k_inode).
#[export] Instance upd_k_buf : Upd k_buf := ltac:(field_upd eta_kstate k_buf).
#[export] Instance upd_k_lru : Upd k_lru := ltac:(field_upd eta_kstate k_lru).
#[export] Instance upd_k_disk : Upd k_disk := ltac:(field_upd eta_kstate k_disk).
#[export] Instance upd_k_hist : Upd k_hist := ltac:(field_upd eta_kstate k_hist).
#[export] Instance upd_k_log : Upd k_log := ltac:(field_upd eta_kstate k_log).
#[export] Instance upd_k_utab : Upd k_utab := ltac:(field_upd eta_kstate k_utab).
#[export] Instance upd_k_uptr : Upd k_uptr := ltac:(field_upd eta_kstate k_uptr).
#[export] Instance upd_k_out : Upd k_out := ltac:(field_upd eta_kstate k_out).
#[export] Instance upd_k_crt : Upd k_crt := ltac:(field_upd eta_kstate k_crt).
#[export] Instance upd_k_crtpos : Upd k_crtpos := ltac:(field_upd eta_kstate k_crtpos).
#[export] Instance upd_k_conslock : Upd k_conslock := ltac:(field_upd eta_kstate k_conslock).
#[export] Instance upd_k_input : Upd k_input := ltac:(field_upd eta_kstate k_input).
#[export] Instance upd_k_shift : Upd k_shift := ltac:(field_upd eta_kstate k_shift).

Definition eta_cpu (x : cpu) : cpu :=
  mk_cpu (apicid x) (ncli x) (intena x) (cproc x) (iflag x) (ts_esp0 x).

#[export] Instance upd_apicid : Upd apicid := ltac:(field_upd eta_cpu apicid).
#[export] Instance upd_ncli : Upd ncli := ltac:(field_upd eta_cpu ncli).
#[export] Instance upd_intena : Upd intena := ltac:(field_upd eta_cpu intena).
#[export] Instance upd_cproc : Upd cproc := ltac:(field_upd eta_cpu cproc).
#[export] Instance upd_iflag : Upd iflag := ltac:(field_upd eta_cpu iflag).
#[export] Instance upd_ts_esp0 : Upd ts_esp0 := ltac:(field_upd eta_cpu ts_esp0).

Definition eta_proc (x : proc) : proc :=
  mk_proc (sz x) (pgdir x) (kstack x) (state x) (pid x) (parent x) (tf x)
    (pcontext x) (pchan x) (killed x) (ofile x) (cwd x) (name x) (time_c x)
    (priority x) (level x) (hold x) (mode x) (limit x) (userid x).

#[export] Instance upd_sz : Upd sz := ltac:(field_upd eta_proc sz).
#[export] Instance upd_pgdir : Upd pgdir := ltac:(field_upd eta_proc pgdir).
#[export] Instance upd_kstack : Upd kstack := ltac:(field_upd eta_proc kstack).
#[export] Instance upd_state : Upd state := ltac:(field_upd eta_proc state).
#[export] Instance upd_pid : Upd pid := ltac:(field_upd eta_proc pid).
#[export] Instance upd_parent : Upd parent := ltac:(field_upd eta_proc parent).
#[export] Instance upd_tf : Upd tf := ltac:(field_upd eta_proc tf).
#[export] Instance upd_pcontext : Upd pcontext := ltac:(field_upd eta_proc pcontext).
#[export] Instance upd_pchan : Upd pchan := ltac:(field_upd eta_proc pchan).
#[export] Instance upd_killed : Upd killed := ltac:(field_upd eta_proc killed).
#[export] Instance upd_ofile : Upd ofile := ltac:(field_upd eta_proc ofile).
#[export] Instance upd_cwd : Upd cwd := ltac:(field_upd eta_proc cwd).
#[export] Instance upd_name : Upd name := ltac:(field_upd eta_proc name).
#[export] Instance upd_time_c : Upd time_c := ltac:(field_upd eta_proc time_c).
#[export] Instance upd_priority : Upd priority := ltac:(field_upd eta_proc priority).
#[export] Instance upd_level : Upd level := ltac:(field_upd eta_proc level).
#[export] Instance upd_hold : Upd hold := ltac:(field_upd eta_proc hold).
#[export] Instance upd_mode : Upd mode := ltac:(field_upd eta_proc mode).
#[export] Instance upd_limit : Upd limit := ltac:(field_upd eta_proc limit).
#[export] Instance upd_userid : Upd userid := ltac:(field_upd eta_proc userid).

Definition eta_trapframe (x : trapframe) : trapframe :=
  mk_tf (tf_edi x) (tf_esi x) (tf_ebp x) (tf_ebx x) (tf_edx x) (tf_ecx x)
    (tf_eax x) (tf_gs x) (tf_fs x) (tf_es x) (tf_ds x) (tf_trapno x) (tf_err x)
    (tf_eip x) (tf_cs x) (tf_eflags x) (tf_esp x) (tf_ss x).

#[export] Instance upd_tf_edi : Upd tf_edi := ltac:(field_upd eta_trapframe tf_edi).
#[export] Instance upd_tf_esi : Upd tf_esi := ltac:(field_upd eta_trapframe tf_esi).
#[export] Instance upd_tf_ebp : Upd tf_ebp := ltac:(field_upd eta_trapframe tf_ebp).
#[export] Instance upd_tf_ebx : Upd tf_ebx := ltac:(field_upd eta_trapframe tf_ebx).
#[export] Instance upd_tf_edx : Upd tf_edx := ltac:(field_upd eta_trapframe tf_edx).
#[export] Instance upd_tf_ecx : Upd tf_ecx := ltac:(field_upd eta_trapframe tf_ecx).
#[export] Instance upd_tf_eax : Upd tf_eax := ltac:(field_upd eta_trapframe tf_eax).
#[export] Instance upd_tf_gs : Upd tf_gs := ltac:(field_upd eta_trapframe tf_gs).
#[export] Instance upd_tf_fs : Upd tf_fs := ltac:(field_upd eta_trapframe tf_fs).
#[export] Instance upd_tf_es : Upd tf_es := ltac:(field_upd eta_trapframe tf_es).
#[export] Instance upd_tf_ds : Upd tf_ds := ltac:(field_upd eta_trapframe tf_ds).
#[export] Instance upd_tf_trapno : Upd tf_trapno := ltac:(field_upd eta_trapframe tf_trapno).
#[export] Instance upd_tf_err : Upd tf_err := ltac:(field_upd eta_trapframe tf_err).
#[export] Instance upd_tf_eip : Upd tf_eip := ltac:(field_upd eta_trapframe tf_eip).
#[export] Instance upd_tf_cs : Upd tf_cs := ltac:(field_upd eta_trapframe tf_cs).
#[export] Instance upd_tf_eflags : Upd tf_eflags := ltac:(field_upd eta_trapframe tf_eflags).
#[export] Instance upd_tf_esp : Upd tf_esp := ltac:(field_upd eta_trapframe tf_esp).
#[export] Instance upd_tf_ss : Upd tf_ss := ltac:(field_upd eta_trapframe tf_ss).

Definition eta_file (x : file) : file :=
  mk_file (ftype x) (fref x) (readable x) (writable x) (fpipe x) (fip x) (foff
    x).

#[export] Instance upd_ftype : Upd ftype := ltac:(field_upd eta_file ftype).
#[export] Instance upd_fref : Upd fref := ltac:(field_upd eta_file fref).
#[export] Instance upd_readable : Upd readable := ltac:(field_upd eta_file readable).
#[export] Instance upd_writable : Upd writable := ltac:(field_upd eta_file writable).
#[export] Instance upd_fpipe : Upd fpipe := ltac:(field_upd eta_file fpipe).
#[export] Instance upd_fip : Upd fip := ltac:(field_upd eta_file fip).
#[export] Instance upd_foff : Upd foff := ltac:(field_upd eta_file foff).

Definition eta_pipe (x : pipe) : pipe :=
  mk_pipe (pdata x) (nread x) (nwrite x) (readopen x) (writeopen x).

#[export] Instance upd_pdata : Upd pdata := ltac:(field_upd eta_pipe pdata).
#[export] Instance upd_nread : Upd nread := ltac:(field_upd eta_pipe nread).
#[export] Instance upd_nwrite : Upd nwrite := ltac:(field_upd eta_pipe nwrite).
#[export] Instance upd_readopen : Upd readopen := ltac:(field_upd eta_pipe readopen).
#[export] Instance upd_writeopen : Upd writeopen := ltac:(field_upd eta_pipe writeopen).

Definition eta_inode (x : inode) : inode :=
  mk_inode (idev x) (inum x) (iref x) (ilk x) (ivalid x) (itype x) (imajor x)
    (iminor x) (inlink x) (isize x) (iaddrs x) (iuserid x) (imode x).

#[export] Instance upd_idev : Upd idev := ltac:(field_upd eta_inode idev).
#[export] Instance upd_inum : Upd inum := ltac:(field_upd eta_inode inum).
#[export] Instance upd_iref : Upd iref := ltac:(field_upd eta_inode iref).
#[export] Instance upd_ilk : Upd ilk := ltac:(field_upd eta_inode ilk).
#[export] Instance upd_ivalid : Upd ivalid := ltac:(field_upd eta_inode ivalid).
#[export] Instance upd_itype : Upd itype := ltac:(field_upd eta_inode itype).
#[export] Instance upd_imajor : Upd imajor := ltac:(field_upd eta_inode imajor).
#[export] Instance upd_iminor : Upd iminor := ltac:(field_upd eta_inode iminor).
#[export] Instance upd_inlink : Upd inlink := ltac:(field_upd eta_inode inlink).
#[export] Instance upd_isize : Upd isize := ltac:(field_upd eta_inode isize).
#[export] Instance upd_iaddrs : Upd iaddrs := ltac:(field_upd eta_inode iaddrs).
#[export] Instance upd_iuserid : Upd iuserid := ltac:(field_upd eta_inode iuserid).
#[export] Instance upd_imode : Upd imode := ltac:(field_upd eta_inode imode).

Definition eta_buf (x : buf) : buf :=
  mk_buf (bflags x) (bdev x) (blockno x) (blk x) (refcnt x) (bdata x).

#[export] Instance upd_bflags : Upd bflags := ltac:(field_upd eta_buf bflags).
#[export] Instance upd_bdev : Upd bdev := ltac:(field_upd eta_buf bdev).
#[export] Instance upd_blockno : Upd blockno := ltac:(field_upd eta_buf blockno).
#[export] Instance upd_blk : Upd blk := ltac:(field_upd eta_buf blk).
#[export] Instance upd_refcnt : Upd refcnt := ltac:(field_upd eta_buf refcnt).
#[export] Instance upd_bdata : Upd bdata := ltac:(field_upd eta_buf bdata).

Definition eta_logst (x : logst) : logst :=
  mk_log (lstart x) (lsize x) (outstanding x) (committing x) (ldev x) (lh_n x)
    (lh_block x).

#[export] Instance upd_lstart : Upd lstart := ltac:(field_upd eta_logst lstart).
#[export] Instance upd_lsize : Upd lsize := ltac:(field_upd eta_logst lsize).
#[export] Instance upd_outstanding : Upd outstanding := ltac:(field_upd eta_logst outstanding).
#[export] Instance upd_committing : Upd committing := ltac:(field_upd eta_logst committing).
#[export] Instance upd_ldev : Upd ldev := ltac:(field_upd eta_logst ldev).
#[export] Instance upd_lh_n : Upd lh_n := ltac:(field_upd eta_logst lh_n).
#[export] Instance upd_lh_block : Upd lh_block := ltac:(field_upd eta_logst lh_block).

Definition eta_inputbuf (x : inputbuf) : inputbuf :=
  mk_input (in_buf x) (in_r x) (in_w x) (in_e x).

#[export] Instance upd_in_buf : Upd in_buf := ltac:(field_upd eta_inputbuf in_buf).
#[export] Instance upd_in_r : Upd in_r := ltac:(field_upd eta_inputbuf in_r).
#[export] Instance upd_in_w : Upd in_w := ltac:(field_upd eta_inputbuf in_w).
#[export] Instance upd_in_e : Upd in_e := ltac:(field_upd eta_inputbuf in_e).

(** ** Default entries *)

#[export] Instance spinlock_inhabited : Inhabited spinlock := populate (mk_spinlock false None).
#[export] Instance sleeplock_inhabited : Inhabited sleeplock := populate (mk_sleeplock false 0).
#[export] Instance cpu_inhabited : Inhabited cpu := populate (mk_cpu 0 0 false None false 0).

Definition tf0 : trapframe := mk_tf 0 0 0 0 0 0 0 0 0 0 0 0 0 0 0 0 0 0.

Definition context0 : context := mk_context 0 0 0 0 (cp_code 0).

(** A zeroed struct proc: an entry of the table before its first use. *)
Definition proc0 : proc :=
  mk_proc 0 None None UNUSED 0 None tf0 context0 None false (replicate NOFILE None) None
    (replicate 16 0) 0 0 0 0 USER 0 (replicate 16 0).

Definition file0 : file := mk_file FD_NONE 0 false false None None 0.

Definition inode0 : inode :=
  mk_inode 0 0 0 inhabitant false 0 0 0 0 0 (replicate 8 0) (replicate 16 0) 0.

Definition buf0 : buf := mk_buf 0 0 0 inhabitant 0 (replicate 512 0).

#[export] Instance proc_inhabited : Inhabited proc := populate proc0.
#[export] Instance file_inhabited : Inhabited file := populate file0.
#[export] Instance inode_inhabited : Inhabited inode := populate inode0.
#[export] Instance buf_inhabited : Inhabited buf := populate buf0.

(** The kernel state at power-on, with one CPU: every static table zeroed. *)
Definition kstate0 : kstate :=
  mk_kstate [mk_cpu 0 0 false None false 0] 0 ∅
    (replicate NPROC proc0) None 1 0 true true None false ∅ None None 2148597760 2148564992
    (replicate NFILE file0) ∅ (mk_sb 0 0 0 0 0 0 0) (replicate NINODE inode0)
    (replicate NBUF buf0) [] ∅ [] (mk_log 0 0 0 false 0 0 (replicate 30 0))
    (replicate 360 0) None [] (replicate 2000 1824) 0 true (mk_input (replicate 128 0) 0 0 0) 0 100.

(** ** Access to the tables *)

Abbreviation K := (M kstate).

(** The entry [p] of the process table. *)
Definition pget (s : kstate) (p : nat) : proc := aget (k_proc s) p.

(** Update entry [p] of the process table. *)
Definition pupd (p : nat) (f : proc -> proc) (s : kstate) : kstate :=
  s <| k_proc ::= alter f p |>.

Definition getproc {A} (p : nat) (f : proc -> A) : K A := gets (fun s => f (pget s p)).

Definition setproc (p : nat) (f : proc -> proc) : K unit := modify (pupd p f).

(** ** Lemmas on updates *)

Lemma pget_pupd_eq s p f : (p < length (k_proc s))%nat -> pget (pupd p f s) p = f (pget s p).
Proof.
  intros H. unfold pget, pupd, aget; simpl. rewrite list_lookup_alter.
  destruct (lookup_lt_is_Some_2 _ _ H) as [x ->]. by rewrite decide_True.
Qed.

Lemma pget_pupd_ne s p q f : p <> q -> pget (pupd p f s) q = pget s q.
Proof. intros H. unfold pget, pupd, aget; simpl. by rewrite list_lookup_alter_ne. Qed.

Lemma length_pupd s p f : length (k_proc (pupd p f s)) = length (k_proc s).
Proof. unfold pupd; simpl. by rewrite length_alter. Qed.

#[export] Hint Rewrite length_pupd : kernel.
