(* ===== verification/Spinlock.v ===== *)
(** * Spin locks and the current CPU: spinlock.c, and mycpu, cpuid, myproc of proc.c

    The operations run on the CPU [k_me]; the local APIC id and the interrupt
    flag are those of that CPU.  A path that finds a lock taken by another CPU
    spins: each turn of the loop lets the other CPUs run. *)

From S2P Require Import Prelude Kernel.

(** ** Operations *)

(** The CPU that executes this path. *)
Definition thiscpu (s : kstate) : cpu := aget (k_cpus s) (k_me s).

Definition updcpu (f : cpu -> cpu) (s : kstate) : kstate :=
  s <| k_cpus ::= alter f (k_me s) |>.

(** readeflags()&FL_IF, cli(), sti(), lapicid(): the executing CPU's registers. *)
Definition read_if : K bool := gets (fun s => iflag (thiscpu s)).

Definition cli : K unit := modify (updcpu (fun c => c <| iflag := false |>)).

Definition sti : K unit := modify (updcpu (fun c => c <| iflag := true |>)).

Definition lapicid : K Z := gets (fun s => apicid (thiscpu s)).

(** mycpu: the first entry of cpus[] with the executing CPU's APIC id. *)
Definition mycpu : K nat :=
  b <- read_if ;;
  if (b : bool) then panic "mycpu called with interrupts enabled"
  else
    id <- lapicid ;;
    found <- gets (fun s => list_find (fun c => apicid c = id) (k_cpus s)) ;;
    match found with
    | Some (i, _) => ret i
    | None => panic "unknown apicid"
    end.

Definition cpuid : K nat := mycpu.

(** pushcli *)
Definition pushcli : K unit :=
  eflags <- read_if ;;
  cli ;;;
  c <- mycpu ;;
  n <- gets (fun s => ncli (aget (k_cpus s) c)) ;;
  when (n =? 0)
    (c <- mycpu ;; modify (fun s => s <| k_cpus ::= alter (fun x => x <| intena := eflags |>) c |>)) ;;;
  c <- mycpu ;;
  modify (fun s => s <| k_cpus ::= alter (fun x => x <| ncli ::= Z.add 1 |>) c |>).

(** popcli *)
Definition popcli : K unit :=
  b <- read_if ;;
  if (b : bool) then panic "popcli - interruptible"
  else
    c <- mycpu ;;
    modify (fun s => s <| k_cpus ::= alter (fun x => x <| ncli ::= (fun n => n - 1) |>) c |>) ;;;
    n <- gets (fun s => ncli (aget (k_cpus s) c)) ;;
    if n <? 0 then panic "popcli"
    else
      c <- mycpu ;;
      x <- gets (fun s => aget (k_cpus s) c) ;;
      when ((ncli x =? 0) && intena x) sti.

(** The lock [lk]; a lock that was never initialised is a zeroed struct. *)
Definition lockst (s : kstate) (lk : lockid) : spinlock :=
  default (mk_spinlock false None) (k_locks s !! lk).

Definition setlock (lk : lockid) (l : spinlock) : K unit :=
  modify (fun s => s <| k_locks ::= <[lk := l]> |>).

(** initlock *)
Definition initlock (lk : lockid) : K unit := setlock lk (mk_spinlock false None).

(** holding *)
Definition holding (lk : lockid) : K bool :=
  pushcli ;;;
  l <- gets (fun s => lockst s lk) ;;
  c <- mycpu ;;
  let r := locked l && bool_decide (lk_cpu l = Some c) in
  popcli ;;;
  ret r.

(** xchg(&lk->locked, 1): the old value, with the field set. *)
Definition xchg_locked (lk : lockid) : K bool :=
  l <- gets (fun s => lockst s lk) ;;
  setlock lk (mk_spinlock true (lk_cpu l)) ;;;
  ret (locked l).

(** acquire *)
Definition acquire (lk : lockid) : K unit :=
  pushcli ;;;
  h <- holding lk ;;
  if (h : bool) then panic "acquire"
  else
    n <- gets k_fuel ;;
    mwhile n (xchg_locked lk) swtch ;;;
    c <- mycpu ;;
    setlock lk (mk_spinlock true (Some c)).

(** release *)
Definition release (lk : lockid) : K unit :=
  h <- holding lk ;;
  if negb h then panic "release"
  else
    setlock lk (mk_spinlock true None) ;;;
    setlock lk (mk_spinlock false None) ;;;
    popcli.

(** myproc *)
Definition myproc : K (option nat) :=
  pushcli ;;;
  c <- mycpu ;;
  p <- gets (fun s => cproc (aget (k_cpus s) c)) ;;
  popcli ;;;
  ret p.

(** A use of myproc() that dereferences the result. *)
Definition curproc : K nat :=
  p <- myproc ;;
  match p with
  | Some p => ret p
  | None => halt (UB "null dereference of myproc()")
  end.

(** ** Invariants *)

(** The executing CPU is one of cpus[], and APIC ids tell CPUs apart. *)
Definition cpus_wf (s : kstate) : Prop :=
  (k_me s < length (k_cpus s))%nat /\ NoDup (apicid <$> k_cpus s).

(** The CPU is between critical sections or inside one, with a count that is
    not negative; outside, [intena] is what the last [pushcli] recorded. *)
Definition calm (s : kstate) : Prop :=
  cpus_wf s /\ 0 <= ncli (thiscpu s) /\
  (ncli (thiscpu s) = 0 -> intena (thiscpu s) = iflag (thiscpu s)) /\
  (0 < ncli (thiscpu s) -> iflag (thiscpu s) = false).

(** The lock is initialised and free. *)
Definition lock_free (s : kstate) (lk : lockid) : Prop :=
  k_locks s !! lk = Some (mk_spinlock false None).

(** The executing CPU holds the lock. *)
Definition lock_held (s : kstate) (lk : lockid) : Prop :=
  k_locks s !! lk = Some (mk_spinlock true (Some (k_me s))).

(** The effect of [acquire] on a free lock and of [release] on a held one. *)
Definition cpu_push (c : cpu) : cpu :=
  c <| intena := if ncli c =? 0 then iflag c else intena c |>
    <| ncli := ncli c + 1 |> <| iflag := false |>.

Definition cpu_pop (c : cpu) : cpu :=
  c <| ncli := ncli c - 1 |>
    <| iflag := (ncli c - 1 =? 0) && intena c || iflag c |>.

Definition acquired (lk : lockid) (s : kstate) : kstate :=
  (updcpu cpu_push s) <| k_locks ::= <[lk := mk_spinlock true (Some (k_me s))]> |>.

Definition released (lk : lockid) (s : kstate) : kstate :=
  (updcpu cpu_pop s) <| k_locks ::= <[lk := mk_spinlock false None]> |>.

(** The locks held by CPU [i]. *)
Definition held_by (i : nat) (m : gmap lockid spinlock) : gmap lockid spinlock :=
  filter (fun kv => locked kv.2 = true /\ lk_cpu kv.2 = Some i) m.

(** The discipline of the locks on all CPUs: a taken lock has a holder, the
    depth of a CPU is the number of locks it holds, and a CPU that holds a
    lock has its interrupts off. *)
Definition lock_inv (s : kstate) : Prop :=
  NoDup (apicid <$> k_cpus s) /\
  (forall lk l, k_locks s !! lk = Some l ->
     (locked l = true /\ exists i, lk_cpu l = Some i /\ (i < length (k_cpus s))%nat) \/
     (l = mk_spinlock false None)) /\
  (forall i c, k_cpus s !! i = Some c ->
     ncli c = Z.of_nat (size (held_by i (k_locks s))) /\
     (0 < ncli c -> iflag c = false)).

(** One CPU takes a free lock, gives one back, or changes its interrupt flag
    outside critical sections. *)
Inductive lstep : kstate -> kstate -> Prop :=
| ls_acquire i lk s s' :
    (i < length (k_cpus s))%nat -> is_Some (k_locks s !! lk) ->
    acquire lk (s <| k_me := i |>) = Done (Ok tt) s' -> lstep s s'
| ls_release i lk s s' :
    (i < length (k_cpus s))%nat -> is_Some (k_locks s !! lk) ->
    release lk (s <| k_me := i |>) = Done (Ok tt) s' -> lstep s s'
| ls_sti i s s' :
    (i < length (k_cpus s))%nat -> ncli (aget (k_cpus s) i) = 0 ->
    sti (s <| k_me := i |>) = Done (Ok tt) s' -> lstep s s'.

(** ** The executing CPU *)

Lemma thiscpu_lookup s : cpus_wf s -> k_cpus s !! k_me s = Some (thiscpu s).
Proof. intros [H _]. by apply lookup_aget. Qed.

Lemma thiscpu_updcpu f s : cpus_wf s -> thiscpu (updcpu f s) = f (thiscpu s).
Proof.
  intros H. unfold thiscpu, updcpu, aget at 1; simpl.
  rewrite list_lookup_alter_eq, (thiscpu_lookup s H). done.
Qed.

Lemma updcpu_updcpu f g s : updcpu g (updcpu f s) = updcpu (fun c => g (f c)) s.
Proof.
  unfold updcpu, upd, upd_k_cpus; simpl. by rewrite list_alter_alter_eq.
Qed.

Lemma updcpu_id f s : cpus_wf s -> f (thiscpu s) = thiscpu s -> updcpu f s = s.
Proof.
  intros Hwf Hf. pose proof (thiscpu_lookup s Hwf) as Hl.
  unfold updcpu, upd, upd_k_cpus. destruct s; simpl in *. f_equal.
  apply alter_id_at. intros x Hx. rewrite Hl in Hx. by injection Hx as <-.
Qed.

Lemma updcpu_ext f g s :
  cpus_wf s -> f (thiscpu s) = g (thiscpu s) -> updcpu f s = updcpu g s.
Proof.
  intros Hwf H. unfold updcpu, upd, upd_k_cpus.
  rewrite (alter_ext_at f g); [done|]. intros x Hx.
  rewrite (thiscpu_lookup s Hwf) in Hx. by injection Hx as <-.
Qed.

Lemma cpus_wf_updcpu f s :
  cpus_wf s -> (forall c, apicid (f c) = apicid c) -> cpus_wf (updcpu f s).
Proof.
  intros [H1 H2] Hf. unfold cpus_wf, updcpu; simpl. rewrite length_alter. split; [done|].
  by rewrite fmap_alter_same.
Qed.

Lemma mycpu_ok s :
  cpus_wf s -> iflag (thiscpu s) = false -> mycpu s = Done (Ok (k_me s)) s.
Proof.
  intros Hwf Hi. unfold mycpu, read_if, lapicid. rewrite bind_gets, Hi, bind_gets, bind_gets.
  pose proof (thiscpu_lookup s Hwf) as Hl. destruct Hwf as [Hme Hnd].
  destruct (list_find _ (k_cpus s)) as [[i c]|] eqn:Hf.
  - apply list_find_Some in Hf as (Hi' & Hid & _).
    assert (i = k_me s) as ->; [|done].
    eapply NoDup_lookup; [done| |]; rewrite list_lookup_fmap.
    + by rewrite Hi'.
    + rewrite Hl. simpl. by rewrite Hid.
  - apply list_find_None in Hf. rewrite Forall_forall in Hf.
    exfalso. apply (Hf (thiscpu s)); [|done].
    apply list_elem_of_lookup. eauto.
Qed.

(** An update of the CPU found by mycpu() is an update of this CPU. *)
Lemma alter_me f s : modify (fun s => s <| k_cpus ::= alter f (k_me s) |>) s = modify (updcpu f) s.
Proof. done. Qed.

Lemma pushcli_ok s :
  cpus_wf s -> pushcli s = Done (Ok tt) (updcpu cpu_push s).
Proof.
  intros Hwf. unfold pushcli, read_if, cli. rewrite bind_gets, bind_modify.
  set (s1 := updcpu _ s).
  assert (cpus_wf s1) as Hwf1 by (by apply cpus_wf_updcpu).
  assert (thiscpu s1 = (thiscpu s) <| iflag := false |>) as Hc1 by (by apply thiscpu_updcpu).
  assert (iflag (thiscpu s1) = false) as Hi1 by (by rewrite Hc1).
  rewrite (bind_Done _ _ _ _ _ (mycpu_ok s1 Hwf1 Hi1)), bind_gets.
  change (aget (k_cpus s1) (k_me s1)) with (thiscpu s1). rewrite Hc1.
  change (ncli ((thiscpu s) <| iflag := false |>)) with (ncli (thiscpu s)).
  unfold when. destruct (ncli (thiscpu s) =? 0) eqn:Hn.
  - rewrite (bind_Done _ _ _ tt (updcpu (fun x => x <| intena := iflag (thiscpu s) |>) s1)).
    2:{ by rewrite (bind_Done _ _ _ _ _ (mycpu_ok s1 Hwf1 Hi1)). }
    set (s2 := updcpu _ s1).
    assert (cpus_wf s2) as Hwf2 by (by apply cpus_wf_updcpu).
    assert (iflag (thiscpu s2) = false) as Hi2.
    { unfold s2. rewrite thiscpu_updcpu by done. by rewrite Hc1. }
    rewrite (bind_Done _ _ _ _ _ (mycpu_ok s2 Hwf2 Hi2)).
    unfold modify. f_equal. fold (updcpu (fun x => x <| ncli ::= Z.add 1 |>) s2).
    unfold s2, s1. rewrite !updcpu_updcpu. apply updcpu_ext; [done|].
    unfold cpu_push. rewrite Hn, (Z.add_comm _ 1). done.
  - rewrite bind_ret_l, (bind_Done _ _ _ _ _ (mycpu_ok s1 Hwf1 Hi1)).
    unfold modify. f_equal. fold (updcpu (fun x => x <| ncli ::= Z.add 1 |>) s1).
    unfold s1. rewrite !updcpu_updcpu. apply updcpu_ext; [done|].
    unfold cpu_push. rewrite Hn, (Z.add_comm _ 1). by destruct (thiscpu s).
Qed.

Lemma popcli_ok s :
  cpus_wf s -> iflag (thiscpu s) = false -> 0 < ncli (thiscpu s) ->
  popcli s = Done (Ok tt) (updcpu cpu_pop s).
Proof.
  intros Hwf Hi Hn. unfold popcli, read_if. rewrite bind_gets, Hi.
  rewrite (bind_Done _ _ _ _ _ (mycpu_ok s Hwf Hi)), bind_modify, bind_gets.
  fold (updcpu (fun x => x <| ncli ::= (fun n => n - 1) |>) s).
  set (s1 := updcpu _ s).
  assert (cpus_wf s1) as Hwf1 by (by apply cpus_wf_updcpu).
  assert (thiscpu s1 = (thiscpu s) <| ncli := ncli (thiscpu s) - 1 |>) as Hc1
    by (unfold s1; by rewrite thiscpu_updcpu).
  change (aget (k_cpus s1) (k_me s)) with (thiscpu s1). rewrite Hc1.
  change (ncli ((thiscpu s) <| ncli := ncli (thiscpu s) - 1 |>)) with (ncli (thiscpu s) - 1).
  destruct (Z.ltb_spec (ncli (thiscpu s) - 1) 0); [lia|].
  rewrite (bind_Done _ _ _ (k_me s1) s1); [|apply mycpu_ok; [done|by rewrite Hc1]].
  rewrite bind_gets. change (aget (k_cpus s1) (k_me s1)) with (thiscpu s1). rewrite Hc1.
  change (ncli ((thiscpu s) <| ncli := ncli (thiscpu s) - 1 |>)) with (ncli (thiscpu s) - 1).
  change (intena ((thiscpu s) <| ncli := ncli (thiscpu s) - 1 |>)) with (intena (thiscpu s)).
  unfold when, sti, modify, ret.
  destruct ((ncli (thiscpu s) - 1 =? 0) && intena (thiscpu s)) eqn:Hb; f_equal.
  - unfold s1. rewrite updcpu_updcpu. apply updcpu_ext; [done|].
    unfold cpu_pop. by rewrite Hb.
  - apply updcpu_ext; [done|]. unfold cpu_pop. rewrite Hb, Hi.
    destruct (thiscpu s); simpl in *. by subst.
Qed.

Lemma push_pop c : (0 < ncli c -> iflag c = false) -> 0 <= ncli c ->
  cpu_pop (cpu_push c) = c <| intena := if ncli c =? 0 then iflag c else intena c |>.
Proof.
  intros H Hn. destruct c as [a n i p f]. unfold cpu_pop, cpu_push, upd; simpl in *.
  destruct (Z.eqb_spec n 0) as [->|Hne]; simpl.
  - by rewrite orb_false_r.
  - rewrite H by lia. replace (n + 1 - 1) with n by lia.
    by rewrite (proj2 (Z.eqb_neq n 0)).
Qed.

Lemma cpu_pop_push_calm c : (0 < ncli c -> iflag c = false) -> 0 <= ncli c ->
  (ncli c = 0 -> intena c = iflag c) -> cpu_pop (cpu_push c) = c.
Proof.
  intros ?? H. rewrite push_pop by done. destruct (Z.eqb_spec (ncli c) 0).
  - rewrite <- H by done. by destruct c.
  - by destruct c.
Qed.

(** holding() leaves the state as pushcli/popcli leave it. *)
Lemma holding_gen s lk :
  cpus_wf s -> 0 <= ncli (thiscpu s) -> (0 < ncli (thiscpu s) -> iflag (thiscpu s) = false) ->
  holding lk s =
    Done (Ok (locked (lockst s lk) && bool_decide (lk_cpu (lockst s lk) = Some (k_me s))))
      (updcpu (fun c => cpu_pop (cpu_push c)) s).
Proof.
  intros Hwf Hn Hi. unfold holding.
  rewrite (bind_Done _ _ _ _ _ (pushcli_ok s Hwf)), bind_gets.
  set (s1 := updcpu cpu_push s).
  assert (cpus_wf s1) as Hwf1 by (by apply cpus_wf_updcpu).
  assert (thiscpu s1 = cpu_push (thiscpu s)) as Hc1 by (by apply thiscpu_updcpu).
  rewrite (bind_Done _ _ _ _ _ (mycpu_ok s1 Hwf1 ltac:(by rewrite Hc1))).
  rewrite (bind_Done _ _ _ tt (updcpu cpu_pop s1)).
  2:{ apply popcli_ok; rewrite ?Hc1; simpl; [done|done|]. lia. }
  unfold ret, s1. by rewrite updcpu_updcpu.
Qed.

Lemma holding_ok s lk :
  cpus_wf s -> iflag (thiscpu s) = false -> 0 < ncli (thiscpu s) ->
  holding lk s =
    Done (Ok (locked (lockst s lk) && bool_decide (lk_cpu (lockst s lk) = Some (k_me s)))) s.
Proof.
  intros Hwf Hi Hn. rewrite holding_gen by (done || lia). f_equal.
  apply updcpu_id; [done|]. apply cpu_pop_push_calm; [done|lia|lia].
Qed.

Lemma lockst_updcpu f s lk : lockst (updcpu f s) lk = lockst s lk.
Proof. done. Qed.

(** acquire of a free lock takes it at once. *)
Lemma acquire_ok s lk :
  cpus_wf s -> 0 <= ncli (thiscpu s) -> lock_free s lk ->
  acquire lk s = Done (Ok tt) (acquired lk s).
Proof.
  intros Hwf Hn Hl. unfold acquire. rewrite (bind_Done _ _ _ _ _ (pushcli_ok s Hwf)).
  set (s1 := updcpu cpu_push s).
  assert (cpus_wf s1) as Hwf1 by (by apply cpus_wf_updcpu).
  assert (thiscpu s1 = cpu_push (thiscpu s)) as Hc1 by (by apply thiscpu_updcpu).
  assert (lockst s1 lk = mk_spinlock false None) as Hl1.
  { unfold lockst. simpl. unfold lock_free in Hl. by rewrite Hl. }
  rewrite (bind_Done _ _ _ _ _ (holding_ok s1 lk Hwf1 ltac:(by rewrite Hc1)
    ltac:(rewrite Hc1; simpl; lia))), Hl1. simpl. rewrite bind_gets.
  set (s2 := s1 <| k_locks ::= <[lk := mk_spinlock true None]> |>).
  rewrite (bind_Done _ _ _ tt s2).
  2:{ destruct (k_fuel s1); simpl; unfold xchg_locked, bind; simpl; by rewrite Hl1. }
  assert (cpus_wf s2) as Hwf2 by done.
  rewrite (bind_Done _ _ _ _ _ (mycpu_ok s2 Hwf2 ltac:(change (thiscpu s2) with (thiscpu s1); by rewrite Hc1))).
  unfold setlock, modify, acquired. f_equal.
  unfold s2, s1, upd, upd_k_locks; simpl. by rewrite insert_insert_eq.
Qed.

(** release of a held lock frees it. *)
Lemma release_ok s lk :
  cpus_wf s -> iflag (thiscpu s) = false -> 0 < ncli (thiscpu s) -> lock_held s lk ->
  release lk s = Done (Ok tt) (released lk s).
Proof.
  intros Hwf Hi Hn Hl. unfold release.
  assert (lockst s lk = mk_spinlock true (Some (k_me s))) as Hl1.
  { unfold lockst. unfold lock_held in Hl. by rewrite Hl. }
  rewrite (bind_Done _ _ _ _ _ (holding_ok s lk Hwf Hi Hn)), Hl1. simpl.
  rewrite bool_decide_true by done. simpl. unfold setlock. rewrite !bind_modify.
  set (s2 := upd _ _).
  rewrite (popcli_ok s2) by done. f_equal. unfold released, s2, upd, upd_k_locks; simpl.
  by rewrite insert_insert_eq.
Qed.

(** acquire of a lock this CPU already holds panics. *)
Lemma acquire_held s lk :
  cpus_wf s -> iflag (thiscpu s) = false -> 0 < ncli (thiscpu s) -> lock_held s lk ->
  acquire lk s = Done (Stop (Panic "acquire")) (updcpu cpu_push s).
Proof.
  intros Hwf Hi Hn Hl. unfold acquire. rewrite (bind_Done _ _ _ _ _ (pushcli_ok s Hwf)).
  set (s1 := updcpu cpu_push s).
  assert (cpus_wf s1) as Hwf1 by (by apply cpus_wf_updcpu).
  assert (thiscpu s1 = cpu_push (thiscpu s)) as Hc1 by (by apply thiscpu_updcpu).
  assert (lockst s1 lk = mk_spinlock true (Some (k_me s))) as Hl1.
  { unfold lockst. simpl. unfold lock_held in Hl. by rewrite Hl. }
  rewrite (bind_Done _ _ _ _ _ (holding_ok s1 lk Hwf1 ltac:(by rewrite Hc1)
    ltac:(rewrite Hc1; simpl; lia))), Hl1. simpl.
  by rewrite bool_decide_true.
Qed.

(** ** Critical sections of one CPU *)

Lemma calm_acquired s lk : calm s -> calm (acquired lk s) /\
  iflag (thiscpu (acquired lk s)) = false /\ 0 < ncli (thiscpu (acquired lk s)).
Proof.
  intros (Hwf & Hn & Hin & Hif).
  assert (thiscpu (acquired lk s) = cpu_push (thiscpu s)) as Hc by (by apply (thiscpu_updcpu cpu_push s)).
  unfold calm. rewrite Hc. simpl. split_and!; try lia; try done.
  by apply (cpus_wf_updcpu cpu_push s).
Qed.

Lemma acquired_held s lk : lock_held (acquired lk s) lk.
Proof. unfold lock_held, acquired; simpl. by rewrite lookup_insert_eq. Qed.

(** Leaving a critical section restores the CPU and the lock. *)
Lemma released_acquired s lk : calm s -> lock_free s lk -> released lk (acquired lk s) = s.
Proof.
  intros (Hwf & Hn & Hin & Hif) Hl. unfold lock_free in Hl.
  assert (updcpu cpu_pop (updcpu cpu_push s) = s) as H.
  { rewrite updcpu_updcpu. apply updcpu_id; [done|]. by apply cpu_pop_push_calm. }
  transitivity ((updcpu cpu_pop (updcpu cpu_push s)) <| k_locks ::= (fun m =>
     <[lk := mk_spinlock false None]> (<[lk := mk_spinlock true (Some (k_me s))]> m)) |>);
    [done|].
  rewrite H. unfold upd, upd_k_locks. rewrite insert_insert_eq, insert_id by done.
  by destruct s.
Qed.

(** The end of a critical section whose body changed neither the lock nor the
    CPU: [s] is the state with the lock left out. *)
Lemma release_acquired s lk :
  calm s -> lock_free s lk -> release lk (acquired lk s) = Done (Ok tt) s.
Proof.
  intros Hc Hl. destruct (calm_acquired s lk Hc) as ((Hwf & _) & Hi & Hn).
  rewrite release_ok; [|done..|apply acquired_held]. by rewrite released_acquired.
Qed.

(** myproc() reads the current process and leaves the state as it was. *)
Lemma myproc_ok s : calm s -> myproc s = Done (Ok (cproc (thiscpu s))) s.
Proof.
  intros (Hwf & Hn & Hin & Hif). unfold myproc.
  rewrite (bind_Done _ _ _ _ _ (pushcli_ok s Hwf)).
  set (s1 := updcpu cpu_push s).
  assert (cpus_wf s1) as Hwf1 by (by apply cpus_wf_updcpu).
  assert (thiscpu s1 = cpu_push (thiscpu s)) as Hc1 by (by apply thiscpu_updcpu).
  rewrite (bind_Done _ _ _ _ _ (mycpu_ok s1 Hwf1 ltac:(by rewrite Hc1))), bind_gets.
  change (aget (k_cpus s1) (k_me s1)) with (thiscpu s1).
  rewrite (bind_Done _ _ _ tt (updcpu cpu_pop s1)).
  2:{ apply popcli_ok; rewrite ?Hc1; simpl; [done|done|lia]. }
  unfold ret. rewrite Hc1. f_equal. unfold s1. rewrite updcpu_updcpu.
  apply updcpu_id; [done|]. by apply cpu_pop_push_calm.
Qed.

Lemma curproc_ok s p : calm s -> cproc (thiscpu s) = Some p -> curproc s = Done (Ok p) s.
Proof. intros Hc Hp. unfold curproc. by rewrite (bind_Done _ _ _ _ _ (myproc_ok s Hc)), Hp. Qed.

(** ** A contended lock *)

Definition take_lock (lk : lockid) (s : kstate) : kstate :=
  s <| k_locks ::= <[lk := mk_spinlock true (Some (k_me s))]> |>.

Lemma held_check s lk :
  ~ lock_held s lk -> locked (lockst s lk) && bool_decide (lk_cpu (lockst s lk) = Some (k_me s)) = false.
Proof.
  intros Hn. apply not_true_iff_false. intros [Hl Hc%bool_decide_eq_true]%andb_true_iff. apply Hn.
  unfold lock_held, lockst in *. destruct (k_locks s !! lk) as [[b c]|]; simpl in *; [by subst|done].
Qed.

(** The loop of acquire: it takes the lock in the first state in which it finds
    it free, and gives the others a turn before each further try.  [I] holds in
    the states in which it tries. *)
Lemma gsafe_spin {W} (G : W -> kstate -> Prop) R Q (I : W -> kstate -> Prop) n lk w s :
  (forall w s, I w s -> cpus_wf s /\ iflag (thiscpu s) = false) ->
  (forall w s, I w s -> locked (lockst s lk) = true -> G w s /\ forall s' w', R s w s' w' -> I w' s') ->
  (forall w s, I w s -> locked (lockst s lk) = false -> Q w (Ok tt) (take_lock lk s)) ->
  (forall w s, I w s -> Q w (Stop (Hang "while")) s) ->
  I w s ->
  gsafe G R Q w ((mwhile n (xchg_locked lk) swtch ;;; c <- mycpu ;; setlock lk (mk_spinlock true (Some c))) s).
Proof.
  intros Hcpu Hspin Hfree Hhang. revert w s. induction n as [|n IH]; intros w s HI.
  all: destruct (Hcpu w s HI) as [Hwf Hi]; unfold bind at 1; cbn [mwhile]; unfold bind at 1.
  all: destruct (locked (lockst s lk)) eqn:Hl.
  all: unfold xchg_locked, setlock, bind, gets, modify, ret; cbn [xbind]; rewrite Hl.
  2, 4: set (s1 := s <| k_locks ::= _ |>); cbn [xbind];
    rewrite (mycpu_ok s1 Hwf Hi); cbn [xbind gsafe];
    replace (upd _ s1) with (take_lock lk s); [by apply Hfree|];
    unfold take_lock, s1, upd, upd_k_locks; simpl; by rewrite insert_insert_eq.
  all: assert (s <| k_locks ::= <[lk := mk_spinlock true (lk_cpu (lockst s lk))]> |> = s) as ->
    by (unfold lockst in *; destruct (k_locks s !! lk) as [[b c]|] eqn:Hk; simpl in Hl; [subst b|done];
        unfold upd, upd_k_locks; rewrite insert_id by done; by destruct s).
  - cbn. by apply Hhang.
  - destruct (Hspin w s HI Hl) as [HG HR]. cbn [xbind swtch gsafe]. split; [done|]. intros s' w' Hs'.
    exact (IH w' s' (HR s' w' Hs')).
Qed.

Lemma gsafe_acquire {W} (G : W -> kstate -> Prop) R Q (I : W -> kstate -> Prop) lk w s :
  cpus_wf s -> 0 <= ncli (thiscpu s) -> ~ lock_held s lk ->
  (forall w s, I w s -> cpus_wf s /\ iflag (thiscpu s) = false) ->
  (forall w s, I w s -> locked (lockst s lk) = true -> G w s /\ forall s' w', R s w s' w' -> I w' s') ->
  (forall w s, I w s -> locked (lockst s lk) = false -> Q w (Ok tt) (take_lock lk s)) ->
  (forall w s, I w s -> Q w (Stop (Hang "while")) s) ->
  I w (updcpu cpu_push s) ->
  gsafe G R Q w (acquire lk s).
Proof.
  intros Hwf Hn Hnot Hcpu Hspin Hfree Hhang HI. unfold acquire. rewrite (bind_Done _ _ _ _ _ (pushcli_ok s Hwf)).
  set (s1 := updcpu cpu_push s) in *.
  assert (thiscpu s1 = cpu_push (thiscpu s)) as Hc1 by (by apply thiscpu_updcpu).
  destruct (Hcpu _ _ HI) as [Hwf1 Hi1].
  rewrite (bind_Done _ _ _ _ _ (holding_ok s1 lk Hwf1 Hi1 ltac:(rewrite Hc1; simpl; lia))).
  rewrite (held_check s1 lk) by exact Hnot. rewrite bind_gets. by apply (gsafe_spin G R Q I).
Qed.

(** ** The discipline of the locks on all CPUs *)

(** acquire finishes only on a lock that was free. *)
Lemma acquire_inv s lk s' :
  cpus_wf s -> 0 <= ncli (thiscpu s) ->
  acquire lk s = Done (Ok tt) s' ->
  locked (lockst s lk) = false /\ s' = acquired lk s.
Proof.
  intros Hwf Hn. unfold acquire. rewrite (bind_Done _ _ _ _ _ (pushcli_ok s Hwf)).
  set (s1 := updcpu cpu_push s).
  assert (cpus_wf s1) as Hwf1 by (by apply cpus_wf_updcpu).
  assert (thiscpu s1 = cpu_push (thiscpu s)) as Hc1 by (by apply thiscpu_updcpu).
  rewrite (bind_Done _ _ _ _ _ (holding_ok s1 lk Hwf1 ltac:(by rewrite Hc1)
    ltac:(rewrite Hc1; simpl; lia))).
  change (lockst s1 lk) with (lockst s lk).
  destruct (locked (lockst s lk) && _) eqn:Hh; [done|]. rewrite bind_gets.
  set (s2 := s1 <| k_locks ::= <[lk := mk_spinlock true (lk_cpu (lockst s lk))]> |>).
  destruct (locked (lockst s lk)) eqn:Hlk; unfold bind.
  { destruct (k_fuel s1); simpl; unfold xchg_locked, bind; simpl;
      change (lockst s1 lk) with (lockst s lk); rewrite Hlk; done. }
  assert (mwhile (k_fuel s1) (xchg_locked lk) swtch s1 = Done (Ok tt) s2) as ->.
  { destruct (k_fuel s1); simpl; unfold xchg_locked, bind; simpl;
      change (lockst s1 lk) with (lockst s lk); rewrite Hlk; done. }
  simpl. assert (cpus_wf s2) as Hwf2 by done.
  rewrite (mycpu_ok s2 Hwf2 ltac:(change (thiscpu s2) with (thiscpu s1); by rewrite Hc1)).
  simpl. unfold setlock, modify. intros [= <-]. split; [done|].
  unfold acquired, s2, s1, upd, upd_k_locks; simpl. by rewrite insert_insert_eq.
Qed.

(** release finishes only on a lock this CPU holds. *)
Lemma release_inv s lk s' :
  cpus_wf s -> 0 <= ncli (thiscpu s) -> (0 < ncli (thiscpu s) -> iflag (thiscpu s) = false) ->
  (lock_held s lk -> 0 < ncli (thiscpu s)) ->
  is_Some (k_locks s !! lk) ->
  release lk s = Done (Ok tt) s' -> lock_held s lk /\ s' = released lk s.
Proof.
  intros Hwf Hn Hi Hd [l Hl] Hrel.
  assert (lock_held s lk) as Hheld.
  { unfold release, bind in Hrel. rewrite holding_gen in Hrel by done.
    unfold lockst in Hrel. rewrite Hl in Hrel. simpl in Hrel.
    destruct (locked l && bool_decide (lk_cpu l = Some (k_me s))) eqn:Hh; [|done].
    bsplit. unfold lock_held. rewrite Hl. destruct l; simpl in *. by subst. }
  specialize (Hd Hheld). rewrite release_ok in Hrel by auto. by injection Hrel as <-.
Qed.

Lemma held_by_insert_ne i lk l m :
  ~ (locked l = true /\ lk_cpu l = Some i) ->
  (forall l', m !! lk = Some l' -> ~ (locked l' = true /\ lk_cpu l' = Some i)) ->
  held_by i (<[lk := l]> m) = held_by i m.
Proof.
  intros H1 H2. unfold held_by. rewrite map_filter_insert_False by done.
  apply map_eq. intros j. apply option_eq. intros x. rewrite !map_lookup_filter_Some.
  destruct (decide (lk = j)) as [->|Hne].
  - rewrite lookup_delete_eq. split; [by intros [??]|]. intros [Hx HP]. destruct (H2 x Hx). done.
  - by rewrite lookup_delete_ne.
Qed.

Lemma held_by_acquire i lk m l :
  m !! lk = Some l -> locked l = false ->
  size (held_by i (<[lk := mk_spinlock true (Some i)]> m)) = S (size (held_by i m)).
Proof.
  intros Hl Hf. unfold held_by. rewrite map_filter_insert_True by done.
  apply map_size_insert_None. apply map_lookup_filter_None. right.
  intros x Hx [HP _]. simpl in *. congruence.
Qed.

Lemma held_by_release i lk m :
  m !! lk = Some (mk_spinlock true (Some i)) ->
  size (held_by i m) = S (size (held_by i (<[lk := mk_spinlock false None]> m))).
Proof.
  intros Hl. unfold held_by. rewrite map_filter_insert_False by (simpl; naive_solver).
  rewrite map_filter_delete, map_size_delete_Some.
  - assert (size (filter (fun kv => locked kv.2 = true /\ lk_cpu kv.2 = Some i) m) <> 0%nat).
    { intros Hz. apply map_size_empty_inv in Hz.
      assert (filter (fun kv => locked kv.2 = true /\ lk_cpu kv.2 = Some i) m !! lk
        = Some (mk_spinlock true (Some i))) as Hx by (by apply map_lookup_filter_Some).
      rewrite Hz in Hx. by rewrite lookup_empty in Hx. }
    lia.
  - exists (mk_spinlock true (Some i)). by apply map_lookup_filter_Some.
Qed.

Lemma lock_inv_cpu s i :
  lock_inv s -> (i < length (k_cpus s))%nat ->
  let t := s <| k_me := i |> in
  cpus_wf t /\ 0 <= ncli (thiscpu t) /\ (0 < ncli (thiscpu t) -> iflag (thiscpu t) = false) /\
  (forall lk, lock_held t lk -> 0 < ncli (thiscpu t)).
Proof.
  intros (Hnd & Hlk & Hcpu) Hi t.
  assert (k_cpus s !! i = Some (thiscpu t)) as Hl by (by apply lookup_aget).
  destruct (Hcpu i (thiscpu t) Hl) as [Hn Hif].
  split_and!; [done|lia|done|]. intros lk Hh. unfold lock_held in Hh. simpl in Hh.
  rewrite Hn, (held_by_release i lk _ Hh). lia.
Qed.

Lemma lock_inv_alter s i f m :
  lock_inv s -> (forall c, apicid (f c) = apicid c) ->
  (forall lk l, m !! lk = Some l ->
     (locked l = true /\ exists j, lk_cpu l = Some j /\ (j < length (k_cpus s))%nat) \/
     l = mk_spinlock false None) ->
  (forall c, k_cpus s !! i = Some c ->
     ncli (f c) = Z.of_nat (size (held_by i m)) /\ (0 < ncli (f c) -> iflag (f c) = false)) ->
  (forall j, j <> i -> held_by j m = held_by j (k_locks s)) ->
  lock_inv (s <| k_me := i |> <| k_cpus := alter f i (k_cpus s) |> <| k_locks := m |>).
Proof.
  intros (Hnd & Hlk & Hcpu) Hf Hm Hi Hj. unfold lock_inv; simpl.
  split_and!.
  - by rewrite fmap_alter_same.
  - rewrite length_alter. exact Hm.
  - intros j c Hc. destruct (decide (i = j)) as [<-|Hne].
    + rewrite list_lookup_alter_eq in Hc. destruct (k_cpus s !! i) as [c0|] eqn:Hc0; [|done].
      injection Hc as <-. by apply Hi.
    + rewrite list_lookup_alter_ne in Hc by done. rewrite Hj by done. by apply Hcpu.
Qed.

Lemma lock_inv_step s s' : lock_inv s -> lstep s s' -> lock_inv s'.
Proof.
  intros Hinv Hstep. destruct Hstep as [i lk s s' Hi [l Hl] Hs|i lk s s' Hi Hl Hs|i s s' Hi Hn Hs];
    destruct (lock_inv_cpu s i Hinv Hi) as (Hwf & Hn0 & Hif & Hheld);
    pose proof Hinv as (_ & Hlk & Hcpu).
  - apply acquire_inv in Hs as [Hfree ->]; [|done|done].
    unfold lockst in Hfree. simpl in Hfree. rewrite Hl in Hfree. simpl in Hfree.
    apply (lock_inv_alter s i cpu_push (<[lk := mk_spinlock true (Some i)]> (k_locks s)));
      [done|done| | |].
    + intros lk' l'. rewrite lookup_insert. case_decide; [|apply Hlk].
      intros [= <-]. left. naive_solver.
    + intros c Hc. destruct (Hcpu i c Hc) as [Hcn _].
      rewrite (held_by_acquire i lk _ l) by done. simpl. split; [lia|done].
    + intros j Hj. apply held_by_insert_ne; [simpl; naive_solver|].
      intros l' Hl' [??]. rewrite Hl in Hl'. injection Hl' as <-. congruence.
  - apply release_inv in Hs as [Hh ->]; [|done|done|done|apply Hheld|done].
    unfold lock_held in Hh. simpl in Hh.
    apply (lock_inv_alter s i cpu_pop (<[lk := mk_spinlock false None]> (k_locks s)));
      [done|done| | |].
    + intros lk' l'. rewrite lookup_insert. case_decide; [|apply Hlk].
      intros [= <-]. by right.
    + intros c Hc. destruct (Hcpu i c Hc) as [Hcn Hci].
      rewrite (held_by_release i lk _ Hh) in Hcn. unfold cpu_pop; simpl. split; [lia|].
      intros Hpos. rewrite Hci by lia. destruct (Z.eqb_spec (ncli c - 1) 0); [lia|done].
    + intros j Hj. apply held_by_insert_ne; [simpl; naive_solver|].
      intros l' Hl' [??]. rewrite Hh in Hl'. injection Hl' as <-. simpl in *. congruence.
  - injection Hs as <-.
    replace (updcpu _ _) with (s <| k_me := i |> <| k_cpus :=
      alter (fun c => c <| iflag := true |>) i (k_cpus s) |> <| k_locks := k_locks s |>)
      by (by destruct s).
    apply lock_inv_alter; [done|done|done| |done].
    intros c Hc. destruct (Hcpu i c Hc) as [Hcn Hci]. simpl. split; [done|].
    rewrite (aget_lookup _ _ _ Hc) in Hn. lia.
Qed.

(** C4: after any sequence of completed acquires and releases of all CPUs, the
    nesting depth of pushcli on every CPU is the number of spin locks the CPU
    holds, and a CPU that holds a lock runs with its interrupts off; a lock is
    never held by two CPUs (it has one holder, and acquire succeeds on a free
    lock only).  By rule induction; a CPU that spins in acquire, between its
    pushcli and the xchg that succeeds, is not between two steps. *)
Theorem lock_discipline s s' :
  lock_inv s -> rtc lstep s s' ->
  lock_inv s' /\
  forall i lk, (i < length (k_cpus s'))%nat ->
    k_locks s' !! lk = Some (mk_spinlock true (Some i)) ->
    iflag (aget (k_cpus s') i) = false /\
    forall j s'', (j < length (k_cpus s'))%nat ->
      acquire lk (s' <| k_me := j |>) <> Done (Ok tt) s''.
Proof.
  intros Hinv Hrun. assert (lock_inv s') as Hinv'.
  { induction Hrun as [|s1 s2 s3 Hst _ IH]; [done|]. apply IH. by eapply lock_inv_step. }
  split; [done|]. intros i lk Hi Hlk.
  destruct (lock_inv_cpu s' i Hinv' Hi) as (Hwf & Hn & Hif & Hheld). split.
  - apply Hif. by apply (Hheld lk).
  - intros j s'' Hj Hac. destruct (lock_inv_cpu s' j Hinv' Hj) as (Hwfj & Hnj & _).
    apply acquire_inv in Hac as [Hfree _]; [|done|done].
    unfold lockst in Hfree. simpl in Hfree. by rewrite Hlk in Hfree.
Qed.

(** Two CPUs: CPU 1 holds ptable.lock after acquiring it. *)
Definition two_cpus : kstate :=
  kstate0
    <| k_cpus := [mk_cpu 0 0 false None true 0; mk_cpu 1 0 false None true 0] |>
    <| k_locks := {[ lk_ptable := mk_spinlock false None ]} |>.

Lemma lock_discipline_witness :
  let s' := acquired lk_ptable (two_cpus <| k_me := 1%nat |>) in
  iflag (aget (k_cpus s') 1) = false /\
  forall s'', acquire lk_ptable (s' <| k_me := 0%nat |>) <> Done (Ok tt) s''.
Proof.
  intros s'.
  destruct (lock_discipline two_cpus s') as [_ H].
  - split_and!.
    + repeat constructor; set_solver.
    + intros lk l Hl. right. unfold two_cpus in Hl; simpl in Hl.
      apply lookup_singleton_Some in Hl as [_ <-]. done.
    + intros [|[|i]] c Hc; simpl in Hc; inversion Hc; subst; vm_compute; done.
  - apply rtc_once. apply (ls_acquire 1 lk_ptable); [vm_compute; lia|by eexists|].
    apply acquire_ok; [|done|done]. split; [vm_compute; lia|]. repeat constructor; set_solver.
  - destruct (H 1%nat lk_ptable) as [H1 H2]; [vm_compute; lia|done|].
    split; [exact H1|]. intros s''. apply (H2 0%nat). vm_compute; lia.
Defined.
