(* ===== verification/ProcCore.v ===== *)
(** * Giving up and getting back the processor: the core of proc.c

    sched, yield, yield2, sleep, wakeup and the switch of address space
    (switchuvm, switchkvm of vm.c).  [swtch] gives control to the scheduler of
    this CPU; the path goes on in the state in which it is resumed, perhaps on
    another CPU.  The segment descriptors that switchuvm also sets are not
    modelled. *)

From S2P Require Import Prelude Kernel Spinlock.

(** ** Operations *)

Definition KERNBASE : Z := 2147483648.

Definition V2P (a : Z) : Z := u32 (a - KERNBASE).

Definition P2V (a : Z) : Z := u32 (a + KERNBASE).

(** switchkvm: lcr3(V2P(kpgdir)) *)
Definition switchkvm : K unit :=
  modify (fun s => s <| k_cr3 := option_map V2P (k_kpgdir s) |>).

(** switchuvm: the task state's kernel stack and the page table of [p] (the
    segment descriptor and the constant fields of the task state are left out). *)
Definition switchuvm (p : nat) : K unit :=
  ks <- getproc p kstack ;;
  pd <- getproc p pgdir ;;
  match ks, pd with
  | None, _ => panic "switchuvm: no kstack"
  | _, None => panic "switchuvm: no pgdir"
  | Some ks, Some pd =>
      pushcli ;;;
      c <- mycpu ;;
      modify (fun s => s <| k_cpus ::= alter (fun x => x <| ts_esp0 := u32 (ks + KSTACKSIZE) |>) c |>) ;;;
      modify (fun s => s <| k_cr3 := Some (V2P pd) |>) ;;;
      popcli
  end.

(** sched *)
Definition sched : K unit :=
  p <- curproc ;;
  h <- holding lk_ptable ;;
  if negb h then panic "sched ptable.lock"
  else
    c <- mycpu ;;
    n <- gets (fun s => ncli (aget (k_cpus s) c)) ;;
    if negb (n =? 1) then panic "sched locks"
    else
      st <- getproc p state ;;
      if decide (st = RUNNING) then panic "sched running"
      else
        b <- read_if ;;
        if (b : bool) then panic "sched interruptible"
        else
          c <- mycpu ;;
          ie <- gets (fun s => intena (aget (k_cpus s) c)) ;;
          swtch ;;;
          c <- mycpu ;;
          modify (fun s => s <| k_cpus ::= alter (fun x => x <| intena := ie |>) c |>).

(** yield *)
Definition yield : K unit :=
  acquire lk_ptable ;;;
  p <- curproc ;;
  setproc p (fun x => x <| state := RUNNABLE |>) ;;;
  sched ;;;
  release lk_ptable.

(** TIME_QUANTUM *)
Definition TIME_QUANTUM : list Z := [4; 6; 8; 10; 12].

(** yield2 *)
Definition yield2 : K unit :=
  acquire lk_ptable ;;;
  p <- curproc ;; setproc p (fun x => x <| state := RUNNABLE |>) ;;;
  p <- curproc ;; setproc p (fun x => x <| level := 0 |>) ;;;
  p <- curproc ;; setproc p (fun x => x <| hold := aget TIME_QUANTUM 0 |>) ;;;
  sched ;;;
  release lk_ptable.

(** sleep: release [lk] and sleep on [ch]; [lk] is held again on return. *)
Definition sleep (ch : option chan) (lk : lockid) : K unit :=
  op <- myproc ;;
  match op with
  | None => panic "sleep"
  | Some p =>
      when (bool_decide (lk <> lk_ptable)) (acquire lk_ptable ;;; release lk) ;;;
      setproc p (fun x => x <| pchan := ch |>) ;;;
      setproc p (fun x => x <| state := SLEEPING |>) ;;;
      sched ;;;
      setproc p (fun x => x <| pchan := None |>) ;;;
      when (bool_decide (lk <> lk_ptable)) (release lk_ptable ;;; acquire lk)
  end.

(** wakeup1: the body of its loop, then the loop. *)
Definition wake (ch : option chan) (p : proc) : proc :=
  if decide (state p = SLEEPING /\ pchan p = ch) then p <| state := RUNNABLE |> else p.

Definition wakeup1 (ch : option chan) : K unit :=
  mfor (seq 0 NPROC) (fun p => setproc p (wake ch)).

(** wakeup *)
Definition wakeup (ch : option chan) : K unit :=
  acquire lk_ptable ;;;
  wakeup1 ch ;;;
  release lk_ptable.

(** ** Invariants *)

(** The table has its NPROC entries. *)
Definition ptable_len (s : kstate) : Prop := length (k_proc s) = NPROC.

(** In the scheduler's critical section: this CPU holds ptable.lock and no
    other lock. *)
Definition in_sched (s : kstate) : Prop :=
  cpus_wf s /\ ncli (thiscpu s) = 1 /\ iflag (thiscpu s) = false /\
  lock_held s lk_ptable /\ ptable_len s.

(** ** Loops over the process table *)

(** A loop whose body updates each entry on its own is a map over the table. *)
Lemma mfor_setproc_seq (f : proc -> proc) n k s :
  mfor (seq k n) (fun p => setproc p f) s =
    Done (Ok tt) (s <| k_proc := take k (k_proc s) ++ (f <$> take n (drop k (k_proc s)))
                      ++ drop (k + n) (k_proc s) |>).
Proof.
  revert k s. induction n as [|n IH]; intros k s.
  - simpl. unfold ret. f_equal. rewrite Nat.add_0_r. simpl. rewrite take_drop.
    by destruct s.
  - cbn [seq mfor]. unfold setproc. rewrite bind_modify. fold (setproc k f).
    change (fun p => modify (pupd p f)) with (fun p => setproc p f). rewrite IH.
    f_equal. unfold pupd, upd, upd_k_proc; simpl. f_equal.
    destruct (decide (k < length (k_proc s))%nat) as [Hk|Hk].
    + destruct (lookup_lt_is_Some_2 _ _ Hk) as [x Hx].
      rewrite (take_S_r _ _ (f x)) by (rewrite list_lookup_alter_eq, Hx; done).
      rewrite take_alter_ge by lia. rewrite !drop_alter_lt by lia.
      rewrite (drop_S _ x k) by done. simpl. rewrite <- app_assoc. simpl.
      by replace (k + S n)%nat with (S (k + n))%nat by lia.
    + assert (alter f k (k_proc s) = k_proc s) as ->.
      { apply alter_id_at. intros x Hx. apply lookup_lt_Some in Hx. lia. }
      rewrite !(drop_ge (k_proc s)) by lia. rewrite !take_ge by (simpl; lia).
      done.
Qed.

Lemma mfor_setproc (f : proc -> proc) s :
  ptable_len s ->
  mfor (seq 0 NPROC) (fun p => setproc p f) s = Done (Ok tt) (s <| k_proc ::= fmap f |>).
Proof.
  intros Hlen. rewrite mfor_setproc_seq. f_equal. simpl. rewrite drop_0.
  rewrite take_ge, drop_ge by (rewrite Hlen; done). by rewrite app_nil_r.
Qed.

(** ** wakeup *)

Lemma wakeup1_ok s ch :
  ptable_len s -> wakeup1 ch s = Done (Ok tt) (s <| k_proc ::= fmap (wake ch) |>).
Proof. apply mfor_setproc. Qed.

Lemma in_sched_calm s : in_sched s -> calm s.
Proof. intros (Hwf & Hn & Hi & _). split_and!; [done|lia|lia|done]. Qed.

(** Entering the kernel's process-table critical section. *)
Lemma in_sched_acquired s :
  calm s -> ncli (thiscpu s) = 0 -> lock_free s lk_ptable -> ptable_len s ->
  in_sched (acquired lk_ptable s).
Proof.
  intros Hc Hn Hl Hp. destruct (calm_acquired s lk_ptable Hc) as ((Hwf & _) & Hi & _).
  split_and!; [done| |done|apply acquired_held|done].
  change (thiscpu (acquired lk_ptable s)) with (thiscpu (updcpu cpu_push s)).
  rewrite thiscpu_updcpu by apply Hc. simpl. lia.
Qed.

Lemma acquire_calm s lk : calm s -> lock_free s lk -> acquire lk s = Done (Ok tt) (acquired lk s).
Proof. intros (?&?&_) ?. by apply acquire_ok. Qed.

(** release from a state that differs from an acquired one outside the locks
    and the CPUs. *)
Lemma release_in_sched s : in_sched s -> release lk_ptable s = Done (Ok tt) (released lk_ptable s).
Proof. intros (?&Hn&?&?&?). apply release_ok; [done..|lia|done]. Qed.

(** wakeup makes runnable exactly the processes that sleep on the channel. *)
Lemma wakeup_ok s ch :
  calm s -> lock_free s lk_ptable -> ptable_len s ->
  wakeup ch s = Done (Ok tt) (s <| k_proc ::= fmap (wake ch) |>).
Proof.
  intros Hc Hl Hp. unfold wakeup.
  rewrite (bind_Done _ _ _ _ _ (acquire_calm s _ Hc Hl)).
  rewrite (bind_Done _ _ _ _ _ (wakeup1_ok (acquired lk_ptable s) ch Hp)).
  set (t := s <| k_proc ::= fmap (wake ch) |>).
  change (upd _ (acquired lk_ptable s)) with (acquired lk_ptable t).
  destruct (calm_acquired t lk_ptable Hc) as ((Hwf & _) & Hi & Hn).
  rewrite release_ok by (done || apply acquired_held).
  by rewrite released_acquired.
Qed.

(** ** sched, sleep *)

Definition sched_back (ie : bool) : K unit :=
  c <- mycpu ;;
  modify (fun s => s <| k_cpus ::= alter (fun x => x <| intena := ie |>) c |>).

Lemma sched_ok s p :
  in_sched s -> cproc (thiscpu s) = Some p -> state (pget s p) <> RUNNING ->
  sched s = Switch s (sched_back (intena (thiscpu s))).
Proof.
  intros Hin Hp Hst. pose proof (in_sched_calm s Hin) as Hc.
  destruct Hin as (Hwf & Hn & Hi & Hl & Hlen). unfold sched.
  rewrite (bind_Done _ _ _ _ _ (curproc_ok s p Hc Hp)).
  rewrite (bind_Done _ _ _ _ _ (holding_ok s lk_ptable Hwf Hi ltac:(lia))).
  unfold lockst. unfold lock_held in Hl. rewrite Hl. simpl. rewrite bool_decide_true by done. simpl.
  rewrite (bind_Done _ _ _ _ _ (mycpu_ok s Hwf Hi)), bind_gets.
  change (aget (k_cpus s) (k_me s)) with (thiscpu s). rewrite Hn. simpl.
  unfold getproc, read_if. rewrite bind_gets. rewrite decide_False by done.
  rewrite bind_gets, Hi. rewrite (bind_Done _ _ _ _ _ (mycpu_ok s Hwf Hi)), bind_gets.
  reflexivity.
Qed.

Lemma sched_back_ok s ie :
  cpus_wf s -> iflag (thiscpu s) = false ->
  sched_back ie s = Done (Ok tt) (updcpu (fun x => x <| intena := ie |>) s).
Proof. intros Hwf Hi. unfold sched_back. by rewrite (bind_Done _ _ _ _ _ (mycpu_ok s Hwf Hi)). Qed.

(** Trading one lock for another: taking [l2] and giving up [l1]. *)
Lemma trade_locks s l1 l2 :
  calm s -> l1 <> l2 -> lock_held s l1 -> lock_free s l2 -> ncli (thiscpu s) = 1 ->
  let t := released l1 (acquired l2 s) in
  release l1 (acquired l2 s) = Done (Ok tt) t /\ cpus_wf t /\ ncli (thiscpu t) = 1 /\
  iflag (thiscpu t) = false /\ lock_held t l2 /\ lock_free t l1 /\ k_proc t = k_proc s /\
  cproc (thiscpu t) = cproc (thiscpu s) /\ k_me t = k_me s /\ calm t.
Proof.
  intros Hc Hne H1 H2 Hn t. pose proof Hc as (Hwf & _ & _ & Hif).
  destruct (calm_acquired s l2 Hc) as ((Hwf1 & _) & Hi1 & Hn1).
  assert (thiscpu (acquired l2 s) = cpu_push (thiscpu s)) as Hca by (by apply (thiscpu_updcpu cpu_push s)).
  assert (thiscpu t = cpu_pop (cpu_push (thiscpu s))) as Hct.
  { unfold t. rewrite <- Hca. by apply (thiscpu_updcpu cpu_pop (acquired l2 s)). }
  assert (thiscpu t = thiscpu s) as Hct'.
  { rewrite Hct. apply cpu_pop_push_calm; [done|lia|lia]. }
  assert (cpus_wf t) as Hwft by (by apply (cpus_wf_updcpu cpu_pop (acquired l2 s))).
  split_and!; [|done|by rewrite Hct'|rewrite Hct'; apply Hif; lia| | |done|by rewrite Hct'|done|].
  - apply release_ok; [done..|]. unfold lock_held, acquired; simpl.
    by rewrite lookup_insert_ne.
  - unfold lock_held, t, released, acquired; simpl. by rewrite lookup_insert_ne, lookup_insert_eq.
  - unfold lock_free, t, released, acquired; simpl. by rewrite lookup_insert_eq.
  - unfold calm. rewrite Hct'. split_and!; [done|lia|lia|done].
Qed.

(** What sleep does once the scheduler resumes the process. *)
Definition sleep_tail (p : nat) (lk : lockid) : K unit :=
  setproc p (fun x => x <| pchan := None |>) ;;;
  when (bool_decide (lk <> lk_ptable)) (release lk_ptable ;;; acquire lk).

(** The state in which sleep gives up the processor. *)
Definition asleep (p : nat) (ch : option chan) (lk : lockid) (s : kstate) : kstate :=
  pupd p (fun x => x <| state := SLEEPING |>)
    (pupd p (fun x => x <| pchan := ch |>) (released lk (acquired lk_ptable s))).

Lemma asleep_spec s p ch lk :
  calm s -> ncli (thiscpu s) = 1 -> lk <> lk_ptable -> lock_held s lk ->
  lock_free s lk_ptable -> ptable_len s -> (p < NPROC)%nat ->
  let s1 := asleep p ch lk s in
  in_sched s1 /\ lock_free s1 lk /\ cproc (thiscpu s1) = cproc (thiscpu s) /\
  pget s1 p = (pget s p) <| pchan := ch |> <| state := SLEEPING |> /\
  (forall q, q <> p -> pget s1 q = pget s q).
Proof.
  intros Hc Hn Hne Hh Hf Hlen Hlt s1.
  destruct (trade_locks s lk lk_ptable Hc Hne Hh Hf Hn)
    as (_ & Hwf & Hn1 & Hi1 & Hpt & Hlk & Hpr & Hcp & _ & _).
  unfold ptable_len in Hlen.
  split_and!; [|done|done| |].
  - split_and!; try done. unfold ptable_len, s1, asleep. by rewrite !length_pupd, Hpr.
  - unfold s1, asleep. rewrite !pget_pupd_eq; rewrite ?length_pupd, ?Hpr; try lia.
    unfold pget. by rewrite Hpr.
  - intros q Hq. unfold s1, asleep. rewrite !pget_pupd_ne by done. unfold pget. by rewrite Hpr.
Qed.

Lemma sleep_switch s p ch lk :
  calm s -> ncli (thiscpu s) = 1 -> lk <> lk_ptable -> lock_held s lk ->
  lock_free s lk_ptable -> ptable_len s -> cproc (thiscpu s) = Some p -> (p < NPROC)%nat ->
  let s1 := asleep p ch lk s in
  sleep ch lk s =
    Switch s1 (fun s' => xbind (sched_back (intena (thiscpu s1)) s') (fun _ => sleep_tail p lk)).
Proof.
  intros Hc Hn Hne Hh Hf Hlen Hp Hlt s1.
  destruct (asleep_spec s p ch lk Hc Hn Hne Hh Hf Hlen Hlt) as (Hin & _ & Hcp & Hg & _).
  fold s1 in Hin, Hcp, Hg.
  destruct (trade_locks s lk lk_ptable Hc Hne Hh Hf Hn) as (Hrel & _).
  unfold sleep. rewrite (bind_Done _ _ _ _ _ (myproc_ok s Hc)), Hp.
  rewrite bool_decide_true by done. unfold when.
  rewrite (bind_Done _ _ _ tt (released lk (acquired lk_ptable s))).
  2:{ by rewrite (bind_Done _ _ _ _ _ (acquire_calm s _ Hc Hf)). }
  unfold setproc. rewrite !bind_modify. change (pupd p _ _) with s1.
  unfold bind at 1. rewrite (sched_ok s1 p Hin); [|by rewrite Hcp|by rewrite Hg].
  unfold sleep_tail. by rewrite bool_decide_true.
Qed.

(** The state in which sleep returns, resumed by the scheduler in [s]. *)
Definition awake (p : nat) (ie : bool) (lk : lockid) (s : kstate) : kstate :=
  acquired lk (released lk_ptable
    (pupd p (fun x => x <| pchan := None |>) (updcpu (fun x => x <| intena := ie |>) s))).

(** Holding one lock that is not ptable.lock, as process [p]. *)
Definition in_section (p : nat) (lk : lockid) (s : kstate) : Prop :=
  calm s /\ ncli (thiscpu s) = 1 /\ lock_held s lk /\ lock_free s lk_ptable /\ ptable_len s /\
  cproc (thiscpu s) = Some p.

(** Resumed by the scheduler, sleep returns with its lock. *)
Lemma sleep_resumed s p lk ie :
  in_sched s -> lock_free s lk -> lk <> lk_ptable -> (p < NPROC)%nat ->
  let s' := awake p ie lk s in
  xbind (sched_back ie s) (fun _ => sleep_tail p lk) = Done (Ok tt) s' /\
  calm s' /\ ncli (thiscpu s') = 1 /\ lock_held s' lk /\ lock_free s' lk_ptable /\ ptable_len s' /\
  cproc (thiscpu s') = cproc (thiscpu s) /\ pget s' p = (pget s p) <| pchan := None |>.
Proof.
  intros (Hwf & Hn & Hi & Hpt & Hlen) Hlk Hne Hlt s'.
  rewrite sched_back_ok by done. simpl. unfold sleep_tail, setproc. rewrite bind_modify.
  rewrite bool_decide_true by done. unfold when, s', awake. clear s'.
  set (t := pupd p _ _).
  assert (thiscpu t = (thiscpu s) <| intena := ie |>) as Hct.
  { change (thiscpu t) with (thiscpu (updcpu (fun x => x <| intena := ie |>) s)).
    by rewrite thiscpu_updcpu. }
  assert (cpus_wf t) as Hwft by (by apply (cpus_wf_updcpu _ s)).
  rewrite (bind_Done _ _ _ tt (released lk_ptable t)).
  2:{ apply release_ok; [done|by rewrite Hct|rewrite Hct; simpl; lia|done]. }
  set (t2 := released lk_ptable t).
  assert (thiscpu t2 = cpu_pop (thiscpu t)) as Hct2 by (by apply (thiscpu_updcpu cpu_pop t)).
  assert (cpus_wf t2) as Hwft2 by (by apply (cpus_wf_updcpu cpu_pop t)).
  assert (thiscpu (acquired lk t2) = cpu_push (thiscpu t2)) as Hct3 by (by apply (thiscpu_updcpu cpu_push t2)).
  assert (ncli (thiscpu t2) = 0) as Hn2 by (rewrite Hct2, Hct; simpl; lia).
  split_and!.
  - apply acquire_ok; [done|lia|]. unfold lock_free, t2, released; simpl.
    by rewrite lookup_insert_ne.
  - unfold calm. rewrite Hct3. simpl. split_and!; [by apply (cpus_wf_updcpu cpu_push t2)|lia|lia|done].
  - rewrite Hct3. simpl. lia.
  - apply acquired_held.
  - unfold lock_free, acquired, t2, released; simpl. by rewrite lookup_insert_ne, lookup_insert_eq.
  - unfold ptable_len. change (k_proc (acquired lk t2)) with (k_proc t). unfold t. by rewrite length_pupd.
  - by rewrite Hct3, Hct2, Hct.
  - change (pget (acquired lk t2) p) with (pget t p). unfold t.
    rewrite pget_pupd_eq; [done|]. unfold ptable_len in Hlen. simpl. lia.
Qed.

(** sleep in a critical section, for a rely that resumes the process in the
    scheduler's section with its lock free; [w] is a ghost value. *)
Lemma gsafe_sleep {W} (G : W -> kstate -> Prop) R Q w s p ch lk :
  in_section p lk s -> lk <> lk_ptable -> (p < NPROC)%nat ->
  G w (asleep p ch lk s) ->
  (forall s' w', R (asleep p ch lk s) w s' w' ->
     in_sched s' /\ lock_free s' lk /\ cproc (thiscpu s') = Some p) ->
  (forall s' w' ie, R (asleep p ch lk s) w s' w' -> in_section p lk (awake p ie lk s') ->
     Q w' (Ok tt) (awake p ie lk s')) ->
  gsafe G R Q w (sleep ch lk s).
Proof.
  intros (Hc & Hn & Hh & Hf & Hlen & Hp) Hne Hlt HG HR HQ.
  rewrite (sleep_switch s p ch lk) by done. cbn [gsafe]. split; [done|]. intros s' w' Hs'.
  destruct (HR s' w' Hs') as (Hin & Hl & Hcp).
  destruct (sleep_resumed s' p lk (intena (thiscpu (asleep p ch lk s))) Hin Hl Hne Hlt)
    as (-> & ? & ? & ? & ? & ? & Hcp' & _).
  cbn [gsafe]. apply HQ; [done|]. rewrite Hcp in Hcp'. by split_and!.
Qed.

(** A wakeup on the channel of a sleeping process makes it runnable. *)
Lemma wakeup_wakes s p ch :
  calm s -> lock_free s lk_ptable -> ptable_len s ->
  state (pget s p) = SLEEPING -> pchan (pget s p) = ch ->
  exists s', wakeup ch s = Done (Ok tt) s' /\ state (pget s' p) = RUNNABLE.
Proof.
  intros Hc Hf Hlen Hst Hch. rewrite wakeup_ok by done. eexists. split; [done|].
  unfold pget, aget in *. simpl. rewrite list_lookup_fmap.
  destruct (k_proc s !! p) as [x|]; simpl in *; [|done]. unfold wake. by rewrite decide_True.
Qed.

(** *** sleep among other CPUs *)

Section no_lost_wakeup.
Context (p : nat) (ch : chan) (lk : lockid).

(** The process sleeps on the channel, in the scheduler's critical section, and
    its lock is free. *)
Definition sleeping (s : kstate) : Prop :=
  state (pget s p) = SLEEPING /\ pchan (pget s p) = Some ch /\ in_sched s /\ lock_free s lk.

(** The other entries of the table are those of [l]. *)
Definition others_as (l : list proc) (s : kstate) : Prop := forall q, q <> p -> k_proc s !! q = l !! q.

(** What the other CPUs may do while this one spins: anything but change its
    registers, the locks it holds and the channel of the process it runs. *)
Definition others_ran (s s' : kstate) : Prop :=
  k_me s' = k_me s /\ cpus_wf s' /\ thiscpu s' = thiscpu s /\ ptable_len s' /\
  (forall l, lock_held s' l <-> lock_held s l) /\ pchan (pget s' p) = pchan (pget s p).

(** The ghost value: whether the process has slept, and the process table as the
    others left it when they ran last. *)
Definition sleep_guar (w : bool * list proc) (s : kstate) : Prop :=
  if w.1 then others_as w.2 s
  else (lock_held s lk /\ k_proc s = w.2) \/ (sleeping s /\ others_as w.2 s).

Definition sleep_rely (s : kstate) (w : bool * list proc) (s' : kstate) (w' : bool * list proc) : Prop :=
  w'.2 = k_proc s' /\
  match w.1, w'.1 with
  | false, false => lock_held s lk /\ others_ran s s'
  | false, true => sleeping s /\ in_sched s' /\ ~ lock_held s' lk
  | true, true => others_ran s s'
  | true, false => False
  end.

Definition sleep_post (w : bool * list proc) (r : res unit) (s : kstate) : Prop :=
  match r with
  | Ok _ => w.1 = true /\ lock_held s lk /\ ~ lock_held s lk_ptable /\ ncli (thiscpu s) = 1 /\
            pchan (pget s p) = None /\ others_as w.2 s
  | Stop why => why = Hang "while"
  end.

Hypothesis Hne : lk <> lk_ptable.
Hypothesis Hp : (p < NPROC)%nat.

Lemma held_other l l' s v : l <> l' -> lock_held (s <| k_locks ::= <[l' := v]> |>) l <-> lock_held s l.
Proof. intros Hl. unfold lock_held. simpl. by rewrite lookup_insert_ne by done. Qed.

Lemma held_free l s : lock_free s l -> ~ lock_held s l.
Proof. unfold lock_free, lock_held. congruence. Qed.

(** Spinning for ptable.lock, with the lock of the caller still held. *)
Definition before_sleep (w : bool * list proc) (s : kstate) : Prop :=
  w.1 = false /\ cpus_wf s /\ iflag (thiscpu s) = false /\ ncli (thiscpu s) = 2 /\ ptable_len s /\
  lock_held s lk /\ cproc (thiscpu s) = Some p /\ k_proc s = w.2.

(** Spinning for the lock of the caller, after the sleep. *)
Definition after_sleep (w : bool * list proc) (s : kstate) : Prop :=
  w.1 = true /\ cpus_wf s /\ iflag (thiscpu s) = false /\ ncli (thiscpu s) = 1 /\ ptable_len s /\
  ~ lock_held s lk_ptable /\ pchan (pget s p) = None /\ others_as w.2 s.

(** The tail of sleep, from the scheduler's section. *)
Lemma sleep_tail_safe l s ie :
  in_sched s -> ~ lock_held s lk -> k_proc s = l ->
  gsafe sleep_guar sleep_rely sleep_post (true, l) (xbind (sched_back ie s) (fun _ => sleep_tail p lk)).
Proof.
  intros (Hwf & Hn & Hi & Hpt & Hlen) Hlk Hl. rewrite sched_back_ok by done. cbn [xbind].
  unfold sleep_tail, setproc. rewrite bind_modify, bool_decide_true by done. unfold when.
  set (t := pupd p _ _).
  assert (thiscpu t = (thiscpu s) <| intena := ie |>) as Hct by (by apply (thiscpu_updcpu (fun x => x <| intena := ie |>) s)).
  assert (cpus_wf t) as Hwft by (by apply (cpus_wf_updcpu _ s)).
  assert (release lk_ptable t = Done (Ok tt) (released lk_ptable t)) as Hrel
    by (apply release_ok; [done|by rewrite Hct|rewrite Hct; simpl; lia|done]).
  rewrite (bind_Done _ _ _ _ _ Hrel). set (t2 := released lk_ptable t).
  assert (thiscpu t2 = cpu_pop (thiscpu t)) as Hct2 by (by apply (thiscpu_updcpu cpu_pop t)).
  assert (cpus_wf t2) as Hwft2 by (by apply (cpus_wf_updcpu cpu_pop t)).
  assert (ncli (thiscpu t2) = 0) as Hn2 by (rewrite Hct2, Hct; simpl; lia).
  unfold ptable_len in Hlen. apply (gsafe_acquire _ _ _ after_sleep); [done|lia|unfold t2, released; by rewrite held_other| | | | |].
  - intros w u (_ & ? & ? & _). done.
  - intros [b l1] u (Hb & Hwu & Hiu & Hnu & Hlu & Hnh & Hch & Hot) _. simpl in Hb. subst b. split; [exact Hot|].
    intros u' [b' l'] [Hl' Hr]. simpl in *. destruct b'; [|done]. destruct Hr as (Hme & Hwu' & Hcu & Hlu' & Hh & Hpc).
    unfold after_sleep. rewrite Hcu, Hh, Hpc. split_and!; try done. intros q _. by rewrite Hl'.
  - intros [b l1] u (Hb & Hwu & Hiu & Hnu & Hlu & Hnh & Hch & Hot) _. split_and!; try done.
    + unfold lock_held. simpl. by rewrite lookup_insert_eq.
    + unfold take_lock. by rewrite held_other.
  - done.
  - assert (thiscpu (updcpu cpu_push t2) = cpu_push (thiscpu t2)) as Hct3 by (by apply thiscpu_updcpu).
    unfold after_sleep. rewrite Hct3. simpl. split_and!; try done; [by apply cpus_wf_updcpu|lia| | | |].
    + unfold ptable_len. simpl. by rewrite length_alter.
    + apply held_free. unfold lock_free. simpl. by rewrite lookup_insert_eq.
    + change (pchan (pget t p) = None). unfold t. by rewrite pget_pupd_eq by (simpl; lia).
    + intros q Hq. simpl. rewrite list_lookup_alter_ne by done. by rewrite Hl.
Qed.

(** Having ptable.lock and not the lock of the caller any more, sleep gives up
    the processor. *)
Definition go_to_sleep : K unit :=
  setproc p (fun x => x <| pchan := Some ch |>) ;;;
  setproc p (fun x => x <| state := SLEEPING |>) ;;;
  sched ;;;
  sleep_tail p lk.

Lemma sleep_switch_safe l s :
  cpus_wf s -> iflag (thiscpu s) = false -> ncli (thiscpu s) = 1 -> ptable_len s ->
  lock_held s lk_ptable -> lock_free s lk -> cproc (thiscpu s) = Some p -> k_proc s = l ->
  gsafe sleep_guar sleep_rely sleep_post (false, l)
    (go_to_sleep s).
Proof.
  intros Hwf Hi Hn Hlen Hpt Hlk Hcp Hl. unfold go_to_sleep, setproc. rewrite !bind_modify. unfold ptable_len in Hlen.
  set (s1 := pupd p _ _).
  assert (pget s1 p = (pget s p) <| pchan := Some ch |> <| state := SLEEPING |>) as Hg.
  { unfold s1. rewrite !pget_pupd_eq; rewrite ?length_pupd; [done|lia..]. }
  assert (in_sched s1) as Hin.
  { split_and!; try done. unfold ptable_len, s1. by rewrite !length_pupd. }
  unfold bind at 1. rewrite (sched_ok s1 p Hin Hcp); [|by rewrite Hg].
  cbn [xbind gsafe]. split.
  - right. unfold sleeping. rewrite Hg. split_and!; try done. intros q Hq. simpl.
    rewrite !list_lookup_alter_ne by done. by rewrite Hl.
  - intros s' [b l'] [Hl' Hr]. simpl in *. destruct b.
    + destruct Hr as (_ & Hin' & Hnh). by apply sleep_tail_safe.
    + destruct Hr as [Hh _]. by destruct (held_free lk s1 Hlk).
Qed.

(** Having got ptable.lock, the CPU gives up the lock of the caller. *)
Lemma trade_for_ptable l u :
  before_sleep (false, l) u ->
  let v := released lk (take_lock lk_ptable u) in
  release lk (take_lock lk_ptable u) = Done (Ok tt) v /\
  cpus_wf v /\ iflag (thiscpu v) = false /\ ncli (thiscpu v) = 1 /\ ptable_len v /\
  lock_held v lk_ptable /\ lock_free v lk /\ cproc (thiscpu v) = Some p /\ k_proc v = l.
Proof.
  intros (_ & Hwu & Hiu & Hnu & Hlu & Hhu & Hcu & Hl) v.
  assert (thiscpu v = cpu_pop (thiscpu u)) as Hct by (by apply (thiscpu_updcpu cpu_pop (take_lock lk_ptable u))).
  rewrite Hct. cbn [cpu_pop]. split_and!; [|by apply (cpus_wf_updcpu cpu_pop (take_lock lk_ptable u))| | |exact Hlu| | |exact Hcu|exact Hl].
  - apply release_ok; [exact Hwu|exact Hiu|change (0 < ncli (thiscpu u)); lia|]. unfold take_lock. by rewrite held_other.
  - simpl. by rewrite Hnu, Hiu.
  - simpl. lia.
  - unfold v, released. rewrite held_other by done. unfold lock_held. simpl. by rewrite lookup_insert_eq.
  - unfold lock_free, v. simpl. by rewrite lookup_insert_eq.
Qed.

Lemma sleep_parts s :
  calm s -> cproc (thiscpu s) = Some p ->
  sleep (Some ch) lk s = ((acquire lk_ptable ;;; release lk) ;;; go_to_sleep) s.
Proof.
  intros Hc Hcp. unfold sleep. rewrite (bind_Done _ _ _ _ _ (myproc_ok s Hc)), Hcp.
  unfold go_to_sleep, sleep_tail. by rewrite bool_decide_true.
Qed.

Lemma before_sleep_start s :
  calm s -> ncli (thiscpu s) = 1 -> lock_held s lk -> ptable_len s -> cproc (thiscpu s) = Some p ->
  before_sleep (false, k_proc s) (updcpu cpu_push s).
Proof.
  intros Hc Hn Hh Hlen Hcp. pose proof Hc as (Hwf & _).
  assert (thiscpu (updcpu cpu_push s) = cpu_push (thiscpu s)) as Hct by (by apply thiscpu_updcpu).
  unfold before_sleep. rewrite Hct. split_and!; [done|by apply cpus_wf_updcpu|done| |done|done|done|done]. simpl. lia.
Qed.

Lemma before_sleep_spins w u :
  before_sleep w u ->
  sleep_guar w u /\ forall u' w', sleep_rely u w u' w' -> before_sleep w' u'.
Proof.
  destruct w as [b l]. intros (Hb & Hwu & Hiu & Hnu & Hlu & Hhu & Hcu & Hl). simpl in Hb. subst b. split; [by left|].
  intros u' [b' l'] [Hl' Hr]. simpl in *. destruct b'.
  - destruct Hr as ((_ & _ & _ & Hf) & _). by destruct (held_free lk u Hf).
  - destruct Hr as (_ & Hme & Hwu' & Hct & Hlu' & Hh' & _). unfold before_sleep. rewrite Hct, Hh'. by split_and!.
Qed.

Lemma before_sleep_taken w u :
  before_sleep w u ->
  gsafe sleep_guar sleep_rely
    (fun w r s => match r with
                  | Ok _ => gsafe sleep_guar sleep_rely sleep_post w (go_to_sleep s)
                  | Stop why => sleep_post w (Stop why) s
                  end) w (release lk (take_lock lk_ptable u)).
Proof.
  destruct w as [b l]. intros Hu. destruct b; [by destruct Hu|].
  destruct (trade_for_ptable l u Hu) as (Hrel & H1 & H2 & H3 & H4 & H5 & H6 & H7 & H8). rewrite Hrel. apply gsafe_done.
  exact (sleep_switch_safe l _ H1 H2 H3 H4 H5 H6 H7 H8).
Qed.

Lemma sleep_safe s :
  calm s -> ncli (thiscpu s) = 1 -> lock_held s lk -> ~ lock_held s lk_ptable -> ptable_len s ->
  cproc (thiscpu s) = Some p ->
  gsafe sleep_guar sleep_rely sleep_post (false, k_proc s) (sleep (Some ch) lk s).
Proof.
  intros Hc Hn Hh Hpt Hlen Hcp. rewrite sleep_parts by done. apply gsafe_bind, gsafe_bind.
  apply (gsafe_acquire _ _ _ before_sleep); [apply Hc|lia|exact Hpt| | | | |].
  - intros w u (_ & ? & ? & _). by split.
  - intros w u Hu _. by apply before_sleep_spins.
  - intros w u Hu _. by apply before_sleep_taken.
  - done.
  - by apply before_sleep_start.
Qed.
End no_lost_wakeup.

(** C5: sleep(chan, lk), for a lock other than ptable.lock, loses no wakeup,
    whatever the other CPUs do while it waits for a lock.  Whenever it gives
    them a turn, either lk is still held, and no waker that takes lk first can
    run, or the process is already SLEEPING on the channel, with ptable.lock
    held and lk free; the other entries of the table are as the others left
    them.  When it returns it has slept, holds lk again and no other lock, and
    its channel is cleared.  A wakeup on the channel from any state in which
    the process sleeps makes it RUNNABLE. *)
Theorem sleep_no_lost_wakeup s p ch lk :
  calm s -> ncli (thiscpu s) = 1 -> lk <> lk_ptable -> lock_held s lk -> ~ lock_held s lk_ptable ->
  ptable_len s -> cproc (thiscpu s) = Some p -> (p < NPROC)%nat ->
  gsafe (sleep_guar p ch lk) (sleep_rely p ch lk) (sleep_post p lk) (false, k_proc s) (sleep (Some ch) lk s) /\
  (forall s2, calm s2 -> lock_free s2 lk_ptable -> ptable_len s2 ->
     state (pget s2 p) = SLEEPING -> pchan (pget s2 p) = Some ch ->
     exists s3, wakeup (Some ch) s2 = Done (Ok tt) s3 /\ state (pget s3 p) = RUNNABLE).
Proof.
  intros Hc Hn Hne Hh Hpt Hlen Hcp Hp. split; [by apply sleep_safe|]. intros s2 ?????. by apply wakeup_wakes.
Qed.

(** Two CPUs: the first runs process 1 and holds tickslock, as in sys_sleep, and
    the second is in the scheduler, with ptable.lock. *)
Definition tick_sleeper : kstate :=
  kstate0
    <| k_cpus := [mk_cpu 0 1 true (Some 1%nat) false 0; mk_cpu 1 1 true None false 0] |>
    <| k_locks := {[ lk_ticks := mk_spinlock true (Some 0%nat);
                     lk_ptable := mk_spinlock true (Some 1%nat) ]} |>
    <| k_proc ::= alter (fun p => p <| state := RUNNING |> <| pid := 2 |>) 1%nat |>.

Lemma sleep_no_lost_wakeup_witness :
  locked (lockst tick_sleeper lk_ptable) = true /\
  gsafe (sleep_guar 1 ch_ticks lk_ticks) (sleep_rely 1 ch_ticks lk_ticks) (sleep_post 1 lk_ticks)
    (false, k_proc tick_sleeper) (sleep (Some ch_ticks) lk_ticks tick_sleeper).
Proof.
  split; [reflexivity|]. apply (sleep_no_lost_wakeup tick_sleeper 1 ch_ticks lk_ticks).
  - split_and!; [split|vm_compute; discriminate|discriminate|reflexivity]; [vm_compute; lia|].
    apply (bool_decide_unpack _). vm_compute. exact I.
  - reflexivity.
  - discriminate.
  - vm_compute. reflexivity.
  - intros H. vm_compute in H. discriminate H.
  - reflexivity.
  - reflexivity.
  - vm_compute. lia.
Defined.
