(* ===== verification/Sched.v ===== *)
(** * The three schedulers of proc.c

    scheduler() is compiled in one of three versions: round robin (the
    default), the multilevel queue (MULTILEVEL_SCHED: even pids round robin
    first, then odd pids first come first served) and the multilevel feedback
    queue (MLFQ_SCHED, with the constant MLFQ_K).  Each dispatch is a [swtch]:
    what the process and the rest of the kernel do until control comes back is
    the answer to the [Switch].  The outer for(;;) loops, the gotos of the
    multilevel queue and the pass of the feedback queue, whose index can jump
    back, run within the fuel [k_fuel]. *)

From S2P Require Import Prelude Kernel Spinlock ProcCore.

(** ** Dispatching a process *)

Definition setcproc (c : nat) (p : option nat) : K unit :=
  modify (fun s => s <| k_cpus ::= alter (fun x => x <| cproc := p |>) c |>).

(** c->proc = p; switchuvm(p); p->state = RUNNING; swtch(...); switchkvm(); *)
Definition run_proc (c p : nat) : K unit :=
  setcproc c (Some p) ;;;
  switchuvm p ;;;
  setproc p (fun x => x <| state := RUNNING |>) ;;;
  swtch ;;;
  switchkvm.

(** ** Round robin *)

Definition rr_body (c p : nat) : K unit :=
  st <- getproc p state ;;
  if decide (st = RUNNABLE) then
    run_proc c p ;;;
    setcproc c None
  else ret tt.

Definition rr_pass (c : nat) : K unit := mfor (seq 0 NPROC) (rr_body c).

Fixpoint rr_forever (n : nat) (c : nat) : K unit :=
  match n with
  | O => halt (Hang "scheduler")
  | S n' =>
      sti ;;;
      acquire lk_ptable ;;;
      rr_pass c ;;;
      release lk_ptable ;;;
      rr_forever n' c
  end.

Definition scheduler_rr : K unit :=
  c <- mycpu ;;
  setcproc c None ;;;
  n <- gets k_fuel ;;
  rr_forever n c.

(** ** Multilevel queue *)

(** p->pid % 2 == 0 *)
Definition even_pid (p : proc) : bool := Z.rem (pid p) 2 =? 0.

Definition is_runnable (p : proc) : bool := bool_decide (state p = RUNNABLE).

(** The traversal at EXIST_RUNNABLE. *)
Definition mlq_even_body (c p : nat) : K unit :=
  x <- getproc p id ;;
  if is_runnable x && even_pid x then
    run_proc c p ;;;
    setcproc c None
  else ret tt.

(** The re-check after it. *)
Definition mlq_recheck (l : list proc) : bool :=
  existsb (fun x => is_runnable x && even_pid x) l.

(** The inner loop of the odd traversal: [None] is the goto EXIST_RUNNABLE,
    [Some p'] the entry that p points to at its end. *)
Fixpoint mlq_first_come (l : list proc) (ts : list nat) (p : nat) : option nat :=
  match ts with
  | [] => Some p
  | t :: ts' =>
      if is_runnable (aget l p) && even_pid (aget l p) then None
      else
        let x := aget l t in
        if is_runnable x && negb (even_pid x) && (time_c x <? time_c (aget l p))
        then mlq_first_come l ts' t
        else mlq_first_come l ts' p
  end.

(** The labels of the multilevel scheduler: the top of for(;;), EXIST_RUNNABLE,
    and the odd traversal at an index. *)
Inductive mlq_label := MLQ_TOP | MLQ_EXIST | MLQ_ODD (p : nat).

Fixpoint mlq_forever (n : nat) (c : nat) (l : mlq_label) : K unit :=
  match n with
  | O => halt (Hang "scheduler")
  | S n' =>
      match l with
      | MLQ_TOP =>
          sti ;;;
          acquire lk_ptable ;;;
          mlq_forever n' c MLQ_EXIST
      | MLQ_EXIST =>
          mfor (seq 0 NPROC) (mlq_even_body c) ;;;
          again <- gets (fun s => mlq_recheck (k_proc s)) ;;
          mlq_forever n' c (if (again : bool) then MLQ_EXIST else MLQ_ODD 0)
      | MLQ_ODD p =>
          if (NPROC <=? p)%nat then
            release lk_ptable ;;;
            mlq_forever n' c MLQ_TOP
          else
            x <- getproc p id ;;
            if negb (is_runnable x) then mlq_forever n' c (MLQ_ODD (S p))
            else
              r <- gets (fun s => mlq_first_come (k_proc s) (seq 0 NPROC) p) ;;
              match r with
              | None => mlq_forever n' c MLQ_EXIST
              | Some p' =>
                  y <- getproc p' id ;;
                  when (negb (even_pid y)) (run_proc c p' ;;; setcproc c None) ;;;
                  mlq_forever n' c (MLQ_ODD (S p'))
              end
      end
  end.

Definition scheduler_mlq : K unit :=
  c <- mycpu ;;
  setcproc c None ;;;
  n <- gets k_fuel ;;
  mlq_forever n c MLQ_TOP.

(** ** Multilevel feedback queue *)

Section mlfq.
(** The build constant MLFQ_K, the number of queues. *)
Variable MLFQ_K : Z.

(** p->level = 0; p->hold = 4; *)
Definition boost (p : proc) : proc := p <| level := 0 |> <| hold := 4 |>.

(** The aging loop's body: a process that used its quantum moves down one
    queue, a sleeping one goes back to L0. *)
Definition age (p : proc) : proc :=
  let p1 :=
    if (level p <? MLFQ_K - 1) && (hold p <=? 0) then
      p <| level := level p + 1 |> <| hold := aget TIME_QUANTUM (idx (level p + 1)) |>
    else p in
  if decide (state p1 = SLEEPING) then
    p1 <| level := 0 |> <| hold := aget TIME_QUANTUM 0 |>
  else p1.

(** The level of the first non-empty queue, MLFQ_K when there is none. *)
Definition now_level (l : list proc) : Z :=
  foldl (fun nl x => if is_runnable x && (0 <? hold x) && (level x <? nl) then level x else nl)
    MLFQ_K l.

(** p->state == RUNNABLE && p->level == now_level && p->hold > 0 *)
Definition eligible (now : Z) (p : proc) : bool :=
  is_runnable p && (level p =? now) && (0 <? hold p).

(** The inner loop: the entry with the highest priority, starting from [p]. *)
Definition pick_priority (l : list proc) (now : Z) (p : nat) : nat :=
  foldl (fun new t =>
           if eligible now (aget l t) && (priority (aget l new) <? priority (aget l t))
           then t else new)
    p (seq 0 NPROC).

(** The dispatching pass, from index [p]. *)
Fixpoint mlfq_pass (n : nat) (c : nat) (now : Z) (p : nat) : K unit :=
  if (NPROC <=? p)%nat then ret tt
  else
    match n with
    | O => halt (Hang "scheduler")
    | S n' =>
        x <- getproc p id ;;
        if negb (eligible now x) then mlfq_pass n' c now (S p)
        else
          new_p <- gets (fun s => pick_priority (k_proc s) now p) ;;
          run_proc c new_p ;;;
          h <- getproc new_p hold ;;
          when (0 <? h) (setproc new_p (fun y => y <| hold := h - 1 |>)) ;;;
          setcproc c None ;;;
          mlfq_pass n' c now (S new_p)
    end.

(** One turn of for(;;), with the variable flag. *)
Definition mlfq_iter (c : nat) (flag : bool) : K bool :=
  sti ;;;
  acquire lk_ptable ;;;
  t <- gets k_ticks ;;
  let fire := (t mod 100 =? 0) && flag in
  when fire (mfor (seq 0 NPROC) (fun p => setproc p boost)) ;;;
  let flag := if fire then false else flag in
  let flag := if negb (t mod 100 =? 0) then true else flag in
  mfor (seq 0 NPROC) (fun p => setproc p age) ;;;
  now <- gets (fun s => now_level (k_proc s)) ;;
  if now =? MLFQ_K then
    mfor (seq 0 NPROC) (fun p => setproc p boost) ;;;
    release lk_ptable ;;;
    ret flag
  else
    n <- gets k_fuel ;;
    mlfq_pass n c now 0 ;;;
    release lk_ptable ;;;
    ret flag.

Fixpoint mlfq_forever (n : nat) (c : nat) (flag : bool) : K unit :=
  match n with
  | O => halt (Hang "scheduler")
  | S n' => flag' <- mlfq_iter c flag ;; mlfq_forever n' c flag'
  end.

Definition scheduler_mlfq : K unit :=
  c <- mycpu ;;
  setcproc c None ;;;
  n <- gets k_fuel ;;
  mlfq_forever n c true.

(** ** Invariants *)

(** A process is in one of the queues with no more than the queue's quantum. *)
Definition mlfq_ok (p : proc) : Prop :=
  0 <= level p < MLFQ_K /\ 0 <= hold p <= 2 * level p + 4.

Definition mlfq_wf (s : kstate) : Prop := Forall mlfq_ok (k_proc s).
End mlfq.

(** Every process that can be dispatched has a kernel stack and a page table. *)
Definition runnable_ok (s : kstate) : Prop :=
  forall p, state (pget s p) = RUNNABLE ->
    is_Some (kstack (pget s p)) /\ is_Some (pgdir (pget s p)).

(** The scheduler's part of the state: what must hold whenever a process gives
    the processor back, and holds whenever one is dispatched. *)
Definition sched_ctx (s : kstate) : Prop := in_sched s /\ runnable_ok s.

(** How a dispatched process may change the state until it gives the
    processor back: it comes back on the same CPU, in the scheduler's critical
    section. *)
Definition comes_back (s s' : kstate) : Prop :=
  sched_ctx s' /\ k_me s' = k_me s /\ length (k_cpus s') = length (k_cpus s) /\
  k_fuel s' = k_fuel s.

(** The state of a dispatch: this CPU is about to run the process [p]. *)
Definition dispatched (s : kstate) (p : nat) : Prop :=
  in_sched s /\ (p < NPROC)%nat /\ cproc (thiscpu s) = Some p /\
  state (pget s p) = RUNNING /\ k_cr3 s = option_map V2P (pgdir (pget s p)) /\
  is_Some (pgdir (pget s p)) /\
  exists ks, kstack (pget s p) = Some ks /\ ts_esp0 (thiscpu s) = u32 (ks + KSTACKSIZE).

(** ** Dispatching *)

Lemma setcproc_me s v : setcproc (k_me s) v s = Done (Ok tt) (updcpu (fun x => x <| cproc := v |>) s).
Proof. done. Qed.

Lemma in_sched_updcpu s f :
  in_sched s -> (forall c, apicid (f c) = apicid c /\ ncli (f c) = ncli c /\ iflag (f c) = iflag c) ->
  in_sched (updcpu f s).
Proof.
  intros (Hwf & Hn & Hi & Hl & Hlen) Hf. unfold in_sched. rewrite thiscpu_updcpu by done.
  destruct (Hf (thiscpu s)) as (_ & -> & ->).
  split_and!; try done. apply cpus_wf_updcpu; [done|]. intros c. apply Hf.
Qed.

Lemma sched_ctx_cproc s v :
  sched_ctx s -> sched_ctx (updcpu (fun x => x <| cproc := v |>) s).
Proof. intros [Hin Hr]. split; [by apply in_sched_updcpu|done]. Qed.

(** Entering and leaving the scheduler's critical section. *)
Lemma in_sched_sti s :
  cpus_wf s -> ncli (thiscpu s) = 0 -> ptable_len s ->
  in_sched (acquired lk_ptable (updcpu (fun c => c <| iflag := true |>) s)).
Proof.
  intros Hwf Hn Hlen. set (s1 := updcpu _ s).
  assert (cpus_wf s1) as Hwf1 by (by apply cpus_wf_updcpu).
  assert (ncli (thiscpu s1) = 0) as Hn1 by (unfold s1; by rewrite thiscpu_updcpu).
  assert (thiscpu (acquired lk_ptable s1) = cpu_push (thiscpu s1)) as Hc
    by (by apply (thiscpu_updcpu cpu_push s1)).
  split_and!; try done; rewrite ?Hc; simpl; [by apply (cpus_wf_updcpu cpu_push s1)|lia|done|].
  apply acquired_held.
Qed.

Lemma released_out s :
  sched_ctx s ->
  cpus_wf (released lk_ptable s) /\ ncli (thiscpu (released lk_ptable s)) = 0 /\
  lock_free (released lk_ptable s) lk_ptable /\ ptable_len (released lk_ptable s) /\
  runnable_ok (released lk_ptable s).
Proof.
  intros [(Hc & Hn & Hi & Hl & Hlen) Hr].
  assert (thiscpu (released lk_ptable s) = cpu_pop (thiscpu s)) as Ht
    by (by apply (thiscpu_updcpu cpu_pop s)).
  split_and!; try done.
  - by apply (cpus_wf_updcpu cpu_pop s).
  - rewrite Ht. simpl. lia.
  - unfold lock_free, released. simpl. by rewrite lookup_insert_eq.
Qed.

Definition load_esp0 (ks : Z) (c : cpu) : cpu := c <| ts_esp0 := u32 (ks + KSTACKSIZE) |>.

Lemma switchuvm_ok s p ks pd :
  in_sched s -> kstack (pget s p) = Some ks -> pgdir (pget s p) = Some pd ->
  switchuvm p s = Done (Ok tt) ((updcpu (load_esp0 ks) s) <| k_cr3 := Some (V2P pd) |>).
Proof.
  intros Hin Hks Hpd. destruct Hin as (Hwf & Hn & Hi & _).
  unfold switchuvm, getproc. rewrite !bind_gets, Hks, Hpd.
  rewrite (bind_Done _ _ _ _ _ (pushcli_ok s Hwf)).
  set (s1 := updcpu cpu_push s).
  assert (cpus_wf s1) as Hwf1 by (by apply cpus_wf_updcpu).
  assert (thiscpu s1 = cpu_push (thiscpu s)) as Hc1 by (by apply thiscpu_updcpu).
  assert (iflag (thiscpu s1) = false) as Hi1 by (by rewrite Hc1).
  rewrite (bind_Done _ _ _ _ _ (mycpu_ok s1 Hwf1 Hi1)), !bind_modify.
  set (s2 := updcpu (load_esp0 ks) s1).
  change (popcli (s2 <| k_cr3 := Some (V2P pd) |>) =
    Done (Ok tt) ((updcpu (load_esp0 ks) s) <| k_cr3 := Some (V2P pd) |>)).
  assert (cpus_wf s2) as Hwf2 by (by apply cpus_wf_updcpu).
  assert (thiscpu s2 = load_esp0 ks (cpu_push (thiscpu s))) as Hc2
    by (unfold s2; by rewrite thiscpu_updcpu, Hc1).
  rewrite popcli_ok; [|done|change (iflag (thiscpu s2) = false); by rewrite Hc2
                      |change (0 < ncli (thiscpu s2)); rewrite Hc2; simpl; lia].
  f_equal.
  change (updcpu cpu_pop (s2 <| k_cr3 := Some (V2P pd) |>))
    with ((updcpu cpu_pop s2) <| k_cr3 := Some (V2P pd) |>).
  unfold s2, s1. rewrite !updcpu_updcpu. f_equal. apply updcpu_ext; [done|].
  revert Hn Hi. destruct (thiscpu s) as [ap nc ie cp fl es]. simpl. by intros -> ->.
Qed.

(** The state in which [run_proc] gives the processor to [p]. *)
Definition dispatch_state (p : nat) (s : kstate) : kstate :=
  pupd p (fun x => x <| state := RUNNING |>)
    ((updcpu (fun x => load_esp0 (default 0 (kstack (pget s p))) (x <| cproc := Some p |>)) s)
       <| k_cr3 := option_map V2P (pgdir (pget s p)) |>).

(** The state back in the scheduler, after switchkvm. *)
Definition back_state (s : kstate) : kstate :=
  s <| k_cr3 := option_map V2P (k_kpgdir s) |>.

Lemma run_proc_ok s p :
  sched_ctx s -> state (pget s p) = RUNNABLE ->
  run_proc (k_me s) p s =
    Switch (dispatch_state p s) (fun s' => Done (Ok tt) (back_state s')).
Proof.
  intros [Hin Hr] Hst. destruct (Hr p Hst) as [[ks Hks] [pd Hpd]].
  unfold run_proc. rewrite (bind_Done _ _ _ _ _ (setcproc_me s (Some p))).
  set (s1 := updcpu _ s).
  assert (in_sched s1) as Hin1 by (by apply in_sched_updcpu).
  rewrite (bind_Done _ _ _ _ _ (switchuvm_ok s1 p ks pd Hin1 Hks Hpd)).
  unfold setproc. rewrite bind_modify. unfold dispatch_state, s1. rewrite updcpu_updcpu.
  by rewrite Hpd, Hks.
Qed.

Lemma dispatch_dispatched s p :
  sched_ctx s -> (p < NPROC)%nat -> state (pget s p) = RUNNABLE ->
  dispatched (dispatch_state p s) p.
Proof.
  intros [Hin Hr] Hp Hst. destruct (Hr p Hst) as [[ks Hks] [pd Hpd]].
  pose proof Hin as (Hwf & Hn & Hi & Hl & Hlen). unfold ptable_len in Hlen.
  assert (pget (dispatch_state p s) p = (pget s p) <| state := RUNNING |>) as Hg.
  { unfold dispatch_state. rewrite pget_pupd_eq; [done|]. simpl. lia. }
  set (f := fun x : cpu => load_esp0 (default 0 (kstack (pget s p))) (x <| cproc := Some p |>)).
  assert (thiscpu (dispatch_state p s) = f (thiscpu s)) as Hc by (by apply (thiscpu_updcpu f s)).
  unfold dispatched. rewrite Hg, Hc. simpl. rewrite Hpd, Hks. split_and!; try done; [|by exists ks].
  unfold in_sched. rewrite Hc. split_and!; try done.
  - by apply (cpus_wf_updcpu f s).
  - unfold ptable_len, dispatch_state. rewrite length_pupd. done.
Qed.

Lemma pget_dispatch_ne s p q : q <> p -> pget (dispatch_state p s) q = pget s q.
Proof. intros. unfold dispatch_state. by rewrite pget_pupd_ne. Qed.

Lemma pget_dispatch_eq s p :
  ptable_len s -> (p < NPROC)%nat ->
  pget (dispatch_state p s) p = (pget s p) <| state := RUNNING |>.
Proof.
  intros Hlen Hp. unfold ptable_len in Hlen. unfold dispatch_state.
  rewrite pget_pupd_eq; [done|]. simpl. lia.
Qed.

(** Reasoning about a dispatch: the guarantee at the switch, then the rest of
    the path from whatever state the process comes back in. *)
Lemma safe_run_proc (G : kstate -> Prop) (R : kstate -> kstate -> Prop)
    (Q : res unit -> kstate -> Prop) s p :
  sched_ctx s -> state (pget s p) = RUNNABLE ->
  G (dispatch_state p s) ->
  (forall s', R (dispatch_state p s) s' -> Q (Ok tt) (back_state s')) ->
  safe G R Q (run_proc (k_me s) p s).
Proof. intros Hc Hst HG HQ. rewrite run_proc_ok by done. split; [done|]. intros s' HR. by apply HQ. Qed.

(** Back in the scheduler with c->proc cleared. *)
Lemma comes_back_ctx s s' v :
  comes_back s s' ->
  let t := updcpu (fun x => x <| cproc := v |>) (back_state s') in
  sched_ctx t /\ k_me t = k_me s /\ k_proc t = k_proc s' /\ k_fuel t = k_fuel s.
Proof. intros (Hc & Hm & _ & Hf) t. split_and!; try done. by apply (sched_ctx_cproc s'). Qed.

(** ** Round robin *)

(** What a dispatched process may do in the round-robin theorem: come back,
    leaving the other runnable processes runnable. *)
Definition rr_rely (s s' : kstate) : Prop :=
  comes_back s s' /\
  forall q, cproc (thiscpu s) <> Some q ->
    state (pget s q) = RUNNABLE -> state (pget s' q) = RUNNABLE.

Lemma runs_rr_body s k tr r sf :
  sched_ctx s -> (k < NPROC)%nat ->
  runs rr_rely (rr_body (k_me s) k s) tr r sf ->
  r = Ok tt /\ sched_ctx sf /\ k_me sf = k_me s /\
  (forall q, q <> k -> state (pget s q) = RUNNABLE -> state (pget sf q) = RUNNABLE) /\
  ((state (pget s k) <> RUNNABLE /\ tr = []) \/
   (state (pget s k) = RUNNABLE /\ exists s1, tr = [s1] /\ dispatched s1 k)).
Proof.
  intros Hc Hk. unfold rr_body, getproc. rewrite bind_gets.
  destruct (decide (state (pget s k) = RUNNABLE)) as [Hst|Hst].
  - intros Hrun. apply runs_bind_inv in Hrun as (tr1 & tr2 & r1 & s1 & -> & H1 & H2).
    rewrite run_proc_ok in H1 by done.
    inversion H1 as [|sd kd s' tr' r' sf' [Hcb Hrest] Hd]; subst. inversion Hd; subst.
    destruct (comes_back_ctx _ s' None Hcb) as (Hc' & Hm & Hp & _).
    replace (k_me s) with (k_me (back_state s')) in H2 by (simpl; apply Hcb).
    rewrite setcproc_me in H2. inversion H2; subst. split_and!; try done.
    + intros q Hq Hrq. unfold pget. rewrite Hp. apply Hrest.
      * destruct (dispatch_dispatched s k Hc Hk Hst) as (_ & _ & -> & _). congruence.
      * by rewrite pget_dispatch_ne.
    + right. split; [done|]. eexists. split; [done|]. by apply dispatch_dispatched.
  - intros Hrun. inversion Hrun; subst. split_and!; try done. by left.
Qed.

Lemma runs_rr_seq n k s tr r sf :
  sched_ctx s -> (k + n <= NPROC)%nat ->
  runs rr_rely (mfor (seq k n) (rr_body (k_me s)) s) tr r sf ->
  r = Ok tt /\ sched_ctx sf /\ k_me sf = k_me s /\
  exists ps, Forall2 dispatched tr ps /\ StronglySorted lt ps /\
    Forall (fun p => k <= p < k + n)%nat ps /\
    forall p, (k <= p < k + n)%nat -> state (pget s p) = RUNNABLE -> p ∈ ps.
Proof.
  revert k s tr. induction n as [|n IH]; intros k s tr Hc Hle Hrun.
  - inversion Hrun; subst. split_and!; try done. exists []. split_and!; [done|constructor|done|lia].
  - cbn [seq mfor] in Hrun. apply runs_bind_inv in Hrun as (tr1 & tr2 & r1 & s1 & -> & H1 & H2).
    apply runs_rr_body in H1 as (-> & Hc1 & Hm1 & Hkeep & Hcase); [|done|lia].
    rewrite <- Hm1 in H2. apply IH in H2 as (-> & Hc2 & Hm2 & ps & Hd & Hs & Hr & Hin); [|done|lia].
    split_and!; [done|done|congruence|].
    assert (Forall (fun p => (k < p)%nat) ps) as Hgt by (eapply Forall_impl; [exact Hr|simpl; lia]).
    destruct Hcase as [[Hst ->]|[Hst (s2 & -> & Hd2)]].
    + exists ps. split_and!; [done|done|eapply Forall_impl; [exact Hr|simpl; lia]|].
      intros p Hp Hrp. assert (p <> k) by (intros ->; done). apply Hin; [lia|]. by apply Hkeep.
    + exists (k :: ps). split_and!; [by constructor|by constructor| |].
      * constructor; [lia|]. eapply Forall_impl; [exact Hr|simpl; lia].
      * intros p Hp Hrp. destruct (decide (p = k)) as [->|Hne]; [by left|].
        right. apply Hin; [lia|]. by apply Hkeep.
Qed.

(** C25: one pass of the default scheduler over the process table is fair.
    Whatever the dispatched processes do, as long as each comes back holding
    ptable.lock and leaves the other runnable processes runnable, the pass
    ends without a panic, dispatches in increasing table order (so no process
    twice), each time on this CPU with the process's page table loaded, and
    every process that was RUNNABLE when the pass began is dispatched. *)
Theorem rr_pass_fair s tr r sf :
  sched_ctx s -> runs rr_rely (rr_pass (k_me s) s) tr r sf ->
  r = Ok tt /\ sched_ctx sf /\
  exists ps, Forall2 dispatched tr ps /\ StronglySorted lt ps /\
    forall p, state (pget s p) = RUNNABLE -> p ∈ ps.
Proof.
  intros Hc Hrun. destruct (runs_rr_seq NPROC 0 s tr r sf Hc) as (-> & Hc' & _ & ps & H1 & H2 & _ & H3);
    [lia|exact Hrun|].
  split_and!; [done|done|]. exists ps. split_and!; [done|done|].
  intros p Hp. apply H3; [|done]. destruct Hc as [(_&_&_&_&Hlen) _]. unfold ptable_len in Hlen.
  split; [lia|]. simpl. destruct (decide (p < NPROC)%nat) as [|Hge]; [done|].
  unfold pget, aget in Hp. rewrite lookup_ge_None_2 in Hp by lia. done.
Qed.

(** ** Multilevel feedback queue: the choices *)

Lemma is_runnable_true p : is_runnable p = true <-> state p = RUNNABLE.
Proof. apply bool_decide_eq_true. Qed.

Lemma eligible_true now p :
  eligible now p = true <-> state p = RUNNABLE /\ level p = now /\ 0 < hold p.
Proof.
  unfold eligible. rewrite !andb_true_iff, is_runnable_true, Z.eqb_eq, Z.ltb_lt. tauto.
Qed.

(** The search for the highest priority over the indices [ts]. *)
Lemma pick_fold l now ts p :
  eligible now (aget l p) = true ->
  let n := foldl (fun new t =>
             if eligible now (aget l t) && (priority (aget l new) <? priority (aget l t))
             then t else new) p ts in
  eligible now (aget l n) = true /\ (n = p \/ n ∈ ts) /\
  priority (aget l p) <= priority (aget l n) /\
  forall q, q ∈ ts -> eligible now (aget l q) = true -> priority (aget l q) <= priority (aget l n).
Proof.
  revert p. induction ts as [|t ts IH]; intros p Hp; simpl.
  - split_and!; [done|by left|lia|]. intros q Hq. by apply not_elem_of_nil in Hq.
  - destruct (eligible now (aget l t)) eqn:Het; simpl.
    + destruct (Z.ltb_spec (priority (aget l p)) (priority (aget l t))).
      * destruct (IH t Het) as (H1 & H2 & H3 & H4). split_and!; [done| |lia|].
        -- right. destruct H2 as [->|]; set_solver.
        -- intros q [->|Hq]%elem_of_cons Heq; [done|]. by apply H4.
      * destruct (IH p Hp) as (H1 & H2 & H3 & H4). split_and!; [done|set_solver|done|].
        intros q [->|Hq]%elem_of_cons Heq; [lia|by apply H4].
    + destruct (IH p Hp) as (H1 & H2 & H3 & H4). split_and!; [done|set_solver|done|].
      intros q [->|Hq]%elem_of_cons Heq; [congruence|by apply H4].
Qed.

(** The dispatched process is eligible and has the highest priority among the
    eligible ones. *)
Lemma pick_priority_spec l now p :
  eligible now (aget l p) = true -> (p < NPROC)%nat -> length l = NPROC ->
  (pick_priority l now p < NPROC)%nat /\
  eligible now (aget l (pick_priority l now p)) = true /\
  forall q, eligible now (aget l q) = true ->
    priority (aget l q) <= priority (aget l (pick_priority l now p)).
Proof.
  intros Hp Hlt Hlen. unfold pick_priority.
  destruct (pick_fold l now (seq 0 NPROC) p Hp) as (H1 & H2 & _ & H4).
  revert H1 H2 H4. generalize (foldl (fun new t =>
             if eligible now (aget l t) && (priority (aget l new) <? priority (aget l t))
             then t else new) p (seq 0 NPROC)). intros n H1 H2 H4.
  split_and!; [|done|].
  - destruct H2 as [->|H2]; [done|]. apply elem_of_seq in H2. lia.
  - intros q Hq. apply H4; [|done]. apply elem_of_seq. split; [lia|].
    destruct (decide (q < NPROC)%nat) as [|Hge]; [lia|].
    unfold aget in Hq. rewrite lookup_ge_None_2 in Hq by lia. done.
Qed.

(** The chosen level is the lowest level of a runnable process with quantum
    left, or MLFQ_K when there is none. *)
Lemma now_level_fold l k :
  let r := foldl (fun nl x => if is_runnable x && (0 <? hold x) && (level x <? nl)
                              then level x else nl) k l in
  r <= k /\
  (r = k \/ exists x, x ∈ l /\ state x = RUNNABLE /\ 0 < hold x /\ level x = r) /\
  forall x, x ∈ l -> state x = RUNNABLE -> 0 < hold x -> r <= level x.
Proof.
  revert k. induction l as [|y l IH]; intros k; simpl.
  - split_and!; [lia|by left|]. intros x Hx. by apply not_elem_of_nil in Hx.
  - destruct (is_runnable y && (0 <? hold y) && (level y <? k)) eqn:Hy.
    + bsplit. apply is_runnable_true in H. destruct (IH (level y)) as (H3 & H4 & H5).
      split_and!; [lia| |].
      * right. destruct H4 as [->|(x & Hx & ?)]; [exists y|exists x]; set_solver.
      * intros x [->|Hx]%elem_of_cons ??; [done|by apply H5].
    + destruct (IH k) as (H3 & H4 & H5). split_and!; [lia| |].
      * destruct H4 as [->|(x & Hx & ?)]; [by left|right; exists x; set_solver].
      * intros x [->|Hx]%elem_of_cons Hr Hh; [|by apply H5].
        apply is_runnable_true in Hr. rewrite Hr in Hy. simpl in Hy.
        rewrite (proj2 (Z.ltb_lt 0 (hold y))) in Hy by lia. simpl in Hy. bsplit. lia.
Qed.

Section mlfq_proofs.
Variable MLFQ_K : Z.
(** The Makefile's range for MLFQ_K. *)
Hypothesis HK : 2 <= MLFQ_K <= 5.

Lemma boost_ok p : mlfq_ok MLFQ_K (boost p).
Proof. unfold mlfq_ok, boost; simpl. lia. Qed.

Lemma quantum_spec i : 0 <= i < 5 -> aget TIME_QUANTUM (idx i) = 2 * i + 4.
Proof.
  intros Hi. assert (i = 0 \/ i = 1 \/ i = 2 \/ i = 3 \/ i = 4) as H by lia.
  by destruct H as [->|[->|[->|[->| ->]]]].
Qed.

(** Aging keeps every process in a queue with at most its quantum; a process
    that used up the quantum of a queue that is not the last is at the next
    level with the full quantum of that level, unless it sleeps. *)
Lemma age_ok p : mlfq_ok MLFQ_K p -> mlfq_ok MLFQ_K (age MLFQ_K p).
Proof.
  intros [Hl Hh]. unfold age. change (aget TIME_QUANTUM 0) with 4.
  destruct ((level p <? MLFQ_K - 1) && (hold p <=? 0)) eqn:E; bsplit; simpl;
    (destruct (decide (state p = SLEEPING)); unfold mlfq_ok; simpl; [lia|]); [|lia].
  rewrite quantum_spec by lia. lia.
Qed.

(** ** Multilevel feedback queue: the pass *)

Definition mlfq_rely (s s' : kstate) : Prop := comes_back s s' /\ mlfq_wf MLFQ_K s'.

(** What holds at each dispatch. *)
Definition mlfq_guar (s : kstate) : Prop :=
  mlfq_wf MLFQ_K s /\
  exists p, dispatched s p /\ 0 < hold (pget s p) /\
    forall q, state (pget s q) = RUNNABLE -> level (pget s q) = level (pget s p) ->
      0 < hold (pget s q) -> priority (pget s q) <= priority (pget s p).

Definition mlfq_ctx (c n : nat) (s : kstate) : Prop :=
  sched_ctx s /\ mlfq_wf MLFQ_K s /\ k_me s = c /\ k_fuel s = n.

(** A path ends as [mlfq_ctx] says or runs out of fuel; it never panics. *)
Definition mlfq_post {A} (P : kstate -> Prop) (r : res A) (s : kstate) : Prop :=
  match r with Ok _ => P s | Stop (Hang _) => True | Stop _ => False end.

Lemma mlfq_wf_pupd s p f :
  mlfq_wf MLFQ_K s -> (mlfq_ok MLFQ_K (pget s p) -> mlfq_ok MLFQ_K (f (pget s p))) ->
  mlfq_wf MLFQ_K (pupd p f s).
Proof.
  intros Hwf Hf. unfold mlfq_wf, pupd; simpl. apply Forall_alter; [done|].
  intros x Hx Hok. unfold pget, aget in Hf. rewrite Hx in Hf. by apply Hf.
Qed.

Lemma mlfq_guar_dispatch s p :
  sched_ctx s -> mlfq_wf MLFQ_K s -> (p < NPROC)%nat ->
  eligible (level (pget s p)) (pget s p) = true ->
  (forall q, eligible (level (pget s p)) (pget s q) = true ->
     priority (pget s q) <= priority (pget s p)) ->
  mlfq_guar (dispatch_state p s).
Proof.
  intros Hc Hwf Hp Hel Hmax. apply eligible_true in Hel as (H & _ & H0).
  assert (ptable_len s) as Hlen by apply Hc.
  split; [by apply (mlfq_wf_pupd _ p)|]. exists p. split_and!; [by apply dispatch_dispatched| |].
  - by rewrite pget_dispatch_eq.
  - intros q. rewrite (pget_dispatch_eq s p) by done. simpl.
    destruct (decide (q = p)) as [->|Hne]; [rewrite pget_dispatch_eq by done; simpl; done|].
    rewrite pget_dispatch_ne by done. intros Hr Hl Hh. apply Hmax. by apply eligible_true.
Qed.

(** The accounting after a dispatch. *)
Lemma safe_mlfq_account (G : kstate -> Prop) (R : kstate -> kstate -> Prop) Q c n p s (m : K unit) :
  mlfq_ctx c n s ->
  (forall s', mlfq_ctx c n s' -> safe G R Q (m s')) ->
  safe G R Q ((h <- getproc p hold ;;
    when (0 <? h) (setproc p (fun y => y <| hold := h - 1 |>)) ;;;
    setcproc c None ;;; m) s).
Proof.
  intros (Hc & Hwf & <- & Hn) Hm. unfold getproc. rewrite bind_gets.
  set (s1 := if 0 <? hold (pget s p) then pupd p (fun y => y <| hold := hold (pget s p) - 1 |>) s else s).
  assert (when (0 <? hold (pget s p)) (setproc p (fun y => y <| hold := hold (pget s p) - 1 |>)) s
    = Done (Ok tt) s1) as Hw by (unfold when, s1; by destruct (0 <? hold (pget s p))).
  rewrite (bind_Done _ _ _ _ _ Hw).
  assert (mlfq_ctx (k_me s) n s1) as (Hc1 & Hwf1 & Hm1 & Hn1).
  { unfold s1. destruct (Z.ltb_spec 0 (hold (pget s p))); [|done]. split_and!; try done.
    - destruct Hc as [(?&?&?&?&Hlen) Hr]. split.
      + split_and!; try done. unfold ptable_len. by rewrite length_pupd.
      + intros q. destruct (decide (p = q)) as [<-|Hne].
        * destruct (decide (p < length (k_proc s))%nat) as [Hlt|Hge].
          -- rewrite pget_pupd_eq by done. simpl. apply Hr.
          -- unfold pupd, pget. simpl. rewrite alter_id_at; [apply Hr|].
             intros x Hx. apply lookup_lt_Some in Hx. lia.
        * rewrite pget_pupd_ne by done. apply Hr.
    - apply mlfq_wf_pupd; [done|]. unfold mlfq_ok; simpl. lia. }
  rewrite <- Hm1, (bind_Done _ _ _ _ _ (setcproc_me s1 None)).
  apply Hm. split_and!; try done. by apply sched_ctx_cproc.
Qed.

Lemma safe_mlfq_pass n c m now p s :
  mlfq_ctx c m s ->
  safe mlfq_guar mlfq_rely (mlfq_post (mlfq_ctx c m)) (mlfq_pass n c now p s).
Proof.
  revert p s. induction n as [|n IH]; intros p s Hctx; cbn [mlfq_pass].
  - by destruct (NPROC <=? p)%nat.
  - destruct (NPROC <=? p)%nat eqn:Hp; [done|]. apply Nat.leb_gt in Hp.
    unfold getproc. rewrite bind_gets. unfold id.
    destruct (eligible now (pget s p)) eqn:Hel; cbn [negb]; [|by apply IH].
    rewrite bind_gets. pose proof Hctx as (Hc & Hwf & Hme & Hfu).
    assert (length (k_proc s) = NPROC) as Hlen by apply Hc.
    destruct (pick_priority_spec (k_proc s) now p Hel Hp Hlen) as (Hn & Hne & Hmax).
    set (q := pick_priority (k_proc s) now p) in *.
    change (aget (k_proc s) q) with (pget s q) in Hne, Hmax.
    pose proof (proj1 (eligible_true _ _) Hne) as (Hst & Hlv & _).
    apply safe_bind. rewrite <- Hme. apply safe_run_proc; [done|done| |].
    + apply mlfq_guar_dispatch; [done|done|done|by rewrite Hlv|]. intros r. rewrite Hlv. apply Hmax.
    + intros s' [Hcb Hwf']. destruct Hcb as (Hc' & Hm' & _ & Hf').
      apply (safe_mlfq_account _ _ _ _ m); [|intros s'' Hs''; rewrite Hme in *; by apply IH].
      split_and!; [done|done|done|]. simpl. rewrite Hf'. done.
Qed.

(** ** Multilevel feedback queue: the loop *)

(** Between two turns of the loop. *)
Definition mlfq_out (c n : nat) (s : kstate) : Prop :=
  cpus_wf s /\ ncli (thiscpu s) = 0 /\ lock_free s lk_ptable /\ ptable_len s /\
  runnable_ok s /\ mlfq_wf MLFQ_K s /\ k_me s = c /\ k_fuel s = n.

(** A loop over the whole table keeps the scheduler's context when its body
    keeps the state, the stack and the page table of the process. *)
Lemma mlfq_map_ctx c n s (f : proc -> proc) :
  sched_ctx s -> k_me s = c -> k_fuel s = n ->
  (forall x, state (f x) = state x /\ kstack (f x) = kstack x /\ pgdir (f x) = pgdir x) ->
  Forall (fun x => mlfq_ok MLFQ_K (f x)) (k_proc s) ->
  mlfq_ctx c n (s <| k_proc ::= fmap f |>).
Proof.
  intros [(Hwf & Hn & Hi & Hl & Hlen) Hr] Hm Hf Hk Hok. split_and!; try done.
  - split; [split_and!; try done; unfold ptable_len; simpl; by rewrite length_fmap|].
    intros p. unfold pget, aget. simpl. rewrite list_lookup_fmap.
    specialize (Hr p). unfold pget, aget in Hr. destruct (k_proc s !! p) as [x|]; simpl in *; [|done].
    destruct (Hk x) as (-> & -> & ->). done.
  - unfold mlfq_wf. simpl. by apply Forall_fmap.
Qed.

Lemma mlfq_ctx_boost c n s :
  mlfq_ctx c n s -> mlfq_ctx c n (s <| k_proc ::= fmap boost |>).
Proof.
  intros (Hc & Hwf & Hm & Hf). apply mlfq_map_ctx; [done..|].
  apply Forall_true. intros. apply boost_ok.
Qed.

Lemma mlfq_ctx_age c n s :
  mlfq_ctx c n s -> mlfq_ctx c n (s <| k_proc ::= fmap (age MLFQ_K) |>).
Proof.
  intros (Hc & Hwf & Hm & Hf). apply mlfq_map_ctx; try done.
  - intros x. unfold age.
    destruct ((level x <? MLFQ_K - 1) && (hold x <=? 0)); simpl; by destruct (decide _).
  - eapply Forall_impl; [exact Hwf|]. intros x. apply age_ok.
Qed.

(** The table right before the dispatching pass: boosted every hundred ticks,
    then aged. *)
Definition mlfq_fire (flag : bool) (s : kstate) : bool := (k_ticks s mod 100 =? 0) && flag.

Definition mlfq_table (flag : bool) (s : kstate) : list proc :=
  age MLFQ_K <$> (if mlfq_fire flag s then boost <$> k_proc s else k_proc s).

(** The state right before the dispatching pass. *)
Definition mlfq_enter (flag : bool) (s : kstate) : kstate :=
  (acquired lk_ptable (updcpu (fun c => c <| iflag := true |>) s))
    <| k_proc := mlfq_table flag s |>.

Lemma mlfq_out_sti c n s : mlfq_out c n s ->
  let s1 := updcpu (fun c => c <| iflag := true |>) s in
  in_sched (acquired lk_ptable s1) /\ acquire lk_ptable s1 = Done (Ok tt) (acquired lk_ptable s1).
Proof.
  intros (Hwf & Hn & Hl & Hlen & _) s1.
  split; [by apply in_sched_sti|].
  apply acquire_ok; [by apply cpus_wf_updcpu|unfold s1; rewrite thiscpu_updcpu by done; simpl; lia|done].
Qed.

Lemma mlfq_enter_ctx c n flag s : mlfq_out c n s -> mlfq_ctx c n (mlfq_enter flag s).
Proof.
  intros Ho. destruct (mlfq_out_sti c n s Ho) as [Hin _].
  destruct Ho as (Hwf & Hn & Hl & Hlen & Hr & Hm & Hme & Hf).
  set (s1 := updcpu _ s) in Hin. set (s2 := acquired lk_ptable s1) in Hin.
  assert (mlfq_ctx c n s2) as H2 by (split_and!; done).
  unfold mlfq_enter, mlfq_table. destruct (mlfq_fire flag s).
  - apply (mlfq_ctx_age _ _ _ (mlfq_ctx_boost _ _ _ H2)).
  - apply (mlfq_ctx_age _ _ _ H2).
Qed.

(** One turn of the loop, up to the choice of the level. *)
Lemma mlfq_iter_enter c n flag s :
  mlfq_out c n s ->
  mlfq_iter MLFQ_K c flag s =
    (let flag' := if mlfq_fire flag s then false
                  else if negb (k_ticks s mod 100 =? 0) then true else flag in
     let now := now_level MLFQ_K (mlfq_table flag s) in
     if now =? MLFQ_K then
       mfor (seq 0 NPROC) (fun p => setproc p boost) ;;; release lk_ptable ;;; ret flag'
     else
       mlfq_pass n c now 0 ;;; release lk_ptable ;;; ret flag') (mlfq_enter flag s).
Proof.
  intros Ho. destruct (mlfq_out_sti c n s Ho) as [Hin Hacq].
  destruct Ho as (Hwf & Hn & Hl & Hlen & Hr & Hm & Hme & Hf).
  unfold mlfq_iter, sti. rewrite bind_modify, (bind_Done _ _ _ _ _ Hacq), bind_gets.
  set (s2 := acquired lk_ptable _). assert (ptable_len s2) as Hlen2 by done.
  change (k_ticks s2) with (k_ticks s). fold (mlfq_fire flag s).
  set (s3 := if mlfq_fire flag s then s2 <| k_proc ::= fmap boost |> else s2).
  assert (when (mlfq_fire flag s) (mfor (seq 0 NPROC) (fun p => setproc p boost)) s2
          = Done (Ok tt) s3) as Hw.
  { unfold when, s3. destruct (mlfq_fire flag s); [by apply mfor_setproc|done]. }
  assert (ptable_len s3) as Hlen3.
  { unfold s3, ptable_len. destruct (mlfq_fire flag s); simpl; [by rewrite length_fmap|done]. }
  rewrite (bind_Done _ _ _ _ _ Hw), (bind_Done _ _ _ _ _ (mfor_setproc _ s3 Hlen3)), bind_gets.
  assert (s3 <| k_proc ::= fmap (age MLFQ_K) |> = mlfq_enter flag s) as ->.
  { unfold s3, mlfq_enter, mlfq_table. by destruct (mlfq_fire flag s). }
  assert ((if negb (k_ticks s mod 100 =? 0) then true
           else if mlfq_fire flag s then false else flag)
    = (if mlfq_fire flag s then false
       else if negb (k_ticks s mod 100 =? 0) then true else flag)) as ->.
  { unfold mlfq_fire. by destruct (k_ticks s mod 100 =? 0), flag. }
  change (k_proc (mlfq_enter flag s)) with (mlfq_table flag s). simpl.
  destruct (now_level MLFQ_K (mlfq_table flag s) =? MLFQ_K); [done|].
  rewrite bind_gets. change (k_fuel (mlfq_enter flag s)) with (k_fuel s). by rewrite Hf.
Qed.

Lemma mlfq_release c n s :
  mlfq_ctx c n s ->
  release lk_ptable s = Done (Ok tt) (released lk_ptable s) /\
  mlfq_out c n (released lk_ptable s).
Proof.
  intros (Hc & Hwf & Hm & Hf). split; [by apply release_in_sched, Hc|].
  destruct (released_out s Hc) as (?&?&?&?&?). by split_and!.
Qed.

Lemma safe_mlfq_iter c n flag s :
  mlfq_out c n s ->
  safe mlfq_guar mlfq_rely (mlfq_post (mlfq_out c n)) (mlfq_iter MLFQ_K c flag s).
Proof.
  intros Ho. pose proof (mlfq_enter_ctx c n flag s Ho) as Hctx.
  rewrite (mlfq_iter_enter c n) by done. cbv zeta.
  destruct (now_level MLFQ_K (mlfq_table flag s) =? MLFQ_K).
  - assert (ptable_len (mlfq_enter flag s)) as Hlen by apply Hctx.
    rewrite (bind_Done _ _ _ _ _ (mfor_setproc boost _ Hlen)).
    destruct (mlfq_release _ _ _ (mlfq_ctx_boost _ _ _ Hctx)) as [Hrel Hout].
    by rewrite (bind_Done _ _ _ _ _ Hrel).
  - apply safe_bind. eapply safe_mono; [|by apply safe_mlfq_pass].
    intros [[]|st] s'; simpl; [|by destruct st].
    intros Hc'. destruct (mlfq_release _ _ _ Hc') as [Hrel Hout].
    by rewrite (bind_Done _ _ _ _ _ Hrel).
Qed.

Lemma safe_mlfq_forever k c n flag s :
  mlfq_out c n s ->
  safe mlfq_guar mlfq_rely (mlfq_post (fun _ => False)) (mlfq_forever MLFQ_K k c flag s).
Proof.
  revert flag s. induction k as [|k IH]; intros flag s Ho; cbn [mlfq_forever]; [done|].
  apply safe_bind. eapply safe_mono; [|by apply (safe_mlfq_iter _ n)].
  intros [fl|st] s'; simpl; [apply IH|by destruct st].
Qed.


(** ** The first dispatch of a turn *)

Lemma mlfq_pass_first n c now p s :
  sched_ctx s -> k_me s = c -> (p < NPROC)%nat -> (NPROC - p <= n)%nat ->
  (exists q, (p <= q)%nat /\ eligible now (pget s q) = true) ->
  exists q k, mlfq_pass n c now p s = Switch (dispatch_state q s) k /\ (q < NPROC)%nat /\
    eligible now (pget s q) = true /\
    forall r, eligible now (pget s r) = true -> priority (pget s r) <= priority (pget s q).
Proof.
  revert p. induction n as [|n IH]; intros p Hc Hm Hp Hle (q & Hq & He); [lia|].
  assert (length (k_proc s) = NPROC) as Hlen by apply Hc.
  cbn [mlfq_pass]. rewrite (proj2 (Nat.leb_gt NPROC p)) by lia.
  unfold getproc. rewrite bind_gets. unfold id.
  destruct (eligible now (pget s p)) eqn:Hel; cbn [negb].
  - rewrite bind_gets.
    destruct (pick_priority_spec (k_proc s) now p Hel Hp Hlen) as (H1 & H2 & H3).
    exists (pick_priority (k_proc s) now p). eexists. rewrite <- Hm.
    pose proof (proj1 (eligible_true _ _) H2) as (Hst & _).
    split_and!; [|done|done|done].
    unfold bind at 1. rewrite run_proc_ok by done. reflexivity.
  - assert (q <> p) by (intros ->; congruence).
    assert (q < NPROC)%nat.
    { destruct (decide (q < NPROC)%nat) as [|Hge]; [lia|].
      unfold pget, aget in He. rewrite lookup_ge_None_2 in He by lia. done. }
    apply IH; [done|done|lia|lia|]. exists q. split; [lia|done].
Qed.

End mlfq_proofs.

(** ** Multilevel queue *)

(** The inner loop of the odd traversal ends at a runnable process with an odd
    pid that came first among the odd ones it saw. *)
Lemma mlq_first_come_spec l ts p p' :
  mlq_first_come l ts p = Some p' -> is_runnable (aget l p) = true ->
  is_runnable (aget l p') = true /\ (p' = p \/ p' ∈ ts) /\
  (ts <> [] -> even_pid (aget l p) = false /\ even_pid (aget l p') = false) /\
  time_c (aget l p') <= time_c (aget l p) /\
  forall t, t ∈ ts -> is_runnable (aget l t) = true -> even_pid (aget l t) = false ->
    time_c (aget l p') <= time_c (aget l t).
Proof.
  revert p. induction ts as [|t ts IH]; intros p Hf Hr; simpl in Hf.
  { injection Hf as <-. split_and!; [done|by left|done|lia|set_solver]. }
  rewrite Hr in Hf. simpl in Hf. destruct (even_pid (aget l p)) eqn:Hev; [done|].
  destruct (is_runnable (aget l t) && negb (even_pid (aget l t)) &&
            (time_c (aget l t) <? time_c (aget l p))) eqn:Ht.
  - apply andb_true_iff in Ht as [[Ht1 Ht2]%andb_true_iff Ht3%Z.ltb_lt].
    apply negb_true_iff in Ht2.
    destruct (IH t Hf Ht1) as (H1 & H2 & H3 & H4 & H5). split_and!; [done|set_solver| |lia|].
    + intros _. split; [done|]. destruct ts; [|by apply H3]. injection Hf as <-. done.
    + intros u [->|Hu]%elem_of_cons ??; [lia|by apply H5].
  - destruct (IH p Hf Hr) as (H1 & H2 & H3 & H4 & H5). split_and!; [done|set_solver| |lia|].
    + intros _. split; [done|]. destruct ts; [|by apply H3]. injection Hf as <-. done.
    + intros u [->|Hu]%elem_of_cons Hur Huo; [|by apply H5].
      rewrite Hur, Huo in Ht. simpl in Ht. apply Z.ltb_ge in Ht. lia.
Qed.

(** What holds at each dispatch: an even pid, or an odd pid that no runnable
    process with an odd pid precedes. *)
Definition mlq_guar (s : kstate) : Prop :=
  exists p, dispatched s p /\
    (even_pid (pget s p) = true \/
     (even_pid (pget s p) = false /\
      forall q, state (pget s q) = RUNNABLE -> even_pid (pget s q) = false ->
        time_c (pget s p) <= time_c (pget s q))).

(** The scheduler's context at the labels. *)
Definition mlq_at (c : nat) (l : mlq_label) (s : kstate) : Prop :=
  k_me s = c /\
  match l with
  | MLQ_TOP => cpus_wf s /\ ncli (thiscpu s) = 0 /\ lock_free s lk_ptable /\
               ptable_len s /\ runnable_ok s
  | MLQ_EXIST | MLQ_ODD _ => sched_ctx s
  end.

(** The postcondition of the dispatching steps. *)
Definition in_pass (c : nat) (r : res unit) (s : kstate) : Prop :=
  match r with Ok _ => sched_ctx s /\ k_me s = c | Stop _ => False end.

Lemma safe_mlq_dispatch c p s :
  sched_ctx s -> k_me s = c -> (p < NPROC)%nat -> state (pget s p) = RUNNABLE ->
  mlq_guar (dispatch_state p s) ->
  safe mlq_guar comes_back (in_pass c) ((run_proc c p ;;; setcproc c None) s).
Proof.
  intros Hc <- Hp Hst HG. apply safe_bind. apply safe_run_proc; [done..|].
  intros s' Hcb. destruct (comes_back_ctx _ s' None Hcb) as (H1 & H2 & _).
  assert (k_me (back_state s') = k_me s) as <- by apply Hcb.
  by rewrite setcproc_me.
Qed.

Lemma safe_mlq_even c s :
  sched_ctx s -> k_me s = c ->
  safe mlq_guar comes_back (in_pass c) (mfor (seq 0 NPROC) (mlq_even_body c) s).
Proof.
  intros Hc Hm. apply (safe_mfor _ _ (fun s => sched_ctx s /\ k_me s = c) (fun _ _ => False)); [|done].
  clear s Hc Hm. intros p s Hp%elem_of_seq [Hc Hm]. unfold mlq_even_body, getproc.
  rewrite bind_gets. unfold id.
  destruct (is_runnable (pget s p) && even_pid (pget s p)) eqn:E; [|done].
  apply andb_true_iff in E as [Hr He]. apply is_runnable_true in Hr.
  apply safe_mlq_dispatch; [done|done|lia|done|].
  exists p. split; [apply dispatch_dispatched; [done|lia|done]|]. left.
  rewrite pget_dispatch_eq; [done|apply Hc|lia].
Qed.

Lemma mlq_guar_odd s p p' :
  sched_ctx s -> (p < NPROC)%nat -> is_runnable (pget s p) = true ->
  mlq_first_come (k_proc s) (seq 0 NPROC) p = Some p' ->
  (p' < NPROC)%nat /\ state (pget s p') = RUNNABLE /\ mlq_guar (dispatch_state p' s).
Proof.
  intros Hc Hp Hr Hf. assert (length (k_proc s) = NPROC) as Hlen by apply Hc.
  destruct (mlq_first_come_spec _ _ _ _ Hf Hr) as (H1 & H2 & H3 & _ & H5).
  destruct H3 as [_ H3]; [done|]. apply is_runnable_true in H1.
  assert (p' < NPROC)%nat as Hp' by (destruct H2 as [->|H2%elem_of_seq]; [done|lia]).
  split_and!; [done|done|]. exists p'. split; [by apply dispatch_dispatched|]. right.
  rewrite pget_dispatch_eq by done. split; [done|]. intros q.
  destruct (decide (q = p')) as [->|Hne]; [by rewrite pget_dispatch_eq|].
  rewrite pget_dispatch_ne by done. simpl. intros Hq Hqo.
  apply H5; [|by apply is_runnable_true|done]. apply elem_of_seq. split; [lia|].
  destruct (decide (q < NPROC)%nat) as [|Hge]; [lia|].
  unfold pget, aget in Hq. rewrite lookup_ge_None_2 in Hq by lia. done.
Qed.

Lemma safe_mlq_forever n c l s :
  mlq_at c l s ->
  safe mlq_guar comes_back (mlfq_post (fun _ => False)) (mlq_forever n c l s).
Proof.
  revert l s. induction n as [|n IH]; intros l s [Hm Hl]; cbn [mlq_forever]; [done|].
  destruct l as [| |p].
  - destruct Hl as (Hwf & Hn & Hlk & Hlen & Hr).
    unfold sti. rewrite bind_modify. set (s1 := updcpu _ s).
    assert (cpus_wf s1) as Hwf1 by (by apply cpus_wf_updcpu).
    assert (ncli (thiscpu s1) = 0) as Hn1 by (unfold s1; by rewrite thiscpu_updcpu).
    rewrite (bind_Done _ _ _ _ _ (acquire_ok s1 lk_ptable Hwf1 ltac:(lia) Hlk)).
    apply IH. split; [done|]. split; [|done].
    by apply in_sched_sti.
  - apply safe_bind. eapply safe_mono; [|by apply safe_mlq_even].
    intros [[]|]; simpl; [|done]. intros s' [Hc Hm']. rewrite bind_gets.
    apply IH. split; [done|]. by destruct (mlq_recheck (k_proc s')).
  - destruct (NPROC <=? p)%nat eqn:Hp.
    + rewrite (bind_Done _ _ _ _ _ (release_in_sched s (proj1 Hl))). apply IH.
      split; [done|]. by apply released_out.
    + apply Nat.leb_gt in Hp. unfold getproc. rewrite bind_gets. unfold id.
      destruct (is_runnable (pget s p)) eqn:Hr; cbn [negb]; [|by apply IH].
      rewrite bind_gets. destruct (mlq_first_come _ _ p) as [p'|] eqn:Hf; [|by apply IH].
      rewrite bind_gets. destruct (mlq_guar_odd s p p' Hl Hp Hr Hf) as (Hp' & Hst & HG).
      unfold when. destruct (negb (even_pid (pget s p'))); [|by apply IH].
      apply safe_bind. eapply safe_mono; [|by apply safe_mlq_dispatch].
      intros [[]|]; simpl; [|done]. intros s' [Hc Hm']. by apply IH.
Qed.

(** The multilevel scheduler never panics and never returns, and whatever
    the dispatched processes do before they come back, each dispatch is of a
    process with an even pid, or of a process with an odd pid that was created
    no later than any runnable process with an odd pid (first come, first
    served). *)
Theorem scheduler_mlq_safe s :
  cpus_wf s -> iflag (thiscpu s) = false -> ncli (thiscpu s) = 0 ->
  lock_free s lk_ptable -> ptable_len s -> runnable_ok s ->
  safe mlq_guar comes_back (mlfq_post (fun _ => False)) (scheduler_mlq s).
Proof.
  intros Hwf Hi Hn Hl Hlen Hr. unfold scheduler_mlq.
  rewrite (bind_Done _ _ _ _ _ (mycpu_ok s Hwf Hi)), (bind_Done _ _ _ _ _ (setcproc_me s None)).
  rewrite bind_gets. apply safe_mlq_forever. split; [done|].
  split_and!; try done; [by apply cpus_wf_updcpu|by rewrite thiscpu_updcpu].
Qed.

(** ** Concrete kernels *)

(** [runnable_ok] by evaluation. *)
Lemma runnable_ok_check s :
  forallb (fun x => implb (is_runnable x)
             (bool_decide (is_Some (kstack x)) && bool_decide (is_Some (pgdir x)))) (k_proc s) = true ->
  runnable_ok s.
Proof.
  intros Hall p Hst. unfold pget, aget in *. destruct (k_proc s !! p) as [x|] eqn:Hx; [|done].
  rewrite forallb_forall in Hall. apply list_elem_of_lookup_2, list_elem_of_In, Hall in Hx.
  apply is_runnable_true in Hst. simpl in Hst. rewrite Hst in Hx. simpl in Hx.
  by apply andb_true_iff in Hx as [?%bool_decide_eq_true ?%bool_decide_eq_true].
Qed.

Lemma mlfq_wf_check k s :
  forallb (fun x => (0 <=? level x) && (level x <? k) && (0 <=? hold x)
                    && (hold x <=? 2 * level x + 4)) (k_proc s) = true ->
  mlfq_wf k s.
Proof.
  intros Hall. apply Forall_forall. intros x Hx. rewrite forallb_forall in Hall.
  apply list_elem_of_In, Hall in Hx. unfold mlfq_ok. bsplit; lia.
Qed.

Definition proc_at (n lv h pr : Z) (st : procstate) (x : proc) : proc :=
  x <| pid := n |> <| level := lv |> <| hold := h |> <| priority := pr |> <| time_c := n |>
    <| state := st |> <| kstack := Some 4096 |> <| pgdir := Some (KERNBASE + 8192) |>.

(** One CPU before scheduler(): two processes of L1 and one asleep in L0. *)
Definition boot3 : kstate :=
  kstate0
    <| k_locks := {[ lk_ptable := mk_spinlock false None ]} |>
    <| k_ticks := 7 |>
    <| k_proc ::= alter (proc_at 1 1 6 5 RUNNABLE) 0%nat |>
    <| k_proc ::= alter (proc_at 3 1 6 0 RUNNABLE) 1%nat |>
    <| k_proc ::= alter (proc_at 2 0 4 0 SLEEPING) 2%nat |>.

(** The same CPU inside the scheduler's critical section. *)
Definition in_pass3 : kstate :=
  boot3 <| k_cpus := [mk_cpu 0 1 true None false 0] |>
    <| k_locks := {[ lk_ptable := mk_spinlock true (Some 0%nat) ]} |>.

Lemma cpus_wf_one s c : k_cpus s = [c] -> k_me s = 0%nat -> cpus_wf s.
Proof. intros Hc Hm. split; rewrite Hc, ?Hm; [simpl; lia|apply NoDup_singleton]. Qed.



Lemma scheduler_mlq_safe_witness :
  safe mlq_guar comes_back (mlfq_post (fun _ => False)) (scheduler_mlq boot3).
Proof.
  apply scheduler_mlq_safe; [by eapply cpus_wf_one|done|done|done|done|].
  by apply runnable_ok_check.
Defined.

(** ** Processes that become runnable during a pass *)

(** While the process of slot 0 runs, an interrupt wakes the one of slot 2; then
    the running process is preempted. *)
Definition wake2 (s : kstate) : kstate :=
  pupd 0 (fun x => x <| state := RUNNABLE |>) (pupd 2 (fun x => x <| state := RUNNABLE |>) s).

(** [in_sched] on a single CPU, by evaluation. *)
Definition in_sched1 (s : kstate) : bool :=
  (length (k_cpus s) =? 1)%nat && (k_me s =? 0)%nat && (ncli (thiscpu s) =? 1)
  && negb (iflag (thiscpu s)) && (length (k_proc s) =? NPROC)%nat
  && match k_locks s !! lk_ptable with
     | Some (mk_spinlock true (Some O)) => true
     | _ => false
     end.

Lemma in_sched1_spec s : in_sched1 s = true -> in_sched s.
Proof.
  unfold in_sched1. rewrite !andb_true_iff, !Nat.eqb_eq, Z.eqb_eq, negb_true_iff.
  intros (((((Hlen & Hme) & Hn) & Hi) & Hp) & Hlk).
  split_and!; [|done|done| |done].
  - destruct (k_cpus s) as [|c []] eqn:Hc; [done| |done]. by apply (cpus_wf_one s c).
  - unfold lock_held. rewrite Hme. by destruct (k_locks s !! lk_ptable) as [[[] [[]|]]|].
Qed.

Definition comes_back1 (s s' : kstate) : bool :=
  in_sched1 s'
  && forallb (fun x => implb (is_runnable x)
       (bool_decide (is_Some (kstack x)) && bool_decide (is_Some (pgdir x)))) (k_proc s')
  && (k_me s' =? k_me s)%nat && (length (k_cpus s') =? length (k_cpus s))%nat
  && (k_fuel s' =? k_fuel s)%nat.

Lemma comes_back1_spec s s' : comes_back1 s s' = true -> comes_back s s'.
Proof.
  unfold comes_back1. rewrite !andb_true_iff, !Nat.eqb_eq. intros ((((H1 & H2) & H3) & H4) & H5).
  split_and!; [|done..]. split; [by apply in_sched1_spec|by apply runnable_ok_check].
Qed.

(** The running process is preempted: it yields. *)
Definition preempted (s : kstate) : kstate :=
  match cproc (thiscpu s) with
  | Some p => pupd p (fun x => x <| state := RUNNABLE |>) s
  | None => s
  end.

Lemma preempted_rely s : comes_back1 s (preempted s) = true -> rr_rely s (preempted s).
Proof.
  intros H. split; [by apply comes_back1_spec|]. intros q Hq Hst. unfold preempted.
  destruct (cproc (thiscpu s)) as [p|]; [|done]. rewrite pget_pupd_ne; congruence.
Qed.

Lemma rr_pass_fair_witness :
  exists tr r sf, runs rr_rely (rr_pass 0 in_pass3) tr r sf /\
    r = Ok tt /\ exists ps, Forall2 dispatched tr ps /\ 0%nat ∈ ps /\ 1%nat ∈ ps.
Proof.
  destruct (drive_runs rr_rely preempted (fun s => comes_back1 s (preempted s)) 5
    (rr_pass 0 in_pass3)) as (tr & r & sf & Hrun); [apply preempted_rely|by vm_compute|].
  exists tr, r, sf. split; [done|].
  destruct (rr_pass_fair in_pass3 tr r sf) as (Hr & _ & ps & H1 & _ & H2); [|done|].
  - split; [|by apply runnable_ok_check].
    split_and!; [by eapply cpus_wf_one|done|done|done|done].
  - split; [done|]. exists ps. split_and!; [done|by apply H2|by apply H2].
Defined.

(** Two dispatches, with [w] what happens in between, by evaluation. *)
Lemma two_dispatches {A} (e : exec kstate A) (w : kstate -> kstate) (chk : kstate -> bool) :
  match e with
  | Switch s1 k1 => comes_back1 s1 (w s1) && match k1 (w s1) with Switch s3 _ => chk s3 | _ => false end
  | _ => false
  end = true ->
  exists s1 k1 s2 s3 k3, e = Switch s1 k1 /\ s2 = w s1 /\ comes_back s1 s2 /\
    k1 s2 = Switch s3 k3 /\ chk s3 = true.
Proof.
  destruct e as [|s1 k1]; [done|]. intros [H1 H2]%andb_true_iff.
  destruct (k1 (w s1)) as [|s3 k3] eqn:E; [done|].
  exists s1, k1, (w s1), s3, k3. split_and!; try done. by apply comes_back1_spec.
Qed.

(** A process that becomes runnable with an even pid while an odd one runs
    does not stop the odd traversal: the multilevel scheduler can dispatch an
    odd pid while an even one is runnable, because the test before the jump to
    EXIST_RUNNABLE looks only at the entry the traversal is at. *)
Theorem mlq_even_waits :
  exists s s1 k1 s2 s3 k3 p q,
    scheduler_mlq s = Switch s1 k1 /\ comes_back s1 s2 /\ k1 s2 = Switch s3 k3 /\
    cproc (thiscpu s3) = Some p /\ even_pid (pget s3 p) = false /\
    state (pget s3 q) = RUNNABLE /\ even_pid (pget s3 q) = true.
Proof.
  destruct (two_dispatches (scheduler_mlq boot3) wake2 (fun s3 =>
    bool_decide (cproc (thiscpu s3) = Some 0%nat) && negb (even_pid (pget s3 0))
    && is_runnable (pget s3 2) && even_pid (pget s3 2))) as (s1 & k1 & s2 & s3 & k3 & H1 & _ & H2 & H3 & H4);
    [by vm_compute|].
  rewrite !andb_true_iff, bool_decide_eq_true, negb_true_iff, is_runnable_true in H4.
  destruct H4 as (((?&?)&?)&?). exists boot3, s1, k1, s2, s3, k3, 0%nat, 2%nat.
  split_and!; assumption.
Qed.

(** The level of a turn of the feedback scheduler is fixed when the turn
    begins: a process of a higher queue that becomes runnable while another
    one runs waits until the pass ends, and processes of the lower queue are
    dispatched before it. *)
Theorem mlfq_level_stale :
  exists s s1 k1 s2 s3 k3 p q,
    scheduler_mlfq 3 s = Switch s1 k1 /\ comes_back s1 s2 /\ k1 s2 = Switch s3 k3 /\
    cproc (thiscpu s3) = Some p /\
    state (pget s3 q) = RUNNABLE /\ 0 < hold (pget s3 q) /\
    level (pget s3 q) < level (pget s3 p).
Proof.
  destruct (two_dispatches (scheduler_mlfq 3 boot3) wake2 (fun s3 =>
    bool_decide (cproc (thiscpu s3) = Some 0%nat) && is_runnable (pget s3 2)
    && (0 <? hold (pget s3 2)) && (level (pget s3 2) <? level (pget s3 0))))
    as (s1 & k1 & s2 & s3 & k3 & H1 & _ & H2 & H3 & H4);
    [by vm_compute|].
  rewrite !andb_true_iff, bool_decide_eq_true, is_runnable_true, !Z.ltb_lt in H4.
  destruct H4 as (((?&?)&?)&?). exists boot3, s1, k1, s2, s3, k3, 0%nat, 2%nat.
  split_and!; assumption.
Qed.
