(* ===== verification/Console.v ===== *)
(** * Console output (console.c)

    printint, cprintf, consputc and cgaputc.  The serial port is the list of
    the characters sent; the CGA screen is its 25 rows of 80 cells and the
    cursor register.  panic() is the stop [Panic] of the machine. *)

From S2P Require Import Prelude Cstring Kernel Spinlock.

Definition BACKSPACE : Z := 256.

(** ** printint *)

(** static char digits[] *)
Definition digits : list Z := chars "0123456789abcdef".

(** do { buf[i++] = digits[x % base]; } while((x /= base) != 0); the digits from
    the last to the first.  32 rounds are enough for a uint. *)
Fixpoint digit_loop (n : nat) (digits : list Z) (base x : Z) : list Z :=
  match n with
  | O => []
  | S n' =>
      aget digits (idx (x mod base)) ::
        (if x / base =? 0 then [] else digit_loop n' digits base (x / base))
  end.

(** The characters printint puts, first to last. *)
Definition printint_chars (digits : list Z) (xx base : Z) (sign : bool) : list Z :=
  let neg := sign && (xx <? 0) in
  let x := if neg then u32 (- xx) else u32 xx in
  (if neg then [45] else []) ++ rev (digit_loop 32 digits base x).

(** ** The CGA screen *)

(** cgaputc on the cells and the cursor; [None] is the panic. *)
Definition cgaputc (crt : list Z) (pos c : Z) : option (list Z * Z) :=
  let '(crt, pos) :=
    if c =? 10 then (crt, pos + (80 - pos mod 80))
    else if c =? BACKSPACE then (crt, if 0 <? pos then pos - 1 else pos)
    else (<[idx pos := Z.lor (Z.land c 255) 1792]> crt, pos + 1) in
  if (pos <? 0) || (25 * 80 <? pos) then None
  else
    let '(crt, pos) :=
      if 24 <=? pos / 80 then
        let crt := take 1840 (drop 80 crt) ++ drop 1840 crt in
        let pos := pos - 80 in
        (take (idx pos) crt ++ replicate (idx (24 * 80 - pos)) 0 ++ drop 1920 crt, pos)
      else (crt, pos) in
    Some (<[idx pos := Z.lor 32 1792]> crt, pos).

(** ** consputc and cprintf *)

Definition uartputc (c : Z) : K unit := modify (fun s => s <| k_out ::= (fun l => l ++ [u8 c]) |>).

Definition consputc (c : Z) : K unit :=
  (if c =? BACKSPACE then uartputc 8 ;;; uartputc 32 ;;; uartputc 8 else uartputc c) ;;;
  r <- gets (fun s => cgaputc (k_crt s) (k_crtpos s) c) ;;
  match r with
  | None => panic "pos under/overflow"
  | Some (crt, pos) => modify (fun s => s <| k_crt := crt |> <| k_crtpos := pos |>)
  end.

(** An argument of cprintf: an int or a string pointer, [None] for NULL. *)
Inductive carg := AInt (z : Z) | AStr (s : option (list Z)).

Definition puts (l : list Z) : K unit := mfor l consputc.

Definition printint (xx base : Z) (sign : bool) : K unit :=
  puts (printint_chars digits xx base sign).

(** The loop over the format. *)
Fixpoint cprintf_loop (fmt : list Z) (args : list carg) : K unit :=
  match fmt with
  | [] => ret tt
  | c :: fmt' =>
      if negb (c =? 37) then consputc c ;;; cprintf_loop fmt' args
      else
        match fmt' with
        | [] => ret tt
        | d :: fmt'' =>
            if d =? 100 then
              match args with
              | AInt z :: args' => printint z 10 true ;;; cprintf_loop fmt'' args'
              | _ => halt (UB "cprintf")
              end
            else if (d =? 120) || (d =? 112) then
              match args with
              | AInt z :: args' => printint z 16 false ;;; cprintf_loop fmt'' args'
              | _ => halt (UB "cprintf")
              end
            else if d =? 115 then
              match args with
              | AStr s :: args' => puts (default (chars "(null)") s) ;;; cprintf_loop fmt'' args'
              | _ => halt (UB "cprintf")
              end
            else if d =? 37 then consputc 37 ;;; cprintf_loop fmt'' args
            else consputc 37 ;;; consputc d ;;; cprintf_loop fmt'' args
        end
  end.

Definition cprintf (fmt : string) (args : list carg) : K unit :=
  locking <- gets k_conslock ;;
  when locking (acquire lk_cons) ;;;
  cprintf_loop (chars fmt) args ;;;
  when locking (release lk_cons).

(** ** Numbers *)

(** The value of a list of decimal digits, first digit first. *)
Definition dec_value (acc : Z) (l : list Z) : Z := foldl (fun n c => n * 10 + c - 48) acc l.

Definition is_digit (c : Z) : Prop := 48 <= c <= 57.

Lemma dec_value_app acc l1 l2 : dec_value acc (l1 ++ l2) = dec_value (dec_value acc l1) l2.
Proof. apply foldl_app. Qed.

Lemma dec_value_ge acc l : 0 <= acc -> Forall is_digit l -> acc <= dec_value acc l.
Proof.
  intros Ha Hl. revert acc Ha. induction Hl as [|c l Hc Hl IH]; intros acc Ha; [simpl; lia|].
  change (acc <= dec_value (acc * 10 + c - 48) l).
  unfold is_digit in Hc. specialize (IH (acc * 10 + c - 48) ltac:(lia)). lia.
Qed.

Lemma digit_at d : 0 <= d < 10 -> aget digits (idx d) = 48 + d.
Proof.
  intros Hd. assert (d = 0 \/ d = 1 \/ d = 2 \/ d = 3 \/ d = 4 \/ d = 5 \/ d = 6 \/ d = 7 \/ d = 8 \/ d = 9)
    as H by lia.
  by repeat (destruct H as [->|H]); [..|subst].
Qed.

Lemma digit_loop_digits n x : 0 <= x -> Forall is_digit (digit_loop n digits 10 x).
Proof.
  revert x. induction n as [|n IH]; intros x Hx; cbn [digit_loop]; [done|].
  pose proof (Z.mod_pos_bound x 10 ltac:(lia)). constructor.
  - rewrite digit_at by lia. unfold is_digit. lia.
  - destruct (x / 10 =? 0); [done|]. apply IH, Z.div_pos; lia.
Qed.

Lemma digit_loop_value n x :
  0 <= x < 10 ^ Z.of_nat n -> (0 < n)%nat -> dec_value 0 (rev (digit_loop n digits 10 x)) = x.
Proof.
  revert x. induction n as [|n IH]; intros x Hx Hn; [lia|]. cbn [digit_loop rev].
  rewrite dec_value_app. simpl. pose proof (Z.mod_pos_bound x 10 ltac:(lia)).
  rewrite digit_at by lia. pose proof (Z.div_mod x 10 ltac:(lia)).
  destruct (Z.eqb_spec (x / 10) 0) as [E|E]; [simpl; lia|].
  assert (10 ^ Z.of_nat (S n) = 10 * 10 ^ Z.of_nat n) as Hp
    by (rewrite Nat2Z.inj_succ, Z.pow_succ_r by lia; done).
  rewrite Hp in Hx. assert (0 <= x / 10 < 10 ^ Z.of_nat n) as Hd
    by (split; [apply Z.div_pos; lia|apply Z.div_lt_upper_bound; lia]).
  destruct n as [|n]; [simpl in Hd; lia|]. rewrite IH by lia. lia.
Qed.

Lemma digit_loop_length n ds base x : (length (digit_loop n ds base x) <= n)%nat.
Proof.
  revert x. induction n as [|n IH]; intros x; cbn [digit_loop]; simpl; [lia|].
  destruct (x / base =? 0); simpl; [lia|]. specialize (IH (x / base)). lia.
Qed.

Lemma digit_loop_fuel n m x :
  0 <= x < 10 ^ Z.of_nat n -> (0 < n <= m)%nat ->
  digit_loop m digits 10 x = digit_loop n digits 10 x.
Proof.
  revert m x. induction n as [|n IH]; intros m x Hx Hn; [lia|]. destruct m as [|m]; [lia|].
  cbn [digit_loop]. f_equal. destruct (Z.eqb_spec (x / 10) 0) as [E|E]; [done|].
  assert (10 ^ Z.of_nat (S n) = 10 * 10 ^ Z.of_nat n) as Hp
    by (rewrite Nat2Z.inj_succ, Z.pow_succ_r by lia; done).
  rewrite Hp in Hx. assert (0 <= x / 10 < 10 ^ Z.of_nat n) as Hd
    by (split; [apply Z.div_pos; lia|apply Z.div_lt_upper_bound; lia]).
  destruct n as [|n]; [simpl in Hd; lia|]. apply IH; [done|lia].
Qed.

Lemma atoi_from_digits acc l rest c :
  0 <= acc -> Forall is_digit l -> dec_value acc l < 2 ^ 31 -> ~ is_digit c ->
  atoi_from acc (l ++ c :: rest) = Some (dec_value acc l).
Proof.
  intros Ha Hl. revert acc Ha. induction Hl as [|d l Hd Hl IH]; intros acc Ha Hv Hc; simpl.
  - unfold is_digit in Hc. destruct (Z.leb_spec 48 c), (Z.leb_spec c 57); try done. lia.
  - unfold is_digit in Hd. rewrite (proj2 (Z.leb_le 48 d)), (proj2 (Z.leb_le d 57)) by lia. cbn [andb].
    change (dec_value (acc * 10 + d - 48) l < 2 ^ 31) in Hv.
    pose proof (dec_value_ge (acc * 10 + d - 48) l ltac:(lia) Hl) as Hge.
    rewrite i32_id by lia. rewrite IH; [done|lia|done|done].
Qed.

(** The sign and the ten digits fit in buf[16]. *)
Lemma printint_fits xx : (length (printint_chars digits xx 10 true) <= 11)%nat.
Proof.
  unfold printint_chars. rewrite length_app, length_rev.
  set (x := if true && (xx <? 0) then u32 (- xx) else u32 xx).
  assert (0 <= x < 10 ^ Z.of_nat 10) as Hx.
  { pose proof (u32_range xx). pose proof (u32_range (- xx)). unfold x.
    destruct (true && (xx <? 0)); lia. }
  rewrite (digit_loop_fuel 10 32 x) by (done || lia).
  pose proof (digit_loop_length 10 digits 10 x) as Hl.
  destruct (true && (xx <? 0)); cbn [length]; lia.
Qed.

(** What printint prints in base 10 is read back by atoi: for every
    non-negative int the characters it puts, followed by a NUL or any other
    character that is not a digit, are parsed by atoi to the same number, and
    with the sign they fit in printint's buffer of 16. *)
Theorem printint_atoi n c rest :
  0 <= n < 2 ^ 31 -> ~ (48 <= c <= 57) ->
  atoi (printint_chars digits n 10 true ++ c :: rest) = Some n /\
  (length (printint_chars digits n 10 true) <= 16)%nat.
Proof.
  intros Hn Hc. split; [|pose proof (printint_fits n); lia].
  unfold atoi, printint_chars. rewrite (proj2 (Z.ltb_ge n 0)) by lia. cbn [andb app].
  rewrite u32_id by lia.
  assert (dec_value 0 (rev (digit_loop 32 digits 10 n)) = n) as Hv
    by (apply digit_loop_value; [split; [lia|]; eapply Z.lt_trans; [apply Hn|done]|lia]).
  rewrite atoi_from_digits; rewrite ?Hv; try done; [|lia].
  apply Forall_rev, digit_loop_digits. lia.
Qed.

Lemma printint_atoi_witness :
  atoi (printint_chars digits 2016024875 10 true ++ [0]) = Some 2016024875.
Proof. apply (printint_atoi 2016024875 0 []); lia. Defined.

(** ** The screen *)

Lemma cgaputc_screen crt pos c :
  length crt = 2000%nat -> 0 <= pos < 2000 ->
  exists crt' pos', cgaputc crt pos c = Some (crt', pos') /\
    length crt' = 2000%nat /\ 0 <= pos' < 2000 /\
    aget crt' (idx pos') = 1824.
Proof.
  intros Hlen Hpos. unfold cgaputc.
  pose proof (Z.mod_pos_bound pos 80 ltac:(lia)) as Hm.
  assert (exists crt1 pos1, (if c =? 10 then (crt, pos + (80 - pos mod 80))
    else if c =? BACKSPACE then (crt, if 0 <? pos then pos - 1 else pos)
    else (<[idx pos:=Z.lor (Z.land c 255) 1792]> crt, pos + 1)) = (crt1, pos1) /\
    length crt1 = 2000%nat /\ 0 <= pos1 <= 2000) as (crt1 & pos1 & -> & Hl1 & Hp1).
  { pose proof (Z.div_mod pos 80 ltac:(lia)).
    assert (pos / 80 < 25) by (apply Z.div_lt_upper_bound; lia).
    destruct (c =? 10); [do 2 eexists; split_and!; [done|done|lia|lia]|].
    destruct (c =? BACKSPACE); [do 2 eexists; split_and!; [done|done|..];
      destruct (Z.ltb_spec 0 pos); lia|].
    do 2 eexists. split_and!; [done|by rewrite length_insert|lia|lia]. }
  rewrite (proj2 (Z.ltb_ge pos1 0)), (proj2 (Z.ltb_ge (25 * 80) pos1)) by lia. cbn [orb].
  destruct (Z.leb_spec 24 (pos1 / 80)) as [Hs|Hs].
  - assert (1920 <= pos1) by (pose proof (Z.div_mod pos1 80 ltac:(lia));
      pose proof (Z.mod_pos_bound pos1 80 ltac:(lia)); lia).
    match goal with |- context [<[_:=_]> ?l] => set (scr := l) end.
    assert (length scr = 2000%nat) as Hscr.
    { unfold scr, idx. rewrite !length_app, !length_take, !length_drop, !length_app, !length_take,
        !length_drop, length_replicate, Hl1. lia. }
    do 2 eexists. split_and!; [done|by rewrite length_insert|lia|lia|].
    by rewrite aget_insert_eq by (unfold idx; lia).
  - assert (pos1 < 1920) by (pose proof (Z.div_mod pos1 80 ltac:(lia));
      pose proof (Z.mod_pos_bound pos1 80 ltac:(lia)); lia).
    do 2 eexists. split_and!; [done|by rewrite length_insert|lia|lia|].
    by rewrite aget_insert_eq by (unfold idx; lia).
Qed.

(** The screen with the cursor on it. *)
Definition on_screen (s : kstate) : Prop := length (k_crt s) = 2000%nat /\ 0 <= k_crtpos s < 2000.

(** consputc changes the screen, the cursor and the serial line only. *)
Lemma consputc_ok c s :
  on_screen s ->
  exists o crt pos, let t := s <| k_out := o |> <| k_crt := crt |> <| k_crtpos := pos |> in
    consputc c s = Done (Ok tt) t /\ on_screen t.
Proof.
  intros [Hl Hp]. destruct (cgaputc_screen (k_crt s) (k_crtpos s) c Hl Hp) as (crt & pos & Hc & ? & ? & _).
  exists (if c =? BACKSPACE then ((k_out s ++ [u8 8]) ++ [u8 32]) ++ [u8 8] else k_out s ++ [u8 c]), crt, pos.
  split; [|done]. unfold consputc, uartputc. destruct (c =? BACKSPACE).
  all: unfold bind, modify, gets; simpl; by rewrite Hc.
Qed.

(** On a screen of 25 rows the CGA driver never panics and never leaves
    the screen: with the cursor on the screen, every character, newline or
    backspace is accepted and the cursor is on the screen again. *)
Theorem cgaputc_total crt pos c :
  length crt = 2000%nat -> 0 <= pos < 2000 ->
  exists crt' pos', cgaputc crt pos c = Some (crt', pos') /\
    length crt' = 2000%nat /\ 0 <= pos' < 2000 /\
    aget crt' (idx pos') = 1824.
Proof. apply cgaputc_screen. Qed.

Lemma cgaputc_total_witness :
  exists crt' pos', cgaputc (replicate 2000 0) 1999 10 = Some (crt', pos') /\ 0 <= pos' < 2000.
Proof.
  destruct (cgaputc_total (replicate 2000 0) 1999 10) as (crt' & pos' & H & _ & Hp & _);
    [by rewrite length_replicate|lia|].
  exists crt', pos'. split; [exact H|exact Hp].
Defined.
