(* ===== verification/Vm.v ===== *)
(** * Physical pages and page tables (kalloc.c, vm.c)

    Memory is a map from page addresses (as the kernel sees them) to their
    4096 bytes.  The free list is linked through the first word of its pages
    and the page tables are the words of their pages, as in the source.  The
    linker's end and data are fields of the state; DEVSPACE and the boot-time
    mappings above PHYSTOP are mapped as setupkvm does. *)

From S2P Require Import Prelude Cstring Kernel Spinlock ProcCore Console.

(** ** Constants and address arithmetic (memlayout.h, mmu.h) *)

Definition EXTMEM : Z := 1048576.

Definition PHYSTOP : Z := 234881024.

Definition DEVSPACE : Z := 4261412864.

Definition KERNLINK : Z := KERNBASE + EXTMEM.

Definition PTE_P : Z := 1.

Definition PTE_W : Z := 2.

Definition PTE_U : Z := 4.

Definition PDX (va : Z) : Z := Z.land (Z.shiftr va 22) 1023.

Definition PTX (va : Z) : Z := Z.land (Z.shiftr va 12) 1023.

Definition PGADDR (d t o : Z) : Z :=
  u32 (Z.lor (Z.lor (Z.shiftl d 22) (Z.shiftl t 12)) o).

Definition PGROUNDDOWN (a : Z) : Z := Z.land a (Z.lnot (PGSIZE - 1)).

Definition PGROUNDUP (sz : Z) : Z := Z.land (u32 (sz + PGSIZE - 1)) (Z.lnot (PGSIZE - 1)).

Definition PTE_ADDR (pte : Z) : Z := Z.land pte (Z.lnot 4095).

Definition PTE_FLAGS (pte : Z) : Z := Z.land pte 4095.

Definition present (pte : Z) : bool := negb (Z.land pte PTE_P =? 0).

(** ** Memory accesses *)

Definition pageof (a : Z) : Z := a - a mod PGSIZE.

Definition pageoff (a : Z) : nat := idx (a mod PGSIZE).

(** A load and a store of a word inside one page. *)
Definition mload (a : Z) : K Z :=
  p <- gets (fun s => k_mem s !! pageof a) ;;
  match p with
  | Some l => ret (le_load 4 l (pageoff a))
  | None => halt (UB "load")
  end.

Definition mstore (a v : Z) : K unit :=
  p <- gets (fun s => k_mem s !! pageof a) ;;
  match p with
  | Some l => modify (fun s => s <| k_mem ::= <[pageof a := le_store 4 l (pageoff a) v]> |>)
  | None => halt (UB "store")
  end.

(** memset of a whole page. *)
Definition memset_page (a c : Z) : K unit :=
  p <- gets (fun s => k_mem s !! a) ;;
  match p with
  | Some _ => modify (fun s => s <| k_mem ::= <[a := replicate 4096 (c mod 256)]> |>)
  | None => halt (UB "memset")
  end.

(** memmove of [l] to the page of [a], within the page. *)
Definition mwrite (a : Z) (l : list Z) : K unit :=
  p <- gets (fun s => k_mem s !! pageof a) ;;
  match p with
  | Some pg =>
      if (pageoff a + length l <=? 4096)%nat then
        modify (fun s => s <| k_mem ::= <[pageof a :=
          take (pageoff a) pg ++ l ++ drop (pageoff a + length l) pg]> |>)
      else halt (UB "memmove")
  | None => halt (UB "memmove")
  end.

(** ** kalloc.c *)

(** A pointer word: 0 is NULL. *)
Definition ptr (v : Z) : option Z := if v =? 0 then None else Some v.

Definition kfree (v : Z) : K unit :=
  e <- gets k_end ;;
  if negb (v mod PGSIZE =? 0) || (v <? e) || (PHYSTOP <=? V2P v) then panic "kfree"
  else
    memset_page v 1 ;;;
    use_lock <- gets k_uselock ;;
    when use_lock (acquire lk_kmem) ;;;
    next <- gets k_freelist ;;
    mstore v (default 0 next) ;;;
    modify (fun s => s <| k_freelist := Some v |>) ;;;
    when use_lock (release lk_kmem).

Definition kalloc : K (option Z) :=
  use_lock <- gets k_uselock ;;
  when use_lock (acquire lk_kmem) ;;;
  r <- gets k_freelist ;;
  match r with
  | Some v => next <- mload v ;; modify (fun s => s <| k_freelist := ptr next |>)
  | None => ret tt
  end ;;;
  when use_lock (release lk_kmem) ;;;
  ret r.

(** for(; p + PGSIZE <= vend; p += PGSIZE) kfree(p); *)
Definition freerange (vstart vend : Z) : K unit :=
  let p := PGROUNDUP vstart in
  mfor (seq 0 (idx ((vend - p) / PGSIZE))) (fun i => kfree (p + Z.of_nat i * PGSIZE)).

Definition kinit1 (vstart vend : Z) : K unit :=
  initlock lk_kmem ;;;
  modify (fun s => s <| k_uselock := false |>) ;;;
  freerange vstart vend.

Definition kinit2 (vstart vend : Z) : K unit :=
  freerange vstart vend ;;;
  modify (fun s => s <| k_uselock := true |>).

(** ** vm.c: page tables *)

(** The address of the PTE of [va], [None] for 0. *)
Definition walkpgdir (pgdir va : Z) (alloc : bool) : K (option Z) :=
  let pde := pgdir + 4 * PDX va in
  e <- mload pde ;;
  if present e then ret (Some (P2V (PTE_ADDR e) + 4 * PTX va))
  else if negb alloc then ret None
  else
    pgtab <- kalloc ;;
    match pgtab with
    | None => ret None
    | Some pgtab =>
        memset_page pgtab 0 ;;;
        mstore pde (Z.lor (Z.lor (Z.lor (V2P pgtab) PTE_P) PTE_W) PTE_U) ;;;
        ret (Some (pgtab + 4 * PTX va))
    end.

(** The loop of mappages; a uint address reaches [last] within the [n] pages
    between them, so that the fuel does not run out. *)
Fixpoint mappages_loop (n : nat) (pgdir a last pa perm : Z) : K Z :=
  pte <- walkpgdir pgdir a true ;;
  match pte with
  | None => ret (-1)
  | Some pte =>
      v <- mload pte ;;
      if present v then panic "remap"
      else
        mstore pte (Z.lor (Z.lor pa perm) PTE_P) ;;;
        if a =? last then ret 0
        else
          match n with
          | O => halt (Hang "mappages")
          | S n' => mappages_loop n' pgdir (u32 (a + PGSIZE)) last (u32 (pa + PGSIZE)) perm
          end
  end.

Definition mappages (pgdir va size pa perm : Z) : K Z :=
  let a := PGROUNDDOWN va in
  let last := PGROUNDDOWN (u32 (va + size - 1)) in
  mappages_loop (idx (u32 (last - a) / PGSIZE)) pgdir a last pa perm.

(** ** vm.c: user memory *)

(** The loop of deallocuvm.  Each turn goes to a higher page, so that [n] pages
    below oldsz need at most [n] turns. *)
Fixpoint dealloc_loop (n : nat) (pgdir a oldsz : Z) : K unit :=
  if negb (a <? oldsz) then ret tt
  else
    match n with
    | O => halt (Hang "deallocuvm")
    | S n' =>
        pte <- walkpgdir pgdir a false ;;
        match pte with
        | None => dealloc_loop n' pgdir (u32 (u32 (PGADDR (PDX a + 1) 0 0 - PGSIZE) + PGSIZE)) oldsz
        | Some pte =>
            v <- mload pte ;;
            (if present v then
               let pa := PTE_ADDR v in
               if pa =? 0 then panic "kfree"
               else kfree (P2V pa) ;;; mstore pte 0
             else ret tt) ;;;
            dealloc_loop n' pgdir (u32 (a + PGSIZE)) oldsz
        end
    end.

Definition deallocuvm (pgdir oldsz newsz : Z) : K Z :=
  if oldsz <=? newsz then ret oldsz
  else
    dealloc_loop (S (idx (oldsz / PGSIZE))) pgdir (PGROUNDUP newsz) oldsz ;;;
    ret newsz.

(** The loop of allocuvm; [Some 0] is the error return. *)
Fixpoint alloc_loop (n : nat) (pgdir a oldsz newsz : Z) : K Z :=
  if negb (a <? newsz) then ret newsz
  else
    match n with
    | O => halt (Hang "allocuvm")
    | S n' =>
        mem <- kalloc ;;
        match mem with
        | None =>
            cprintf "allocuvm out of memory
" [] ;;;
            deallocuvm pgdir newsz oldsz ;;;
            ret 0
        | Some mem =>
            memset_page mem 0 ;;;
            r <- mappages pgdir a PGSIZE (V2P mem) (Z.lor PTE_W PTE_U) ;;
            if r <? 0 then
              cprintf "allocuvm out of memory (2)
" [] ;;;
              deallocuvm pgdir newsz oldsz ;;;
              kfree mem ;;;
              ret 0
            else alloc_loop n' pgdir (u32 (a + PGSIZE)) oldsz newsz
        end
    end.

Definition allocuvm (pgdir oldsz newsz : Z) : K Z :=
  if KERNBASE <=? newsz then ret 0
  else if newsz <? oldsz then ret oldsz
  else alloc_loop (S (idx (newsz / PGSIZE))) pgdir (PGROUNDUP oldsz) oldsz newsz.

Definition freevm (pgdir : Z) : K unit :=
  if pgdir =? 0 then panic "freevm: no pgdir"
  else
    deallocuvm pgdir KERNBASE 0 ;;;
    mfor (seq 0 1024) (fun i =>
      e <- mload (pgdir + 4 * Z.of_nat i) ;;
      when (present e) (kfree (P2V (PTE_ADDR e)))) ;;;
    kfree pgdir.

(** One row of kmap[]: virt, phys_start, phys_end, perm. *)
Definition kmap (data : Z) : list (Z * Z * Z * Z) :=
  [ (KERNBASE, 0, EXTMEM, PTE_W);
    (KERNLINK, V2P KERNLINK, V2P data, 0);
    (data, V2P data, PHYSTOP, PTE_W);
    (DEVSPACE, DEVSPACE, 0, PTE_W) ].

(** setupkvm; the test of PHYSTOP against DEVSPACE is constant. *)
Definition setupkvm : K (option Z) :=
  pgdir <- kalloc ;;
  match pgdir with
  | None => ret None
  | Some pgdir =>
      memset_page pgdir 0 ;;;
      if DEVSPACE <? P2V PHYSTOP then panic "PHYSTOP too high"
      else
        data <- gets k_data ;;
        bad <- mfor_ret (kmap data) (fun '(virt, phys_start, phys_end, perm) =>
          r <- mappages pgdir virt (u32 (phys_end - phys_start)) phys_start perm ;;
          if r <? 0 then freevm pgdir ;;; ret (Some tt) else ret None) ;;
        match bad with
        | Some _ => ret None
        | None => ret (Some pgdir)
        end
  end.

Definition kvmalloc : K unit :=
  p <- setupkvm ;;
  modify (fun s => s <| k_kpgdir := p |>) ;;;
  switchkvm.

Definition inituvm (pgdir : Z) (init : list Z) : K unit :=
  if PGSIZE <=? Z.of_nat (length init) then panic "inituvm: more than a page"
  else
    mem <- kalloc ;;
    match mem with
    | None => halt (UB "memset")
    | Some mem =>
        memset_page mem 0 ;;;
        mappages pgdir 0 PGSIZE (V2P mem) (Z.lor PTE_W PTE_U) ;;;
        mwrite mem init
    end.

Definition clearpteu (pgdir uva : Z) : K unit :=
  pte <- walkpgdir pgdir uva false ;;
  match pte with
  | None => panic "clearpteu"
  | Some pte => v <- mload pte ;; mstore pte (Z.land v (Z.lnot PTE_U))
  end.

(** The loop of copyuvm over the pages [i]; [false] is the goto bad. *)
Fixpoint copy_loop (n : nat) (pgdir d i sz : Z) : K bool :=
  if negb (i <? sz) then ret true
  else
    match n with
    | O => halt (Hang "copyuvm")
    | S n' =>
        pte <- walkpgdir pgdir i false ;;
        match pte with
        | None => panic "copyuvm: pte should exist"
        | Some pte =>
            v <- mload pte ;;
            if negb (present v) then panic "copyuvm: page not present"
            else
              let pa := PTE_ADDR v in
              let flags := PTE_FLAGS v in
              mem <- kalloc ;;
              match mem with
              | None => ret false
              | Some mem =>
                  src <- gets (fun s => k_mem s !! P2V pa) ;;
                  match src with
                  | None => halt (UB "memmove")
                  | Some pg =>
                      mwrite mem pg ;;;
                      r <- mappages d i PGSIZE (V2P mem) flags ;;
                      if r <? 0 then kfree mem ;;; ret false
                      else copy_loop n' pgdir d (u32 (i + PGSIZE)) sz
                  end
              end
        end
    end.

Definition copyuvm (pgdir sz : Z) : K (option Z) :=
  d <- setupkvm ;;
  match d with
  | None => ret None
  | Some d =>
      ok <- copy_loop (S (idx (sz / PGSIZE))) pgdir d 0 sz ;;
      if (ok : bool) then ret (Some d) else freevm d ;;; ret None
  end.

(** uva2ka; a missing page table is a null dereference. *)
Definition uva2ka (pgdir uva : Z) : K (option Z) :=
  pte <- walkpgdir pgdir uva false ;;
  match pte with
  | None => halt (UB "uva2ka")
  | Some pte =>
      v <- mload pte ;;
      if negb (present v) then ret None
      else if Z.land v PTE_U =? 0 then ret None
      else ret (Some (P2V (PTE_ADDR v)))
  end.

(** copyout; each turn but the last ends at a page boundary. *)
Fixpoint copyout_loop (n : nat) (pgdir va : Z) (buf : list Z) : K Z :=
  match buf with
  | [] => ret 0
  | _ =>
      match n with
      | O => halt (Hang "copyout")
      | S n' =>
          let va0 := PGROUNDDOWN va in
          pa0 <- uva2ka pgdir va0 ;;
          match pa0 with
          | None => ret (-1)
          | Some pa0 =>
              let n := Nat.min (idx (PGSIZE - (va - va0))) (length buf) in
              mwrite (pa0 + (va - va0)) (take n buf) ;;;
              copyout_loop n' pgdir (u32 (va0 + PGSIZE)) (drop n buf)
          end
      end
  end.

Definition copyout (pgdir va : Z) (p : list Z) : K Z :=
  copyout_loop (S (S (length p / 4096))) pgdir va p.

(** ** Address arithmetic *)

Lemma land_align x : Z.land x (Z.lnot 4095) = x - x mod 4096.
Proof.
  change 4095 with (Z.ones 12). rewrite <- Z.ldiff_land, Z.ldiff_ones_r by lia.
  rewrite Z.shiftl_mul_pow2, Z.shiftr_div_pow2 by lia. change (2 ^ 12) with 4096.
  pose proof (Z.div_mod x 4096 ltac:(lia)). lia.
Qed.

Lemma PGROUNDDOWN_eq x : PGROUNDDOWN x = x - x mod 4096.
Proof. apply land_align. Qed.

Lemma PTE_ADDR_eq x : PTE_ADDR x = x - x mod 4096.
Proof. apply land_align. Qed.

Lemma PDX_eq x : PDX x = x / 4194304 mod 1024.
Proof. unfold PDX. rewrite (Z.land_ones _ 10), Z.shiftr_div_pow2 by lia. done. Qed.

Lemma PTX_eq x : PTX x = x / 4096 mod 1024.
Proof. unfold PTX. rewrite (Z.land_ones _ 10), Z.shiftr_div_pow2 by lia. done. Qed.

Lemma PDX_range x : 0 <= PDX x < 1024.
Proof. rewrite PDX_eq. apply Z.mod_pos_bound. lia. Qed.

Lemma PTX_range x : 0 <= PTX x < 1024.
Proof. rewrite PTX_eq. apply Z.mod_pos_bound. lia. Qed.

(** The indices determine the page. *)
Lemma PDX_PTX_inj x y :
  0 <= x < 2 ^ 32 -> 0 <= y < 2 ^ 32 -> x mod 4096 = 0 -> y mod 4096 = 0 ->
  PDX x = PDX y -> PTX x = PTX y -> x = y.
Proof.
  intros Hx Hy Hxa Hya. rewrite !PDX_eq, !PTX_eq. intros H1 H2.
  assert (forall z, 0 <= z < 2 ^ 32 -> z / 4194304 mod 1024 = z / 4194304) as Hs.
  { intros z Hz. apply Z.mod_small. split; [apply Z.div_pos; lia|apply Z.div_lt_upper_bound; lia]. }
  rewrite !Hs in H1 by done.
  assert (forall z, z / 4194304 = z / 4096 / 1024) as Hd.
  { intros z. rewrite Z.div_div by lia. done. }
  rewrite !Hd in H1.
  pose proof (Z.div_mod (x / 4096) 1024 ltac:(lia)). pose proof (Z.div_mod (y / 4096) 1024 ltac:(lia)).
  pose proof (Z.div_mod x 4096 ltac:(lia)). pose proof (Z.div_mod y 4096 ltac:(lia)). lia.
Qed.

(** A frame address with its flag bits. *)
Lemma lor_flags pa f : pa mod 4096 = 0 -> 0 <= f < 4096 -> Z.lor pa f = pa + f.
Proof.
  intros Hpa Hf. rewrite <- Z.add_lor_land.
  assert (Z.land pa f = 0) as ->; [|lia].
  rewrite (Z.div_mod pa 4096), Hpa, Z.add_0_r by lia.
  apply Z.bits_inj'. intros n Hn. rewrite Z.land_spec, Z.bits_0, Z.mul_comm.
  change 4096 with (2 ^ 12). destruct (Z.lt_ge_cases n 12).
  - by rewrite Z.mul_pow2_bits_low.
  - destruct (decide (f = 0)) as [->|]; [by rewrite Z.bits_0, andb_false_r|].
    rewrite (Z.bits_above_log2 f n), andb_false_r; [done|lia|].
    assert (Z.log2 f < 12) by (apply Z.log2_lt_pow2; lia). lia.
Qed.

Lemma PTE_ADDR_flags pa f : pa mod 4096 = 0 -> 0 <= f < 4096 -> PTE_ADDR (pa + f) = pa.
Proof.
  intros Hpa Hf. rewrite PTE_ADDR_eq, Z.add_mod, Hpa, Z.add_0_l, Z.mod_mod by lia.
  rewrite (Z.mod_small f 4096); lia.
Qed.

Lemma PTE_FLAGS_flags pa f : pa mod 4096 = 0 -> 0 <= f < 4096 -> PTE_FLAGS (pa + f) = f.
Proof.
  intros Hpa Hf. unfold PTE_FLAGS. rewrite (Z.land_ones _ 12) by lia. change (2 ^ 12) with 4096.
  rewrite Z.add_mod, Hpa, Z.add_0_l, Z.mod_mod by lia. apply Z.mod_small. lia.
Qed.

Lemma V2P_P2V a : 0 <= a < 2 ^ 31 -> V2P (P2V a) = a.
Proof.
  intros Ha. unfold V2P, P2V, KERNBASE. rewrite (u32_id (a + 2147483648)) by lia.
  rewrite u32_id; lia.
Qed.

Lemma P2V_V2P v : KERNBASE <= v < 2 ^ 32 -> P2V (V2P v) = v.
Proof.
  unfold V2P, P2V, KERNBASE. intros Hv. rewrite (u32_id (v - 2147483648)) by lia.
  rewrite u32_id; lia.
Qed.

Lemma V2P_align v : v mod 4096 = 0 -> V2P v mod 4096 = 0.
Proof.
  intros Hv. unfold V2P, u32, KERNBASE.
  rewrite (Z.div_mod v 4096), Hv, Z.add_0_r by lia.
  replace (4096 * (v / 4096) - 2147483648) with ((v / 4096 - 524288) * 4096) by lia.
  replace (2 ^ 32) with (1048576 * 4096) by done.
  rewrite Z.mul_mod_distr_r by lia. apply Z.mod_mul. lia.
Qed.

(** ** The free list *)

(** [l] is the free list that starts at [h]: each page holds the link to the
    next in its first word. *)
Fixpoint chain (m : gmap Z (list Z)) (h : option Z) (l : list Z) : Prop :=
  match l with
  | [] => h = None
  | v :: l' =>
      h = Some v /\ KERNBASE <= v < 2 ^ 32 /\ v mod PGSIZE = 0 /\
      exists pg, m !! v = Some pg /\ length pg = 4096%nat /\ chain m (ptr (le_load 4 pg 0)) l'
  end.

Lemma chain_det m h l l' : chain m h l -> chain m h l' -> l = l'.
Proof.
  revert h l'. induction l as [|v l IH]; intros h [|v' l']; simpl; try done.
  - by intros -> [? _].
  - by intros [-> _] ?.
  - intros (-> & _ & _ & pg & Hpg & _ & Hc) (? & _ & _ & pg' & Hpg' & _ & Hc'). simplify_eq.
    f_equal. by eapply IH.
Qed.

Lemma chain_suffix m h l1 v l2 : chain m h (l1 ++ v :: l2) -> chain m (Some v) (v :: l2).
Proof.
  revert h. induction l1 as [|u l1 IH]; intros h; simpl; [by intros (-> & H)|].
  intros (_ & _ & _ & pg & _ & _ & Hc). by eapply IH.
Qed.

(** A free list has no page twice. *)
Lemma chain_NoDup m h l : chain m h l -> NoDup l.
Proof.
  revert h. induction l as [|v l IH]; intros h Hc; [constructor|].
  pose proof Hc as (-> & _ & _ & pg & _ & _ & Hn). constructor; [|by eapply IH].
  intros [l1 [l2 ->]]%list_elem_of_split.
  assert (v :: l1 ++ v :: l2 = v :: l2) as E.
  { apply (chain_det m (Some v)); [done|]. by apply (chain_suffix m (Some v) (v :: l1)). }
  apply (f_equal length) in E. simpl in E. rewrite length_app in E. simpl in E. lia.
Qed.

(** Writes outside the free pages keep the list. *)
Lemma chain_insert m h l a pg : a ∉ l -> chain m h l -> chain (<[a := pg]> m) h l.
Proof.
  revert h. induction l as [|v l IH]; intros h Ha; simpl; [done|].
  intros (-> & Hr & Hal & pg' & Hpg & Hlen & Hc). apply not_elem_of_cons in Ha as [Hne Ha].
  split; [done|split; [done|split; [done|]]]. exists pg'. rewrite lookup_insert_ne by done.
  split_and!; [done|done|by apply IH].
Qed.

Lemma chain_elem m h l v : chain m h l -> v ∈ l ->
  KERNBASE <= v < 2 ^ 32 /\ v mod PGSIZE = 0 /\ exists pg, m !! v = Some pg /\ length pg = 4096%nat.
Proof.
  intros Hc [l1 [l2 ->]]%list_elem_of_split. apply chain_suffix in Hc as (_ & Hr & Ha & pg & Hpg & Hl & _).
  split; [done|split; [done|]]. by exists pg.
Qed.

(** The allocator can be entered: its lock is free once it is in use. *)
Definition kmem_ready (s : kstate) : Prop :=
  k_uselock s = true -> calm s /\ lock_free s lk_kmem.

Lemma page_align v : v mod PGSIZE = 0 -> pageof v = v /\ pageoff v = 0%nat.
Proof. unfold pageof, pageoff. intros ->. split; [lia|done]. Qed.

Lemma mload_ok s a pg :
  k_mem s !! pageof a = Some pg -> mload a s = Done (Ok (le_load 4 pg (pageoff a))) s.
Proof. intros H. unfold mload. by rewrite bind_gets, H. Qed.

Lemma mstore_ok s a v pg :
  k_mem s !! pageof a = Some pg ->
  mstore a v s = Done (Ok tt) (s <| k_mem ::= <[pageof a := le_store 4 pg (pageoff a) v]> |>).
Proof. intros H. unfold mstore. by rewrite bind_gets, H. Qed.

Lemma memset_page_ok s a c pg :
  k_mem s !! a = Some pg ->
  memset_page a c s = Done (Ok tt) (s <| k_mem ::= <[a := replicate 4096 (c mod 256)]> |>).
Proof. intros H. unfold memset_page. by rewrite bind_gets, H. Qed.

Lemma kalloc_nil s : kmem_ready s -> k_freelist s = None -> kalloc s = Done (Ok None) s.
Proof.
  intros Hr Hf. unfold kalloc, when. rewrite bind_gets. destruct (k_uselock s) eqn:Hu; cbv beta iota.
  - destruct (Hr Hu) as [Hc Hl]. rewrite (bind_Done _ _ _ _ _ (acquire_calm s _ Hc Hl)), bind_gets.
    change (k_freelist (acquired lk_kmem s)) with (k_freelist s). rewrite Hf, bind_ret_l.
    by rewrite (bind_Done _ _ _ _ _ (release_acquired s lk_kmem Hc Hl)).
  - rewrite bind_ret_l, bind_gets, Hf. done.
Qed.

Lemma kalloc_cons s v l :
  kmem_ready s -> chain (k_mem s) (k_freelist s) (v :: l) ->
  exists h, kalloc s = Done (Ok (Some v)) (s <| k_freelist := h |>) /\ chain (k_mem s) h l.
Proof.
  intros Hr (Hf & Hv & Ha & pg & Hpg & Hlen & Hc). destruct (page_align v Ha) as [Hp Ho].
  exists (ptr (le_load 4 pg 0)). split; [|done].
  unfold kalloc, when. rewrite bind_gets. destruct (k_uselock s) eqn:Hu; cbv beta iota.
  - destruct (Hr Hu) as [Hcm Hl]. rewrite (bind_Done _ _ _ _ _ (acquire_calm s _ Hcm Hl)), bind_gets.
    change (k_freelist (acquired lk_kmem s)) with (k_freelist s). rewrite Hf.
    set (t := s <| k_freelist := ptr (le_load 4 pg 0) |>).
    rewrite (bind_Done _ _ (acquired lk_kmem s) tt (acquired lk_kmem t)).
    2:{ rewrite (bind_Done _ _ _ _ _ (mload_ok (acquired lk_kmem s) v pg ltac:(by rewrite Hp))).
        by rewrite Ho. }
    by rewrite (bind_Done _ _ _ _ _ (release_acquired t lk_kmem Hcm Hl)).
  - rewrite bind_ret_l, bind_gets, Hf.
    rewrite (bind_Done _ _ s tt (s <| k_freelist := ptr (le_load 4 pg 0) |>)); [done|].
    rewrite (bind_Done _ _ _ _ _ (mload_ok s v pg ltac:(by rewrite Hp))). by rewrite Ho.
Qed.

(** The addresses kfree accepts. *)
Definition freeable (s : kstate) (v : Z) : Prop :=
  v mod PGSIZE = 0 /\ k_end s <= v /\ V2P v < PHYSTOP /\ KERNBASE <= v < 2 ^ 32.

(** A page on the free list: junk with the link in its first word. *)
Definition free_page (next : option Z) : list Z := le_store 4 (replicate 4096 1) 0 (default 0 next).

Lemma free_page_next m h l : chain m h l -> ptr (le_load 4 (free_page h) 0) = h.
Proof.
  intros Hc. unfold free_page. rewrite le_load_store by (rewrite length_replicate; lia).
  change (256 ^ Z.of_nat 4) with (2 ^ 32).
  destruct l as [|v l]; simpl in Hc; [by subst|]. destruct Hc as (-> & Hv & _). simpl.
  rewrite Z.mod_small by (unfold KERNBASE in Hv; lia). unfold ptr.
  by rewrite (proj2 (Z.eqb_neq v 0)) by (unfold KERNBASE in Hv; lia).
Qed.

Lemma kfree_ok s v pg l :
  kmem_ready s -> chain (k_mem s) (k_freelist s) l -> freeable s v ->
  k_mem s !! v = Some pg -> v ∉ l ->
  let s' := s <| k_mem ::= <[v := free_page (k_freelist s)]> |> <| k_freelist := Some v |> in
  kfree v s = Done (Ok tt) s' /\ chain (k_mem s') (k_freelist s') (v :: l).
Proof.
  intros Hr Hc (Ha & He & Hp & Hv) Hpg Hnl s'. destruct (page_align v Ha) as [Hpo Hoff]. split.
  - unfold kfree, when. rewrite bind_gets, Ha, (proj2 (Z.ltb_ge v _)), (proj2 (Z.leb_gt PHYSTOP _)) by lia.
    cbn [orb negb Z.eqb]. rewrite (bind_Done _ _ _ _ _ (memset_page_ok s v 1 pg Hpg)), bind_gets.
    set (s1 := s <| k_mem ::= <[v := replicate 4096 (1 mod 256)]> |>).
    change (k_uselock s1) with (k_uselock s).
    assert (forall t, k_mem t = k_mem s1 ->
      mstore v (default 0 (k_freelist s)) t =
        Done (Ok tt) (t <| k_mem ::= <[v := free_page (k_freelist s)]> |>)) as Hst.
    { intros t Ht. rewrite (mstore_ok t v _ (replicate 4096 1)); [by rewrite Hpo, Hoff|].
      rewrite Hpo, Ht. simpl. by rewrite lookup_insert_eq. }
    assert (s1 <| k_mem ::= <[v := free_page (k_freelist s)]> |> <| k_freelist := Some v |> = s') as Hs'.
    { unfold s1, s', upd, upd_k_mem, upd_k_freelist; simpl. by rewrite insert_insert_eq. }
    destruct (k_uselock s) eqn:Hu.
    + destruct (Hr Hu) as [Hcm Hl]. assert (calm s1) as Hcm1 by done. assert (lock_free s1 lk_kmem) as Hl1 by done.
      rewrite (bind_Done _ _ _ _ _ (acquire_calm s1 _ Hcm1 Hl1)), bind_gets.
      change (k_freelist (acquired lk_kmem s1)) with (k_freelist s).
      rewrite (bind_Done _ _ _ _ _ (Hst (acquired lk_kmem s1) eq_refl)), bind_modify.
      assert (calm s') as Hcm' by done. assert (lock_free s' lk_kmem) as Hl' by done.
      rewrite <- (release_acquired s' lk_kmem Hcm' Hl'). by rewrite <- Hs'.
    + rewrite bind_ret_l, bind_gets.
      rewrite (bind_Done _ _ _ _ _ (Hst s1 eq_refl)), bind_modify. by rewrite Hs'.
  - change (k_mem s') with (<[v := free_page (k_freelist s)]> (k_mem s)). cbn [chain].
    split; [done|split; [done|split; [done|]]]. exists (free_page (k_freelist s)).
    rewrite lookup_insert_eq, (free_page_next _ _ _ Hc). split_and!; [done| |by apply chain_insert].
    unfold free_page. by rewrite length_le_store, length_replicate.
Qed.

(** C24: the page allocator is a stack of free pages.  With the free list [l]
    (no page of which is there twice), kalloc returns and removes its first
    page without touching memory, or returns 0 when there is none; kfree of a
    page that is not free pushes it and changes no other page; kfree of an
    address that is not a page above the kernel panics. *)
Theorem kmem_refines s l :
  kmem_ready s -> chain (k_mem s) (k_freelist s) l ->
  NoDup l /\
  match l with
  | [] => kalloc s = Done (Ok None) s
  | v :: l' => exists h, kalloc s = Done (Ok (Some v)) (s <| k_freelist := h |>) /\
                 chain (k_mem s) h l'
  end /\
  (forall v pg, freeable s v -> k_mem s !! v = Some pg -> v ∉ l ->
     exists s', kfree v s = Done (Ok tt) s' /\ chain (k_mem s') (k_freelist s') (v :: l) /\
       forall u, u <> v -> k_mem s' !! u = k_mem s !! u) /\
  (forall v, 0 <= v < 2 ^ 32 -> v mod PGSIZE <> 0 \/ v < k_end s ->
     kfree v s = Done (Stop (Panic "kfree")) s).
Proof.
  intros Hr Hc. split_and!.
  - by eapply chain_NoDup.
  - destruct l as [|v l]; [by apply kalloc_nil|by apply kalloc_cons].
  - intros v pg Hf Hpg Hnl. destruct (kfree_ok s v pg l Hr Hc Hf Hpg Hnl) as [H1 H2].
    eexists. split_and!; [exact H1|exact H2|]. intros u Hu. simpl. by rewrite lookup_insert_ne.
  - intros v Hv Hbad. unfold kfree. rewrite bind_gets.
    destruct (Z.eqb_spec (v mod PGSIZE) 0), (Z.ltb_spec v (k_end s)); try done. lia.
Qed.

(** Two free pages, before the lock is in use. *)
Definition two_pages : kstate :=
  kstate0 <| k_mem := {[ 2281701376 := free_page None;
                         2281705472 := free_page (Some 2281701376);
                         2281709568 := replicate 4096 0 ]} |>
    <| k_freelist := Some 2281705472 |>.

Lemma two_pages_chain :
  chain (k_mem two_pages) (k_freelist two_pages) [2281705472; 2281701376].
Proof.
  split; [done|split; [unfold KERNBASE; lia|split; [done|]]]. exists (free_page (Some 2281701376)).
  split; [by vm_compute|split; [by vm_compute|]].
  split; [by vm_compute|split; [unfold KERNBASE; lia|split; [done|]]]. exists (free_page None).
  split; [by vm_compute|split; [by vm_compute|by vm_compute]].
Qed.

Lemma kmem_refines_witness :
  exists h s', kalloc two_pages = Done (Ok (Some 2281705472)) (two_pages <| k_freelist := h |>) /\
    kfree 2281709568 two_pages = Done (Ok tt) s' /\
    chain (k_mem s') (k_freelist s') [2281709568; 2281705472; 2281701376].
Proof.
  assert (kmem_ready two_pages) as Hr by done.
  destruct (kmem_refines two_pages [2281705472; 2281701376] Hr two_pages_chain)
    as (_ & (h & H1 & _) & H2 & _).
  destruct (H2 2281709568 (replicate 4096 0)) as (s' & H3 & H4 & _).
  - split_and!; by vm_compute.
  - by vm_compute.
  - by rewrite !elem_of_cons, elem_of_nil; intros [|[|]].
  - exists h, s'. split_and!; assumption.
Defined.

(** ** Page tables *)

(** The page of the table that entry [i] of the directory points to. *)
Definition tab (m : gmap Z (list Z)) (pgdir i : Z) : option Z :=
  match m !! pgdir with
  | Some pg =>
      let e := le_load 4 pg (idx (4 * i)) in
      if present e then Some (P2V (PTE_ADDR e)) else None
  | None => None
  end.

(** The present entry that maps [va]. *)
Definition translate (m : gmap Z (list Z)) (pgdir va : Z) : option Z :=
  match tab m pgdir (PDX va) with
  | Some t =>
      match m !! t with
      | Some pg =>
          let v := le_load 4 pg (idx (4 * PTX va)) in
          if present v then Some v else None
      | None => None
      end
  | None => None
  end.

Definition frame_ok (m : gmap Z (list Z)) (v : Z) : Prop :=
  v mod PGSIZE = 0 /\ KERNBASE <= v < 2 ^ 32 /\
  exists pg, m !! v = Some pg /\ length pg = 4096%nat.

(** A page table that shares no page with itself or with the free list [l]. *)
Definition pt_wf (m : gmap Z (list Z)) (pgdir : Z) (l : list Z) : Prop :=
  frame_ok m pgdir /\ (pgdir ∉ l) /\
  (forall i t, 0 <= i < 1024 -> tab m pgdir i = Some t -> frame_ok m t /\ t <> pgdir /\ t ∉ l) /\
  (forall i j t, 0 <= i < 1024 -> 0 <= j < 1024 ->
     tab m pgdir i = Some t -> tab m pgdir j = Some t -> i = j).

Lemma present_odd v : present v = Z.odd v.
Proof.
  unfold present, PTE_P. change (Z.land v 1) with (Z.land v (Z.ones 1)).
  rewrite Z.land_ones by lia. change (2 ^ 1) with 2.
  rewrite Zmod_odd. by destruct (Z.odd v).
Qed.

Lemma present_flags pa f : pa mod 4096 = 0 -> present (pa + f) = Z.odd f.
Proof.
  intros H. rewrite present_odd, Z.odd_add. rewrite (Z.div_mod pa 4096), H by lia.
  rewrite Z.add_0_r, Z.odd_mul. simpl. by destruct (Z.odd f).
Qed.

Lemma odd_lor_1 f : Z.odd (Z.lor f 1) = true.
Proof. rewrite <- Z.bit0_odd, Z.lor_spec. by rewrite orb_true_r. Qed.

Lemma lor_1_range f : 0 <= f < 4096 -> 0 <= Z.lor f 1 < 4096.
Proof.
  intros Hf. split; [apply Z.lor_nonneg; lia|].
  destruct (decide (Z.lor f 1 = 0)) as [->|]; [lia|].
  assert (Z.log2 (Z.lor f 1) < 12) as H.
  { rewrite Z.log2_lor by lia. apply Z.max_lub_lt; [|done].
    destruct (decide (f = 0)) as [->|]; [done|]. apply Z.log2_lt_pow2; lia. }
  apply Z.log2_lt_pow2 in H; [done|]. assert (0 <= Z.lor f 1) by (apply Z.lor_nonneg; lia). lia.
Qed.

Lemma page_word v i :
  v mod PGSIZE = 0 -> 0 <= i < 1024 -> pageof (v + 4 * i) = v /\ pageoff (v + 4 * i) = idx (4 * i).
Proof.
  unfold pageof, pageoff. intros Hv Hi.
  assert ((v + 4 * i) mod PGSIZE = 4 * i) as ->; [|lia].
  rewrite Z.add_mod, Hv, Z.add_0_l, Z.mod_mod by done. apply Z.mod_small. unfold PGSIZE. lia.
Qed.

Lemma word_disjoint i j :
  0 <= i < 1024 -> 0 <= j < 1024 -> i <> j ->
  (idx (4 * i) + 4 <= idx (4 * j) \/ idx (4 * j) + 4 <= idx (4 * i))%nat.
Proof. unfold idx. lia. Qed.

Lemma tab_insert_ne m pgdir i v pg : v <> pgdir -> tab (<[v := pg]> m) pgdir i = tab m pgdir i.
Proof. intros H. unfold tab. by rewrite lookup_insert_ne. Qed.

(** Storing a directory entry changes that entry only. *)
Lemma tab_store m pgdir pg i j e :
  m !! pgdir = Some pg -> length pg = 4096%nat -> 0 <= i < 1024 -> 0 <= j < 1024 ->
  0 <= e < 2 ^ 32 ->
  tab (<[pgdir := le_store 4 pg (idx (4 * i)) e]> m) pgdir j =
    if decide (j = i) then if present e then Some (P2V (PTE_ADDR e)) else None
    else tab m pgdir j.
Proof.
  intros Hpg Hlen Hi Hj He. unfold tab. rewrite lookup_insert_eq, Hpg.
  destruct (decide (j = i)) as [->|Hne].
  - rewrite le_load_store by (unfold idx; lia). change (256 ^ Z.of_nat 4) with (2 ^ 32).
    by rewrite Z.mod_small.
  - rewrite le_load_store_ne; [done|]. by apply word_disjoint.
Qed.

Lemma walk_present s pgdir va alloc t :
  frame_ok (k_mem s) pgdir -> tab (k_mem s) pgdir (PDX va) = Some t ->
  walkpgdir pgdir va alloc s = Done (Ok (Some (t + 4 * PTX va))) s.
Proof.
  intros (Ha & _ & pg & Hpg & _) Ht. unfold tab in Ht. rewrite Hpg in Ht.
  destruct (page_word pgdir (PDX va) Ha (PDX_range va)) as [Hp Ho].
  unfold walkpgdir. rewrite (bind_Done _ _ _ _ _ (mload_ok s _ pg ltac:(by rewrite Hp))), Ho.
  destruct (present _); simplify_eq. done.
Qed.

Lemma walk_absent s pgdir va :
  frame_ok (k_mem s) pgdir -> tab (k_mem s) pgdir (PDX va) = None ->
  walkpgdir pgdir va false s = Done (Ok None) s.
Proof.
  intros (Ha & _ & pg & Hpg & _) Ht. unfold tab in Ht. rewrite Hpg in Ht.
  destruct (page_word pgdir (PDX va) Ha (PDX_range va)) as [Hp Ho].
  unfold walkpgdir. rewrite (bind_Done _ _ _ _ _ (mload_ok s _ pg ltac:(by rewrite Hp))), Ho.
  by destruct (present _).
Qed.

(** A zeroed page. *)
Definition zero_page : list Z := replicate 4096 0.

Lemma zero_page_length : length zero_page = 4096%nat.
Proof. apply length_replicate. Qed.

Lemma le_load_zero n off : (off + n <= 4096)%nat -> le_load n zero_page off = 0.
Proof.
  revert off. induction n as [|n IH]; intros off Hoff; cbn [le_load]; [done|].
  rewrite IH by lia. unfold aget, zero_page. by rewrite lookup_replicate_2 by lia.
Qed.

(** The memory after walkpgdir made the page [v] the table of [va]. *)
Definition with_table (m : gmap Z (list Z)) (pgdir va v : Z) : gmap Z (list Z) :=
  match m !! pgdir with
  | Some pg => <[pgdir := le_store 4 pg (idx (4 * PDX va)) (V2P v + 7)]> (<[v := zero_page]> m)
  | None => m
  end.

Lemma walk_alloc s pgdir va v l :
  kmem_ready s -> chain (k_mem s) (k_freelist s) (v :: l) -> pt_wf (k_mem s) pgdir (v :: l) ->
  tab (k_mem s) pgdir (PDX va) = None ->
  exists h, walkpgdir pgdir va true s =
      Done (Ok (Some (v + 4 * PTX va)))
        (s <| k_mem := with_table (k_mem s) pgdir va v |> <| k_freelist := h |>) /\
    chain (k_mem s) h l.
Proof.
  intros Hr Hc (Hd & Hnl & _) Ht. destruct (kalloc_cons s v l Hr Hc) as (h & Hka & Hch).
  exists h. split; [|done]. destruct Hc as (_ & Hv & Hva & vpg & Hvpg & Hvlen & _).
  destruct Hd as (Ha & Hrange & pg & Hpg & Hlen). unfold tab in Ht. rewrite Hpg in Ht.
  destruct (page_word pgdir (PDX va) Ha (PDX_range va)) as [Hp Ho].
  apply not_elem_of_cons in Hnl as [Hne _].
  unfold walkpgdir. rewrite (bind_Done _ _ _ _ _ (mload_ok s _ pg ltac:(by rewrite Hp))), Ho.
  destruct (present _); [done|]. cbn [negb].
  rewrite (bind_Done _ _ _ _ _ Hka). set (s1 := s <| k_freelist := h |>).
  rewrite (bind_Done _ _ _ _ _ (memset_page_ok s1 v 0 vpg Hvpg)).
  set (s2 := s1 <| k_mem ::= <[v := replicate 4096 (0 mod 256)]> |>).
  assert (k_mem s2 !! pageof (pgdir + 4 * PDX va) = Some pg) as Hpg2.
  { rewrite Hp. change (k_mem s2) with (<[v := zero_page]> (k_mem s)). by rewrite lookup_insert_ne. }
  rewrite (bind_Done _ _ _ _ _ (mstore_ok s2 _ _ pg Hpg2)), Hp, Ho. unfold ret. f_equal.
  unfold with_table. rewrite Hpg.
  assert (Z.lor (Z.lor (Z.lor (V2P v) PTE_P) PTE_W) PTE_U = V2P v + 7) as ->; [|done].
  rewrite <- !Z.lor_assoc. apply (lor_flags (V2P v) 7); [by apply V2P_align|lia].
Qed.

Section with_table.
Context (m : gmap Z (list Z)) (pgdir va v : Z) (l : list Z).
Context (Hwf : pt_wf m pgdir (v :: l)) (Hv : frame_ok m v) (Hnl : v ∉ l)
        (Ht : tab m pgdir (PDX va) = None).

Lemma with_table_tab i :
  0 <= i < 1024 ->
  tab (with_table m pgdir va v) pgdir i = if decide (i = PDX va) then Some v else tab m pgdir i.
Proof.
  intros Hi. destruct Hwf as ((Ha & Hr & pg & Hpg & Hlen) & Hn & _).
  apply not_elem_of_cons in Hn as [Hne _]. destruct Hv as (Hva & Hvr & _).
  assert (0 <= V2P v + 7 < 2 ^ 32) as Hrange.
  { unfold V2P. rewrite u32_id by (unfold KERNBASE in *; lia). unfold KERNBASE in *. lia. }
  unfold with_table. rewrite Hpg. rewrite tab_store; rewrite ?lookup_insert_ne; try done; [|apply PDX_range].
  destruct (decide (i = PDX va)) as [->|]; [|by apply tab_insert_ne].
  rewrite present_flags by (by apply V2P_align). simpl.
  rewrite PTE_ADDR_flags by (try (by apply V2P_align); lia). f_equal. by apply P2V_V2P.
Qed.

Lemma with_table_lookup u :
  u <> v -> u <> pgdir -> with_table m pgdir va v !! u = m !! u.
Proof.
  intros H1 H2. unfold with_table. destruct (m !! pgdir); [|done].
  by rewrite !lookup_insert_ne.
Qed.

Lemma with_table_new : with_table m pgdir va v !! v = Some zero_page.
Proof.
  destruct Hwf as ((Ha & Hr & pg & Hpg & Hlen) & Hn & _). apply not_elem_of_cons in Hn as [Hne _].
  unfold with_table. rewrite Hpg, lookup_insert_ne, lookup_insert_eq; done.
Qed.

Lemma with_table_frame u : frame_ok m u -> frame_ok (with_table m pgdir va v) u.
Proof.
  intros (Hu & Hur & pgu & Hpgu & Hlenu). split; [done|split; [done|]].
  destruct (decide (u = v)) as [->|Huv]; 
    [exists zero_page; split; [apply with_table_new|apply zero_page_length]|].
  destruct (decide (u = pgdir)) as [->|Hup]; [|exists pgu; by rewrite with_table_lookup].
  unfold with_table. rewrite Hpgu, lookup_insert_eq. eexists. split; [done|]. by rewrite length_le_store.
Qed.

Lemma with_table_wf : pt_wf (with_table m pgdir va v) pgdir l.
Proof.
  pose proof Hwf as (Hd & Hn & Htabs & Hinj). apply not_elem_of_cons in Hn as [Hne Hn].
  split_and!; [by apply with_table_frame|done| |].
  - intros i t Hi. rewrite with_table_tab by done. destruct (decide (i = PDX va)) as [->|].
    + intros [= <-]. split_and!; [by apply with_table_frame|done|done].
    + intros Hti. destruct (Htabs i t Hi Hti) as (H1 & H2 & H3). apply not_elem_of_cons in H3 as [_ H3].
      split_and!; [by apply with_table_frame|done|done].
  - intros i j t Hi Hj. rewrite !with_table_tab by done.
    destruct (decide (i = PDX va)), (decide (j = PDX va)); subst; try done.
    + intros [= <-] Htj. destruct (Htabs j v Hj Htj) as (_ & _ & H3).
      by apply not_elem_of_cons in H3 as [? _].
    + intros Hti [= <-]. destruct (Htabs i v Hi Hti) as (_ & _ & H3).
      by apply not_elem_of_cons in H3 as [? _].
    + by apply Hinj.
Qed.

(** A new table maps nothing. *)
Lemma with_table_translate va' : translate (with_table m pgdir va v) pgdir va' = translate m pgdir va'.
Proof.
  pose proof Hwf as (_ & _ & Htabs & _). unfold translate.
  rewrite with_table_tab by apply PDX_range. destruct (decide (PDX va' = PDX va)) as [E|].
  - rewrite E, Ht, with_table_new. pose proof (PTX_range va').
    by rewrite le_load_zero by (unfold idx; lia).
  - destruct (tab m pgdir (PDX va')) as [t|] eqn:E; [|done].
    destruct (Htabs _ t (PDX_range va') E) as (_ & H2 & H3). apply not_elem_of_cons in H3 as [H3 _].
    by rewrite with_table_lookup.
Qed.
End with_table.

(** Storing an entry in a table. *)
Section with_pte.
Context (m : gmap Z (list Z)) (pgdir va t e : Z) (l pg : list Z).
Context (Hwf : pt_wf m pgdir l) (Ht : tab m pgdir (PDX va) = Some t)
        (Hpg : m !! t = Some pg) (He : 0 <= e < 2 ^ 32).

Let m' := <[t := le_store 4 pg (idx (4 * PTX va)) e]> m.

Lemma with_pte_facts : length pg = 4096%nat /\ t <> pgdir /\ (t ∉ l) /\ t mod PGSIZE = 0.
Proof.
  pose proof Hwf as (_ & _ & Htabs & _).
  destruct (Htabs _ t (PDX_range va) Ht) as ((Ha & _ & pg' & Hpg' & Hlen) & H2 & H3).
  simplify_eq. done.
Qed.

Lemma with_pte_frame u : frame_ok m u -> frame_ok m' u.
Proof.
  destruct with_pte_facts as (Hlen & _). intros (Hu & Hur & pgu & Hpgu & Hlenu).
  split; [done|split; [done|]]. unfold m'. destruct (decide (u = t)) as [->|].
  - rewrite lookup_insert_eq. eexists. split; [done|]. by rewrite length_le_store.
  - rewrite lookup_insert_ne by done. by exists pgu.
Qed.

Lemma with_pte_wf : pt_wf m' pgdir l.
Proof.
  destruct with_pte_facts as (_ & Hne & _). pose proof Hwf as (Hd & Hn & Htabs & Hinj).
  split_and!; [by apply with_pte_frame|done| |].
  - intros i t' Hi. unfold m'. rewrite tab_insert_ne by done. intros Hti.
    destruct (Htabs i t' Hi Hti) as (H1 & H2 & H3). split_and!; [by apply with_pte_frame|done|done].
  - intros i j t' Hi Hj. unfold m'. rewrite !tab_insert_ne by done. by apply Hinj.
Qed.

Lemma with_pte_same : translate m' pgdir va = if present e then Some e else None.
Proof.
  destruct with_pte_facts as (Hlen & Hne & _). pose proof (PTX_range va).
  unfold translate, m'. rewrite tab_insert_ne by done. rewrite Ht, lookup_insert_eq.
  rewrite le_load_store by (unfold idx; lia). change (256 ^ Z.of_nat 4) with (2 ^ 32).
  by rewrite Z.mod_small.
Qed.

Lemma with_pte_other va' :
  PDX va' <> PDX va \/ PTX va' <> PTX va -> translate m' pgdir va' = translate m pgdir va'.
Proof.
  destruct with_pte_facts as (Hlen & Hne & _). pose proof Hwf as (_ & _ & _ & Hinj). intros Hd.
  unfold translate, m'. rewrite tab_insert_ne by done.
  destruct (tab m pgdir (PDX va')) as [t'|] eqn:Ht'; [|done].
  destruct (decide (t' = t)) as [->|]; [|by rewrite lookup_insert_ne].
  assert (PDX va' = PDX va) by (apply (Hinj _ _ t); auto using PDX_range).
  rewrite lookup_insert_eq, Hpg. rewrite le_load_store_ne; [done|].
  apply word_disjoint; [apply PTX_range..|]. destruct Hd; congruence.
Qed.
End with_pte.

(** What mapping pages does to the state: only memory and the free list change,
    the free list loses its first pages, only virtual pages in [P] change their
    translation, new tables come from the free list, and no page changes that
    is neither free nor part of the page table. *)
Definition vm_step (P : Z -> Prop) (pgdir : Z) (s : kstate) (l : list Z) (s' : kstate) (l' : list Z) : Prop :=
  (exists m h, s' = s <| k_mem := m |> <| k_freelist := h |>) /\
  chain (k_mem s') (k_freelist s') l' /\ pt_wf (k_mem s') pgdir l' /\
  (exists l0, l = l0 ++ l') /\
  (forall va, va mod 4096 = 0 -> 0 <= va < 2 ^ 32 -> ~ P va ->
     translate (k_mem s') pgdir va = translate (k_mem s) pgdir va) /\
  (forall i t, 0 <= i < 1024 -> tab (k_mem s') pgdir i = Some t ->
     tab (k_mem s) pgdir i = Some t \/ (t ∈ l /\ t ∉ l')) /\
  (forall u, u <> pgdir -> u ∉ l -> (forall i, 0 <= i < 1024 -> tab (k_mem s) pgdir i <> Some u) ->
     k_mem s' !! u = k_mem s !! u).

(** What walkpgdir with alloc does: out of memory, or the table [t] of [a] is
    there, and nothing else is mapped or unmapped. *)
Lemma walk_cases s pgdir a l :
  kmem_ready s -> chain (k_mem s) (k_freelist s) l -> pt_wf (k_mem s) pgdir l ->
  (l = [] /\ walkpgdir pgdir a true s = Done (Ok None) s) \/
  exists t pg m h l', walkpgdir pgdir a true s =
      Done (Ok (Some (t + 4 * PTX a))) (s <| k_mem := m |> <| k_freelist := h |>) /\
    chain m h l' /\ pt_wf m pgdir l' /\ (l' = l \/ exists v, l = v :: l') /\
    tab m pgdir (PDX a) = Some t /\ m !! t = Some pg /\
    (forall va, translate m pgdir va = translate (k_mem s) pgdir va) /\
    (forall i u, 0 <= i < 1024 -> tab m pgdir i = Some u ->
       tab (k_mem s) pgdir i = Some u \/ (u ∈ l /\ u ∉ l')) /\
    (forall u, u <> pgdir -> u <> t -> m !! u = k_mem s !! u).
Proof.
  intros Hr Hc Hwf. pose proof Hwf as (Hd & Hnl & Htabs & _).
  destruct (tab (k_mem s) pgdir (PDX a)) as [t|] eqn:Ht.
  - right. destruct (Htabs _ t (PDX_range a) Ht) as ((_ & _ & pg & Hpg & _) & _).
    exists t, pg, (k_mem s), (k_freelist s), l.
    split; [rewrite (walk_present s pgdir a true t Hd Ht); by destruct s|].
    split_and!; auto.
  - destruct l as [|v l].
    + left. split; [done|]. destruct Hd as (Ha & _ & pg & Hpg & _). unfold tab in Ht. rewrite Hpg in Ht.
      destruct (page_word pgdir (PDX a) Ha (PDX_range a)) as [Hp Ho].
      unfold walkpgdir. rewrite (bind_Done _ _ _ _ _ (mload_ok s _ pg ltac:(by rewrite Hp))), Ho.
      destruct (present _); [done|]. cbn [negb]. by rewrite (bind_Done _ _ _ _ _ (kalloc_nil s Hr Hc)).
    + right. destruct (walk_alloc s pgdir a v l Hr Hc Hwf Ht) as (h & Hw & Hch).
      pose proof Hc as (_ & Hv & Hva & vpg & Hvpg & Hvlen & _).
      pose proof (chain_NoDup _ _ _ Hc) as [Hvl _]%NoDup_cons.
      assert (frame_ok (k_mem s) v) as Hfv by (split; [done|split; [done|by exists vpg]]).
      exists v, zero_page, (with_table (k_mem s) pgdir a v), h, l.
      split; [exact Hw|]. split; [|split; [|split; [|split; [|split; [|split; [|split]]]]]].
      * apply not_elem_of_cons in Hnl as [_ Hnl]. unfold with_table. destruct (k_mem s !! pgdir); [|done].
        apply chain_insert; [done|]. by apply chain_insert.
      * by apply with_table_wf.
      * right. by exists v.
      * rewrite (with_table_tab _ _ _ _ l) by (done || apply PDX_range). by rewrite decide_True.
      * by apply (with_table_new _ _ _ _ l).
      * intros va. by apply (with_table_translate _ _ _ _ l).
      * intros i u Hi. rewrite (with_table_tab _ _ _ _ l) by done.
        destruct (decide (i = PDX a)); [|by left]. intros [= <-]. right. split; [by left|done].
      * intros u ??. by apply with_table_lookup.
Qed.

(** One turn of mappages on an unmapped page: out of memory, or mapped. *)
Lemma mappages_turn n s pgdir a last pa perm l :
  kmem_ready s -> chain (k_mem s) (k_freelist s) l -> pt_wf (k_mem s) pgdir l ->
  a mod 4096 = 0 -> 0 <= a < 2 ^ 32 -> pa mod 4096 = 0 -> 0 <= pa < 2 ^ 32 -> 0 <= perm < 4096 ->
  translate (k_mem s) pgdir a = None ->
  (l = [] /\ mappages_loop n pgdir a last pa perm s = Done (Ok (-1)) s) \/
  exists s' l', vm_step (eq a) pgdir s l s' l' /\ (length l <= length l' + 1)%nat /\
    translate (k_mem s') pgdir a = Some (pa + Z.lor perm 1) /\
    mappages_loop n pgdir a last pa perm s =
      (if a =? last then ret 0
       else match n with
            | O => halt (Hang "mappages")
            | S n' => mappages_loop n' pgdir (u32 (a + PGSIZE)) last (u32 (pa + PGSIZE)) perm
            end) s'.
Proof.
  intros Hr Hc Hwf Ha Har Hpa Hpar Hperm Hnone.
  assert (Z.lor (Z.lor pa perm) PTE_P = pa + Z.lor perm 1) as He.
  { rewrite <- Z.lor_assoc. apply lor_flags; [done|by apply lor_1_range]. }
  assert (0 <= pa + Z.lor perm 1 < 2 ^ 32) as Her.
  { pose proof (lor_1_range perm Hperm). pose proof (Z.div_mod pa 4096 ltac:(lia)).
    assert (pa / 4096 < 1048576) by (apply Z.div_lt_upper_bound; lia). lia. }
  destruct (walk_cases s pgdir a l Hr Hc Hwf) as [Hmem|Hwalk].
  - left. destruct Hmem as [-> Hw]. split; [done|]. destruct n; cbn [mappages_loop];
      by rewrite (bind_Done _ _ _ _ _ Hw).
  - right. destruct Hwalk as (t & pg & m & h & l' & Hw & Hch & Hwf' & Hl' & Ht & Hpg & Htr & Hnew & Hot).
    set (s1 := s <| k_mem := m |> <| k_freelist := h |>) in Hw.
    destruct (with_pte_facts m pgdir a t l' pg Hwf' Ht Hpg) as (Hlen & Htd & Htl & Hta).
    destruct (page_word t (PTX a) Hta (PTX_range a)) as [Hp Ho].
    assert (k_mem s1 !! pageof (t + 4 * PTX a) = Some pg) as Hpg1 by (by rewrite Hp).
    assert (present (le_load 4 pg (idx (4 * PTX a))) = false) as Hnp.
    { rewrite <- (Htr a) in Hnone. unfold translate in Hnone. rewrite Ht, Hpg in Hnone.
      by destruct (present _). }
    set (m' := <[t := le_store 4 pg (idx (4 * PTX a)) (pa + Z.lor perm 1)]> m).
    exists (s <| k_mem := m' |> <| k_freelist := h |>), l'. split; [|split; [|split]].
    + split; [by exists m', h|]. change (k_mem (upd _ _)) with m'.
      split; [by apply chain_insert|]. split; [by apply with_pte_wf with (va := a)|].
      split; [destruct Hl' as [->|[v ->]]; [by exists []|by exists [v]]|]. split; [|split].
      * intros va Hva Hvar Hne. rewrite <- Htr. unfold m'.
        apply (with_pte_other _ _ _ _ _ l'); [done..|].
        destruct (decide (PDX va = PDX a)); [|by left]. right. intros ?. apply Hne.
        by apply PDX_PTX_inj.
      * intros i u Hi. unfold m'. rewrite tab_insert_ne by done. by apply Hnew.
      * intros u Hud Hul Hut. unfold m'.
        assert (u <> t) as Hne.
        { intros ->. destruct (Hnew (PDX a) t (PDX_range a) Ht) as [E|[? _]]; [|done].
          by apply (Hut (PDX a) (PDX_range a)). }
        rewrite lookup_insert_ne by done. by apply Hot.
    + destruct Hl' as [->|[v ->]]; simpl; lia.
    + change (k_mem (upd _ _)) with m'. unfold m'. rewrite (with_pte_same _ _ _ _ _ l') by done.
      by rewrite present_flags, odd_lor_1.
    + destruct n; cbn [mappages_loop]; rewrite (bind_Done _ _ _ _ _ Hw);
        rewrite (bind_Done _ _ _ _ _ (mload_ok s1 _ pg Hpg1)), Ho, Hnp;
        rewrite (bind_Done _ _ _ _ _ (mstore_ok s1 _ _ pg Hpg1)), Hp, Ho, He; reflexivity.
Qed.

Lemma vm_step_refl P pgdir s l :
  chain (k_mem s) (k_freelist s) l -> pt_wf (k_mem s) pgdir l -> vm_step P pgdir s l s l.
Proof.
  intros Hc Hwf. split; [exists (k_mem s), (k_freelist s); by destruct s|].
  split; [done|]. split; [done|]. split; [by exists []|]. split_and!; auto.
Qed.

Lemma vm_step_trans P1 P2 pgdir s0 l0 s1 l1 s2 l2 :
  vm_step P1 pgdir s0 l0 s1 l1 -> vm_step P2 pgdir s1 l1 s2 l2 ->
  vm_step (fun va => P1 va \/ P2 va) pgdir s0 l0 s2 l2.
Proof.
  intros ((m1 & h1 & ->) & Hc1 & Hw1 & [k1 ->] & Ht1 & Hn1 & Hf1)
         ((m2 & h2 & ->) & Hc2 & Hw2 & [k2 ->] & Ht2 & Hn2 & Hf2).
  split; [by exists m2, h2|]. split; [done|]. split; [done|].
  split; [exists (k1 ++ k2); by rewrite app_assoc|]. split_and!.
  - intros va Ha Hr HP. rewrite Ht2 by tauto. apply Ht1; tauto.
  - intros i t Hi Ht. destruct (Hn2 i t Hi Ht) as [H|[H1 H2]].
    + destruct (Hn1 i t Hi H) as [|[H3 H4]]; [by left|right]. split; [done|].
      intros ?. apply H4. apply elem_of_app. by right.
    + right. split; [apply elem_of_app; by right|done].
  - intros u Hd Hu Hi. rewrite not_elem_of_app in Hu. rewrite Hf2; [by apply Hf1; [|rewrite not_elem_of_app|]|done|tauto|].
    intros i Hir Ht. destruct (Hn1 i u Hir Ht) as [H|[H _]]; [by apply (Hi i)|].
    rewrite elem_of_app in H. tauto.
Qed.

Lemma vm_step_weaken (P Q : Z -> Prop) pgdir s l s' l' :
  (forall va, P va -> Q va) -> vm_step P pgdir s l s' l' -> vm_step Q pgdir s l s' l'.
Proof.
  intros HPQ (H1 & H2 & H3 & H4 & H5 & H6 & H7).
  do 4 (split; [done|]). split; [|done]. intros va Ha Hr HQ. apply H5; auto.
Qed.

Lemma vm_step_ready P pgdir s l s' l' : vm_step P pgdir s l s' l' -> kmem_ready s -> kmem_ready s'.
Proof. by intros ((m & h & ->) & _) Hr. Qed.

(** ** mappages *)

Definition in_range (a n : Z) (va : Z) : Prop := a <= va < a + n * 4096.

Lemma mappages_loop_maps k s pgdir a pa perm l :
  kmem_ready s -> chain (k_mem s) (k_freelist s) l -> pt_wf (k_mem s) pgdir l ->
  a mod 4096 = 0 -> 0 <= a -> a + (Z.of_nat k + 1) * 4096 <= 2 ^ 32 ->
  pa mod 4096 = 0 -> 0 <= pa -> pa + (Z.of_nat k + 1) * 4096 <= 2 ^ 32 -> 0 <= perm < 4096 ->
  (forall va, va mod 4096 = 0 -> in_range a (Z.of_nat k + 1) va -> translate (k_mem s) pgdir va = None) ->
  exists r s' l', mappages_loop k pgdir a (a + Z.of_nat k * 4096) pa perm s = Done (Ok r) s' /\
    vm_step (in_range a (Z.of_nat k + 1)) pgdir s l s' l' /\
    (length l <= length l' + (k + 1))%nat /\
    ((r = -1 /\ l' = [] /\ (length l <= k)%nat) \/
     (r = 0 /\ forall i, 0 <= i <= Z.of_nat k ->
        translate (k_mem s') pgdir (a + i * 4096) = Some (pa + i * 4096 + Z.lor perm 1))).
Proof.
  revert s a pa l. induction k as [|k IH]; intros s a pa l Hr Hc Hwf Ha Ha0 Ha1 Hpa Hpa0 Hpa1 Hperm Hun.
  - destruct (mappages_turn 0 s pgdir a (a + Z.of_nat 0 * 4096) pa perm l) as [[-> Hm]|(s1 & l1 & Hst & Hlen & Htr & Hm)];
      try done; [lia|lia|apply Hun; [done|unfold in_range; lia]| |].
    + exists (-1), s, []. rewrite Hm. split; [done|]. split; [by apply vm_step_refl|].
      split; [simpl; lia|by left].
    + exists 0, s1, l1. rewrite Hm, (proj2 (Z.eqb_eq _ _)) by lia. split; [done|]. split.
      * eapply vm_step_weaken; [|done]. unfold in_range. intros va <-. lia.
      * split; [lia|]. right. split; [done|]. intros i Hi. replace i with 0 by lia. by rewrite !Z.add_0_r.
  - assert (0 <= a < 2 ^ 32 /\ 0 <= pa < 2 ^ 32) as [Har Hpar] by lia.
    destruct (mappages_turn (S k) s pgdir a (a + Z.of_nat (S k) * 4096) pa perm l)
      as [[-> Hm]|(s1 & l1 & Hst & Hlen & Htr & Hm)]; try done; [apply Hun; [done|unfold in_range; lia]| |].
    { exists (-1), s, []. rewrite Hm. split; [done|]. split; [by apply vm_step_refl|].
      split; [simpl; lia|left; simpl; split_and!; [done|done|lia]]. }
    rewrite (proj2 (Z.eqb_neq _ _)) in Hm by lia. unfold PGSIZE in Hm.
    rewrite (u32_id (a + 4096)), (u32_id (pa + 4096)) in Hm by lia.
    pose proof Hst as (_ & Hc1 & Hwf1 & _ & Hot & _).
    destruct (IH s1 (a + 4096) (pa + 4096) l1) as (r & s2 & l2 & Hm2 & Hst2 & Hlen2 & Hres); try done; try lia.
    { by eapply vm_step_ready. }
    { rewrite Z.add_mod, Ha by lia. done. }
    { rewrite Z.add_mod, Hpa by lia. done. }
    { intros va Hva Hin. unfold in_range in Hin. rewrite Hot by (done || lia).
      apply Hun; [done|]. unfold in_range. lia. }
    exists r, s2, l2. rewrite Hm. replace (a + Z.of_nat (S k) * 4096) with (a + 4096 + Z.of_nat k * 4096) by lia.
    split; [done|]. split.
    + eapply vm_step_weaken; [|by eapply vm_step_trans]. unfold in_range. intros va [<-|]; lia.
    + split; [lia|]. destruct Hres as [(-> & -> & ?)|[-> Hres]];
        [left; split_and!; [done|done|lia]|right]. split; [done|]. intros i Hi.
      destruct (decide (i = 0)) as [->|].
      * rewrite !Z.add_0_r. pose proof Hst2 as (_ & _ & _ & _ & Hot2 & _).
        rewrite Hot2; [done|done|done|]. unfold in_range. lia.
      * specialize (Hres (i - 1) ltac:(lia)).
        replace (a + i * 4096) with (a + 4096 + (i - 1) * 4096) by lia.
        rewrite Hres. f_equal. lia.
Qed.

Lemma mappages_range s pgdir va n pa perm l :
  kmem_ready s -> chain (k_mem s) (k_freelist s) l -> pt_wf (k_mem s) pgdir l ->
  va mod PGSIZE = 0 -> 0 <= va -> 0 < n -> va + n * PGSIZE <= 2 ^ 32 ->
  pa mod PGSIZE = 0 -> 0 <= pa -> pa + n * PGSIZE <= 2 ^ 32 -> 0 <= perm < 4096 ->
  (forall a, a mod PGSIZE = 0 -> in_range va n a -> translate (k_mem s) pgdir a = None) ->
  exists r s' l', mappages pgdir va (n * PGSIZE) pa perm s = Done (Ok r) s' /\
    vm_step (in_range va n) pgdir s l s' l' /\
    (length l <= length l' + Z.to_nat n)%nat /\
    ((r = -1 /\ l' = [] /\ (length l < Z.to_nat n)%nat) \/
     (r = 0 /\ forall i, 0 <= i < n ->
        translate (k_mem s') pgdir (va + i * PGSIZE) = Some (pa + i * PGSIZE + Z.lor perm PTE_P))).
Proof.
  unfold PGSIZE, PTE_P. intros Hr Hc Hwf Ha Ha0 Hn Ha1 Hpa Hpa0 Hpa1 Hperm Hun.
  destruct (mappages_loop_maps (Z.to_nat (n - 1)) s pgdir va pa perm l) as (r & s' & l' & Hm & Hst & Hlen & Hres);
    try done; try lia; rewrite ?Z2Nat.id by lia; try lia.
  { intros a. replace (n - 1 + 1) with n by lia. apply Hun. }
  rewrite Z2Nat.id in * by lia. replace (n - 1 + 1) with n in * by lia.
  exists r, s', l'. split; [|split; [done|split; [lia|]]].
  - unfold mappages, PGSIZE. rewrite (PGROUNDDOWN_eq va), Ha, Z.sub_0_r.
    rewrite (u32_id (va + n * 4096 - 1)), PGROUNDDOWN_eq by lia.
    assert ((va + n * 4096 - 1) mod 4096 = 4095) as ->.
    { replace (va + n * 4096 - 1) with (va - 1 + n * 4096) by lia. rewrite Z.mod_add by lia.
      rewrite (Z.div_mod va 4096), Ha by lia. symmetry. apply (Z.mod_unique_pos _ _ (va / 4096 - 1)); lia. }
    replace (va + n * 4096 - 1 - 4095) with (va + (n - 1) * 4096) by lia.
    replace (va + (n - 1) * 4096 - va) with ((n - 1) * 4096) by lia.
    rewrite u32_id, Z.div_mul by lia. exact Hm.
  - destruct Hres as [(-> & -> & ?)|[-> Hres]]; [left; split_and!; [done|done|lia]|right]. split; [done|]. intros i Hi. apply Hres. lia.
Qed.

(** C23: mappages maps a range of pages and nothing else.  On an unmapped range
    of [n] pages it ends with 0, every page va+i*PGSIZE mapped to the entry
    pa+i*PGSIZE with the permissions and the present bit, or with -1 and no
    free page left; the page table stays well formed, no other page changes its
    translation, and no page of memory changes that is neither a free page nor
    part of this page table. *)
Theorem mappages_maps s pgdir va n pa perm l :
  kmem_ready s -> chain (k_mem s) (k_freelist s) l -> pt_wf (k_mem s) pgdir l ->
  va mod PGSIZE = 0 -> 0 <= va -> 0 < n -> va + n * PGSIZE <= 2 ^ 32 ->
  pa mod PGSIZE = 0 -> 0 <= pa -> pa + n * PGSIZE <= 2 ^ 32 -> 0 <= perm < 4096 ->
  (forall a, a mod PGSIZE = 0 -> in_range va n a -> translate (k_mem s) pgdir a = None) ->
  exists r s' l', mappages pgdir va (n * PGSIZE) pa perm s = Done (Ok r) s' /\
    vm_step (in_range va n) pgdir s l s' l' /\
    ((r = -1 /\ l' = []) \/
     (r = 0 /\ forall i, 0 <= i < n ->
        translate (k_mem s') pgdir (va + i * PGSIZE) = Some (pa + i * PGSIZE + Z.lor perm PTE_P))).
Proof.
  intros Hr Hc Hwf Ha Ha0 Hn Ha1 Hpa Hpa0 Hpa1 Hperm Hun.
  destruct (mappages_range s pgdir va n pa perm l) as (r & s' & l' & Hm & Hst & _ & Hres); try done.
  exists r, s', l'. split; [done|]. split; [done|]. destruct Hres as [(-> & -> & _)|]; [by left|by right].
Qed.

(** A directory that maps nothing. *)
Lemma tab_zero m pgdir i : m !! pgdir = Some zero_page -> 0 <= i < 1024 -> tab m pgdir i = None.
Proof.
  intros Hd Hi. unfold tab. rewrite Hd. by rewrite le_load_zero by (unfold idx; lia).
Qed.

Lemma pt_wf_zero m pgdir l :
  pgdir mod PGSIZE = 0 -> KERNBASE <= pgdir < 2 ^ 32 -> m !! pgdir = Some zero_page -> pgdir ∉ l ->
  pt_wf m pgdir l.
Proof.
  intros Ha Hr Hd Hl. split_and!; [|done| |].
  - split; [done|split; [done|]]. exists zero_page. split; [done|apply zero_page_length].
  - intros i t Hi. by rewrite tab_zero.
  - intros i j t Hi Hj. by rewrite tab_zero.
Qed.

Lemma translate_zero m pgdir va : m !! pgdir = Some zero_page -> translate m pgdir va = None.
Proof. intros Hd. unfold translate. by rewrite tab_zero by (done || apply PDX_range). Qed.

Lemma two_pages_wf : pt_wf (k_mem two_pages) 2281709568 [2281705472; 2281701376].
Proof.
  apply pt_wf_zero; [done|unfold KERNBASE; lia|by vm_compute|].
  by rewrite !elem_of_cons, elem_of_nil; intros [|[|]].
Qed.

Lemma mappages_maps_witness :
  exists r s' l', mappages 2281709568 8192 (1 * PGSIZE) 12288 6 two_pages = Done (Ok r) s' /\
    vm_step (in_range 8192 1) 2281709568 two_pages [2281705472; 2281701376] s' l' /\
    r = 0 /\ translate (k_mem s') 2281709568 (8192 + 0 * PGSIZE) = Some (12288 + 0 * PGSIZE + Z.lor 6 PTE_P).
Proof.
  assert (kmem_ready two_pages) as Hr by done.
  destruct (mappages_maps two_pages 2281709568 8192 1 12288 6 [2281705472; 2281701376] Hr
    two_pages_chain two_pages_wf) as (r & s' & l' & Hm & Hst & Hres);
    try done; [intros; apply translate_zero; by vm_compute|].
  exists r, s', l'.
  assert (match mappages 2281709568 8192 (1 * PGSIZE) 12288 6 two_pages with
          | Done (Ok r) _ => r =? 0 | _ => false end = true) as H0 by (by vm_compute).
  rewrite Hm in H0. apply Z.eqb_eq in H0. split; [exact Hm|]. split; [exact Hst|].
  destruct Hres as [[-> _]|[-> H]]; [done|]. split; [done|]. apply H. lia.
Defined.

(** ** allocuvm *)

Lemma PGROUNDUP_eq x : 0 <= x < 2 ^ 31 -> PGROUNDUP x = (x + 4095) / 4096 * 4096.
Proof.
  intros Hx. unfold PGROUNDUP, PGSIZE. rewrite u32_id by lia. change (4096 - 1) with 4095.
  rewrite land_align. replace (x + 4096 - 1) with (x + 4095) by lia.
  pose proof (Z.div_mod (x + 4095) 4096 ltac:(lia)). lia.
Qed.

(** [n] pages from [a] on are mapped, user-writable, to distinct zeroed pages
    of the free list. *)
Definition fresh_pages (m : gmap Z (list Z)) (pgdir a n : Z) (l l' : list Z) (f : Z -> Z) : Prop :=
  (forall i, 0 <= i < n -> translate m pgdir (a + i * 4096) = Some (V2P (f i) + 7) /\
     f i ∈ l /\ (f i ∉ l') /\ m !! f i = Some zero_page /\
     (forall j, 0 <= j < 1024 -> tab m pgdir j <> Some (f i))) /\
  (forall i j, 0 <= i < n -> 0 <= j < n -> f i = f j -> i = j).

(** Taking a page for user memory: kalloc and memset. *)
Lemma take_page s pgdir v l :
  kmem_ready s -> chain (k_mem s) (k_freelist s) (v :: l) -> pt_wf (k_mem s) pgdir (v :: l) ->
  exists s1 s2, kalloc s = Done (Ok (Some v)) s1 /\ memset_page v 0 s1 = Done (Ok tt) s2 /\
    kmem_ready s2 /\ k_mem s2 !! v = Some zero_page /\
    (forall j, tab (k_mem s2) pgdir j = tab (k_mem s) pgdir j) /\
    vm_step (fun _ => False) pgdir s (v :: l) s2 l.
Proof.
  intros Hr Hc Hwf. destruct (kalloc_cons s v l Hr Hc) as (h & Hka & Hch).
  pose proof Hc as (_ & Hv & Hva & vpg & Hvpg & Hvlen & _).
  pose proof (chain_NoDup _ _ _ Hc) as [Hvl _]%NoDup_cons.
  pose proof Hwf as (Hd & Hnl & Htabs & Hinj). apply not_elem_of_cons in Hnl as [Hne Hnl].
  set (m := <[v := zero_page]> (k_mem s)).
  exists (s <| k_freelist := h |>), (s <| k_mem := m |> <| k_freelist := h |>).
  assert (forall j, tab m pgdir j = tab (k_mem s) pgdir j) as Htab.
  { intros j. unfold m. by apply tab_insert_ne. }
  assert (forall u, frame_ok (k_mem s) u -> frame_ok m u) as Hfr.
  { intros u (Hu & Hur & pgu & Hpgu & Hlu). split; [done|split; [done|]]. unfold m.
    destruct (decide (u = v)) as [->|].
    - rewrite lookup_insert_eq. exists zero_page. split; [done|apply zero_page_length].
    - rewrite lookup_insert_ne by done. by exists pgu. }
  split; [exact Hka|]. split; [by rewrite (memset_page_ok _ v 0 vpg)|]. split; [exact Hr|].
  change (k_mem (upd _ _)) with m. split; [apply lookup_insert_eq|]. split; [exact Htab|].
  split; [by exists m, h|]. change (k_mem (upd _ _)) with m.
  split; [by apply chain_insert|]. split; [|split; [by exists [v]|]].
  - split; [by apply Hfr|]. split; [done|]. split.
    + intros i t Hi. rewrite Htab. intros Ht. destruct (Htabs i t Hi Ht) as (H1 & H2 & H3).
      apply not_elem_of_cons in H3 as [_ H3]. split_and!; [by apply Hfr|done|done].
    + intros i j t Hi Hj. rewrite !Htab. by apply Hinj.
  - split; [|split].
    + intros va _ _ _. unfold translate. rewrite Htab.
      destruct (tab (k_mem s) pgdir (PDX va)) as [t|] eqn:Ht; [|done].
      destruct (Htabs _ t (PDX_range va) Ht) as (_ & _ & H3). apply not_elem_of_cons in H3 as [H3 _].
      unfold m. by rewrite lookup_insert_ne.
    + intros i t Hi. rewrite Htab. by left.
    + intros u Hu Hul _. apply not_elem_of_cons in Hul as [Hul _]. unfold m. by rewrite lookup_insert_ne.
Qed.

(** A page that was taken from the free list stays as it is. *)
Lemma vm_step_keeps P pgdir s l s' l' v :
  vm_step P pgdir s l s' l' -> v <> pgdir -> v ∉ l ->
  (forall j, 0 <= j < 1024 -> tab (k_mem s) pgdir j <> Some v) ->
  k_mem s' !! v = k_mem s !! v /\ (v ∉ l') /\
  (forall j, 0 <= j < 1024 -> tab (k_mem s') pgdir j <> Some v).
Proof.
  intros (_ & _ & _ & [l0 ->] & _ & Hnew & Hfr) Hne Hv Hj.
  split; [by apply Hfr|]. rewrite not_elem_of_app in Hv. split; [tauto|].
  intros j Hjr Ht. destruct (Hnew j v Hjr Ht) as [H|[H _]]; [by apply (Hj j)|].
  rewrite elem_of_app in H. tauto.
Qed.

(** One more page in front of a fresh range; [l3] is what is left of the free
    list after it. *)
Lemma fresh_pages_cons m pgdir a k v l l0 l3 l' f :
  l = l0 ++ l3 -> translate m pgdir a = Some (V2P v + 7) -> v ∉ l3 -> v ∉ l' ->
  m !! v = Some zero_page -> (forall j, 0 <= j < 1024 -> tab m pgdir j <> Some v) ->
  fresh_pages m pgdir (a + 4096) (Z.of_nat k) l3 l' f ->
  fresh_pages m pgdir a (Z.of_nat (S k)) (v :: l) l' (fun i => if i =? 0 then v else f (i - 1)).
Proof.
  intros -> Htr Hv3 Hv' Hz Hnt [Hf1 Hf2]. split.
  - intros i Hi. destruct (Z.eqb_spec i 0) as [->|].
    + rewrite Z.mul_0_l, Z.add_0_r. split; [done|]. by split; [left|].
    + destruct (Hf1 (i - 1) ltac:(lia)) as (H1 & H2 & H3).
      replace (a + i * 4096) with (a + 4096 + (i - 1) * 4096) by lia.
      split; [done|]. split; [|done]. right. rewrite elem_of_app. by right.
  - intros i j Hi Hj. destruct (Z.eqb_spec i 0), (Z.eqb_spec j 0); subst; try done.
    + intros E. destruct (Hf1 (j - 1) ltac:(lia)) as (_ & H2 & _). by rewrite <- E in H2.
    + intros E. destruct (Hf1 (i - 1) ltac:(lia)) as (_ & H2 & _). by rewrite E in H2.
    + intros E. apply Hf2 in E; lia.
Qed.

Lemma alloc_loop_ok k n s pgdir a oldsz newsz l :
  kmem_ready s -> chain (k_mem s) (k_freelist s) l -> pt_wf (k_mem s) pgdir l ->
  a mod 4096 = 0 -> 0 <= a -> newsz < KERNBASE -> newsz <= a + Z.of_nat k * 4096 ->
  (k = 0%nat \/ a + (Z.of_nat k - 1) * 4096 < newsz) -> (k <= n)%nat -> (2 * k <= length l)%nat ->
  (forall va, va mod 4096 = 0 -> in_range a (Z.of_nat k) va -> translate (k_mem s) pgdir va = None) ->
  exists s' l' f, alloc_loop n pgdir a oldsz newsz s = Done (Ok newsz) s' /\
    vm_step (in_range a (Z.of_nat k)) pgdir s l s' l' /\
    fresh_pages (k_mem s') pgdir a (Z.of_nat k) l l' f.
Proof.
  revert n s a l. induction k as [|k IH]; intros n s a l Hr Hc Hwf Ha Ha0 Hk Hn1 Hn2 Hf Hlen Hun.
  { exists s, l, id. split; [|split; [by apply vm_step_refl|split; intros; lia]].
    destruct n; cbn [alloc_loop]; by rewrite (proj2 (Z.ltb_ge a newsz)) by lia. }
  destruct n as [|n]; [lia|]. cbn [alloc_loop]. destruct Hn2 as [|Hn2]; [done|]. rewrite (proj2 (Z.ltb_lt a newsz)) by lia. cbn [negb].
  destruct l as [|v l]; [simpl in Hlen; lia|]. unfold KERNBASE in Hk. simpl in Hlen.
  destruct (take_page s pgdir v l Hr Hc Hwf) as (s1 & s2 & Hka & Hms & Hr2 & Hz & Htab & Hst1).
  rewrite (bind_Done _ _ _ _ _ Hka), (bind_Done _ _ _ _ _ Hms).
  pose proof (chain_NoDup _ _ _ Hc) as [Hvl _]%NoDup_cons.
  pose proof Hc as (_ & Hv & Hva & _). pose proof Hwf as (_ & [Hvd _]%not_elem_of_cons & Htabs & _).
  pose proof Hst1 as (_ & Hc2 & Hwf2 & _ & Htr2 & _).
  assert (V2P v = v - KERNBASE) as Hpv by (unfold V2P; apply u32_id; unfold KERNBASE in *; lia).
  assert (V2P v mod 4096 = 0) as Hpa by (by apply V2P_align).
  assert (0 <= V2P v /\ V2P v + 4096 <= 2 ^ 32) as [Hp0 Hp1].
  { unfold KERNBASE in *. lia. }
  destruct (mappages_range s2 pgdir a 1 (V2P v) 6 l) as (r & s3 & l3 & Hm & Hst2 & Hl3 & Hres);
    try done; try (unfold PGSIZE; lia).
  { intros va Hva' Hin. unfold in_range in Hin. rewrite Htr2 by (tauto || lia). apply Hun; [done|].
    unfold in_range. lia. }
  destruct Hres as [(_ & _ & ?)|[-> Hmap]]; [lia|].
  change (Z.lor PTE_W PTE_U) with 6. change (1 * PGSIZE) with PGSIZE in Hm.
  rewrite (bind_Done _ _ _ _ _ Hm). cbn [Z.ltb Z.compare].
  assert (forall j, 0 <= j < 1024 -> tab (k_mem s2) pgdir j <> Some v) as Hnt.
  { intros j Hj. rewrite Htab. intros Ht. destruct (Htabs j v Hj Ht) as (_ & _ & H3).
    apply not_elem_of_cons in H3 as [? _]. done. }
  destruct (vm_step_keeps _ _ _ _ _ _ v Hst2) as (Hz3 & Hvl3 & Hnt3); [done..|].
  pose proof Hst2 as (_ & Hc3 & Hwf3 & [l0 Hl0] & Htr3 & _).
  unfold PGSIZE in *. rewrite (u32_id (a + 4096)) by lia.
  destruct (IH n s3 (a + 4096) l3) as (s' & l' & f & Hloop & Hst3 & Hfresh); try done; try lia.
  { by eapply vm_step_ready. }
  { rewrite Z.add_mod, Ha by lia. done. }
  { intros va Hva' Hin. unfold in_range in Hin. rewrite Htr3 by (unfold in_range; lia).
    rewrite Htr2 by (tauto || lia). apply Hun; [done|]. unfold in_range. lia. }
  assert (vm_step (in_range a (Z.of_nat (S k))) pgdir s (v :: l) s' l') as Hall.
  { eapply vm_step_weaken; [|eapply vm_step_trans; [exact Hst1|eapply vm_step_trans; [exact Hst2|exact Hst3]]].
    unfold in_range. intros va [?|[?|?]]; [done|lia|lia]. }
  exists s', l', (fun i => if i =? 0 then v else f (i - 1)). split; [exact Hloop|]. split; [exact Hall|].
  destruct (vm_step_keeps _ _ _ _ _ _ v Hst3) as (Hz' & Hvl' & Hnt'); [done..|].
  pose proof Hst3 as (_ & _ & _ & _ & Htr' & _). eapply fresh_pages_cons; try done.
  - rewrite Htr' by (unfold in_range; lia). specialize (Hmap 0 ltac:(lia)).
    by rewrite Z.mul_0_l, !Z.add_0_r in Hmap.
  - rewrite Hz', Hz3. exact Hz.
Qed.

(** C22: growing a process gives it fresh zeroed memory and nothing else.  With
    two free pages for each page to add, allocuvm returns the new size; every
    page from the old size, rounded up, to the new one is mapped present,
    writable and user-accessible to a page of its own that came from the free
    list and holds zeros; no other page of the address space changes its
    translation, and no page of memory changes that is neither a former free
    page nor part of this page table. *)
Theorem allocuvm_fresh s pgdir oldsz newsz l :
  kmem_ready s -> chain (k_mem s) (k_freelist s) l -> pt_wf (k_mem s) pgdir l ->
  0 <= oldsz <= newsz -> newsz < KERNBASE ->
  let a := PGROUNDUP oldsz in
  let n := (newsz + 4095) / 4096 - a / 4096 in
  2 * n <= Z.of_nat (length l) ->
  (forall va, va mod 4096 = 0 -> in_range a n va -> translate (k_mem s) pgdir va = None) ->
  exists s' l' f, allocuvm pgdir oldsz newsz s = Done (Ok newsz) s' /\
    vm_step (in_range a n) pgdir s l s' l' /\ fresh_pages (k_mem s') pgdir a n l l' f.
Proof.
  intros Hr Hc Hwf Hsz Hk a n Hlen Hun. unfold KERNBASE in Hk.
  assert (a = (oldsz + 4095) / 4096 * 4096) as Ha by (apply PGROUNDUP_eq; lia).
  assert (a mod 4096 = 0) as Ham by (rewrite Ha; apply Z.mod_mul; lia).
  assert (a / 4096 = (oldsz + 4095) / 4096) as Had by (rewrite Ha; apply Z.div_mul; lia).
  assert (0 <= n) as Hn.
  { unfold n. rewrite Had. assert ((oldsz + 4095) / 4096 <= (newsz + 4095) / 4096) by (apply Z.div_le_mono; lia). lia. }
  pose proof (Z.div_mod (newsz + 4095) 4096 ltac:(lia)) as Hdm.
  pose proof (Z.mod_pos_bound (newsz + 4095) 4096 ltac:(lia)) as Hmb.
  assert (0 <= (oldsz + 4095) / 4096) by (apply Z.div_pos; lia).
  assert (newsz / 4096 >= n - 1) as Hfuel.
  { assert (newsz / 4096 + 1 >= (newsz + 4095) / 4096); [|lia].
    replace (newsz / 4096 + 1) with ((newsz + 1 * 4096) / 4096) by (apply Z.div_add; lia).
    apply Z.le_ge, Z.div_le_mono; lia. }
  destruct (alloc_loop_ok (Z.to_nat n) (S (idx (newsz / PGSIZE))) s pgdir a oldsz newsz l)
    as (s' & l' & f & Hloop & Hst & Hfr); rewrite ?Z2Nat.id by lia; try done; try lia.
  - unfold idx, PGSIZE. lia.
  - rewrite Z2Nat.id in * by lia. exists s', l', f. split; [|done].
    unfold allocuvm. rewrite (proj2 (Z.leb_gt KERNBASE newsz)) by (unfold KERNBASE; lia).
    by rewrite (proj2 (Z.ltb_ge newsz oldsz)) by lia.
Qed.

Lemma allocuvm_fresh_witness :
  exists s' l' f, allocuvm 2281709568 100 5000 two_pages = Done (Ok 5000) s' /\
    fresh_pages (k_mem s') 2281709568 4096 1 [2281705472; 2281701376] l' f.
Proof.
  assert (kmem_ready two_pages) as Hr by done.
  destruct (allocuvm_fresh two_pages 2281709568 100 5000 [2281705472; 2281701376] Hr
    two_pages_chain two_pages_wf) as (s' & l' & f & H1 & _ & H2).
  - lia.
  - unfold KERNBASE. lia.
  - vm_compute. congruence.
  - intros. apply translate_zero. by vm_compute.
  - exists s', l', f. split; [exact H1|exact H2].
Defined.
