(* ===== verification/Bio.v ===== *)
(** * Sleep locks, the disk and the buffer cache (sleeplock.c, memide.c, bio.c)

    The disk driver is memide.c's, which the Makefile links into kernelmemfs:
    iderw moves one block between the buffer and the disk.  The prev/next list
    of the cache is the list [k_lru] of buffer indices, most recently used
    first.  [k_hist] records the block writes in order, for crash arguments. *)

From S2P Require Import Prelude Kernel Spinlock ProcCore.

(** ** sleeplock.c *)

Definition sllock (s : kstate) (l : slid) : sleeplock :=
  match l with
  | sl_inode i => ilk (aget (k_inode s) i)
  | sl_buf b => blk (aget (k_buf s) b)
  end.

Definition setsllock (l : slid) (v : sleeplock) : K unit :=
  modify (fun s =>
    match l with
    | sl_inode i => s <| k_inode ::= alter (fun x => x <| ilk := v |>) i |>
    | sl_buf b => s <| k_buf ::= alter (fun x => x <| blk := v |>) b |>
    end).

Definition initsleeplock (l : slid) : K unit :=
  initlock (lk_sleep l) ;;;
  setsllock l (mk_sleeplock false 0).

Definition acquiresleep (l : slid) : K unit :=
  acquire (lk_sleep l) ;;;
  n <- gets k_fuel ;;
  mwhile n (gets (fun s => slocked (sllock s l))) (sleep (Some (ch_sleep l)) (lk_sleep l)) ;;;
  p <- curproc ;;
  i <- getproc p pid ;;
  setsllock l (mk_sleeplock true i) ;;;
  release (lk_sleep l).

Definition releasesleep (l : slid) : K unit :=
  acquire (lk_sleep l) ;;;
  setsllock l (mk_sleeplock false 0) ;;;
  wakeup (Some (ch_sleep l)) ;;;
  release (lk_sleep l).

(** lk->locked && (lk->pid == myproc()->pid) *)
Definition holdingsleep (l : slid) : K bool :=
  acquire (lk_sleep l) ;;;
  lk <- gets (fun s => sllock s l) ;;
  r <- (if slocked lk then p <- curproc ;; i <- getproc p pid ;; ret (slpid lk =? i)
        else ret false) ;;
  release (lk_sleep l) ;;;
  ret r.

(** ** Buffers *)

Definition bget_ (s : kstate) (i : nat) : buf := aget (k_buf s) i.

Definition getbuf {A} (i : nat) (f : buf -> A) : K A := gets (fun s => f (bget_ s i)).

Definition setbuf (i : nat) (f : buf -> buf) : K unit :=
  modify (fun s => s <| k_buf ::= alter f i |>).

(** Flag tests: b->flags & f. *)
Definition has_flag (f : Z) (b : buf) : bool := negb (Z.land (bflags b) f =? 0).

(** ** memide.c *)

Definition iderw (b : nat) : K unit :=
  h <- holdingsleep (sl_buf b) ;;
  if negb h then panic "iderw: buf not locked"
  else
    x <- getbuf b id ;;
    if Z.land (bflags x) (Z.lor B_VALID B_DIRTY) =? B_VALID then panic "iderw: nothing to do"
    else if negb (bdev x =? 1) then panic "iderw: request not for disk 1"
    else
      blk <- gets (fun s => k_disk s !! blockno x) ;;
      match blk with
      | None => panic "iderw: block out of range"
      | Some d =>
          (if has_flag B_DIRTY x then
             setbuf b (fun y => y <| bflags := Z.land (bflags y) (Z.lnot B_DIRTY) |>) ;;;
             modify (fun s => s <| k_disk ::= <[blockno x := bdata x]> |>
                                <| k_hist ::= (fun h => h ++ [(blockno x, bdata x)]) |>)
           else setbuf b (fun y => y <| bdata := d |>)) ;;;
          setbuf b (fun y => y <| bflags := Z.lor (bflags y) B_VALID |>)
      end.

(** ** bio.c *)

(** for(b = head.next; ...): the cached buffer of the block. *)
Definition find_cached (s : kstate) (dev bno : Z) : option nat :=
  snd <$> list_find (fun b => bdev (bget_ s b) = dev /\ blockno (bget_ s b) = bno) (k_lru s).

(** for(b = head.prev; ...): the least recently used buffer that is free. *)
Definition find_unused (s : kstate) : option nat :=
  snd <$> list_find (fun b => refcnt (bget_ s b) = 0 /\ has_flag B_DIRTY (bget_ s b) = false)
            (rev (k_lru s)).

Definition bget (dev bno : Z) : K nat :=
  acquire lk_bcache ;;;
  c <- gets (fun s => find_cached s dev bno) ;;
  match c with
  | Some b =>
      setbuf b (fun x => x <| refcnt := u32 (refcnt x + 1) |>) ;;;
      release lk_bcache ;;;
      acquiresleep (sl_buf b) ;;;
      ret b
  | None =>
      u <- gets find_unused ;;
      match u with
      | Some b =>
          setbuf b (fun x => x <| bdev := dev |> <| blockno := bno |> <| bflags := 0 |>
                               <| refcnt := 1 |>) ;;;
          release lk_bcache ;;;
          acquiresleep (sl_buf b) ;;;
          ret b
      | None => panic "bget: no buffers"
      end
  end.

Definition bread (dev bno : Z) : K nat :=
  b <- bget dev bno ;;
  x <- getbuf b id ;;
  when (negb (has_flag B_VALID x)) (iderw b) ;;;
  ret b.

Definition bwrite (b : nat) : K unit :=
  h <- holdingsleep (sl_buf b) ;;
  if negb h then panic "bwrite"
  else
    setbuf b (fun y => y <| bflags := Z.lor (bflags y) B_DIRTY |>) ;;;
    iderw b.

(** Unlink [b] and put it at the head of the list. *)
Definition move_front (b : nat) (l : list nat) : list nat := b :: filter (fun x => x <> b) l.

Definition brelse (b : nat) : K unit :=
  h <- holdingsleep (sl_buf b) ;;
  if negb h then panic "brelse"
  else
    releasesleep (sl_buf b) ;;;
    acquire lk_bcache ;;;
    setbuf b (fun x => x <| refcnt := u32 (refcnt x - 1) |>) ;;;
    x <- getbuf b id ;;
    when (refcnt x =? 0) (modify (fun s => s <| k_lru ::= move_front b |>)) ;;;
    release lk_bcache.

Definition binit : K unit :=
  initlock lk_bcache ;;;
  modify (fun s => s <| k_lru := [] |>) ;;;
  mfor (seq 0 NBUF) (fun b =>
    initsleeplock (sl_buf b) ;;;
    modify (fun s => s <| k_lru ::= cons b |>)).
