(* ===== verification/Quiet.v ===== *)
(** * Paths that run without contention

    A process that runs while no other path holds a lock it needs: acquire and
    release succeed at once, nothing sleeps, and a path through the file system
    is a function on the state.  [quiet p s] is that situation for process [p];
    wakeup may still make other processes runnable. *)

From S2P Require Import Prelude Kernel Spinlock ProcCore Bio.

(** The locks with static storage: every spin lock but those of the pipes. *)
Definition static_locks : list lockid :=
  [lk_ptable; lk_ticks; lk_icache; lk_bcache; lk_log; lk_ftable; lk_kmem; lk_cons; lk_ide;
   lk_utable] ++
  map (fun b => lk_sleep (sl_buf b)) (seq 0 NBUF) ++
  map (fun i => lk_sleep (sl_inode i)) (seq 0 NINODE).

(** Process [p] runs on this CPU, and every static lock is free. *)
Definition quiet (p : nat) (s : kstate) : Prop :=
  calm s /\ cproc (thiscpu s) = Some p /\ Forall (lock_free s) static_locks /\ ptable_len s.

(** The CPUs, the locks and the identities of the processes are the same. *)
Definition same_env (s t : kstate) : Prop :=
  k_cpus s = k_cpus t /\ k_me s = k_me t /\ k_locks s = k_locks t /\
  pid <$> k_proc s = pid <$> k_proc t.

(** The state with the sleep lock [l] set to [v]. *)
Definition set_sl (l : slid) (v : sleeplock) (s : kstate) : kstate :=
  match l with
  | sl_inode i => s <| k_inode ::= alter (fun x => x <| ilk := v |>) i |>
  | sl_buf b => s <| k_buf ::= alter (fun x => x <| blk := v |>) b |>
  end.

(** A check of [quiet] on a concrete state with one CPU. *)
Definition quiet_check (p : nat) (s : kstate) : bool :=
  (length (k_cpus s) =? 1)%nat && (k_me s =? 0)%nat && (ncli (thiscpu s) =? 0) &&
  bool_decide (intena (thiscpu s) = iflag (thiscpu s)) &&
  bool_decide (cproc (thiscpu s) = Some p) &&
  forallb (fun lk => match k_locks s !! lk with
                     | Some l => negb (locked l) && bool_decide (lk_cpu l = None)
                     | None => false
                     end) static_locks &&
  (length (k_proc s) =? NPROC)%nat.

(** ** Static locks *)

Lemma static_buf b : (b < NBUF)%nat -> lk_sleep (sl_buf b) ∈ static_locks.
Proof.
  intros Hb. apply elem_of_app. right. apply elem_of_app. left.
  apply (list_elem_of_fmap_2 (fun b => lk_sleep (sl_buf b))). apply elem_of_seq. lia.
Qed.

Lemma static_inode i : (i < NINODE)%nat -> lk_sleep (sl_inode i) ∈ static_locks.
Proof.
  intros Hi. apply elem_of_app. right. apply elem_of_app. right.
  apply (list_elem_of_fmap_2 (fun i => lk_sleep (sl_inode i))). apply elem_of_seq. lia.
Qed.

Lemma static_fixed lk :
  lk ∈ [lk_ptable; lk_ticks; lk_icache; lk_bcache; lk_log; lk_ftable; lk_kmem; lk_cons; lk_ide;
        lk_utable] -> lk ∈ static_locks.
Proof. intros. apply elem_of_app. by left. Qed.

Lemma quiet_free p s lk : quiet p s -> lk ∈ static_locks -> lock_free s lk.
Proof. intros (_ & _ & Hl & _) Hin. by eapply Forall_forall in Hin. Qed.

Lemma quiet_calm p s : quiet p s -> calm s.
Proof. by intros (?&_). Qed.

Lemma quiet_len p s : quiet p s -> ptable_len s.
Proof. by intros (_&_&_&?). Qed.

Lemma quiet_curproc p s : quiet p s -> curproc s = Done (Ok p) s.
Proof. intros (?&?&_). by apply curproc_ok. Qed.

#[export] Instance same_env_equiv : Equivalence same_env.
Proof.
  split; unfold same_env; [done|..].
  - intros s t. intuition congruence.
  - intros s t u. intuition congruence.
Qed.

Lemma quiet_env p s t : same_env s t -> quiet p s -> quiet p t.
Proof.
  intros (Hc & Hm & Hl & Hp) (Hcalm & Hcur & Hf & Hlen). unfold quiet, calm, cpus_wf, thiscpu in *.
  rewrite <- Hc, <- Hm. split_and!; try done; try apply Hcalm.
  - eapply Forall_impl; [done|]. intros lk. unfold lock_free. by rewrite Hl.
  - unfold ptable_len in *. apply (f_equal length) in Hp. rewrite !length_fmap in Hp. congruence.
Qed.

Lemma quiet_check_ok p s : quiet_check p s = true -> quiet p s.
Proof.
  unfold quiet_check, quiet. intros H. bsplit.
  destruct (k_cpus s) as [|c [|]] eqn:Hcs; try done.
  split_and!.
  - assert (k_me s = 0)%nat as Hme by (by apply Nat.eqb_eq).
    split_and!; [|lia|done|lia].
    split; rewrite Hcs; [simpl; lia|apply NoDup_singleton].
  - done.
  - apply Forall_forall. intros lk Hin.
    assert (Hall : forallb (fun lk => match k_locks s !! lk with
                     | Some l => negb (locked l) && bool_decide (lk_cpu l = None)
                     | None => false end) static_locks = true) by done.
    rewrite forallb_forall in Hall. specialize (Hall lk). rewrite <- list_elem_of_In in Hall.
    specialize (Hall Hin). unfold lock_free. destruct (k_locks s !! lk) as [[[] l]|]; try done.
    bsplit. simpl in *. by subst.
  - by apply Nat.eqb_eq.
Qed.

(** ** Critical sections *)

Lemma lock_free_acquired s l1 l2 : l1 <> l2 -> lock_free s l2 -> lock_free (acquired l1 s) l2.
Proof. intros Hne Hf. unfold lock_free, acquired. simpl. by rewrite lookup_insert_ne. Qed.

Lemma cproc_acquired s lk : cpus_wf s -> cproc (thiscpu (acquired lk s)) = cproc (thiscpu s).
Proof.
  intros Hwf. change (thiscpu (acquired lk s)) with (thiscpu (updcpu cpu_push s)).
  by rewrite thiscpu_updcpu.
Qed.

(** acquire and release around a body that leaves CPUs and locks alone. *)
Lemma critical {A} s lk (m : K A) a t :
  calm s -> lock_free s lk -> calm t -> lock_free t lk ->
  m (acquired lk s) = Done (Ok a) (acquired lk t) ->
  (acquire lk ;;; x <- m ;; release lk ;;; ret x) s = Done (Ok a) t.
Proof.
  intros Hc Hl Hct Hlt Hm. rewrite (bind_Done _ _ _ _ _ (acquire_calm s lk Hc Hl)).
  rewrite (bind_Done _ _ _ _ _ Hm).
  by rewrite (bind_Done _ _ _ _ _ (release_acquired t lk Hct Hlt)).
Qed.

(** The end of a critical section whose body kept the CPUs and the locks. *)
Lemma release_same s t lk :
  calm s -> lock_free s lk -> same_env (acquired lk s) t ->
  let u := t <| k_cpus := k_cpus s |> <| k_locks := k_locks s |> in
  release lk t = Done (Ok tt) u /\ same_env s u.
Proof.
  intros Hc Hl (He1 & He2 & He3 & He4) u.
  assert (same_env s u) as Hsu by exact (conj eq_refl (conj He2 (conj eq_refl He4))).
  split; [|done]. assert (t = acquired lk u) as Ht.
  { unfold acquired, updcpu, u. clear Hsu u. destruct t. simpl in *. subst. reflexivity. }
  rewrite Ht at 1. apply release_acquired.
  - destruct Hsu as (E1 & E2 & E3 & E4). unfold calm, cpus_wf, thiscpu in *. by rewrite <- E1, <- E2.
  - unfold lock_free. destruct Hsu as (_ & _ & <- & _). exact Hl.
Qed.

Lemma curproc_acquired s lk p :
  calm s -> cproc (thiscpu s) = Some p -> curproc (acquired lk s) = Done (Ok p) (acquired lk s).
Proof.
  intros Hc Hp. apply curproc_ok; [by apply calm_acquired|].
  rewrite cproc_acquired; [done|apply Hc].
Qed.

(** ** Sleep locks *)

Section sleeplock.
Context (p : nat) (s : kstate) (l : slid).
Hypothesis Hq : quiet p s.
Hypothesis Hl : lk_sleep l ∈ static_locks.

Lemma set_sl_env v : same_env s (set_sl l v s).
Proof. by destruct l. Qed.

Lemma sllock_acquired lk t : sllock (acquired lk t) l = sllock t l.
Proof. by destruct l. Qed.

(** A free sleep lock is taken for the current process. *)
Lemma acquiresleep_ok :
  slocked (sllock s l) = false ->
  acquiresleep l s = Done (Ok tt) (set_sl l (mk_sleeplock true (pid (pget s p))) s).
Proof.
  intros Hfree. pose proof (quiet_calm _ _ Hq) as Hc. destruct Hq as (_ & Hp & _).
  unfold acquiresleep.
  rewrite (bind_Done _ _ _ _ _ (acquire_calm s _ Hc (quiet_free _ _ _ Hq Hl))), bind_gets.
  rewrite (bind_Done _ _ _ tt (acquired (lk_sleep l) s)).
  2:{ destruct (k_fuel _); cbn [mwhile]; rewrite bind_gets, sllock_acquired, Hfree; done. }
  rewrite (bind_Done _ _ _ _ _ (curproc_acquired s _ p Hc Hp)).
  unfold getproc, setsllock. rewrite bind_gets, bind_modify.
  change (pget (acquired (lk_sleep l) s) p) with (pget s p).
  set (v := mk_sleeplock true (pid (pget s p))).
  pose proof (quiet_env p _ _ (set_sl_env v) Hq) as Hq'.
  assert (forall t, match l with
    | sl_inode i => (acquired (lk_sleep l) t) <| k_inode ::= alter (fun x => x <| ilk := v |>) i |>
    | sl_buf b => (acquired (lk_sleep l) t) <| k_buf ::= alter (fun x => x <| blk := v |>) b |>
    end = acquired (lk_sleep l) (set_sl l v t)) as -> by (by destruct l).
  apply release_acquired; [by eapply quiet_calm|by eapply quiet_free].
Qed.

(** releasesleep frees the lock and wakes the processes that wait for it. *)
Lemma releasesleep_ok :
  releasesleep l s = Done (Ok tt)
    ((set_sl l (mk_sleeplock false 0) s) <| k_proc ::= fmap (wake (Some (ch_sleep l))) |>).
Proof.
  pose proof (quiet_calm _ _ Hq) as Hc.
  unfold releasesleep, setsllock.
  rewrite (bind_Done _ _ _ _ _ (acquire_calm s _ Hc (quiet_free _ _ _ Hq Hl))), bind_modify.
  set (v := mk_sleeplock false 0).
  set (t := set_sl l v s).
  pose proof (quiet_env p _ _ (set_sl_env v) Hq) as Hq'. fold t in Hq'.
  assert (forall t, match l with
    | sl_inode i => (acquired (lk_sleep l) t) <| k_inode ::= alter (fun x => x <| ilk := v |>) i |>
    | sl_buf b => (acquired (lk_sleep l) t) <| k_buf ::= alter (fun x => x <| blk := v |>) b |>
    end = acquired (lk_sleep l) (set_sl l v t)) as -> by (by destruct l).
  fold t. rewrite (bind_Done _ _ _ _ _ (wakeup_ok (acquired (lk_sleep l) t) _
    ltac:(by apply calm_acquired; eapply quiet_calm)
    ltac:(apply lock_free_acquired; [done|]; eapply quiet_free; [done|apply static_fixed; set_solver])
    ltac:(apply Hq'))).
  set (u := t <| k_proc ::= fmap (wake (Some (ch_sleep l))) |>).
  change (upd _ (acquired (lk_sleep l) t)) with (acquired (lk_sleep l) u).
  apply release_acquired; [apply Hq'|by apply (quiet_free p t)].
Qed.

Lemma holdingsleep_ok :
  holdingsleep l s =
    Done (Ok (slocked (sllock s l) && (slpid (sllock s l) =? pid (pget s p)))) s.
Proof.
  pose proof (quiet_calm _ _ Hq) as Hc. destruct Hq as (_ & Hp & _).
  unfold holdingsleep.
  rewrite (bind_Done _ _ _ _ _ (acquire_calm s _ Hc (quiet_free _ _ _ Hq Hl))), bind_gets.
  rewrite sllock_acquired.
  rewrite (bind_Done _ _ _ (slocked (sllock s l) && (slpid (sllock s l) =? pid (pget s p)))
    (acquired (lk_sleep l) s)).
  2:{ destruct (slocked (sllock s l)); [|done].
      by rewrite (bind_Done _ _ _ _ _ (curproc_acquired s _ p Hc Hp)). }
  by rewrite (bind_Done _ _ _ _ _ (release_acquired s _ Hc (quiet_free _ _ _ Hq Hl))).
Qed.
End sleeplock.

(** wakeup keeps the identities of the processes. *)
Lemma pid_wake ch (l : list proc) : pid <$> (wake ch <$> l) = pid <$> l.
Proof.
  rewrite <- list_fmap_compose. apply list_fmap_ext. intros _ x _. unfold compose, wake.
  by destruct (decide _).
Qed.

Lemma same_env_wake ch s : same_env s (s <| k_proc ::= fmap (wake ch) |>).
Proof. split_and!; try done. simpl. by rewrite pid_wake. Qed.

Lemma pid_env s t p : same_env s t -> pid (pget s p) = pid (pget t p).
Proof.
  intros (_ & _ & _ & Hp). unfold pget, aget.
  assert (pid <$> (k_proc s !! p) = pid <$> (k_proc t !! p)) as H.
  { by rewrite <- !list_lookup_fmap, Hp. }
  destruct (k_proc s !! p), (k_proc t !! p); simpl in *; congruence.
Qed.

(** ** An idle kernel *)

(** A kernel after binit: process 1 runs, every lock is free, nothing is cached. *)
Definition idle (disk : gmap Z (list Z)) : kstate :=
  kstate0
    <| k_cpus := [mk_cpu 0 0 true (Some 1%nat) true 0] |>
    <| k_locks := list_to_map ((fun lk => (lk, mk_spinlock false None)) <$> static_locks) |>
    <| k_proc ::= alter (fun p => p <| state := RUNNING |> <| pid := 2 |>) 1%nat |>
    <| k_lru := rev (seq 0 NBUF) |> <| k_disk := disk |>.

Lemma quiet_idle disk : quiet 1 (idle disk).
Proof. apply quiet_check_ok. by vm_compute. Qed.
