(* ===== verification/Cache.v ===== *)
(** * The buffer cache is transparent (theorems on bio.c)

    [bview s b] is what block [b] of the disk holds as far as the kernel can
    tell: the cached copy if there is one, the block on disk otherwise.
    [cache_ok p held s] is the invariant of the cache while process [p] has
    locked the buffers [held]; bread, brelse and bwrite keep it, the first two
    keep every block's view, and bwrite changes the disk by one block. *)

From S2P Require Import Prelude Kernel Spinlock ProcCore Bio Quiet.

(** ** The view of a block and the invariant *)

Definition caches (s : kstate) (b : Z) (i : nat) : Prop :=
  bdev (bget_ s i) = 1 /\ blockno (bget_ s i) = b /\ bflags (bget_ s i) <> 0.

#[export] Instance caches_dec s b i : Decision (caches s b i).
Proof. unfold caches. apply _. Defined.

Definition bview (s : kstate) (b : Z) : option (list Z) :=
  match list_find (caches s b) (seq 0 NBUF) with
  | Some (_, i) => Some (bdata (bget_ s i))
  | None => k_disk s !! b
  end.

(** A buffer is empty, a copy of its block, or a dirty block that the log will
    install; a locked one is exempt from being a copy. *)
Definition buf_ok (me : Z) (held : bool) (disk : gmap Z (list Z)) (b : buf) : Prop :=
  length (bdata b) = 512%nat /\
  (bflags b = 0 \/ bflags b = 2 \/ bflags b = 6) /\
  (bflags b <> 0 -> bdev b = 1 /\ is_Some (disk !! blockno b)) /\
  if held then refcnt b = 1 /\ blk b = mk_sleeplock true me /\ bflags b <> 0
  else refcnt b = 0 /\ slocked (blk b) = false /\
       (bflags b = 2 -> disk !! blockno b = Some (bdata b)).

(** No two buffers of the disk have the same block. *)
Definition uniq (s : kstate) : Prop :=
  forall i j, (i < NBUF)%nat -> (j < NBUF)%nat -> bdev (bget_ s i) = 1 -> bdev (bget_ s j) = 1 ->
    blockno (bget_ s i) = blockno (bget_ s j) -> i = j.

Record cache_ok (p : nat) (held : list nat) (s : kstate) : Prop := {
  co_quiet : quiet p s;
  co_len : length (k_buf s) = NBUF;
  co_lru : k_lru s ≡ₚ seq 0 NBUF;
  co_uniq : uniq s;
  co_disk : forall b d, k_disk s !! b = Some d -> length d = 512%nat;
  co_held : Forall (fun i => (i < NBUF)%nat) held;
  co_buf : forall i, (i < NBUF)%nat ->
    buf_ok (pid (pget s p)) (bool_decide (i ∈ held)) (k_disk s) (bget_ s i)
}.

(** Some buffer can be recycled. *)
Definition room (held : list nat) (s : kstate) : Prop :=
  exists k, (k < NBUF)%nat /\ (k ∉ held) /\ has_flag B_DIRTY (bget_ s k) = false.

(** Only the cache, the disk and the states of processes may differ. *)
Definition bio_step (s t : kstate) : Prop :=
  t = s <| k_buf := k_buf t |> <| k_lru := k_lru t |> <| k_proc := k_proc t |>
        <| k_disk := k_disk t |> <| k_hist := k_hist t |> /\
  pid <$> k_proc t = pid <$> k_proc s.

(** ** Buffers as array entries *)

Lemma bget_alter_eq (f : buf -> buf) i s :
  (i < length (k_buf s))%nat -> bget_ (s <| k_buf ::= alter f i |>) i = f (bget_ s i).
Proof.
  intros Hi. unfold bget_, aget. simpl. rewrite list_lookup_alter_eq.
  by destruct (lookup_lt_is_Some_2 _ _ Hi) as [x ->].
Qed.

Lemma bget_alter_ne (f : buf -> buf) i j s :
  i <> j -> bget_ (s <| k_buf ::= alter f i |>) j = bget_ s j.
Proof. intros Hi. unfold bget_, aget. simpl. by rewrite list_lookup_alter_ne. Qed.

#[export] Instance bio_step_preorder : PreOrder bio_step.
Proof.
  split.
  - intros s. split; [by destruct s|done].
  - intros s t u [Ht Hp] [Hu Hp']. split; [|congruence]. rewrite Hu, Ht. by destruct s.
Qed.

Lemma bio_step_buf f s : bio_step s (s <| k_buf ::= f |>).
Proof. split; [by destruct s|done]. Qed.

Lemma bio_step_env s t : bio_step s t -> same_env s t.
Proof. intros [Ht Hp]. unfold same_env. rewrite Ht. simpl. by rewrite Hp. Qed.

Lemma has_flag_valid b : bflags b = 0 \/ bflags b = 2 \/ bflags b = 6 ->
  has_flag B_VALID b = negb (bflags b =? 0).
Proof. unfold has_flag. by intros [-> | [-> | ->]]. Qed.

Lemma has_flag_dirty b : bflags b = 0 \/ bflags b = 2 \/ bflags b = 6 ->
  has_flag B_DIRTY b = (bflags b =? 6).
Proof. unfold has_flag. by intros [-> | [-> | ->]]. Qed.

(** ** bview *)

Lemma bview_cached s b i :
  uniq s -> (i < NBUF)%nat -> caches s b i -> bview s b = Some (bdata (bget_ s i)).
Proof.
  intros Hu Hi Hc. unfold bview. destruct (list_find _ _) as [[k j]|] eqn:E.
  - apply list_find_Some in E as (Hj & Hcj & _). apply lookup_seq in Hj as [-> Hk]. simpl in *.
    destruct Hc as (?&?&_), Hcj as (?&?&_). rewrite (Hu i k); [done|lia|lia|done|done|congruence].
  - exfalso. apply list_find_None in E. rewrite Forall_forall in E.
    apply (E i); [apply elem_of_seq; lia|done].
Qed.

Lemma bview_uncached s b :
  (forall i, (i < NBUF)%nat -> ~ caches s b i) -> bview s b = k_disk s !! b.
Proof.
  intros Hn. unfold bview. destruct (list_find _ _) as [[k j]|] eqn:E; [|done].
  apply list_find_Some in E as (Hj & Hcj & _). apply lookup_seq in Hj as [-> Hk].
  exfalso. by apply (Hn k).
Qed.

Lemma cached_or_not s b :
  (exists i, (i < NBUF)%nat /\ caches s b i) \/ (forall i, (i < NBUF)%nat -> ~ caches s b i).
Proof.
  destruct (list_find (caches s b) (seq 0 NBUF)) as [[k j]|] eqn:E.
  - left. apply list_find_Some in E as (Hj & Hcj & _). apply lookup_seq in Hj as [-> Hk]. by exists k.
  - right. apply list_find_None in E. rewrite Forall_forall in E. intros i Hi.
    apply E, elem_of_seq. lia.
Qed.

(** The view of a block is the same in a state whose cached copies agree with
    the ones before or with the disk. *)
Lemma bview_keep s t b :
  uniq s -> uniq t -> k_disk t !! b = k_disk s !! b ->
  (forall i, (i < NBUF)%nat -> caches s b i ->
     (caches t b i /\ bdata (bget_ t i) = bdata (bget_ s i)) \/
     k_disk s !! b = Some (bdata (bget_ s i))) ->
  (forall i, (i < NBUF)%nat -> caches t b i ->
     (caches s b i /\ bdata (bget_ t i) = bdata (bget_ s i)) \/
     (k_disk s !! b = Some (bdata (bget_ t i)))) ->
  bview t b = bview s b.
Proof.
  intros Hus Hut Hd H1 H2.
  destruct (cached_or_not s b) as [(i & Hi & Hci)|Hns], (cached_or_not t b) as [(j & Hj & Hcj)|Hnt].
  - rewrite (bview_cached s b i), (bview_cached t b j) by done.
    destruct (H1 i Hi Hci) as [[Hct He]|He].
    + destruct Hct as (?&?&_), Hcj as (?&?&_). rewrite (Hut j i); [congruence|done|done|done|done|congruence].
    + destruct (H2 j Hj Hcj) as [[Hcs He']|He']; [|congruence].
      destruct Hcs as (?&?&_), Hci as (?&?&_). rewrite (Hus i j); [congruence|done|done|done|done|congruence].
  - rewrite (bview_cached s b i), (bview_uncached t b) by done.
    destruct (H1 i Hi Hci) as [[Hct _]|He]; [by destruct (Hnt i)|congruence].
  - rewrite (bview_uncached s b), (bview_cached t b j) by done.
    destruct (H2 j Hj Hcj) as [[Hct _]|He]; [by destruct (Hns j)|congruence].
  - by rewrite !bview_uncached.
Qed.

(** ** Taking and releasing a buffer *)

(** The end of both branches of bget: update the buffer, release the lock of
    the cache and lock the buffer. *)
Lemma grab_ok p s (f : buf -> buf) i :
  quiet p s -> (i < NBUF)%nat -> (i < length (k_buf s))%nat ->
  slocked (blk (f (bget_ s i))) = false ->
  (setbuf i f ;;; release lk_bcache ;;; acquiresleep (sl_buf i) ;;; ret i) (acquired lk_bcache s) =
    Done (Ok i) (s <| k_buf ::= alter
      (fun x => (f x) <| blk := mk_sleeplock true (pid (pget s p)) |>) i |>).
Proof.
  intros Hq Hi Hlen Hfree. unfold setbuf at 1. rewrite bind_modify.
  set (t := s <| k_buf ::= alter f i |>).
  change (upd _ (acquired lk_bcache s)) with (acquired lk_bcache t).
  assert (quiet p t) as Hqt by done.
  rewrite (bind_Done _ _ _ _ _ (release_acquired t _ (quiet_calm _ _ Hqt)
    (quiet_free _ _ lk_bcache Hqt ltac:(apply static_fixed; set_solver)))).
  rewrite (bind_Done _ _ _ _ _ (acquiresleep_ok p t (sl_buf i) Hqt (static_buf i Hi)
    ltac:(change (sllock t (sl_buf i)) with (blk (bget_ t i)); unfold t; by rewrite bget_alter_eq))).
  unfold ret. f_equal. unfold set_sl, t, upd, upd_k_buf. simpl. f_equal.
  rewrite list_alter_alter_eq. done.
Qed.

Lemma bget_hit p s dev b i :
  quiet p s -> (i < NBUF)%nat -> (i < length (k_buf s))%nat ->
  find_cached s dev b = Some i -> slocked (blk (bget_ s i)) = false ->
  bget dev b s = Done (Ok i) (s <| k_buf ::= alter
    (fun x => x <| refcnt := u32 (refcnt x + 1) |> <| blk := mk_sleeplock true (pid (pget s p)) |>) i |>).
Proof.
  intros Hq Hi Hlen Hf Hfree. unfold bget.
  rewrite (bind_Done _ _ _ _ _ (acquire_calm s _ (quiet_calm _ _ Hq)
    (quiet_free _ _ lk_bcache Hq ltac:(apply static_fixed; set_solver)))), bind_gets.
  change (find_cached (acquired lk_bcache s)) with (find_cached s). rewrite Hf. by apply grab_ok.
Qed.

Lemma bget_miss p s dev b i :
  quiet p s -> (i < NBUF)%nat -> (i < length (k_buf s))%nat ->
  find_cached s dev b = None -> find_unused s = Some i -> slocked (blk (bget_ s i)) = false ->
  bget dev b s = Done (Ok i) (s <| k_buf ::= alter
    (fun x => x <| bdev := dev |> <| blockno := b |> <| bflags := 0 |> <| refcnt := 1 |>
                <| blk := mk_sleeplock true (pid (pget s p)) |>) i |>).
Proof.
  intros Hq Hi Hlen Hf Hu Hfree. unfold bget.
  rewrite (bind_Done _ _ _ _ _ (acquire_calm s _ (quiet_calm _ _ Hq)
    (quiet_free _ _ lk_bcache Hq ltac:(apply static_fixed; set_solver)))), bind_gets.
  change (find_cached (acquired lk_bcache s)) with (find_cached s). rewrite Hf, bind_gets.
  change (find_unused (acquired lk_bcache s)) with (find_unused s). rewrite Hu. by apply grab_ok.
Qed.

(** iderw on a buffer that process [p] has locked: a read fills an empty
    buffer, a write empties a dirty one onto the disk. *)
Lemma iderw_read p s i d :
  quiet p s -> (i < NBUF)%nat -> blk (bget_ s i) = mk_sleeplock true (pid (pget s p)) ->
  bflags (bget_ s i) = 0 -> bdev (bget_ s i) = 1 -> k_disk s !! blockno (bget_ s i) = Some d ->
  iderw i s = Done (Ok tt) (s <| k_buf ::= alter (fun x => x <| bdata := d |> <| bflags := 2 |>) i |>).
Proof.
  intros Hq Hi Hl Hf Hd Hb. unfold iderw.
  rewrite (bind_Done _ _ _ _ _ (holdingsleep_ok p s (sl_buf i) Hq (static_buf i Hi))).
  change (sllock s (sl_buf i)) with (blk (bget_ s i)). rewrite Hl. simpl. rewrite Z.eqb_refl. simpl.
  unfold getbuf. rewrite bind_gets. unfold id. rewrite Hf, Hd. simpl. rewrite bind_gets, Hb.
  unfold has_flag. rewrite Hf. simpl. unfold setbuf. rewrite bind_modify. unfold modify. f_equal.
  unfold upd, upd_k_buf; simpl. f_equal. rewrite list_alter_alter_eq. apply alter_ext_at.
  intros x Hx. unfold bget_, aget in Hf. rewrite Hx in Hf. simpl in Hf. unfold compose.
  destruct x; simpl in *; by subst.
Qed.

Lemma iderw_write p s i :
  quiet p s -> (i < NBUF)%nat -> blk (bget_ s i) = mk_sleeplock true (pid (pget s p)) ->
  bflags (bget_ s i) = 6 -> bdev (bget_ s i) = 1 -> is_Some (k_disk s !! blockno (bget_ s i)) ->
  iderw i s = Done (Ok tt)
    (s <| k_buf ::= alter (fun x => x <| bflags := 2 |>) i |>
       <| k_disk ::= <[blockno (bget_ s i) := bdata (bget_ s i)]> |>
       <| k_hist ::= (fun h => h ++ [(blockno (bget_ s i), bdata (bget_ s i))]) |>).
Proof.
  intros Hq Hi Hl Hf Hd [d Hb]. unfold iderw.
  rewrite (bind_Done _ _ _ _ _ (holdingsleep_ok p s (sl_buf i) Hq (static_buf i Hi))).
  change (sllock s (sl_buf i)) with (blk (bget_ s i)). rewrite Hl. simpl. rewrite Z.eqb_refl. simpl.
  unfold getbuf. rewrite bind_gets. unfold id. rewrite Hf, Hd. simpl. rewrite bind_gets, Hb.
  unfold has_flag. rewrite Hf. simpl. unfold setbuf, bind, modify. simpl. f_equal.
  unfold upd, upd_k_buf, upd_k_disk, upd_k_hist; simpl. f_equal.
  rewrite list_alter_alter_eq. apply alter_ext_at.
  intros x Hx. unfold bget_, aget in Hf. rewrite Hx in Hf. simpl in Hf. unfold compose.
  destruct x; simpl in *; by subst.
Qed.

(** ** bread *)

(** What bread promises: buffer [i] of state [t] is locked and holds the view
    of block [b], and nothing else that can be observed has changed. *)
Record grabbed (p : nat) (held : list nat) (s : kstate) (b : Z) (i : nat) (t : kstate) : Prop := {
  gr_step : bio_step s t;
  gr_disk : k_disk t = k_disk s;
  gr_hist : k_hist t = k_hist s;
  gr_new : i ∉ held;
  gr_lt : (i < NBUF)%nat;
  gr_ok : cache_ok p (i :: held) t;
  gr_block : blockno (bget_ t i) = b;
  gr_data : bview s b = Some (bdata (bget_ t i));
  gr_view : forall b', bview t b' = bview s b';
  gr_other : forall j, j <> i -> bget_ t j = bget_ s j;
  gr_flags : (caches s b i /\ bflags (bget_ t i) = bflags (bget_ s i)) \/
    ((forall k, (k < NBUF)%nat -> ~ caches s b k) /\ bflags (bget_ t i) = 2 /\
     has_flag B_DIRTY (bget_ s i) = false)
}.

Lemma held_blk p held s i :
  cache_ok p held s -> i ∈ held -> (i < NBUF)%nat /\
  blk (bget_ s i) = mk_sleeplock true (pid (pget s p)) /\ refcnt (bget_ s i) = 1 /\
  bflags (bget_ s i) <> 0 /\ bdev (bget_ s i) = 1 /\ is_Some (k_disk s !! blockno (bget_ s i)).
Proof.
  intros Hc Hi. pose proof (co_held _ _ _ Hc) as Hh. rewrite Forall_forall in Hh.
  pose proof (Hh i Hi) as Hlt. destruct (co_buf _ _ _ Hc i Hlt) as (_ & _ & Hf & Hb).
  rewrite bool_decide_true in Hb by done. destruct Hb as (? & ? & ?).
  destruct (Hf ltac:(done)). by split_and!.
Qed.

Lemma unheld_buf p held s i :
  cache_ok p held s -> (i < NBUF)%nat -> i ∉ held ->
  slocked (blk (bget_ s i)) = false /\ refcnt (bget_ s i) = 0 /\
  (bflags (bget_ s i) = 2 -> k_disk s !! blockno (bget_ s i) = Some (bdata (bget_ s i))).
Proof.
  intros Hc Hlt Hi. destruct (co_buf _ _ _ Hc i Hlt) as (_ & _ & Hf & Hb).
  rewrite bool_decide_false in Hb by done. tauto.
Qed.

Lemma buf_flags p held s i :
  cache_ok p held s -> (i < NBUF)%nat ->
  bflags (bget_ s i) = 0 \/ bflags (bget_ s i) = 2 \/ bflags (bget_ s i) = 6.
Proof. intros Hc Hlt. by destruct (co_buf _ _ _ Hc i Hlt) as (_ & ? & _). Qed.

Lemma find_cached_spec s dev b i :
  k_lru s ≡ₚ seq 0 NBUF -> find_cached s dev b = Some i ->
  (i < NBUF)%nat /\ bdev (bget_ s i) = dev /\ blockno (bget_ s i) = b.
Proof.
  intros Hp. unfold find_cached. destruct (list_find _ _) as [[k j]|] eqn:E; [|done].
  intros [= <-]. apply list_find_Some in E as (Hj & [Hd Hb] & _). split_and!; try done.
  apply list_elem_of_lookup_2 in Hj. rewrite Hp in Hj. apply elem_of_seq in Hj. lia.
Qed.

Lemma find_cached_none s dev b :
  k_lru s ≡ₚ seq 0 NBUF -> find_cached s dev b = None ->
  forall i, (i < NBUF)%nat -> bdev (bget_ s i) = dev -> blockno (bget_ s i) <> b.
Proof.
  intros Hp. unfold find_cached. destruct (list_find _ _) as [[k j]|] eqn:E; [done|].
  intros _ i Hi Hd Hb. apply list_find_None in E. rewrite Forall_forall in E.
  apply (E i); [|done]. rewrite Hp. apply elem_of_seq. lia.
Qed.

Lemma elem_of_rev {A} (x : A) l : x ∈ rev l <-> x ∈ l.
Proof. rewrite !list_elem_of_In. symmetry. apply in_rev. Qed.

Lemma find_unused_room p held s :
  cache_ok p held s -> room held s ->
  exists i, find_unused s = Some i /\ (i < NBUF)%nat /\ (i ∉ held) /\
    has_flag B_DIRTY (bget_ s i) = false.
Proof.
  intros Hc (k & Hk & Hkh & Hkd). pose proof (co_lru _ _ _ Hc) as Hp. unfold find_unused.
  destruct (list_find _ _) as [[n j]|] eqn:E.
  - apply list_find_Some in E as (Hj & [Hr Hd] & _). exists j.
    assert (j < NBUF)%nat as Hlt.
    { apply list_elem_of_lookup_2 in Hj. rewrite elem_of_rev, Hp in Hj. apply elem_of_seq in Hj. lia. }
    split_and!; try done. intros Hh. destruct (held_blk _ _ _ _ Hc Hh) as (_ & _ & ? & _). lia.
  - exfalso. apply list_find_None in E. rewrite Forall_forall in E.
    apply (E k); [rewrite elem_of_rev, Hp; apply elem_of_seq; lia|].
    split; [|done]. by apply (unheld_buf _ _ _ _ Hc).
Qed.

(** The core of bread: the entry [i] of the cache becomes a locked copy of [b]. *)
Lemma grabbed_intro p held s b i (f : buf -> buf) :
  let x := bget_ s i in
  let y := f x in
  cache_ok p held s -> (i < NBUF)%nat -> i ∉ held -> is_Some (k_disk s !! b) ->
  (forall j, (j < NBUF)%nat -> j <> i -> bdev (bget_ s j) = 1 -> blockno (bget_ s j) <> b) ->
  bdev y = 1 -> blockno y = b -> refcnt y = 1 ->
  blk y = mk_sleeplock true (pid (pget s p)) -> length (bdata y) = 512%nat ->
  (caches s b i /\ bflags y = bflags x /\ bdata y = bdata x) \/
  ((forall k, (k < NBUF)%nat -> ~ caches s b k) /\ bflags y = 2 /\ has_flag B_DIRTY x = false /\
   k_disk s !! b = Some (bdata y)) ->
  grabbed p held s b i (s <| k_buf ::= alter f i |>).
Proof.
  intros x y Hc Hi Hnh Hb Ho Hd Hbn Hr Hl Hlen Hcase. set (t := s <| k_buf ::= alter f i |>).
  assert (bget_ t i = y) as Hti. { apply bget_alter_eq. by rewrite (co_len _ _ _ Hc). }
  assert (forall j, j <> i -> bget_ t j = bget_ s j) as Htj by (intros; by apply bget_alter_ne).
  assert (bflags y <> 0 /\ (bflags y = 0 \/ bflags y = 2 \/ bflags y = 6)) as [Hf Hf'].
  { destruct Hcase as [((_&_&?) & -> & _)|(_ & -> & _)]; [|lia].
    split; [done|]. by apply (buf_flags _ _ _ _ Hc). }
  assert (uniq t) as Hut.
  { intros j k Hj Hk. destruct (decide (j = i)) as [->|Hji], (decide (k = i)) as [->|Hki]; [done|..];
      rewrite ?Hti, ?(Htj _ Hji), ?(Htj _ Hki); intros ?? He; [..|by apply (co_uniq _ _ _ Hc)].
    - destruct (Ho k); congruence.
    - destruct (Ho j); congruence. }
  assert (bview s b = Some (bdata y)) as Hvb.
  { destruct Hcase as [(? & _ & ->)|(Hn & _ & _ & <-)].
    - apply bview_cached; [apply (co_uniq _ _ _ Hc)|done|done].
    - by apply bview_uncached. }
  split; try done.
  - destruct Hc as [Hq Hlen' Hp Hu Hdk Hh Hbf]. split; try done.
    + simpl. by rewrite length_alter.
    + by constructor.
    + intros j Hj. change (k_disk t) with (k_disk s). change (pget t p) with (pget s p).
      destruct (decide (j = i)) as [->|Hji].
      * rewrite Hti, bool_decide_true by set_solver. split_and!; try done. by rewrite Hbn.
      * rewrite (Htj _ Hji), (bool_decide_ext (j ∈ i :: held) (j ∈ held)) by set_solver. by apply Hbf.
  - by rewrite Hti.
  - by rewrite Hti.
  - intros b'. destruct (decide (b' = b)) as [->|Hne].
    { rewrite Hvb, (bview_cached t b i Hut Hi); [by rewrite Hti|]. unfold caches. by rewrite Hti. }
    apply bview_keep; [apply (co_uniq _ _ _ Hc)|done|done|..]; intros j Hj Hcj;
      (destruct (decide (j = i)) as [->|Hji]; [|left; unfold caches in *; by rewrite (Htj _ Hji) in *]).
    + right. destruct Hcase as [((_&?&_)&_)|(_ & _ & Hdirty & _)]; [destruct Hcj as (_&?&_); congruence|].
      destruct Hcj as (_ & <- & Hfl). apply (unheld_buf _ _ _ _ Hc Hi Hnh).
      pose proof (buf_flags _ _ _ _ Hc Hi) as Hfl'. rewrite has_flag_dirty in Hdirty by done.
      bsplit. fold x in Hfl, Hfl' |- *. lia.
    + destruct Hcj as (_ & He & _). rewrite Hti in He. congruence.
  - rewrite Hti. destruct Hcase as [(? & ? & _)|(? & ? & ? & _)]; [by left|by right].
Qed.

Lemma quiet_buf p s f : quiet p s -> quiet p (s <| k_buf ::= f |>).
Proof. done. Qed.

(** bget's buffer, when it is empty, is filled from the disk. *)
Lemma bread_fill p s t i b (f : buf -> buf) d :
  quiet p s -> (i < NBUF)%nat -> (i < length (k_buf s))%nat -> blockno (f (bget_ s i)) = b ->
  bget 1 b s = Done (Ok i) t -> t = s <| k_buf ::= alter f i |> ->
  bflags (f (bget_ s i)) = 0 -> bdev (f (bget_ s i)) = 1 ->
  blk (f (bget_ s i)) = mk_sleeplock true (pid (pget s p)) ->
  k_disk s !! b = Some d ->
  bread 1 b s =
    Done (Ok i) (s <| k_buf ::= alter (fun x => (f x) <| bdata := d |> <| bflags := 2 |>) i |>).
Proof.
  intros Hq Hi Hlen Hbn Hg Ht Hf Hd Hl Hb. unfold bread. rewrite (bind_Done _ _ _ _ _ Hg).
  assert (bget_ t i = f (bget_ s i)) as Hti by (rewrite Ht; by apply bget_alter_eq).
  unfold getbuf. rewrite bind_gets. unfold id. rewrite Hti.
  unfold has_flag at 1. rewrite Hf. cbn [Z.land negb Z.eqb when].
  rewrite (bind_Done _ _ _ tt (t <| k_buf ::= alter (fun x => x <| bdata := d |> <| bflags := 2 |>) i |>)).
  - unfold ret. f_equal. rewrite Ht. unfold upd at 1 6, upd_k_buf; simpl. f_equal.
    by rewrite list_alter_alter_eq.
  - apply (iderw_read p); rewrite ?Hti, ?Hbn; [by rewrite Ht|done|rewrite Ht; done|done|done|by rewrite Ht].
Qed.

Lemma bread_ok p held s b :
  cache_ok p held s -> is_Some (k_disk s !! b) ->
  (forall i, i ∈ held -> blockno (bget_ s i) <> b) ->
  (exists i, (i < NBUF)%nat /\ caches s b i) \/ room held s ->
  exists i t, bread 1 b s = Done (Ok i) t /\ grabbed p held s b i t.
Proof.
  intros Hc [d Hb] Hh Hroom. pose proof (co_quiet _ _ _ Hc) as Hq.
  pose proof (co_lru _ _ _ Hc) as Hlru. pose proof (co_disk _ _ _ Hc b d Hb) as Hlen.
  destruct (find_cached s 1 b) as [i|] eqn:Hf.
  - destruct (find_cached_spec _ _ _ _ Hlru Hf) as (Hi & Hd & Hbn).
    assert (i ∉ held) as Hnh by (intros Hin; by apply (Hh i)).
    assert (i < length (k_buf s))%nat as Hil by (by rewrite (co_len _ _ _ Hc)).
    destruct (unheld_buf _ _ _ _ Hc Hi Hnh) as (Hlk & Hr & _).
    assert (forall j, (j < NBUF)%nat -> j <> i -> bdev (bget_ s j) = 1 -> blockno (bget_ s j) <> b) as Ho.
    { intros j Hj Hne Hdj He. apply Hne, (co_uniq _ _ _ Hc); [done..|congruence]. }
    pose proof (bget_hit p s 1 b i Hq Hi Hil Hf Hlk) as Hg.
    destruct (decide (bflags (bget_ s i) = 0)) as [Hz|Hz].
    + exists i. eexists. split.
      * by eapply (bread_fill p s _ i b (fun x => x <| refcnt := u32 (refcnt x + 1) |>
          <| blk := mk_sleeplock true (pid (pget s p)) |>) d Hq Hi Hil); [|exact Hg|..].
      * apply grabbed_intro; try done; simpl; [by rewrite Hr|].
        right. split_and!; [|done| |done].
        -- intros k Hk (Hdk & Hbk & Hfk). destruct (decide (k = i)) as [->|Hne]; [done|]. by apply (Ho k).
        -- unfold has_flag. by rewrite Hz.
    + exists i. eexists. split.
      * unfold bread. rewrite (bind_Done _ _ _ _ _ Hg). unfold getbuf. rewrite bind_gets. unfold id.
        rewrite bget_alter_eq by done. rewrite has_flag_valid by (by apply (buf_flags _ _ _ _ Hc)).
        simpl. destruct (bflags (bget_ s i) =? 0) eqn:E; [by bsplit|]. simpl. by rewrite bind_ret_l.
      * apply grabbed_intro; try done; simpl; [by rewrite Hr| |].
        -- by destruct (co_buf _ _ _ Hc i Hi).
        -- by left.
  - pose proof (find_cached_none _ _ _ Hlru Hf) as Hn.
    assert (room held s) as Hrm.
    { destruct Hroom as [(i & Hi & Hd & Hbi & _)|]; [by destruct (Hn i)|done]. }
    destruct (find_unused_room _ _ _ Hc Hrm) as (i & Hu & Hi & Hnh & Hdirty).
    assert (i < length (k_buf s))%nat as Hil by (by rewrite (co_len _ _ _ Hc)).
    destruct (unheld_buf _ _ _ _ Hc Hi Hnh) as (Hlk & Hr & _).
    pose proof (bget_miss p s 1 b i Hq Hi Hil Hf Hu Hlk) as Hg.
    exists i. eexists. split.
    + by eapply (bread_fill p s _ i b (fun x => x <| bdev := 1 |> <| blockno := b |> <| bflags := 0 |>
        <| refcnt := 1 |> <| blk := mk_sleeplock true (pid (pget s p)) |>) d Hq Hi Hil); [|exact Hg|..].
    + apply grabbed_intro; try done; simpl.
      * intros j Hj _. by apply Hn.
      * right. split_and!; [|done..]. intros k Hk (Hdk & Hbk & _). by apply (Hn k).
Qed.

(** ** brelse and bwrite *)

Lemma cache_ok_perm p held held' s : held ≡ₚ held' -> cache_ok p held s -> cache_ok p held' s.
Proof.
  intros Hp [????? Hh Hb]. split; try done.
  - by rewrite <- Hp.
  - intros i Hi. rewrite <- (bool_decide_ext (i ∈ held) (i ∈ held')); [by apply Hb|by rewrite Hp].
Qed.

Lemma move_front_perm i l : NoDup l -> i ∈ l -> move_front i l ≡ₚ l.
Proof.
  intros Hnd Hin. unfold move_front. apply NoDup_Permutation; [|done|].
  - constructor; [|by apply NoDup_filter]. rewrite list_elem_of_filter. naive_solver.
  - intros x. rewrite elem_of_cons, list_elem_of_filter. destruct (decide (x = i)); naive_solver.
Qed.

Record returned (p : nat) (held : list nat) (s : kstate) (i : nat) (t : kstate) : Prop := {
  re_step : bio_step s t;
  re_disk : k_disk t = k_disk s;
  re_hist : k_hist t = k_hist s;
  re_ok : cache_ok p held t;
  re_view : forall b, bview t b = bview s b;
  re_other : forall j, j <> i -> bget_ t j = bget_ s j;
  re_buf : bget_ t i = (bget_ s i) <| refcnt := 0 |> <| blk := mk_sleeplock false 0 |>
}.

(** The effect of brelse on the state. *)
Lemma brelse_eq p held s i :
  cache_ok p (i :: held) s ->
  brelse i s = Done (Ok tt)
    (s <| k_buf ::= alter (fun x => x <| blk := mk_sleeplock false 0 |> <| refcnt := u32 (refcnt x - 1) |>) i |>
       <| k_proc ::= fmap (wake (Some (ch_sleep (sl_buf i)))) |> <| k_lru ::= move_front i |>).
Proof.
  intros Hc. pose proof (co_quiet _ _ _ Hc) as Hq.
  destruct (held_blk _ _ _ i Hc ltac:(set_solver)) as (Hi & Hl & Hr & _).
  unfold brelse. rewrite (bind_Done _ _ _ _ _ (holdingsleep_ok p s (sl_buf i) Hq (static_buf i Hi))).
  change (sllock s (sl_buf i)) with (blk (bget_ s i)). rewrite Hl. simpl. rewrite Z.eqb_refl. simpl.
  rewrite (bind_Done _ _ _ _ _ (releasesleep_ok p s (sl_buf i) Hq (static_buf i Hi))). simpl.
  set (t := s <| k_buf ::= alter (fun x => x <| blk := mk_sleeplock false 0 |>) i |>
              <| k_proc ::= fmap (wake (Some (ch_sleep (sl_buf i)))) |>).
  assert (quiet p t) as Hqt by (by apply (quiet_env p _ _ (same_env_wake _ (s <| k_buf ::= _ |>)))).
  assert (forall u, quiet p u -> lock_free u lk_bcache) as Hbc.
  { intros u Hu. apply (quiet_free p); [done|apply static_fixed; set_solver]. }
  rewrite (bind_Done _ _ _ _ _ (acquire_calm t _ (quiet_calm _ _ Hqt) (Hbc t Hqt))).
  unfold setbuf at 1. rewrite bind_modify.
  set (t2 := t <| k_buf ::= alter (fun x => x <| refcnt := u32 (refcnt x - 1) |>) i |>).
  change (upd _ (acquired lk_bcache t)) with (acquired lk_bcache t2).
  unfold getbuf. rewrite bind_gets. unfold id. change (bget_ (acquired lk_bcache t2) i) with (bget_ t2 i).
  assert (refcnt (bget_ t2 i) = 0) as ->.
  { unfold t2, t. rewrite bget_alter_eq by (simpl; rewrite length_alter, (co_len _ _ _ Hc); done).
    change (u32 (refcnt (bget_ (s <| k_buf ::= alter (fun x => x <| blk := mk_sleeplock false 0 |>) i |>) i) - 1) = 0).
    rewrite bget_alter_eq by (rewrite (co_len _ _ _ Hc); done). simpl. by rewrite Hr. }
  rewrite Z.eqb_refl. cbn [when]. rewrite bind_modify.
  set (t3 := t2 <| k_lru ::= move_front i |>).
  change (upd _ (acquired lk_bcache t2)) with (acquired lk_bcache t3).
  rewrite release_acquired; [|by apply (quiet_calm p t3)|by apply Hbc].
  unfold t3, t2, t, upd, upd_k_buf, upd_k_proc, upd_k_lru; simpl. by rewrite list_alter_alter_eq.
Qed.

Lemma brelse_ok p held s i :
  cache_ok p (i :: held) s -> i ∉ held ->
  (bflags (bget_ s i) = 2 -> k_disk s !! blockno (bget_ s i) = Some (bdata (bget_ s i))) ->
  exists t, brelse i s = Done (Ok tt) t /\ returned p held s i t.
Proof.
  intros Hc Hnh Hclean. eexists. split; [by eapply brelse_eq|].
  destruct (held_blk _ _ _ i Hc ltac:(set_solver)) as (Hi & Hl & Hr & Hf & Hd & Hb).
  set (f := fun x => x <| blk := mk_sleeplock false 0 |> <| refcnt := u32 (refcnt x - 1) |>).
  set (t := s <| k_buf ::= alter f i |> <| k_proc ::= fmap (wake (Some (ch_sleep (sl_buf i)))) |>
              <| k_lru ::= move_front i |>).
  assert (bget_ t i = f (bget_ s i)) as Hti.
  { apply (bget_alter_eq f i s). by rewrite (co_len _ _ _ Hc). }
  assert (forall j, j <> i -> bget_ t j = bget_ s j) as Htj by (intros; by apply (bget_alter_ne f i j s)).
  assert (uniq t) as Hut.
  { intros j k Hj Hk. pose proof (co_uniq _ _ _ Hc j k Hj Hk) as Hu.
    destruct (decide (j = i)) as [->|Hji], (decide (k = i)) as [->|Hki];
      rewrite ?Hti, ?(Htj _ Hji), ?(Htj _ Hki); simpl; done. }
  assert (same_env s t) as Henv by (by apply (same_env_wake _ s)).
  split.
  - split; [by destruct s|symmetry; apply Henv].
  - done.
  - done.
  - destruct Hc as [Hq Hlen Hp Hu Hdk Hh Hbf]. split.
    + by apply (quiet_env p s).
    + simpl. by rewrite length_alter.
    + simpl. rewrite move_front_perm; [done|rewrite Hp; apply NoDup_seq|].
      rewrite Hp. apply elem_of_seq. lia.
    + done.
    + done.
    + by apply Forall_cons in Hh as [_ ?].
    + intros j Hj. change (k_disk t) with (k_disk s). rewrite <- (pid_env s t p Henv).
      specialize (Hbf j Hj). destruct (decide (j = i)) as [->|Hji].
      * rewrite Hti, bool_decide_false by done. rewrite bool_decide_true in Hbf by set_solver.
        destruct Hbf as (?&?&?&_). split_and!; try done. simpl. by rewrite Hr.
      * rewrite (Htj _ Hji). rewrite (bool_decide_ext _ (j ∈ held)) in Hbf by set_solver. done.
  - intros b. apply bview_keep; [apply (co_uniq _ _ _ Hc)|done|done|..]; intros j Hj Hcj; left;
      unfold caches in *; (destruct (decide (j = i)) as [->|Hji];
        [rewrite Hti in *|rewrite (Htj _ Hji) in *]); done.
  - done.
  - rewrite Hti. unfold f. destruct (bget_ s i); simpl in *. by subst.
Qed.

(** The block of a locked buffer becomes the buffer's contents, on disk and in
    the history of writes. *)
Record written (p : nat) (held : list nat) (s : kstate) (i : nat) (t : kstate) : Prop := {
  wr_step : bio_step s t;
  wr_disk : k_disk t = <[blockno (bget_ s i) := bdata (bget_ s i)]> (k_disk s);
  wr_hist : k_hist t = k_hist s ++ [(blockno (bget_ s i), bdata (bget_ s i))];
  wr_ok : cache_ok p held t;
  wr_view : forall b, bview t b = bview s b;
  wr_other : forall j, j <> i -> bget_ t j = bget_ s j;
  wr_buf : bget_ t i = (bget_ s i) <| bflags := 2 |>
}.

Lemma bwrite_eq p held s i :
  cache_ok p held s -> i ∈ held ->
  bwrite i s = Done (Ok tt)
    (s <| k_buf ::= alter (fun x => x <| bflags := 2 |>) i |>
       <| k_disk ::= <[blockno (bget_ s i) := bdata (bget_ s i)]> |>
       <| k_hist ::= (fun h => h ++ [(blockno (bget_ s i), bdata (bget_ s i))]) |>).
Proof.
  intros Hc Hin. pose proof (co_quiet _ _ _ Hc) as Hq.
  destruct (held_blk _ _ _ i Hc Hin) as (Hi & Hl & Hr & Hf & Hd & Hb).
  unfold bwrite. rewrite (bind_Done _ _ _ _ _ (holdingsleep_ok p s (sl_buf i) Hq (static_buf i Hi))).
  change (sllock s (sl_buf i)) with (blk (bget_ s i)). rewrite Hl. simpl. rewrite Z.eqb_refl. simpl.
  unfold setbuf. rewrite bind_modify.
  set (f := fun y => y <| bflags := Z.lor (bflags y) B_DIRTY |>). set (t := s <| k_buf ::= alter f i |>).
  assert (bget_ t i = f (bget_ s i)) as Hti by (apply bget_alter_eq; by rewrite (co_len _ _ _ Hc)).
  assert (bflags (f (bget_ s i)) = 6) as Hff.
  { unfold f. simpl. destruct (buf_flags _ _ _ i Hc Hi) as [?|[->| ->]]; done. }
  rewrite (iderw_write p t i); rewrite ?Hti; try done.
  f_equal. unfold t, upd, upd_k_buf, upd_k_disk, upd_k_hist; simpl. f_equal.
  rewrite list_alter_alter_eq. done.
Qed.

Lemma bwrite_ok p held s i :
  cache_ok p held s -> i ∈ held ->
  exists t, bwrite i s = Done (Ok tt) t /\ written p held s i t.
Proof.
  intros Hc Hin. eexists. split; [by eapply bwrite_eq|].
  destruct (held_blk _ _ _ i Hc Hin) as (Hi & Hl & Hr & Hf & Hd & Hb).
  set (f := fun x => x <| bflags := 2 |>).
  set (t := s <| k_buf ::= alter f i |> <| k_disk ::= <[blockno (bget_ s i) := bdata (bget_ s i)]> |>
              <| k_hist ::= (fun h => h ++ [(blockno (bget_ s i), bdata (bget_ s i))]) |>).
  assert (bget_ t i = f (bget_ s i)) as Hti.
  { apply (bget_alter_eq f i s). by rewrite (co_len _ _ _ Hc). }
  assert (forall j, j <> i -> bget_ t j = bget_ s j) as Htj by (intros; by apply (bget_alter_ne f i j s)).
  assert (uniq t) as Hut.
  { intros j k Hj Hk. pose proof (co_uniq _ _ _ Hc j k Hj Hk) as Hu.
    destruct (decide (j = i)) as [->|Hji], (decide (k = i)) as [->|Hki];
      rewrite ?Hti, ?(Htj _ Hji), ?(Htj _ Hki); simpl; done. }
  assert (forall j, (j < NBUF)%nat -> j <> i -> bflags (bget_ s j) <> 0 ->
    blockno (bget_ s j) <> blockno (bget_ s i)) as Hne.
  { intros j Hj Hji Hfj He. apply Hji, (co_uniq _ _ _ Hc); try done.
    by apply (co_buf _ _ _ Hc j Hj). }
  split; try done.
  - pose proof Hc as [Hq Hlen Hp Hu Hdk Hh Hbf]. split; try done.
    + simpl. by rewrite length_alter.
    + intros b d Hbd. simpl in Hbd. apply lookup_insert_Some in Hbd as [[_ <-]|[_ Hbd]]; [|by eapply Hdk].
      by destruct (Hbf i Hi).
    + intros j Hj. change (pget t p) with (pget s p). specialize (Hbf j Hj).
      destruct (decide (j = i)) as [->|Hji].
      * rewrite Hti. rewrite bool_decide_true in * by done. destruct Hbf as (?&?&_&?&?&_).
        split_and!; try done; [by right; left|]. intros _. split; [done|].
        unfold t, f. simpl. by rewrite lookup_insert_eq.
      * rewrite (Htj _ Hji). destruct Hbf as (Hbl & Hbf & Hbd & Hrest).
        split_and!; try done.
        -- intros Hfj. destruct (Hbd Hfj). split; [done|]. simpl. rewrite lookup_insert_ne by (by symmetry; apply Hne). done.
        -- destruct (bool_decide (j ∈ held)); [done|]. destruct Hrest as (?&?&Hcl). split_and!; try done.
           intros H2. simpl. rewrite lookup_insert_ne; [by apply Hcl|]. symmetry. apply Hne; lia || done.
  - intros b. destruct (decide (b = blockno (bget_ s i))) as [->|Hbne].
    + rewrite (bview_cached s _ i), (bview_cached t _ i); [by rewrite Hti|done|done|..|apply (co_uniq _ _ _ Hc)|done|done].
      unfold caches. by rewrite Hti.
    + apply bview_keep; [apply (co_uniq _ _ _ Hc)|done|simpl; by rewrite lookup_insert_ne|..];
        intros j Hj Hcj; left; (destruct (decide (j = i)) as [->|Hji];
          [unfold caches in Hcj; rewrite ?Hti in Hcj; destruct Hcj as (_&?&_); by subst
          |unfold caches in *; rewrite (Htj _ Hji) in *; done]).
Qed.

(** ** Changing the contents of a locked buffer *)

Definition set_data (i : nat) (d : list Z) (s : kstate) : kstate :=
  s <| k_buf ::= alter (fun y => y <| bdata := d |>) i |>.

Lemma set_data_at p held s i d :
  cache_ok p held s -> i ∈ held -> bget_ (set_data i d s) i = (bget_ s i) <| bdata := d |>.
Proof.
  intros Hc Hin. apply bget_alter_eq. rewrite (co_len _ _ _ Hc).
  by destruct (held_blk _ _ _ _ Hc Hin).
Qed.

Lemma set_data_ok p held s i d :
  cache_ok p held s -> i ∈ held -> length d = 512%nat ->
  cache_ok p held (set_data i d s) /\
  (forall b, bview (set_data i d s) b = if decide (b = blockno (bget_ s i)) then Some d else bview s b).
Proof.
  intros Hc Hin Hd. pose proof (set_data_at _ _ _ _ d Hc Hin) as Hti.
  destruct (held_blk _ _ _ _ Hc Hin) as (Hi & Hl & Hr & Hf & Hdev & Hb).
  set (t := set_data i d s) in *.
  assert (forall j, j <> i -> bget_ t j = bget_ s j) as Htj by (intros; by apply bget_alter_ne).
  assert (uniq t) as Hut.
  { intros j k Hj Hk. pose proof (co_uniq _ _ _ Hc j k Hj Hk) as Hu.
    destruct (decide (j = i)) as [->|Hji], (decide (k = i)) as [->|Hki];
      rewrite ?Hti, ?(Htj _ Hji), ?(Htj _ Hki); simpl; done. }
  split.
  - pose proof Hc as [Hq Hlen Hp Hu Hdk Hh Hbf]. split; try done.
    + simpl. by rewrite length_alter.
    + intros j Hj. specialize (Hbf j Hj). change (pget t p) with (pget s p).
      change (k_disk t) with (k_disk s). destruct (decide (j = i)) as [->|Hji]; [|by rewrite (Htj _ Hji)].
      rewrite Hti. rewrite bool_decide_true in * by done. by destruct Hbf as (_&?&?&?).
  - intros b. destruct (decide _) as [->|Hne].
    + rewrite (bview_cached t _ i); [by rewrite Hti|done|done|]. unfold caches. by rewrite Hti.
    + apply bview_keep; [apply (co_uniq _ _ _ Hc)|done|done|..]; intros j Hj Hcj; left;
        (destruct (decide (j = i)) as [->|Hji];
          [unfold caches in Hcj; rewrite ?Hti in Hcj; destruct Hcj as (_&?&_); by subst
          |unfold caches in *; rewrite (Htj _ Hji) in *; done]).
Qed.

(** ** The idle kernel *)

Lemma bget_idle disk i : (i < NBUF)%nat -> bget_ (idle disk) i = buf0.
Proof.
  intros Hi. unfold bget_. change (k_buf (idle disk)) with (replicate NBUF buf0).
  apply aget_lookup. by apply lookup_replicate_2.
Qed.

Lemma idle_ok disk :
  map_Forall (fun _ d => length d = 512%nat) disk -> cache_ok 1 [] (idle disk).
Proof.
  intros Hd. split; [apply quiet_idle|done| |..|done|constructor|].
  - symmetry. apply Permutation_rev.
  - intros i j Hi Hj. by rewrite bget_idle.
  - intros i Hi. rewrite bget_idle by done. rewrite bool_decide_false by set_solver.
    split; [done|]. split; [by left|]. split; [done|]. by vm_compute.
Qed.

Lemma idle_room disk : room [] (idle disk).
Proof. exists 0%nat. split_and!; [vm_compute; lia|set_solver|]. by rewrite bget_idle by (vm_compute; lia). Qed.

(** ** The cache is transparent *)

(** C13: in a kernel with an idle cache, bread returns a locked buffer with the
    block's current contents; overwriting it, bwrite and brelse make the new
    contents the block on disk and what the next reader sees, every other block
    keeps its view, one block is written, and the cache's invariant holds. *)
Theorem cache_transparent p s b d :
  cache_ok p [] s -> is_Some (k_disk s !! b) -> room [] s -> length d = 512%nat ->
  exists i t u,
    bread 1 b s = Done (Ok i) t /\ bview s b = Some (bdata (bget_ t i)) /\
    (bwrite i ;;; brelse i) (set_data i d t) = Done (Ok tt) u /\
    cache_ok p [] u /\ k_disk u = <[b := d]> (k_disk s) /\ k_hist u = k_hist s ++ [(b, d)] /\
    (forall b', bview u b' = if decide (b' = b) then Some d else bview s b').
Proof.
  intros Hc Hb Hroom Hd.
  destruct (bread_ok p [] s b Hc Hb) as (i & t & Hr & Hg); [set_solver|by right|].
  destruct (set_data_ok p [i] t i d (gr_ok _ _ _ _ _ _ Hg) ltac:(set_solver) Hd) as [Hc1 Hv1].
  pose proof (set_data_at p [i] t i d (gr_ok _ _ _ _ _ _ Hg) ltac:(set_solver)) as Hti.
  destruct (bwrite_ok p [i] (set_data i d t) i Hc1 ltac:(set_solver)) as (t2 & Hw & Hwr).
  destruct (brelse_ok p [] t2 i (wr_ok _ _ _ _ _ Hwr)) as (u & Hrel & Hre); [set_solver|..].
  { intros _. rewrite (wr_buf _ _ _ _ _ Hwr), (wr_disk _ _ _ _ _ Hwr). by rewrite lookup_insert_eq. }
  exists i, t, u. pose proof (gr_block _ _ _ _ _ _ Hg) as Hbn.
  rewrite (re_disk _ _ _ _ _ Hre), (re_hist _ _ _ _ _ Hre), (wr_disk _ _ _ _ _ Hwr), (wr_hist _ _ _ _ _ Hwr), Hti.
  split_and!.
  - done.
  - apply (gr_data _ _ _ _ _ _ Hg).
  - by rewrite (bind_Done _ _ _ _ _ Hw).
  - apply (re_ok _ _ _ _ _ Hre).
  - simpl. rewrite Hbn. by rewrite <- (gr_disk _ _ _ _ _ _ Hg).
  - simpl. rewrite Hbn. by rewrite <- (gr_hist _ _ _ _ _ _ Hg).
  - intros b'. rewrite (re_view _ _ _ _ _ Hre), (wr_view _ _ _ _ _ Hwr), Hv1, Hbn.
    by rewrite (gr_view _ _ _ _ _ _ Hg).
Qed.

Definition small_disk : gmap Z (list Z) :=
  list_to_map ((fun k => (Z.of_nat k, replicate 512 0)) <$> seq 0 100).

Lemma small_disk_len : map_Forall (fun _ d => length d = 512%nat) small_disk.
Proof. apply (bool_decide_unpack _). by vm_compute. Qed.

Lemma cache_transparent_witness :
  exists i t u,
    bread 1 7 (idle small_disk) = Done (Ok i) t /\
    (bwrite i ;;; brelse i) (set_data i (replicate 512 9) t) = Done (Ok tt) u /\
    bview u 7 = Some (replicate 512 9) /\ bview u 8 = bview (idle small_disk) 8.
Proof.
  destruct (cache_transparent 1 (idle small_disk) 7 (replicate 512 9)) as (i & t & u & H1 & _ & H2 & _ & _ & _ & H3).
  - apply idle_ok, small_disk_len.
  - vm_compute. by eexists.
  - apply idle_room.
  - done.
  - exists i, t, u. split; [exact H1|]. split; [exact H2|].
    split; rewrite H3; [by rewrite decide_True|by rewrite decide_False].
Defined.
