(* ===== verification/Log.v ===== *)
(** * The log (log.c)

    The in-memory header is part of [k_log]; the header block on disk is the
    int n and the int block[LOGSIZE] in its first bytes. *)

From S2P Require Import Prelude Kernel Spinlock ProcCore Bio.

(** ** The header block *)

(** int values in a block. *)
Definition get_int (l : list Z) (off : nat) : Z := i32 (le_load 4 l off).

(** hb->n = lh.n; for(i = 0; i < lh.n; i++) hb->block[i] = lh.block[i]; *)
Fixpoint put_blocks (i : nat) (bs : list Z) (data : list Z) : list Z :=
  match bs with
  | [] => data
  | b :: bs' => put_blocks (S i) bs' (le_store 4 data (4 + 4 * i) b)
  end.

Definition encode_head (n : Z) (bs : list Z) (data : list Z) : list Z :=
  put_blocks 0 (take (idx n) bs) (le_store 4 data 0 n).

(** log.lh.block[i] = lh->block[i] for i < lh->n; an n above LOGSIZE would write
    past the array. *)
Definition decode_head (data : list Z) (old : list Z) : Z * list Z :=
  let n := get_int data 0 in
  (n, map (fun i => get_int data (4 + 4 * i)) (seq 0 (idx n)) ++ drop (idx n) old).

(** ** Operations *)

Definition getlog {A} (f : logst -> A) : K A := gets (fun s => f (k_log s)).

Definition setlog (f : logst -> logst) : K unit := modify (fun s => s <| k_log ::= f |>).

(** Copying a block from one buffer to another: memmove of BSIZE bytes. *)
Definition copy_buf (dst src : nat) : K unit :=
  d <- getbuf src bdata ;;
  setbuf dst (fun y => y <| bdata := d |>).

Definition install_trans : K unit :=
  n <- getlog lh_n ;;
  mfor (seq 0 (idx n)) (fun tail =>
    g <- getlog id ;;
    lbuf <- bread (ldev g) (lstart g + Z.of_nat tail + 1) ;;
    dbuf <- bread (ldev g) (aget (lh_block g) tail) ;;
    copy_buf dbuf lbuf ;;;
    bwrite dbuf ;;;
    brelse lbuf ;;;
    brelse dbuf).

Definition read_head : K unit :=
  g <- getlog id ;;
  b <- bread (ldev g) (lstart g) ;;
  d <- getbuf b bdata ;;
  let '(n, bs) := decode_head d (lh_block g) in
  (if LOGSIZE <? n then halt (UB "read_head")
   else setlog (fun g => g <| lh_n := n |> <| lh_block := bs |>)) ;;;
  brelse b.

Definition write_head : K unit :=
  g <- getlog id ;;
  b <- bread (ldev g) (lstart g) ;;
  setbuf b (fun y => y <| bdata := encode_head (lh_n g) (lh_block g) (bdata y) |>) ;;;
  bwrite b ;;;
  brelse b.

Definition recover_from_log : K unit :=
  read_head ;;;
  install_trans ;;;
  setlog (fun g => g <| lh_n := 0 |>) ;;;
  write_head.

(** while(1) of begin_op: [true] when the operation may start. *)
Definition op_admitted (g : logst) : bool :=
  negb (committing g) && (lh_n g + (outstanding g + 1) * MAXOPBLOCKS <=? LOGSIZE).

Definition begin_op : K unit :=
  acquire lk_log ;;;
  n <- gets k_fuel ;;
  mwhile n (getlog (fun g => negb (op_admitted g))) (sleep (Some ch_log) lk_log) ;;;
  setlog (fun g => g <| outstanding := i32 (outstanding g + 1) |>) ;;;
  release lk_log.

Definition write_log : K unit :=
  n <- getlog lh_n ;;
  mfor (seq 0 (idx n)) (fun tail =>
    g <- getlog id ;;
    to <- bread (ldev g) (lstart g + Z.of_nat tail + 1) ;;
    from <- bread (ldev g) (aget (lh_block g) tail) ;;
    copy_buf to from ;;;
    bwrite to ;;;
    brelse from ;;;
    brelse to).

Definition commit : K unit :=
  n <- getlog lh_n ;;
  when (0 <? n)
    (write_log ;;;
     write_head ;;;
     install_trans ;;;
     setlog (fun g => g <| lh_n := 0 |>) ;;;
     write_head).

Definition end_op : K unit :=
  acquire lk_log ;;;
  setlog (fun g => g <| outstanding := i32 (outstanding g - 1) |>) ;;;
  c <- getlog committing ;;
  if (c : bool) then panic "log.committing"
  else
    o <- getlog outstanding ;;
    let do_commit := o =? 0 in
    (if do_commit then setlog (fun g => g <| committing := true |>)
     else wakeup (Some ch_log)) ;;;
    release lk_log ;;;
    when do_commit
      (commit ;;;
       acquire lk_log ;;;
       setlog (fun g => g <| committing := false |>) ;;;
       wakeup (Some ch_log) ;;;
       release lk_log).

(** The index at which log_write records the block: absorption or the end. *)
Definition log_slot (g : logst) (bno : Z) : nat :=
  match list_find (fun b => b = bno) (take (idx (lh_n g)) (lh_block g)) with
  | Some (i, _) => i
  | None => idx (lh_n g)
  end.

Definition log_record (bno : Z) (g : logst) : logst :=
  let i := log_slot g bno in
  g <| lh_block := <[i := bno]> (lh_block g) |>
    <| lh_n := if (i =? idx (lh_n g))%nat then lh_n g + 1 else lh_n g |>.

Definition log_write (b : nat) : K unit :=
  g <- getlog id ;;
  if (LOGSIZE <=? lh_n g) || (lsize g - 1 <=? lh_n g) then panic "too big a transaction"
  else if outstanding g <? 1 then panic "log_write outside of trans"
  else
    acquire lk_log ;;;
    bno <- getbuf b blockno ;;
    setlog (log_record bno) ;;;
    setbuf b (fun y => y <| bflags := Z.lor (bflags y) B_DIRTY |>) ;;;
    release lk_log.
