(* ===== verification/Crash.v ===== *)
(** * Crash safety of the log (theorems on log.c)

    The disk is a map from block numbers to blocks, and a crash leaves it with a
    prefix of the writes that the kernel issued ([k_hist]).  [recover_disk] is
    what recovery should make of a disk; recover_from_log computes it, and
    every crash during commit recovers to the state before the transaction or to
    the state after it. *)

From S2P Require Import Prelude Kernel Spinlock ProcCore Bio Quiet Cache Log.

(** ** Disks and writes *)

Definition apply_writes (d : gmap Z (list Z)) (ws : list (Z * list Z)) : gmap Z (list Z) :=
  foldl (fun d w => <[w.1 := w.2]> d) d ws.

(** The block numbers that a header block lists. *)
Definition head_blocks (h : list Z) : list Z :=
  (fun i => get_int h (4 + 4 * i)) <$> seq 0 (idx (get_int h 0)).

(** Copying log block [k], [k+1], ... to the blocks [bs]. *)
Fixpoint install_disk (start : Z) (k : nat) (bs : list Z) (d : gmap Z (list Z)) : gmap Z (list Z) :=
  match bs with
  | [] => d
  | b :: bs' =>
      install_disk start (S k) bs'
        (<[b := default [] (d !! (start + Z.of_nat k + 1))]> d)
  end.

(** What recovery makes of a disk: the logged blocks are installed and the
    header is cleared. *)
Definition recover_disk (start : Z) (d : gmap Z (list Z)) : gmap Z (list Z) :=
  match d !! start with
  | Some h => <[start := le_store 4 h 0 0]> (install_disk start 0 (head_blocks h) d)
  | None => d
  end.

(** Block [b] is not one of the LOGSIZE blocks of the log, the first of which
    is the header: mkfs puts the inodes right after them. *)
Definition outside (start b : Z) : Prop := b < start \/ start + LOGSIZE <= b.

(** The writes of a commit of the blocks [bs] with contents [vs], where [h] is
    the old header block. *)
Definition log_writes (start : Z) (k : nat) (vs : list (list Z)) : list (Z * list Z) :=
  imap (fun i v => (start + Z.of_nat (k + i) + 1, v)) vs.

Definition commit_writes (start : Z) (bs : list Z) (vs : list (list Z)) (h : list Z)
    : list (Z * list Z) :=
  let h1 := encode_head (Z.of_nat (length bs)) bs h in
  log_writes start 0 vs ++ [(start, h1)] ++ zip bs vs ++ [(start, le_store 4 h1 0 0)].

(** ** The header block *)

Lemma length_put_blocks k bs d : length (put_blocks k bs d) = length d.
Proof. revert k d. induction bs as [|b bs IH]; intros k d; cbn [put_blocks]; [done|]. by rewrite IH, length_le_store. Qed.

Lemma length_encode_head n bs d : length (encode_head n bs d) = length d.
Proof. unfold encode_head. by rewrite length_put_blocks, length_le_store. Qed.

Lemma put_blocks_below k bs d off :
  (off + 4 <= 4 + 4 * k)%nat -> get_int (put_blocks k bs d) off = get_int d off.
Proof.
  revert k d. induction bs as [|b bs IH]; intros k d Hoff; cbn [put_blocks]; [done|].
  rewrite IH by lia. unfold get_int. by rewrite le_load_store_ne by lia.
Qed.

Lemma get_int_store d off v :
  (off + 4 <= length d)%nat -> - 2 ^ 31 <= v < 2 ^ 31 -> get_int (le_store 4 d off v) off = v.
Proof.
  intros Hoff Hv. unfold get_int. rewrite le_load_store by lia.
  change (256 ^ Z.of_nat 4) with (2 ^ 32). unfold i32.
  rewrite Zplus_mod_idemp_l. rewrite Z.mod_small; lia.
Qed.

Lemma put_blocks_at k bs d j b :
  Forall (fun b => 0 <= b < 2 ^ 31) bs -> bs !! j = Some b ->
  (4 + 4 * (k + length bs) <= length d)%nat ->
  get_int (put_blocks k bs d) (4 + 4 * (k + j)) = b.
Proof.
  revert k d j. induction bs as [|b' bs IH]; intros k d j Hbs Hj Hlen; cbn [put_blocks]; [done|].
  apply Forall_cons in Hbs as [Hb' Hbs]. cbn [length] in Hlen. destruct j as [|j].
  - injection Hj as <-. rewrite put_blocks_below by lia. rewrite Nat.add_0_r.
    apply get_int_store; lia.
  - replace (k + S j)%nat with (S k + j)%nat by lia. apply IH; [done|done|].
    rewrite length_le_store. lia.
Qed.

(** A header block that write_head wrote is read back as it was. *)
Lemma head_blocks_encode bs lb d :
  Forall (fun b => 0 <= b < 2 ^ 31) bs -> (length bs <= 29)%nat -> length d = 512%nat ->
  take (length bs) lb = bs ->
  get_int (encode_head (Z.of_nat (length bs)) lb d) 0 = Z.of_nat (length bs) /\
  head_blocks (encode_head (Z.of_nat (length bs)) lb d) = bs.
Proof.
  intros Hbs Hlen Hd Hlb. set (h := encode_head _ _ _).
  assert (get_int h 0 = Z.of_nat (length bs)) as Hn.
  { unfold h, encode_head. rewrite put_blocks_below by lia. apply get_int_store; lia. }
  split; [done|]. unfold head_blocks. rewrite Hn. unfold idx. rewrite Nat2Z.id.
  apply list_eq. intros j. rewrite list_lookup_fmap.
  destruct (bs !! j) as [b|] eqn:Hj.
  - pose proof (lookup_lt_Some _ _ _ Hj). rewrite lookup_seq_lt by done. simpl. f_equal.
    unfold h, encode_head, idx. rewrite Nat2Z.id, Hlb.
    apply (put_blocks_at 0); [done|done|]. rewrite length_le_store. lia.
  - apply lookup_ge_None in Hj. by rewrite lookup_seq_ge.
Qed.

Lemma get_int_cleared h : (4 <= length h)%nat -> get_int (le_store 4 h 0 0) 0 = 0.
Proof. intros. apply get_int_store; lia. Qed.

Lemma head_blocks_cleared h : (4 <= length h)%nat -> head_blocks (le_store 4 h 0 0) = [].
Proof. intros. unfold head_blocks. by rewrite get_int_cleared. Qed.

(** ** Writes *)

Lemma apply_writes_app d ws ws' : apply_writes d (ws ++ ws') = apply_writes (apply_writes d ws) ws'.
Proof. apply foldl_app. Qed.

Lemma apply_writes_other d ws b : b ∉ ws.*1 -> apply_writes d ws !! b = d !! b.
Proof.
  revert d. induction ws as [|[a v] ws IH]; intros d Hb; [done|].
  apply not_elem_of_cons in Hb as [Hne Hb]. simpl in *. rewrite IH by done. by rewrite lookup_insert_ne.
Qed.

(** A block that was written does not depend on the disk before. *)
Lemma apply_writes_in d d' ws b : b ∈ ws.*1 -> apply_writes d ws !! b = apply_writes d' ws !! b.
Proof.
  revert d d'. induction ws as [|[a v] ws IH]; intros d d' Hb; [by apply elem_of_nil in Hb|].
  simpl in *. destruct (decide (b ∈ ws.*1)) as [Hin|Hn]; [by apply IH|].
  apply elem_of_cons in Hb as [->|]; [|done]. rewrite !apply_writes_other by done.
  by rewrite !lookup_insert_eq.
Qed.

Lemma apply_writes_agree d d' ws b :
  (b ∉ ws.*1 -> d !! b = d' !! b) -> apply_writes d ws !! b = apply_writes d' ws !! b.
Proof.
  intros H. destruct (decide (b ∈ ws.*1)); [by apply apply_writes_in|].
  rewrite !apply_writes_other by done. auto.
Qed.

Lemma log_writes_keys start k vs b :
  b ∈ (log_writes start k vs).*1 -> start + Z.of_nat k < b <= start + Z.of_nat (k + length vs).
Proof.
  intros Hb. apply list_elem_of_fmap in Hb as ([a v] & -> & Hin). unfold log_writes in Hin.
  apply elem_of_lookup_imap in Hin as (i & y & [= -> ->] & Hi). apply lookup_lt_Some in Hi. simpl. lia.
Qed.

Lemma log_writes_cons start k v vs :
  log_writes start k (v :: vs) = (start + Z.of_nat k + 1, v) :: log_writes start (S k) vs.
Proof.
  unfold log_writes. cbn [imap]. f_equal; [f_equal; f_equal; f_equal; lia|].
  apply imap_ext. intros i x _. simpl. f_equal. lia.
Qed.

(** The log blocks after the log has been written. *)
Lemma log_writes_lookup start k vs d i v :
  vs !! i = Some v -> apply_writes d (log_writes start k vs) !! (start + Z.of_nat (k + i) + 1) = Some v.
Proof.
  revert k d i. induction vs as [|v' vs IH]; intros k d i Hi; [done|]. rewrite log_writes_cons.
  destruct i as [|i].
  - injection Hi as ->. simpl. rewrite apply_writes_other.
    + rewrite Nat.add_0_r. by rewrite lookup_insert_eq.
    + intros Hin. apply log_writes_keys in Hin. lia.
  - replace (k + S i)%nat with (S k + i)%nat by lia. by apply (IH (S k)).
Qed.

(** Installing is writing the logged contents to the blocks. *)
Lemma install_disk_writes start k bs vs d :
  length vs = length bs -> (k + length bs <= 29)%nat -> Forall (outside start) bs ->
  (forall i v, vs !! i = Some v -> d !! (start + Z.of_nat (k + i) + 1) = Some v) ->
  install_disk start k bs d = apply_writes d (zip bs vs).
Proof.
  revert k vs d. induction bs as [|b bs IH]; intros k [|v vs] d Hlen Hk Hout Hd; try done.
  apply Forall_cons in Hout as [Hb Hout]. cbn [install_disk zip zip_with]. simpl in Hlen, Hk.
  assert (d !! (start + Z.of_nat k + 1) = Some v) as Hv.
  { rewrite <- (Hd 0%nat v eq_refl). do 2 f_equal. lia. }
  rewrite Hv. simpl. apply IH; [lia|lia|done|].
  intros i v' Hi. pose proof (lookup_lt_Some _ _ _ Hi). unfold outside, LOGSIZE, MAXOPBLOCKS in Hb.
  rewrite lookup_insert_ne by lia. rewrite <- (Hd (S i) v' Hi). do 2 f_equal. lia.
Qed.

Lemma zip_keys (bs : list Z) (vs : list (list Z)) b : b ∈ (zip bs vs).*1 -> b ∈ bs.
Proof.
  intros Hb. apply list_elem_of_fmap in Hb as ([a v] & -> & Hin).
  by apply elem_of_zip_l in Hin.
Qed.

Lemma take_keys {A} (ws : list (Z * A)) m b : b ∈ (take m ws).*1 -> b ∈ ws.*1.
Proof. rewrite fmap_take. intros Hb. apply (elem_of_submseteq _ _ _ Hb), sublist_submseteq, sublist_take. Qed.

Lemma start_not_block start bs : Forall (outside start) bs -> start ∉ bs.
Proof.
  intros Hout Hin. rewrite Forall_forall in Hout. specialize (Hout _ Hin).
  unfold outside, LOGSIZE, MAXOPBLOCKS in *. lia.
Qed.

Lemma outside_ne start b : outside start b -> b <> start.
Proof. unfold outside, LOGSIZE, MAXOPBLOCKS. lia. Qed.

Lemma outside_not_log start (vs : list (list Z)) k b :
  (length vs <= 29)%nat -> outside start b -> b ∉ (take k (log_writes start 0 vs)).*1.
Proof.
  intros Hl Hb Hin. apply take_keys, log_writes_keys in Hin. unfold outside, LOGSIZE, MAXOPBLOCKS in Hb. lia.
Qed.

(** A disk whose log is complete recovers to the same contents however many of
    the blocks have been installed already. *)
Lemma reinstall start h bs vs d m b :
  d !! start = Some h -> head_blocks h = bs -> length vs = length bs -> (length bs <= 29)%nat ->
  Forall (outside start) bs ->
  (forall i v, vs !! i = Some v -> d !! (start + Z.of_nat i + 1) = Some v) ->
  outside start b ->
  recover_disk start (apply_writes d (take m (zip bs vs))) !! b = apply_writes d (zip bs vs) !! b.
Proof.
  intros Hh Hbs Hvs Hlen Hout Hlog Hb.
  assert (forall a, a ∉ bs -> apply_writes d (take m (zip bs vs)) !! a = d !! a) as Hd.
  { intros a Ha. apply apply_writes_other. by intros ?%take_keys%zip_keys. }
  unfold recover_disk. rewrite Hd, Hh, Hbs by (by apply start_not_block).
  rewrite lookup_insert_ne by (symmetry; by eapply outside_ne).
  rewrite (install_disk_writes start 0 bs vs); [|done|lia|done|].
  - apply apply_writes_agree. intros Hnb. by rewrite apply_writes_other by (by intros ?%take_keys).
  - intros i v Hi. pose proof (lookup_lt_Some _ _ _ Hi). rewrite Hd; [by apply Hlog|].
    intros Hin. rewrite Forall_forall in Hout. specialize (Hout _ Hin).
    unfold outside, LOGSIZE, MAXOPBLOCKS in Hout. lia.
Qed.

Section commit_point.
Context (start : Z) (bs : list Z) (vs : list (list Z)) (h : list Z) (d0 : gmap Z (list Z)).
Hypothesis Hh : d0 !! start = Some h.
Hypothesis Hhl : length h = 512%nat.
Hypothesis Hempty : head_blocks h = [].
Hypothesis Hvs : length vs = length bs.
Hypothesis Hlen : (length bs <= 29)%nat.
Hypothesis Hrange : Forall (fun b => 0 <= b < 2 ^ 31) bs.
Hypothesis Hout : Forall (outside start) bs.

(** Before the header is written, recovery keeps the old contents. *)
Lemma crash_before k b :
  (k <= length bs)%nat -> outside start b ->
  recover_disk start (apply_writes d0 (take k (commit_writes start bs vs h))) !! b = d0 !! b.
Proof.
  intros Hk Hb. unfold commit_writes. rewrite take_app_le by (unfold log_writes; rewrite length_imap; lia).
  assert (start ∉ (take k (log_writes start 0 vs)).*1) as Hs.
  { intros Hin. apply take_keys, log_writes_keys in Hin. lia. }
  unfold recover_disk. rewrite apply_writes_other, Hh, Hempty by done. cbn [install_disk].
  rewrite lookup_insert_ne by (symmetry; by eapply outside_ne).
  by rewrite apply_writes_other by (apply outside_not_log; [lia|done]).
Qed.

Let h1 := encode_head (Z.of_nat (length bs)) bs h.
Let d1 := <[start := h1]> (apply_writes d0 (log_writes start 0 vs)).

(** Once the header is written, and while the blocks are being installed,
    recovery installs all of them. *)
Lemma crash_during m b :
  outside start b ->
  recover_disk start (apply_writes d1 (take m (zip bs vs))) !! b = apply_writes d0 (zip bs vs) !! b.
Proof.
  intros Hb. destruct (head_blocks_encode bs bs h Hrange Hlen Hhl ltac:(apply firstn_all)) as [_ Hbs].
  rewrite (reinstall start h1 bs vs d1); [|unfold d1; by rewrite lookup_insert_eq|done..| |done].
  - apply apply_writes_agree. intros _. unfold d1.
    rewrite lookup_insert_ne by (symmetry; by eapply outside_ne).
    rewrite <- (take_ge (log_writes start 0 vs) (length (log_writes start 0 vs))) by lia.
    apply apply_writes_other. apply outside_not_log; [lia|done].
  - intros i v Hi. unfold d1. rewrite lookup_insert_ne by lia. by apply (log_writes_lookup start 0).
Qed.

(** After the commit the header is clear and the blocks are in place. *)
Lemma crash_after b :
  outside start b ->
  recover_disk start (apply_writes d0 (commit_writes start bs vs h)) !! b =
    apply_writes d0 (zip bs vs) !! b.
Proof.
  intros Hb. unfold commit_writes. rewrite !apply_writes_app. fold h1. cbn [apply_writes foldl fst snd].
  fold (apply_writes d0 (log_writes start 0 vs)). fold d1. fold (apply_writes d1 (zip bs vs)).
  unfold recover_disk. rewrite lookup_insert_eq.
  rewrite head_blocks_cleared by (unfold h1; rewrite length_encode_head; lia).
  cbn [install_disk]. rewrite !lookup_insert_ne by (symmetry; by eapply outside_ne).
  apply apply_writes_agree. intros _. unfold d1.
  rewrite lookup_insert_ne by (symmetry; by eapply outside_ne).
  rewrite <- (take_ge (log_writes start 0 vs) (length (log_writes start 0 vs))) by lia.
  apply apply_writes_other. apply outside_not_log; [lia|done].
Qed.

Lemma crash_pure k b :
  outside start b ->
  recover_disk start (apply_writes d0 (take k (commit_writes start bs vs h))) !! b =
    if (k <=? length bs)%nat then d0 !! b else apply_writes d0 (zip bs vs) !! b.
Proof.
  intros Hb. destruct (Nat.leb_spec k (length bs)) as [Hk|Hk]; [by apply crash_before|].
  assert (length (log_writes start 0 vs) = length bs) as Hll by (unfold log_writes; by rewrite length_imap).
  assert (length (zip bs vs) = length bs) as Hzl by (rewrite length_zip_with; lia).
  destruct (decide (k <= length bs + 1 + length bs)%nat) as [Hk'|Hk'].
  - unfold commit_writes. rewrite take_app_ge by lia. rewrite Hll.
    replace (k - length bs)%nat with (S (k - length bs - 1)) by lia. cbn [app take].
    rewrite take_app_le by lia. rewrite apply_writes_app. by apply crash_during.
  - rewrite take_ge; [by apply crash_after|].
    unfold commit_writes. rewrite !length_app. cbn [length]. lia.
Qed.
End commit_point.

(** ** Dirty blocks *)

(** Block [b] is cached with contents that are not on disk yet. *)
Definition dirtyblk (s : kstate) (b : Z) : Prop :=
  exists i, (i < NBUF)%nat /\ bdev (bget_ s i) = 1 /\ blockno (bget_ s i) = b /\ bflags (bget_ s i) = 6.

Lemma dirtyblk_caches s b : dirtyblk s b -> exists i, (i < NBUF)%nat /\ caches s b i.
Proof. intros (i & Hi & Hd & Hb & Hf). exists i. unfold caches. split; [done|]. split_and!; [done..|lia]. Qed.

(** Two states whose buffers agree but for entry [i] have the same dirty blocks
    if entry [i] is dirty for the same block in both or in neither. *)
Lemma dirtyblk_same s t i :
  (forall j, j <> i -> bget_ t j = bget_ s j) ->
  (bdev (bget_ t i) = 1 /\ bflags (bget_ t i) = 6 <-> bdev (bget_ s i) = 1 /\ bflags (bget_ s i) = 6) ->
  (bflags (bget_ s i) = 6 -> blockno (bget_ t i) = blockno (bget_ s i)) ->
  forall b, dirtyblk t b <-> dirtyblk s b.
Proof.
  intros Ho Hf Hb b. split; intros (j & Hj & Hd & He & H6); exists j;
    (destruct (decide (j = i)) as [->|Hne]; [|rewrite (Ho _ Hne) in *; by split_and!]).
  - destruct (proj1 Hf (conj Hd H6)) as [H1 H2]. rewrite <- (Hb H2). by split_and!.
  - destruct (proj2 Hf (conj Hd H6)) as [H1 H2]. rewrite (Hb H6). by split_and!.
Qed.

Lemma grabbed_dirty p held s b i t :
  cache_ok p held s -> grabbed p held s b i t -> forall b', dirtyblk t b' <-> dirtyblk s b'.
Proof.
  intros Hc Hg. destruct (held_blk _ _ _ i (gr_ok _ _ _ _ _ _ Hg) ltac:(set_solver)) as (Hi & _ & _ & _ & Hd & _).
  apply (dirtyblk_same _ _ i (gr_other _ _ _ _ _ _ Hg)).
  - destruct (gr_flags _ _ _ _ _ _ Hg) as [[(?&_) ->]|(_ & -> & Hn)]; [tauto|].
    rewrite has_flag_dirty in Hn by (by apply (buf_flags _ _ _ _ Hc)). bsplit. lia.
  - intros H6. rewrite (gr_block _ _ _ _ _ _ Hg).
    destruct (gr_flags _ _ _ _ _ _ Hg) as [[(_&?&_) _]|(_ & _ & Hn)]; [done|].
    rewrite has_flag_dirty in Hn by (by apply (buf_flags _ _ _ _ Hc)). bsplit. lia.
Qed.

(** A clean buffer that bread returned is a copy of the block on disk. *)
Lemma grabbed_clean p held s b i t :
  cache_ok p held s -> grabbed p held s b i t ->
  bflags (bget_ t i) = 2 -> k_disk t !! b = Some (bdata (bget_ t i)).
Proof.
  intros Hc Hg H2. rewrite (gr_disk _ _ _ _ _ _ Hg), <- (gr_data _ _ _ _ _ _ Hg).
  destruct (gr_flags _ _ _ _ _ _ Hg) as [[Hca He]|(Hn & _)]; [|by rewrite bview_uncached].
  rewrite (bview_cached s b i (co_uniq _ _ _ Hc) (gr_lt _ _ _ _ _ _ Hg) Hca).
  destruct (unheld_buf _ _ _ _ Hc (gr_lt _ _ _ _ _ _ Hg) (gr_new _ _ _ _ _ _ Hg)) as (_ & _ & Hcl).
  destruct Hca as (_ & <- & _). apply Hcl. congruence.
Qed.

Lemma returned_dirty p held s i t :
  returned p held s i t -> forall b, dirtyblk t b <-> dirtyblk s b.
Proof.
  intros Hr. apply (dirtyblk_same _ _ i (re_other _ _ _ _ _ Hr)); rewrite (re_buf _ _ _ _ _ Hr); done.
Qed.

Lemma set_data_dirty i d s b : dirtyblk (set_data i d s) b <-> dirtyblk s b.
Proof.
  destruct (decide (i < length (k_buf s))%nat) as [Hi|Hi].
  - revert b. apply (dirtyblk_same _ _ i); [intros; by apply bget_alter_ne|..];
      unfold set_data; rewrite bget_alter_eq by done; done.
  - assert (set_data i d s = s) as ->; [|done].
    unfold set_data. destruct s. unfold upd, upd_k_buf. simpl in *. f_equal. apply alter_id_at.
    intros x Hx. apply lookup_lt_Some in Hx. lia.
Qed.

Lemma written_dirty p held s i t :
  cache_ok p held s -> i ∈ held -> written p held s i t ->
  forall b, dirtyblk t b <-> dirtyblk s b /\ b <> blockno (bget_ s i).
Proof.
  intros Hc Hin Hw b. destruct (held_blk _ _ _ i Hc Hin) as (Hi & _ & _ & Hf & Hd & _).
  split.
  - intros (j & Hj & Hdj & <- & H6). destruct (decide (j = i)) as [->|Hne].
    { rewrite (wr_buf _ _ _ _ _ Hw) in H6. simpl in H6. lia. }
    rewrite (wr_other _ _ _ _ _ Hw j Hne) in *. split; [by exists j|].
    intros He. apply Hne. by apply (co_uniq _ _ _ Hc).
  - intros [(j & Hj & Hdj & <- & H6) Hne]. exists j.
    rewrite (wr_other _ _ _ _ _ Hw j); [done|]. by intros ->.
Qed.

(** ** Copying a block to another one *)

(** The effect of reading a block and writing [v] to block [b]. *)
Record copied (p : nat) (s : kstate) (b : Z) (v : list Z) (t : kstate) : Prop := {
  cp_step : bio_step s t;
  cp_disk : k_disk t = <[b := v]> (k_disk s);
  cp_hist : k_hist t = k_hist s ++ [(b, v)];
  cp_ok : cache_ok p [] t;
  cp_view : forall b', bview t b' = if decide (b' = b) then Some v else bview s b';
  cp_dirty : forall b', dirtyblk t b' <-> dirtyblk s b' /\ b' <> b;
  cp_room : room [] t
}.

Definition finish_copy (dst src : nat) : K unit :=
  copy_buf dst src ;;;
  bwrite dst ;;;
  brelse src ;;;
  brelse dst.

Lemma finish_copy_ok p u dst src :
  cache_ok p [dst; src] u -> dst <> src ->
  (bflags (bget_ u src) = 2 -> k_disk u !! blockno (bget_ u src) = Some (bdata (bget_ u src))) ->
  exists w, finish_copy dst src u = Done (Ok tt) w /\
    copied p u (blockno (bget_ u dst)) (bdata (bget_ u src)) w.
Proof.
  intros Hc Hne Hcl. set (d := bdata (bget_ u src)). set (b := blockno (bget_ u dst)).
  destruct (held_blk _ _ _ dst Hc ltac:(set_solver)) as (Hdl & _ & _ & _ & Hdd & _).
  destruct (held_blk _ _ _ src Hc ltac:(set_solver)) as (Hsl & _ & _ & _ & Hsd & _).
  assert (length d = 512%nat) as Hdlen by (by destruct (co_buf _ _ _ Hc src Hsl)).
  destruct (set_data_ok p _ u dst d Hc ltac:(set_solver) Hdlen) as [Hc1 Hv1].
  pose proof (set_data_at p _ u dst d Hc ltac:(set_solver)) as Hd1.
  assert (bget_ (set_data dst d u) src = bget_ u src) as Hs1 by (by apply bget_alter_ne).
  destruct (bwrite_ok p _ (set_data dst d u) dst Hc1 ltac:(set_solver)) as (v & Hw & Hwr).
  pose proof (wr_buf _ _ _ _ _ Hwr) as Hd2. rewrite Hd1 in Hd2.
  pose proof (wr_other _ _ _ _ _ Hwr src ltac:(done)) as Hs2. rewrite Hs1 in Hs2.
  pose proof (wr_disk _ _ _ _ _ Hwr) as Hdk. rewrite Hd1 in Hdk. simpl in Hdk. fold b in Hdk.
  assert (blockno (bget_ u src) <> b) as Hbne.
  { intros He. apply Hne. symmetry. by apply (co_uniq _ _ _ Hc). }
  destruct (brelse_ok p [dst] v src) as (v2 & Hr2 & Hre2).
  { apply (cache_ok_perm p [dst; src]); [by constructor|apply (wr_ok _ _ _ _ _ Hwr)]. }
  { set_solver. }
  { rewrite Hs2, Hdk. intros H2. rewrite lookup_insert_ne by done. by apply Hcl. }
  pose proof (re_other _ _ _ _ _ Hre2 dst ltac:(done)) as Hd3. rewrite Hd2 in Hd3.
  destruct (brelse_ok p [] v2 dst (re_ok _ _ _ _ _ Hre2)) as (w & Hr3 & Hre3).
  { set_solver. }
  { intros _. rewrite Hd3, (re_disk _ _ _ _ _ Hre2), Hdk. simpl. fold b. by rewrite lookup_insert_eq. }
  exists w. split.
  { unfold finish_copy, copy_buf, getbuf, setbuf, bind at 2. simpl. fold d.
    change ((bwrite dst ;;; brelse src ;;; brelse dst) (set_data dst d u) = Done (Ok tt) w).
    by rewrite (bind_Done _ _ _ _ _ Hw), (bind_Done _ _ _ _ _ Hr2). }
  split.
  - etrans; [apply (bio_step_buf (alter (fun y => y <| bdata := d |>) dst))|].
    etrans; [apply (wr_step _ _ _ _ _ Hwr)|]. etrans; [apply (re_step _ _ _ _ _ Hre2)|apply (re_step _ _ _ _ _ Hre3)].
  - by rewrite (re_disk _ _ _ _ _ Hre3), (re_disk _ _ _ _ _ Hre2), Hdk.
  - rewrite (re_hist _ _ _ _ _ Hre3), (re_hist _ _ _ _ _ Hre2), (wr_hist _ _ _ _ _ Hwr), Hd1. done.
  - apply (re_ok _ _ _ _ _ Hre3).
  - intros b'. by rewrite (re_view _ _ _ _ _ Hre3), (re_view _ _ _ _ _ Hre2), (wr_view _ _ _ _ _ Hwr), Hv1.
  - intros b'. rewrite (returned_dirty _ _ _ _ _ Hre3), (returned_dirty _ _ _ _ _ Hre2).
    rewrite (written_dirty p [dst; src] _ dst _ Hc1 ltac:(set_solver) Hwr), set_data_dirty, Hd1. done.
  - exists dst. split_and!; [done|set_solver|]. unfold has_flag.
    rewrite (re_buf _ _ _ _ _ Hre3), Hd3. done.
Qed.

(** Reading two different blocks. *)
Lemma read_two p s a b :
  cache_ok p [] s -> a <> b -> is_Some (k_disk s !! a) -> is_Some (k_disk s !! b) -> room [] s ->
  dirtyblk s b \/ (forall b', ~ dirtyblk s b') ->
  exists i t j u, bread 1 a s = Done (Ok i) t /\ bread 1 b t = Done (Ok j) u /\
    i <> j /\ bio_step s u /\ k_disk u = k_disk s /\ k_hist u = k_hist s /\
    cache_ok p [j; i] u /\ blockno (bget_ u i) = a /\ blockno (bget_ u j) = b /\
    bview s a = Some (bdata (bget_ u i)) /\ bview s b = Some (bdata (bget_ u j)) /\
    (forall b', bview u b' = bview s b') /\ (forall b', dirtyblk u b' <-> dirtyblk s b') /\
    (bflags (bget_ u i) = 2 -> k_disk u !! a = Some (bdata (bget_ u i))) /\
    (bflags (bget_ u j) = 2 -> k_disk u !! b = Some (bdata (bget_ u j))).
Proof.
  intros Hc Hab Ha Hb Hroom Hd.
  destruct (bread_ok p [] s a Hc Ha ltac:(set_solver) ltac:(by right)) as (i & t & Hr1 & Hg1).
  pose proof (grabbed_dirty _ _ _ _ _ _ Hc Hg1) as Hd1. pose proof (gr_ok _ _ _ _ _ _ Hg1) as Hc1.
  destruct (bread_ok p [i] t b Hc1) as (j & u & Hr2 & Hg2).
  { by rewrite (gr_disk _ _ _ _ _ _ Hg1). }
  { intros k ->%list_elem_of_singleton. by rewrite (gr_block _ _ _ _ _ _ Hg1). }
  { destruct Hd as [Hd|Hn].
    - left. apply dirtyblk_caches. by apply Hd1.
    - right. exists (if decide (i = 0)%nat then 1%nat else 0%nat).
      assert (forall k, (k < NBUF)%nat -> has_flag B_DIRTY (bget_ t k) = false) as Hcl.
      { intros k Hk. rewrite has_flag_dirty by (by apply (buf_flags _ _ _ _ Hc1)).
        apply Z.eqb_neq. intros H6. apply (Hn (blockno (bget_ t k))), Hd1. exists k. split_and!; try done.
        apply (co_buf _ _ _ Hc1 k Hk). lia. }
      assert ((if decide (i = 0)%nat then 1 else 0) < NBUF)%nat as Hlt by (destruct (decide _); vm_compute; lia).
      split_and!; [done| |by apply Hcl]. destruct (decide (i = 0)%nat); set_solver by lia. }
  pose proof (gr_new _ _ _ _ _ _ Hg2) as Hji. assert (i <> j) as Hij by set_solver.
  pose proof (gr_other _ _ _ _ _ _ Hg2 i Hij) as Hi.
  pose proof (grabbed_clean _ _ _ _ _ _ Hc Hg1) as Hc1'. pose proof (grabbed_clean _ _ _ _ _ _ Hc1 Hg2) as Hc2'.
  exists i, t, j, u. rewrite Hi.
  split; [done|]. split; [done|]. split; [done|].
  split; [etrans; [apply (gr_step _ _ _ _ _ _ Hg1)|apply (gr_step _ _ _ _ _ _ Hg2)]|].
  split; [by rewrite (gr_disk _ _ _ _ _ _ Hg2), (gr_disk _ _ _ _ _ _ Hg1)|].
  split; [by rewrite (gr_hist _ _ _ _ _ _ Hg2), (gr_hist _ _ _ _ _ _ Hg1)|].
  split; [apply (gr_ok _ _ _ _ _ _ Hg2)|]. split; [apply (gr_block _ _ _ _ _ _ Hg1)|].
  split; [apply (gr_block _ _ _ _ _ _ Hg2)|]. split; [apply (gr_data _ _ _ _ _ _ Hg1)|].
  split; [rewrite <- (gr_view _ _ _ _ _ _ Hg1); apply (gr_data _ _ _ _ _ _ Hg2)|].
  split; [intros b'; by rewrite (gr_view _ _ _ _ _ _ Hg2), (gr_view _ _ _ _ _ _ Hg1)|].
  split; [intros b'; by rewrite (grabbed_dirty _ _ _ _ _ _ Hc1 Hg2), Hd1|].
  split; [by rewrite (gr_disk _ _ _ _ _ _ Hg2)|done].
Qed.

(** Block [b] is copied to block [a]: a turn of write_log. *)
Lemma copy_to_log p s a b :
  cache_ok p [] s -> a <> b -> is_Some (k_disk s !! a) -> is_Some (k_disk s !! b) -> room [] s ->
  dirtyblk s b \/ (forall b', ~ dirtyblk s b') ->
  exists v t, bview s b = Some v /\ copied p s a v t /\
    (to <- bread 1 a ;; from <- bread 1 b ;; finish_copy to from) s = Done (Ok tt) t.
Proof.
  intros Hc Hab Ha Hb Hroom Hd.
  destruct (read_two p s a b Hc Hab Ha Hb Hroom Hd)
    as (i & t & j & u & Hr1 & Hr2 & Hij & Hst & Hdk & Hh & Hcu & Hbi & Hbj & Hva & Hvb & Hvu & Hdu & Hci & Hcj).
  destruct (finish_copy_ok p u i j) as (w & Hw & Hcp); [|done|by rewrite Hbj|].
  { apply (cache_ok_perm p [j; i]); [by constructor|done]. }
  rewrite Hbi in Hcp. exists (bdata (bget_ u j)), w. split; [done|]. split.
  - destruct Hcp as [H1 H2 H3 H4 H5 H6 H7]. split; try done.
    + by etrans.
    + by rewrite H2, Hdk.
    + by rewrite H3, Hh.
    + intros b'. by rewrite H5, Hvu.
    + intros b'. by rewrite H6, Hdu.
  - by rewrite (bind_Done _ _ _ _ _ Hr1), (bind_Done _ _ _ _ _ Hr2).
Qed.

(** Block [a] is copied to block [b]: a turn of install_trans. *)
Lemma copy_from_log p s a b :
  cache_ok p [] s -> a <> b -> is_Some (k_disk s !! a) -> is_Some (k_disk s !! b) -> room [] s ->
  dirtyblk s b \/ (forall b', ~ dirtyblk s b') ->
  exists v t, bview s a = Some v /\ copied p s b v t /\
    (lbuf <- bread 1 a ;; dbuf <- bread 1 b ;; finish_copy dbuf lbuf) s = Done (Ok tt) t.
Proof.
  intros Hc Hab Ha Hb Hroom Hd.
  destruct (read_two p s a b Hc Hab Ha Hb Hroom Hd)
    as (i & t & j & u & Hr1 & Hr2 & Hij & Hst & Hdk & Hh & Hcu & Hbi & Hbj & Hva & Hvb & Hvu & Hdu & Hci & Hcj).
  destruct (finish_copy_ok p u j i Hcu) as (w & Hw & Hcp); [done|by rewrite Hbi|].
  rewrite Hbj in Hcp. exists (bdata (bget_ u i)), w. split; [done|]. split.
  - destruct Hcp as [H1 H2 H3 H4 H5 H6 H7]. split; try done.
    + by etrans.
    + by rewrite H2, Hdk.
    + by rewrite H3, Hh.
    + intros b'. by rewrite H5, Hvu.
    + intros b'. by rewrite H6, Hdu.
  - by rewrite (bind_Done _ _ _ _ _ Hr1), (bind_Done _ _ _ _ _ Hr2).
Qed.

(** A block that is not dirty reads as it is on disk. *)
Lemma bview_clean p s b : cache_ok p [] s -> ~ dirtyblk s b -> bview s b = k_disk s !! b.
Proof.
  intros Hc Hn. destruct (cached_or_not s b) as [(i & Hi & Hca)|?]; [|by apply bview_uncached].
  rewrite (bview_cached s b i (co_uniq _ _ _ Hc) Hi Hca). symmetry.
  destruct (unheld_buf _ _ _ _ Hc Hi ltac:(set_solver)) as (_ & _ & Hcl).
  destruct Hca as (Hd & <- & Hf). apply Hcl. destruct (buf_flags _ _ _ _ Hc Hi) as [?|[?|?]]; try done.
  exfalso. apply Hn. by exists i.
Qed.

Lemma bio_step_log s t : bio_step s t -> k_log t = k_log s.
Proof. intros [-> _]. done. Qed.

(** Reading a block, changing it with [f] and writing it back. *)
Lemma update_block p s b (f : list Z -> list Z) h :
  cache_ok p [] s -> k_disk s !! b = Some h -> room [] s -> ~ dirtyblk s b ->
  (forall d, length (f d) = length d) ->
  exists t, (i <- bread 1 b ;; setbuf i (fun y => y <| bdata := f (bdata y) |>) ;;; bwrite i ;;; brelse i) s
      = Done (Ok tt) t /\ copied p s b (f h) t.
Proof.
  intros Hc Hb Hroom Hnd Hf.
  destruct (bread_ok p [] s b Hc ltac:(by eexists)) as (i & t & Hr & Hg); [set_solver|by right|].
  pose proof (gr_ok _ _ _ _ _ _ Hg) as Hct. pose proof (gr_block _ _ _ _ _ _ Hg) as Hbi.
  assert (bdata (bget_ t i) = h) as Hh.
  { pose proof (gr_data _ _ _ _ _ _ Hg) as Hv. rewrite (bview_clean p) in Hv by done. congruence. }
  assert ((fun s0 => s0 <| k_buf ::= alter (fun y => y <| bdata := f (bdata y) |>) i |>) t = set_data i (f h) t) as Hset.
  { unfold set_data, upd, upd_k_buf; simpl. f_equal. apply alter_ext_at. intros x Hx.
    unfold bget_ in Hh. rewrite (aget_lookup _ _ _ Hx) in Hh. by rewrite Hh. }
  destruct (set_data_ok p [i] t i (f h) Hct ltac:(set_solver)) as [Hc1 Hv1].
  { rewrite Hf. apply (co_disk _ _ _ Hc b h Hb). }
  pose proof (set_data_at p [i] t i (f h) Hct ltac:(set_solver)) as Hd1.
  destruct (bwrite_ok p [i] (set_data i (f h) t) i Hc1 ltac:(set_solver)) as (t2 & Hw & Hwr).
  pose proof (wr_buf _ _ _ _ _ Hwr) as Hd2. rewrite Hd1 in Hd2.
  pose proof (wr_disk _ _ _ _ _ Hwr) as Hdk. rewrite Hd1 in Hdk. simpl in Hdk. rewrite Hbi in Hdk.
  destruct (brelse_ok p [] t2 i (wr_ok _ _ _ _ _ Hwr)) as (w & Hrel & Hre); [set_solver|..].
  { intros _. rewrite Hd2, Hdk. simpl. by rewrite Hbi, lookup_insert_eq. }
  exists w. split.
  { rewrite (bind_Done _ _ _ _ _ Hr). unfold setbuf. rewrite bind_modify, Hset.
    by rewrite (bind_Done _ _ _ _ _ Hw). }
  split.
  - etrans; [apply (gr_step _ _ _ _ _ _ Hg)|]. etrans; [apply (bio_step_buf (alter (fun y => y <| bdata := f h |>) i))|].
    etrans; [apply (wr_step _ _ _ _ _ Hwr)|apply (re_step _ _ _ _ _ Hre)].
  - rewrite (re_disk _ _ _ _ _ Hre), Hdk. by rewrite <- (gr_disk _ _ _ _ _ _ Hg).
  - rewrite (re_hist _ _ _ _ _ Hre), (wr_hist _ _ _ _ _ Hwr), Hd1. simpl.
    by rewrite Hbi, <- (gr_hist _ _ _ _ _ _ Hg).
  - apply (re_ok _ _ _ _ _ Hre).
  - intros b'. rewrite (re_view _ _ _ _ _ Hre), (wr_view _ _ _ _ _ Hwr), Hv1, Hbi.
    by rewrite (gr_view _ _ _ _ _ _ Hg).
  - intros b'. rewrite (returned_dirty _ _ _ _ _ Hre), (written_dirty p [i] _ i _ Hc1 ltac:(set_solver) Hwr).
    rewrite set_data_dirty, Hd1. simpl. by rewrite Hbi, (grabbed_dirty _ _ _ _ _ _ Hc Hg).
  - exists i. split_and!; [apply (gr_lt _ _ _ _ _ _ Hg)|set_solver|]. unfold has_flag.
    rewrite (re_buf _ _ _ _ _ Hre), Hd2. done.
Qed.

(** ** The loops of log.c *)

(** The log on disk [1], whose header and blocks exist and are not dirty. *)
Definition log_at (start : Z) (s : kstate) : Prop :=
  ldev (k_log s) = 1 /\ lstart (k_log s) = start /\
  (forall k, 0 <= k < LOGSIZE -> is_Some (k_disk s !! (start + k))) /\
  (forall b, dirtyblk s b -> outside start b).

(** The blocks [bs] are listed from entry [k] of the in-memory header on. *)
Definition listed (k : nat) (bs : list Z) (s : kstate) : Prop :=
  forall i b, bs !! i = Some b -> aget (lh_block (k_log s)) (k + i) = b.

(** What a part of a transaction does: it writes [ws] and leaves the log and the
    cache in order. *)
Record wrote (p : nat) (s : kstate) (ws : list (Z * list Z)) (t : kstate) : Prop := {
  wt_step : bio_step s t;
  wt_disk : k_disk t = apply_writes (k_disk s) ws;
  wt_hist : k_hist t = k_hist s ++ ws;
  wt_ok : cache_ok p [] t;
  wt_room : room [] t;
  wt_dirty : forall b, dirtyblk t b <-> dirtyblk s b /\ b ∉ ws.*1
}.

Lemma wrote_nil p s : cache_ok p [] s -> room [] s -> wrote p s [] s.
Proof. intros. split; try done. - by rewrite app_nil_r. - set_solver. Qed.

Lemma copied_wrote p s b v t : copied p s b v t -> wrote p s [(b, v)] t.
Proof. intros [H1 H2 H3 H4 H5 H6 H7]. split; try done. intros b'. rewrite H6. set_solver. Qed.

Lemma wrote_app p s ws t ws' u : wrote p s ws t -> wrote p t ws' u -> wrote p s (ws ++ ws') u.
Proof.
  intros [H1 H2 H3 H4 H5 H6] [G1 G2 G3 G4 G5 G6]. split; try done.
  - by etrans.
  - by rewrite apply_writes_app, G2, H2.
  - by rewrite G3, H3, app_assoc.
  - intros b. rewrite G6, H6, fmap_app, not_elem_of_app. tauto.
Qed.

Lemma wrote_disk_some p s ws t b : wrote p s ws t -> is_Some (k_disk s !! b) -> is_Some (k_disk t !! b).
Proof.
  intros [_ -> _ _ _ _] Hb. generalize (k_disk s) as d, Hb. clear. induction ws as [|w ws IH]; intros d Hb; [done|].
  apply IH. rewrite lookup_insert. by case_decide; [eexists|].
Qed.

Lemma wrote_log_at p s ws t start : wrote p s ws t -> log_at start s -> log_at start t.
Proof.
  intros Hw (H1 & H2 & H3 & H4). pose proof (bio_step_log _ _ (wt_step _ _ _ _ Hw)) as Hl.
  unfold log_at. rewrite Hl. split_and!; [done|done| |].
  - intros k Hk. eapply wrote_disk_some; [done|by apply H3].
  - intros b Hd. apply H4. by apply (wt_dirty _ _ _ _ Hw).
Qed.

Lemma wrote_listed p s ws t k bs : wrote p s ws t -> listed k bs s -> listed k bs t.
Proof.
  intros Hw Hl i b Hi. unfold listed in Hl.
  rewrite (bio_step_log _ _ (wt_step _ _ _ _ Hw)). by apply Hl.
Qed.

Lemma listed_cons k b bs s :
  listed k (b :: bs) s -> aget (lh_block (k_log s)) k = b /\ listed (S k) bs s.
Proof.
  intros Hl. split; [rewrite <- (Hl 0%nat b eq_refl); f_equal; lia|].
  intros i b' Hi. rewrite <- (Hl (S i) b' Hi). f_equal. lia.
Qed.

Lemma log_block_ne start k b : outside start b -> (k < 29)%nat -> start + Z.of_nat k + 1 <> b.
Proof. unfold outside, LOGSIZE, MAXOPBLOCKS. lia. Qed.

(** write_log copies the logged blocks' views to the log. *)
Lemma write_log_loop p start bs k s :
  cache_ok p [] s -> room [] s -> log_at start s -> listed k bs s -> (k + length bs <= 29)%nat ->
  Forall (fun b => dirtyblk s b /\ is_Some (k_disk s !! b)) bs ->
  exists vs t, Forall2 (fun b v => bview s b = Some v) bs vs /\
    wrote p s (log_writes start k vs) t /\ (forall b, outside start b -> bview t b = bview s b) /\
    mfor (seq k (length bs)) (fun tail =>
      g <- getlog id ;;
      to <- bread (ldev g) (lstart g + Z.of_nat tail + 1) ;;
      from <- bread (ldev g) (aget (lh_block g) tail) ;;
      copy_buf to from ;;; bwrite to ;;; brelse from ;;; brelse to) s = Done (Ok tt) t.
Proof.
  revert k s. induction bs as [|b bs IH]; intros k s Hc Hroom Hlog Hli Hk Hbs.
  { exists [], s. split_and!; [constructor|by apply wrote_nil|done|done]. }
  apply Forall_cons in Hbs as [[Hdb Hb] Hbs]. destruct (listed_cons _ _ _ _ Hli) as [Hgk Hli'].
  cbn [length] in Hk. destruct Hlog as (Hdev & Hstart & Hex & Hout).
  assert (start + Z.of_nat k + 1 <> b) as Hne by (apply log_block_ne; [by apply Hout|lia]).
  destruct (copy_to_log p s (start + Z.of_nat k + 1) b Hc Hne) as (v & t & Hv & Hcp & Hrun);
    [|done|done|by left|].
  { replace (start + Z.of_nat k + 1) with (start + (Z.of_nat k + 1)) by lia. apply Hex.
    unfold LOGSIZE, MAXOPBLOCKS. lia. }
  pose proof (copied_wrote _ _ _ _ _ Hcp) as Hwt.
  assert (forall b', dirtyblk t b' <-> dirtyblk s b') as Hdt.
  { intros b'. rewrite (cp_dirty _ _ _ _ _ Hcp). split; [tauto|]. intros Hd. split; [done|].
    intros ->. apply Hout in Hd. unfold outside, LOGSIZE, MAXOPBLOCKS in Hd. lia. }
  assert (forall b', outside start b' -> bview t b' = bview s b') as Hvt.
  { intros b' Ho. rewrite (cp_view _ _ _ _ _ Hcp), decide_False; [done|]. intros ->.
    unfold outside, LOGSIZE, MAXOPBLOCKS in Ho. lia. }
  destruct (IH (S k) t) as (vs & u & Hvs & Hwu & Hvu & Hloop);
    [apply (cp_ok _ _ _ _ _ Hcp)|apply (cp_room _ _ _ _ _ Hcp)|by eapply wrote_log_at
    |by eapply wrote_listed|lia| |].
  { eapply Forall_impl; [done|]. intros b' [Hd' Hs']. split; [by apply Hdt|by eapply wrote_disk_some]. }
  exists (v :: vs), u. split_and!.
  - constructor; [done|]. apply Forall2_same_length_lookup_2; [exact (Forall2_length _ _ _ Hvs)|].
    intros i b' v' Hb' Hv'. rewrite <- Hvt; [exact (Forall2_lookup_lr _ _ _ _ _ _ Hvs Hb' Hv')|].
    apply Hout. by eapply Forall_lookup_1 in Hbs as [??].
  - rewrite log_writes_cons. by apply (wrote_app p s [_] t).
  - intros b' Ho. by rewrite Hvu, Hvt.
  - cbn [length seq mfor]. unfold getlog. rewrite (bind_Done _ _ _ tt t); [done|].
    rewrite bind_gets. unfold id. rewrite Hdev, Hstart, Hgk. done.
Qed.

(** The blocks still to install are cached and dirty, or nothing is dirty. *)
Definition installable (bs : list Z) (s : kstate) : Prop :=
  (NoDup bs /\ Forall (dirtyblk s) bs) \/ (forall b, ~ dirtyblk s b).

(** install_trans copies the log blocks, with contents [vs], to their homes. *)
Lemma install_loop p start bs vs k s :
  cache_ok p [] s -> room [] s -> log_at start s -> listed k bs s -> (k + length bs <= 29)%nat ->
  length vs = length bs -> Forall (outside start) bs -> Forall (fun b => is_Some (k_disk s !! b)) bs ->
  installable bs s ->
  (forall i v, vs !! i = Some v -> k_disk s !! (start + Z.of_nat (k + i) + 1) = Some v) ->
  exists t, wrote p s (zip bs vs) t /\
    mfor (seq k (length bs)) (fun tail =>
      g <- getlog id ;;
      lbuf <- bread (ldev g) (lstart g + Z.of_nat tail + 1) ;;
      dbuf <- bread (ldev g) (aget (lh_block g) tail) ;;
      copy_buf dbuf lbuf ;;; bwrite dbuf ;;; brelse lbuf ;;; brelse dbuf) s = Done (Ok tt) t.
Proof.
  revert vs k s. induction bs as [|b bs IH]; intros [|v vs] k s Hc Hroom Hlog Hli Hk Hlen Ho Hbs Hin Hvs;
    try done; [by exists s; split; [apply wrote_nil|]|].
  apply Forall_cons in Hbs as [Hb Hbs]. apply Forall_cons in Ho as [Hob Ho].
  destruct (listed_cons _ _ _ _ Hli) as [Hgk Hli']. cbn [length] in Hk, Hlen.
  destruct Hlog as (Hdev & Hstart & Hex & Hout).
  assert (start + Z.of_nat k + 1 <> b) as Hne by (apply log_block_ne; [done|lia]).
  assert (k_disk s !! (start + Z.of_nat k + 1) = Some v) as Hv.
  { rewrite <- (Hvs 0%nat v eq_refl). do 2 f_equal. lia. }
  destruct (copy_from_log p s (start + Z.of_nat k + 1) b Hc Hne) as (v' & t & Hv' & Hcp & Hrun);
    [by eexists|done|done| |].
  { destruct Hin as [[_ Hd]|]; [left; by apply Forall_cons in Hd as [? _]|by right]. }
  assert (v' = v) as ->.
  { rewrite (bview_clean p) in Hv'; [congruence|done|]. intros Hd%Hout.
    unfold outside, LOGSIZE, MAXOPBLOCKS in Hd. lia. }
  pose proof (copied_wrote _ _ _ _ _ Hcp) as Hwt.
  destruct (IH vs (S k) t) as (u & Hwu & Hloop);
    [apply (cp_ok _ _ _ _ _ Hcp)|apply (cp_room _ _ _ _ _ Hcp)|by eapply wrote_log_at
    |by eapply wrote_listed|lia|lia|done| | | |].
  - eapply Forall_impl; [done|]. intros b' Hs'. by eapply wrote_disk_some.
  - destruct Hin as [[Hnd Hd]|Hn]; [left|right].
    + apply NoDup_cons in Hnd as [Hnb Hnd]. apply Forall_cons in Hd as [_ Hd]. split; [done|].
      apply Forall_forall. intros b' Hb'. rewrite Forall_forall in Hd.
      apply (cp_dirty _ _ _ _ _ Hcp). split; [by apply Hd|]. by intros ->.
    + intros b' Hd. apply (cp_dirty _ _ _ _ _ Hcp) in Hd as [Hd _]. by apply (Hn b').
  - intros i x Hi. rewrite (cp_disk _ _ _ _ _ Hcp). pose proof (lookup_lt_Some _ _ _ Hi).
    rewrite lookup_insert_ne by (symmetry; apply (log_block_ne start (S k + i)); [done|lia]).
    rewrite <- (Hvs (S i) x Hi). do 2 f_equal. lia.
  - exists u. split.
    + cbn [zip zip_with]. by apply (wrote_app p s [_] t).
    + cbn [length seq mfor]. unfold getlog. rewrite (bind_Done _ _ _ tt t); [done|].
      rewrite bind_gets. unfold id. rewrite Hdev, Hstart, Hgk. done.
Qed.

(** write_head writes the in-memory header over the header block. *)
Lemma write_head_ok p start s h :
  cache_ok p [] s -> room [] s -> log_at start s -> k_disk s !! start = Some h ->
  exists t, write_head s = Done (Ok tt) t /\
    wrote p s [(start, encode_head (lh_n (k_log s)) (lh_block (k_log s)) h)] t.
Proof.
  intros Hc Hroom (Hdev & Hstart & _ & Hout) Hh.
  destruct (update_block p s start (encode_head (lh_n (k_log s)) (lh_block (k_log s))) h Hc Hh Hroom)
    as (t & Hrun & Hcp).
  { intros Hd%Hout. unfold outside, LOGSIZE, MAXOPBLOCKS in Hd. lia. }
  { intros. apply length_encode_head. }
  exists t. split; [|by apply copied_wrote].
  unfold write_head, getlog. rewrite bind_gets. unfold id. by rewrite Hdev, Hstart.
Qed.

(** Changing the in-memory header changes nothing of the cache. *)
Lemma setlog_ok p held s f : cache_ok p held s -> cache_ok p held (s <| k_log ::= f |>).
Proof. intros []. by split. Qed.

Lemma bio_step_setlog s t f : bio_step s t -> bio_step (s <| k_log ::= f |>) (t <| k_log ::= f |>).
Proof. intros [-> Hp]. split; [by destruct s|done]. Qed.

(** ** commit *)

(** A transaction that is ready to commit: the in-memory header lists the blocks
    [bs], which are the dirty ones, and the log has room for them. *)
Record pending (p : nat) (start : Z) (bs : list Z) (s : kstate) : Prop := {
  pe_ok : cache_ok p [] s;
  pe_log : log_at start s;
  pe_n : lh_n (k_log s) = Z.of_nat (length bs);
  pe_size : length (lh_block (k_log s)) = idx LOGSIZE;
  pe_blocks : take (length bs) (lh_block (k_log s)) = bs;
  pe_len : (length bs < NBUF)%nat;
  pe_nodup : NoDup bs;
  pe_dirty : forall b, dirtyblk s b <-> b ∈ bs;
  pe_range : Forall (fun b => 0 <= b < 2 ^ 31) bs
}.

(** Fewer dirty blocks than buffers leave a buffer to recycle. *)
Lemma pending_room p start bs s : pending p start bs s -> room [] s.
Proof.
  intros Hp. pose proof (pe_ok _ _ _ _ Hp) as Hc.
  destruct (decide (Exists (fun k => has_flag B_DIRTY (bget_ s k) = false) (seq 0 NBUF))) as [He|Hn].
  { apply Exists_exists in He as (k & Hk & Hf). exists k. apply elem_of_seq in Hk.
    split_and!; [lia|set_solver|done]. }
  exfalso. apply not_Exists_Forall in Hn; [|intros x; destruct (has_flag _ _); [right|left]; done].
  assert (forall k, (k < NBUF)%nat -> bflags (bget_ s k) = 6 /\ bdev (bget_ s k) = 1) as Hall.
  { intros k Hk. rewrite Forall_forall in Hn. specialize (Hn k ltac:(apply elem_of_seq; lia)).
    change (has_flag B_DIRTY (bget_ s k) <> false) in Hn.
    rewrite has_flag_dirty in Hn by (by apply (buf_flags _ _ _ _ Hc)).
    destruct (Z.eqb_spec (bflags (bget_ s k)) 6); [|done]. split; [done|].
    apply (co_buf _ _ _ Hc k Hk). lia. }
  assert (NoDup ((fun k => blockno (bget_ s k)) <$> seq 0 NBUF)) as Hnd.
  { apply NoDup_fmap_2_strong; [|apply NoDup_seq]. intros x y Hx%elem_of_seq Hy%elem_of_seq He.
    apply (co_uniq _ _ _ Hc); [lia|lia|apply Hall; lia|apply Hall; lia|done]. }
  assert (length ((fun k => blockno (bget_ s k)) <$> seq 0 NBUF) <= length bs)%nat as Hle.
  { apply submseteq_length, NoDup_submseteq; [done|]. intros b Hb.
    apply list_elem_of_fmap in Hb as (k & -> & Hk%elem_of_seq). apply (pe_dirty _ _ _ _ Hp).
    exists k. destruct (Hall k ltac:(lia)). split_and!; [lia|done..]. }
  rewrite length_fmap, length_seq in Hle. pose proof (pe_len _ _ _ _ Hp). lia.
Qed.

Lemma pending_listed p start bs s : pending p start bs s -> listed 0 bs s.
Proof.
  intros Hp i b Hi. rewrite <- (pe_blocks _ _ _ _ Hp) in Hi. apply lookup_take_Some in Hi as [Hi _].
  by apply aget_lookup.
Qed.

Lemma encode_head_take n lb h : encode_head (Z.of_nat n) (take n lb) h = encode_head (Z.of_nat n) lb h.
Proof. unfold encode_head, idx. by rewrite Nat2Z.id, take_take, Nat.min_id. Qed.

(** The contents that a committed transaction leaves on disk. *)
Lemma committed_view p start bs vs s b :
  pending p start bs s -> Forall2 (fun b v => bview s b = Some v) bs vs ->
  apply_writes (k_disk s) (zip bs vs) !! b = bview s b.
Proof.
  intros Hp Hvs. pose proof (pe_nodup _ _ _ _ Hp) as Hnd.
  destruct (decide (b ∈ bs)) as [Hb|Hb].
  - generalize (k_disk s) as d. clear Hp.
    induction Hvs as [|b' v bs vs Hv Hvs IH]; intros d; [by apply elem_of_nil in Hb|].
    apply NoDup_cons in Hnd as [Hnb Hnd]. cbn [zip zip_with apply_writes foldl fst snd].
    fold (apply_writes (<[b' := v]> d) (zip bs vs)).
    apply elem_of_cons in Hb as [->|Hb]; [|by apply IH].
    rewrite apply_writes_other by (by intros ?%zip_keys). by rewrite lookup_insert_eq, Hv.
  - rewrite apply_writes_other by (by intros ?%zip_keys). symmetry.
    apply (bview_clean p); [apply (pe_ok _ _ _ _ Hp)|]. by rewrite (pe_dirty _ _ _ _ Hp).
Qed.

Lemma pending_outside p start bs s : pending p start bs s -> Forall (outside start) bs.
Proof. intros Hp. apply Forall_forall. intros b Hb. apply (pe_log _ _ _ _ Hp). by apply (pe_dirty _ _ _ _ Hp). Qed.

Lemma pending_idx p start bs s : pending p start bs s -> idx (lh_n (k_log s)) = length bs.
Proof. intros Hp. rewrite (pe_n _ _ _ _ Hp). apply Nat2Z.id. Qed.

(** The first half of a commit: the blocks and then the header go to the log. *)
Lemma log_phase p start bs s h :
  pending p start bs s -> Forall (fun b => is_Some (k_disk s !! b)) bs -> k_disk s !! start = Some h ->
  exists vs t1 t, write_log s = Done (Ok tt) t1 /\ write_head t1 = Done (Ok tt) t /\
    Forall2 (fun b v => bview s b = Some v) bs vs /\
    wrote p s (log_writes start 0 vs ++ [(start, encode_head (Z.of_nat (length bs)) bs h)]) t.
Proof.
  intros Hp Hex Hh. pose proof (pe_ok _ _ _ _ Hp) as Hc. pose proof (pe_log _ _ _ _ Hp) as Hlog.
  pose proof (pe_len _ _ _ _ Hp) as Hlen. unfold NBUF in Hlen.
  destruct (write_log_loop p start bs 0 s Hc (pending_room _ _ _ _ Hp) Hlog (pending_listed _ _ _ _ Hp) ltac:(lia))
    as (vs & t1 & Hvs & Hw1 & _ & Hr1).
  { apply Forall_forall. intros b Hb. split; [by apply (pe_dirty _ _ _ _ Hp)|].
    rewrite Forall_forall in Hex. by apply Hex. }
  assert (k_disk t1 !! start = Some h) as Hh1.
  { rewrite (wt_disk _ _ _ _ Hw1), apply_writes_other; [done|]. intros Hin%log_writes_keys. lia. }
  destruct (write_head_ok p start t1 h (wt_ok _ _ _ _ Hw1) (wt_room _ _ _ _ Hw1)
    (wrote_log_at _ _ _ _ _ Hw1 Hlog) Hh1) as (t & Hr2 & Hw2).
  exists vs, t1, t. split; [|split; [done|split; [done|]]].
  - unfold write_log, getlog. by rewrite bind_gets, (pending_idx _ _ _ _ Hp).
  - rewrite (bio_step_log _ _ (wt_step _ _ _ _ Hw1)), (pe_n _ _ _ _ Hp) in Hw2.
    rewrite <- encode_head_take, (pe_blocks _ _ _ _ Hp) in Hw2. exact (wrote_app _ _ _ _ _ _ Hw1 Hw2).
Qed.

(** The second half: the logged blocks go home and the header is cleared. *)
Lemma install_phase p start bs vs s h1 t :
  pending p start bs s -> Forall (fun b => is_Some (k_disk s !! b)) bs -> length vs = length bs ->
  wrote p s (log_writes start 0 vs ++ [(start, h1)]) t ->
  exists t3, install_trans t = Done (Ok tt) t3 /\ wrote p t (zip bs vs) t3 /\ log_at start t3 /\
    k_disk t3 !! start = Some h1 /\ (forall b, ~ dirtyblk t3 b).
Proof.
  intros Hp Hex Hvl Hw. pose proof (pending_outside _ _ _ _ Hp) as Hout.
  pose proof (pe_len _ _ _ _ Hp) as Hlen. unfold NBUF in Hlen.
  pose proof (wrote_log_at _ _ _ _ _ Hw (pe_log _ _ _ _ Hp)) as Hlog.
  assert (forall b, dirtyblk t b <-> b ∈ bs) as Hd.
  { intros b. rewrite (wt_dirty _ _ _ _ Hw), (pe_dirty _ _ _ _ Hp). split; [tauto|]. intros Hb. split; [done|].
    rewrite Forall_forall in Hout. specialize (Hout b Hb). unfold outside, LOGSIZE, MAXOPBLOCKS in Hout.
    rewrite fmap_app, not_elem_of_app. split; [intros Hin%log_writes_keys; lia|].
    intros ->%list_elem_of_singleton. simpl in Hout. lia. }
  assert (forall b, b <> start -> k_disk t !! b = apply_writes (k_disk s) (log_writes start 0 vs) !! b) as Hdk.
  { intros b Hb. rewrite (wt_disk _ _ _ _ Hw), apply_writes_app. simpl. by rewrite lookup_insert_ne. }
  destruct (install_loop p start bs vs 0 t) as (t3 & Hw3 & Hr3);
    [apply (wt_ok _ _ _ _ Hw)|apply (wt_room _ _ _ _ Hw)|done
    |exact (wrote_listed _ _ _ _ _ _ Hw (pending_listed _ _ _ _ Hp))|lia|done|done| | | |].
  { eapply Forall_impl; [exact Hex|]. intros b Hb. exact (wrote_disk_some _ _ _ _ _ Hw Hb). }
  { left. split; [apply (pe_nodup _ _ _ _ Hp)|]. apply Forall_forall. intros b. apply Hd. }
  { intros i v Hi. rewrite Hdk by lia. by apply (log_writes_lookup start 0). }
  exists t3. split; [|split; [done|split; [exact (wrote_log_at _ _ _ _ _ Hw3 Hlog)|split]]].
  - unfold install_trans, getlog. rewrite bind_gets, (bio_step_log _ _ (wt_step _ _ _ _ Hw)).
    by rewrite (pending_idx _ _ _ _ Hp).
  - rewrite (wt_disk _ _ _ _ Hw3), apply_writes_other.
    + rewrite (wt_disk _ _ _ _ Hw), apply_writes_app. simpl. by rewrite lookup_insert_eq.
    + intros Hin%zip_keys. exact (start_not_block start bs Hout Hin).
  - intros b Hb. apply (wt_dirty _ _ _ _ Hw3) in Hb as [Hb Hn]. apply Hn. rewrite fst_zip by lia. by apply Hd.
Qed.

(** The run of commit on a transaction with at least one block. *)
Lemma commit_ok p start bs s h :
  pending p start bs s -> bs <> [] -> Forall (fun b => is_Some (k_disk s !! b)) bs ->
  k_disk s !! start = Some h ->
  exists t vs, commit s = Done (Ok tt) t /\ Forall2 (fun b v => bview s b = Some v) bs vs /\
    k_hist t = k_hist s ++ commit_writes start bs vs h /\
    k_disk t = apply_writes (k_disk s) (commit_writes start bs vs h) /\
    cache_ok p [] t /\ log_at start t /\ bio_step (s <| k_log ::= (fun g => g <| lh_n := 0 |>) |>) t /\
    (forall b, ~ dirtyblk t b).
Proof.
  intros Hp Hne Hex Hh. destruct (log_phase _ _ _ _ _ Hp Hex Hh) as (vs & t1 & t2 & Hr1 & Hr2 & Hvs & Hw).
  destruct (install_phase p start bs vs s _ t2 Hp Hex ltac:(symmetry; exact (Forall2_length _ _ _ Hvs)) Hw)
    as (t3 & Hr3 & Hw3 & Hlog3 & Hh3 & Hcl3).
  set (h1 := encode_head (Z.of_nat (length bs)) bs h) in *.
  set (t4 := t3 <| k_log ::= (fun g => g <| lh_n := 0 |>) |>).
  destruct (write_head_ok p start t4 h1) as (t & Hr4 & Hw4);
    [apply setlog_ok, (wt_ok _ _ _ _ Hw3)|apply (wt_room _ _ _ _ Hw3)|exact Hlog3|done|].
  exists t, vs. split; [|split; [done|]].
  - unfold commit, getlog. rewrite bind_gets, (pe_n _ _ _ _ Hp).
    assert ((0 <? Z.of_nat (length bs)) = true) as -> by (apply Z.ltb_lt; destruct bs; [done|simpl; lia]).
    cbn [when]. rewrite (bind_Done _ _ _ _ _ Hr1), (bind_Done _ _ _ _ _ Hr2), (bind_Done _ _ _ _ _ Hr3).
    unfold setlog. by rewrite bind_modify.
  - rewrite (wt_hist _ _ _ _ Hw4), (wt_disk _ _ _ _ Hw4).
    change (k_hist t4) with (k_hist t3). change (k_disk t4) with (k_disk t3).
    rewrite (wt_hist _ _ _ _ Hw3), (wt_disk _ _ _ _ Hw3), (wt_hist _ _ _ _ Hw), (wt_disk _ _ _ _ Hw).
    rewrite <- !apply_writes_app. unfold commit_writes. rewrite <- !app_assoc.
    split; [done|split; [done|split; [apply (wt_ok _ _ _ _ Hw4)|split; [|split]]]].
    + eapply wrote_log_at; [exact Hw4|exact Hlog3].
    + etransitivity; [|apply (wt_step _ _ _ _ Hw4)]. apply bio_step_setlog.
      etransitivity; [apply (wt_step _ _ _ _ Hw)|apply (wt_step _ _ _ _ Hw3)].
    + intros b Hd. apply (wt_dirty _ _ _ _ Hw4) in Hd as [Hd _]. by apply (Hcl3 b).
Qed.

Lemma setlog_clear s : lh_n (k_log s) = 0 -> s <| k_log ::= (fun g => g <| lh_n := 0 |>) |> = s.
Proof.
  intros Hn. assert ((k_log s) <| lh_n := 0 |> = k_log s) as H by (destruct (k_log s); simpl in Hn; by subst).
  transitivity (s <| k_log := (k_log s) <| lh_n := 0 |> |>); [done|]. rewrite H. by destruct s.
Qed.

(** A transaction with no blocks left: the log is ready for the next one. *)
Lemma pending_done p start bs s t :
  pending p start bs s -> cache_ok p [] t -> log_at start t ->
  k_log t = (k_log s) <| lh_n := 0 |> -> (forall b, ~ dirtyblk t b) -> pending p start [] t.
Proof.
  intros Hp Hc Hl Hk Hcl. split; [done|done|by rewrite Hk|rewrite Hk; apply (pe_size _ _ _ _ Hp)|done| | | |].
  - simpl. unfold NBUF. lia.
  - by apply NoDup_nil.
  - intros b. split; [by intros ?%Hcl|by intros ?%elem_of_nil].
  - by apply Forall_nil.
Qed.

(** The state before the transaction or the one after it, at every crash. *)
Lemma commit_atomic p start bs s h :
  pending p start bs s -> Forall (fun b => is_Some (k_disk s !! b)) bs ->
  k_disk s !! start = Some h -> head_blocks h = [] ->
  exists t ws h', commit s = Done (Ok tt) t /\ k_hist t = k_hist s ++ ws /\ pending p start [] t /\
    bio_step (s <| k_log ::= (fun g => g <| lh_n := 0 |>) |>) t /\
    k_disk t !! start = Some h' /\ head_blocks h' = [] /\ k_disk t = apply_writes (k_disk s) ws /\
    (forall b, outside start b -> k_disk t !! b = bview s b) /\
    forall k b, outside start b ->
      recover_disk start (apply_writes (k_disk s) (take k ws)) !! b =
        if (k <=? length bs)%nat then k_disk s !! b else bview s b.
Proof.
  intros Hp Hex Hh Hempty. pose proof (pe_ok _ _ _ _ Hp) as Hc.
  assert (length h = 512)%nat as Hhl by exact (co_disk _ _ _ Hc _ _ Hh).
  destruct bs as [|b0 bs'] eqn:Ebs.
  - exists s, [], h. assert (forall b, ~ dirtyblk s b) as Hcl.
    { intros b Hb%(pe_dirty _ _ _ _ Hp). by apply elem_of_nil in Hb. }
    split; [unfold commit, getlog; by rewrite bind_gets, (pe_n _ _ _ _ Hp)|].
    split; [by rewrite app_nil_r|]. split; [done|].
    split; [by rewrite (setlog_clear s) by apply (pe_n _ _ _ _ Hp)|].
    split; [done|]. split; [done|]. split; [done|]. split; [intros b _; by rewrite (bview_clean p)|].
    intros k b Hb. rewrite take_nil, (bview_clean p) by done. simpl. unfold recover_disk.
    rewrite Hh, Hempty. cbn [install_disk]. rewrite lookup_insert_ne by (symmetry; by eapply outside_ne).
    by destruct (_ <=? _)%nat.
  - rewrite <- Ebs in *. destruct (commit_ok p start bs s h Hp)
      as (t & vs & Hr & Hvs & Hhist & Hdk & Hct & Hlt & Hst & Hcl); [by rewrite Ebs|done|done|].
    pose proof (Forall2_length _ _ _ Hvs) as Hvl. pose proof (pe_len _ _ _ _ Hp) as Hlen. unfold NBUF in Hlen.
    eexists t, (commit_writes start bs vs h), _. split; [done|]. split; [done|].
    split; [apply (pending_done p start bs s); try done; exact (bio_step_log _ _ Hst)|]. split; [done|].
    split; [rewrite Hdk; unfold commit_writes; rewrite !apply_writes_app; apply lookup_insert_eq|].
    split; [apply head_blocks_cleared; rewrite length_encode_head; lia|]. split; [done|]. split.
    + intros b Hb. rewrite Hdk. unfold commit_writes. rewrite !apply_writes_app. cbn [apply_writes foldl fst snd].
      rewrite lookup_insert_ne by (symmetry; by eapply outside_ne).
      rewrite <- (committed_view p start bs vs) by done. apply apply_writes_agree. intros _.
      rewrite lookup_insert_ne by (symmetry; by eapply outside_ne).
      rewrite <- (take_ge (log_writes start 0 vs) (length (log_writes start 0 vs))) by lia.
      apply apply_writes_other. apply outside_not_log; [lia|done].
    + intros k b Hb. rewrite (crash_pure start bs vs h (k_disk s)); try done; try lia.
      * by rewrite (committed_view p start).
      * apply (pe_range _ _ _ _ Hp).
      * by eapply pending_outside.
Qed.

(** C1: commit is atomic under crashes.  From a transaction that is ready, and an
    empty log on disk, commit returns with the log empty, in memory and on disk,
    ready for the next transaction, nothing dirty, and the contents of the
    transaction on disk.  A crash after any number [k] of its disk writes
    recovers to the contents before the transaction if the header had not been
    written by then, and to the contents of the transaction if it had. *)
Theorem commit_crash_safe p start bs s h :
  pending p start bs s -> Forall (fun b => is_Some (k_disk s !! b)) bs ->
  k_disk s !! start = Some h -> head_blocks h = [] ->
  exists t ws h', commit s = Done (Ok tt) t /\ k_hist t = k_hist s ++ ws /\
    k_disk t = apply_writes (k_disk s) ws /\
    pending p start [] t /\ k_disk t !! start = Some h' /\ head_blocks h' = [] /\
    (forall b, ~ dirtyblk t b) /\
    (forall b, outside start b -> k_disk t !! b = bview s b) /\
    forall k b, outside start b ->
      recover_disk start (apply_writes (k_disk s) (take k ws)) !! b =
        if (k <=? length bs)%nat then k_disk s !! b else bview s b.
Proof.
  intros Hp Hex Hh Hempty.
  destruct (commit_atomic p start bs s h) as (t & ws & h' & Hr & Hw & Hpt & _ & Hh' & He & Hdk & Hd & Hk); try done.
  exists t, ws, h'. split_and!; try done.
  intros b Hb%(pe_dirty _ _ _ _ Hpt). by apply elem_of_nil in Hb.
Qed.

(** ** Writing a block inside a transaction *)

Definition set_dirty (i : nat) (s : kstate) : kstate :=
  s <| k_buf ::= alter (fun y => y <| bflags := Z.lor (bflags y) B_DIRTY |>) i |>.

(** Marking a locked buffer dirty adds its block to the dirty ones. *)
Lemma set_dirty_ok p held s i :
  cache_ok p held s -> i ∈ held ->
  bget_ (set_dirty i s) i = (bget_ s i) <| bflags := 6 |> /\ cache_ok p held (set_dirty i s) /\
  (forall b, bview (set_dirty i s) b = bview s b) /\
  (forall b, dirtyblk (set_dirty i s) b <-> dirtyblk s b \/ b = blockno (bget_ s i)).
Proof.
  intros Hc Hin. destruct (held_blk _ _ _ _ Hc Hin) as (Hi & Hl & Hr & Hf & Hdev & Hb).
  set (t := set_dirty i s).
  assert (bget_ t i = (bget_ s i) <| bflags := 6 |>) as Hti.
  { unfold t, set_dirty. rewrite bget_alter_eq by (by rewrite (co_len _ _ _ Hc)).
    destruct (buf_flags _ _ _ _ Hc Hi) as [?|[He|He]]; [done|..]; rewrite He; done. }
  assert (forall j, j <> i -> bget_ t j = bget_ s j) as Htj by (intros; by apply bget_alter_ne).
  assert (uniq t) as Hut.
  { intros j k Hj Hk. pose proof (co_uniq _ _ _ Hc j k Hj Hk) as Hu.
    destruct (decide (j = i)) as [->|Hji], (decide (k = i)) as [->|Hki];
      rewrite ?Hti, ?(Htj _ Hji), ?(Htj _ Hki); simpl; done. }
  split; [done|]. split; [|split].
  - pose proof Hc as [Hq Hlen Hp Hu Hdk Hh Hbf]. split; try done.
    + simpl. by rewrite length_alter.
    + intros j Hj. specialize (Hbf j Hj). change (pget t p) with (pget s p).
      change (k_disk t) with (k_disk s). destruct (decide (j = i)) as [->|Hji]; [|by rewrite (Htj _ Hji)].
      rewrite Hti. rewrite bool_decide_true in * by done. destruct Hbf as (?&_&_&?&?&_).
      split_and!; try done. by right; right.
  - intros b. apply bview_keep; [apply (co_uniq _ _ _ Hc)|done|done|..]; intros j Hj Hcj; left;
      unfold caches in *; (destruct (decide (j = i)) as [->|Hji];
        [rewrite Hti in *; simpl in *; naive_solver|rewrite (Htj _ Hji) in *; done]).
  - intros b. split.
    + intros (j & Hj & Hd & <- & H6). destruct (decide (j = i)) as [->|Hji]; [right; by rewrite Hti|].
      rewrite (Htj _ Hji) in *. left. by exists j.
    + intros [(j & Hj & Hd & <- & H6)| ->].
      * exists j. destruct (decide (j = i)) as [->|Hji]; [|by rewrite (Htj _ Hji)]. by rewrite Hti.
      * exists i. rewrite Hti. by split_and!.
Qed.

(** log_write on an open transaction with space left. *)
Lemma log_write_ok p s i :
  quiet p s -> lh_n (k_log s) < LOGSIZE -> lh_n (k_log s) < lsize (k_log s) - 1 ->
  1 <= outstanding (k_log s) ->
  log_write i s = Done (Ok tt) ((set_dirty i s) <| k_log ::= log_record (blockno (bget_ s i)) |>).
Proof.
  intros Hq Hn Hls Ho. unfold log_write, getlog. rewrite bind_gets. unfold id.
  assert ((LOGSIZE <=? lh_n (k_log s)) = false) as -> by (by apply Z.leb_gt).
  assert ((lsize (k_log s) - 1 <=? lh_n (k_log s)) = false) as -> by (by apply Z.leb_gt).
  assert ((outstanding (k_log s) <? 1) = false) as -> by (apply Z.ltb_ge; lia). cbn [orb].
  assert (forall u, quiet p u -> lock_free u lk_log) as Hlk.
  { intros u Hu. apply (quiet_free p); [done|apply static_fixed; set_solver]. }
  rewrite (bind_Done _ _ _ _ _ (acquire_calm s lk_log (quiet_calm _ _ Hq) (Hlk s Hq))).
  unfold getbuf. rewrite bind_gets. unfold setlog, setbuf. rewrite !bind_modify.
  set (t := (set_dirty i s) <| k_log ::= log_record (blockno (bget_ s i)) |>).
  assert (quiet p t) as Hqt by done.
  change (release lk_log (acquired lk_log t) = Done (Ok tt) t).
  apply release_acquired; [by apply (quiet_calm p)|by apply Hlk].
Qed.

(** log_write records a block once: absorption. *)
Lemma log_record_spec g b bs :
  lh_n g = Z.of_nat (length bs) -> take (length bs) (lh_block g) = bs ->
  (length bs < length (lh_block g))%nat -> NoDup bs ->
  let bs' := if decide (b ∈ bs) then bs else bs ++ [b] in
  lh_n (log_record b g) = Z.of_nat (length bs') /\
  take (length bs') (lh_block (log_record b g)) = bs' /\
  length (lh_block (log_record b g)) = length (lh_block g) /\ NoDup bs'.
Proof.
  intros Hn Ht Hlen Hnd bs'. unfold log_record, log_slot. rewrite Hn. unfold idx. rewrite Nat2Z.id, Ht.
  destruct (list_find (fun x => x = b) bs) as [[k x]|] eqn:E.
  - apply list_find_Some in E as (Hk & -> & _). pose proof (lookup_lt_Some _ _ _ Hk) as Hlt.
    unfold bs'. rewrite decide_True by (by eapply list_elem_of_lookup_2). simpl.
    assert ((k =? length bs)%nat = false) as -> by (apply Nat.eqb_neq; lia).
    assert (<[k:=b]> (lh_block g) = lh_block g) as ->.
    { apply list_insert_id. rewrite <- Ht in Hk. by apply lookup_take_Some in Hk as [? _]. }
    by split_and!.
  - apply list_find_None in E. rewrite Forall_forall in E.
    assert (b ∉ bs) as Hb by (intros Hin; by apply (E b)).
    unfold bs'. rewrite decide_False by done. simpl. rewrite Nat.eqb_refl, length_app, length_insert. simpl.
    split_and!; [lia| |done|].
    + rewrite Nat.add_1_r, (take_S_r _ _ b) by (by apply list_lookup_insert_eq).
      by rewrite take_insert_ge, Ht by lia.
    + apply NoDup_app. split_and!; [done|set_solver|apply NoDup_singleton].
Qed.

(** Recording [b] in the log of a transaction, once its buffer is dirty. *)
Lemma pending_record p start bs s b u :
  pending p start bs s -> outside start b -> 0 <= b < 2 ^ 31 ->
  lsize (k_log s) <= LOGSIZE -> Z.of_nat (length bs) + 1 < lsize (k_log s) ->
  cache_ok p [] u -> k_log u = log_record b (k_log s) -> k_disk u = k_disk s ->
  (forall b', dirtyblk u b' <-> dirtyblk s b' \/ b' = b) ->
  pending p start (if decide (b ∈ bs) then bs else bs ++ [b]) u.
Proof.
  intros Hp Ho Hrange Hls Hsz Hcu Hku Hdk Hdu.
  destruct (log_record_spec (k_log s) b bs (pe_n _ _ _ _ Hp) (pe_blocks _ _ _ _ Hp)) as (Hn & Htk & Hll & Hnd);
    [rewrite (pe_size _ _ _ _ Hp); unfold idx, LOGSIZE, MAXOPBLOCKS in *; lia|apply (pe_nodup _ _ _ _ Hp)|].
  destruct (pe_log _ _ _ _ Hp) as (Hl1 & Hl2 & Hl3 & Hl4). split; [done| | | | | | | |].
  - unfold log_at. rewrite Hku, Hdk. split_and!; try done. intros b' [Hb'| ->]%Hdu; [by apply Hl4|done].
  - by rewrite Hku.
  - rewrite Hku, Hll. apply (pe_size _ _ _ _ Hp).
  - by rewrite Hku.
  - unfold LOGSIZE, MAXOPBLOCKS, NBUF in *. destruct (decide _); rewrite ?length_app; simpl; lia.
  - done.
  - intros b'. rewrite Hdu, (pe_dirty _ _ _ _ Hp). destruct (decide _); set_solver.
  - destruct (decide _); [apply (pe_range _ _ _ _ Hp)|].
    apply Forall_app. split; [apply (pe_range _ _ _ _ Hp)|by apply Forall_singleton].
Qed.

(** Changing a block inside a transaction. *)
Lemma txn_write_ok p start bs s b d :
  pending p start bs s -> is_Some (k_disk s !! b) -> outside start b -> 0 <= b < 2 ^ 31 ->
  length d = 512%nat -> 1 <= outstanding (k_log s) ->
  lsize (k_log s) <= LOGSIZE -> Z.of_nat (length bs) + 1 < lsize (k_log s) ->
  exists i t u, bread 1 b s = Done (Ok i) t /\ bview s b = Some (bdata (bget_ t i)) /\
    (log_write i ;;; brelse i) (set_data i d t) = Done (Ok tt) u /\
    pending p start (if decide (b ∈ bs) then bs else bs ++ [b]) u /\
    k_disk u = k_disk s /\ k_hist u = k_hist s /\
    (forall b', bview u b' = if decide (b' = b) then Some d else bview s b') /\
    bio_step s t /\ bio_step (s <| k_log ::= log_record b |>) u.
Proof.
  intros Hp Hb Ho Hrange Hd Hout Hls Hsz. pose proof (pe_ok _ _ _ _ Hp) as Hc.
  destruct (bread_ok p [] s b Hc Hb) as (i & t & Hr & Hg); [set_solver|right; by eapply pending_room|].
  pose proof (gr_ok _ _ _ _ _ _ Hg) as Hct. pose proof (gr_block _ _ _ _ _ _ Hg) as Hbi.
  destruct (set_data_ok p [i] t i d Hct ltac:(set_solver) Hd) as [Hc1 Hv1].
  pose proof (set_data_at p [i] t i d Hct ltac:(set_solver)) as Hd1.
  destruct (set_dirty_ok p [i] (set_data i d t) i Hc1 ltac:(set_solver)) as (Hd2 & Hc2 & Hv2 & Hdy2).
  set (v := (set_dirty i (set_data i d t)) <| k_log ::= log_record b |>).
  assert (cache_ok p [i] v) as Hcv by (by apply setlog_ok).
  destruct (brelse_ok p [] v i Hcv) as (u & Hrel & Hre); [set_solver|..].
  { change (bget_ v i) with (bget_ (set_dirty i (set_data i d t)) i). rewrite Hd2. done. }
  pose proof (bio_step_log _ _ (gr_step _ _ _ _ _ _ Hg)) as Hkt.
  pose proof (bio_step_log _ _ (re_step _ _ _ _ _ Hre)) as Hku.
  change (k_log v) with (log_record b (k_log t)) in Hku. rewrite Hkt in Hku.
  assert (k_disk u = k_disk s) as Hdk.
  { rewrite (re_disk _ _ _ _ _ Hre). exact (gr_disk _ _ _ _ _ _ Hg). }
  assert (forall b', dirtyblk u b' <-> dirtyblk s b' \/ b' = b) as Hdu.
  { intros b'. rewrite (returned_dirty _ _ _ _ _ Hre). change (dirtyblk v b') with (dirtyblk (set_dirty i (set_data i d t)) b').
    rewrite Hdy2, set_data_dirty, Hd1, (grabbed_dirty _ _ _ _ _ _ Hc Hg). simpl. by rewrite Hbi. }
  exists i, t, u. split; [done|]. split; [apply (gr_data _ _ _ _ _ _ Hg)|]. split.
  { rewrite (bind_Done _ _ _ _ _ (log_write_ok p (set_data i d t) i (co_quiet _ _ _ Hc1)
      ltac:(simpl; rewrite Hkt, (pe_n _ _ _ _ Hp); lia) ltac:(simpl; rewrite Hkt, (pe_n _ _ _ _ Hp); lia)
      ltac:(simpl; by rewrite Hkt))).
    rewrite Hd1. simpl. by rewrite Hbi. }
  split; [|split; [done|split; [|split; [|split; [apply (gr_step _ _ _ _ _ _ Hg)|]]]]].
  - eapply pending_record; try done. apply (re_ok _ _ _ _ _ Hre).
  - rewrite (re_hist _ _ _ _ _ Hre). exact (gr_hist _ _ _ _ _ _ Hg).
  - intros b'. rewrite (re_view _ _ _ _ _ Hre). change (bview v b') with (bview (set_dirty i (set_data i d t)) b').
    by rewrite Hv2, Hv1, Hbi, (gr_view _ _ _ _ _ _ Hg).
  - etransitivity; [|apply (re_step _ _ _ _ _ Hre)]. apply bio_step_setlog.
    etransitivity; [apply (gr_step _ _ _ _ _ _ Hg)|].
    etransitivity; [apply (bio_step_buf (alter (fun y => y <| bdata := d |>) i))|apply bio_step_buf].
Qed.

(** A write inside a transaction.  While a transaction with blocks [bs] is
    open, reading block [b], changing its contents to [d], log_write and brelse
    make [d] what readers of [b] see, keep every other block's view, write
    nothing to the disk, and leave a transaction with [b] added once. *)
Theorem txn_update p start bs s b d :
  pending p start bs s -> is_Some (k_disk s !! b) -> outside start b -> 0 <= b < 2 ^ 31 ->
  length d = 512%nat -> 1 <= outstanding (k_log s) ->
  lsize (k_log s) <= LOGSIZE -> Z.of_nat (length bs) + 1 < lsize (k_log s) ->
  exists i t u, bread 1 b s = Done (Ok i) t /\ bview s b = Some (bdata (bget_ t i)) /\
    (log_write i ;;; brelse i) (set_data i d t) = Done (Ok tt) u /\
    pending p start (if decide (b ∈ bs) then bs else bs ++ [b]) u /\
    k_disk u = k_disk s /\ k_hist u = k_hist s /\
    (forall b', bview u b' = if decide (b' = b) then Some d else bview s b').
Proof.
  intros. edestruct txn_write_ok as (i & t & u & ? & ? & ? & ? & ? & ? & ? & _); [done..|].
  exists i, t, u. by split_and!.
Qed.

(** ** Recovery *)

Lemma clean_room s p : cache_ok p [] s -> (forall b, ~ dirtyblk s b) -> room [] s.
Proof.
  intros Hc Hcl. exists 0%nat. assert (0 < NBUF)%nat as H0 by (vm_compute; lia).
  split_and!; [done|set_solver|]. rewrite has_flag_dirty by (by apply (buf_flags _ _ _ _ Hc)).
  apply Z.eqb_neq. intros H6. apply (Hcl (blockno (bget_ s 0))). exists 0%nat. split_and!; try done.
  apply (co_buf _ _ _ Hc 0 H0). lia.
Qed.

(** read_head loads the header block into memory. *)
Lemma read_head_ok p start s h :
  cache_ok p [] s -> (forall b, ~ dirtyblk s b) -> log_at start s ->
  k_disk s !! start = Some h -> get_int h 0 < LOGSIZE ->
  exists t, read_head s = Done (Ok tt) t /\ cache_ok p [] t /\ (forall b, ~ dirtyblk t b) /\
    log_at start t /\ k_disk t = k_disk s /\ k_hist t = k_hist s /\
    lh_n (k_log t) = get_int h 0 /\ listed 0 (head_blocks h) t.
Proof.
  intros Hc Hcl (Hdev & Hst & Hex & Hout) Hh Hn.
  destruct (bread_ok p [] s start Hc ltac:(by eexists)) as (i & t & Hr & Hg);
    [set_solver|right; by eapply clean_room|].
  pose proof (grabbed_dirty _ _ _ _ _ _ Hc Hg) as Hd. pose proof (gr_step _ _ _ _ _ _ Hg) as Hs.
  assert (bdata (bget_ t i) = h) as Hbi.
  { pose proof (gr_data _ _ _ _ _ _ Hg) as Hv. rewrite (bview_clean p) in Hv by done. congruence. }
  set (f := fun g => g <| lh_n := get_int h 0 |>
    <| lh_block := map (fun i => get_int h (4 + 4 * i)) (seq 0 (idx (get_int h 0)))
         ++ drop (idx (get_int h 0)) (lh_block (k_log s)) |>).
  set (t' := t <| k_log ::= f |>).
  destruct (brelse_ok p [] t' i) as (u & Hrel & Hre).
  { apply setlog_ok, (gr_ok _ _ _ _ _ _ Hg). }
  { set_solver. }
  { intros H2. change (bget_ t' i) with (bget_ t i). rewrite (gr_block _ _ _ _ _ _ Hg).
    exact (grabbed_clean _ _ _ _ _ _ Hc Hg H2). }
  pose proof (re_step _ _ _ _ _ Hre) as Hs'. pose proof (bio_step_log _ _ Hs') as Hk.
  assert (forall b, ~ dirtyblk u b) as Hclu.
  { intros b Hb. apply (returned_dirty _ _ _ _ _ Hre) in Hb. apply (Hcl b). by apply Hd. }
  assert (k_log u = f (k_log s)) as Hku.
  { rewrite Hk. unfold t'. simpl. by rewrite (bio_step_log _ _ Hs). }
  assert (k_disk u = k_disk s) as Hdk.
  { rewrite (re_disk _ _ _ _ _ Hre). change (k_disk t') with (k_disk t). apply (gr_disk _ _ _ _ _ _ Hg). }
  exists u. split; [|split; [apply (re_ok _ _ _ _ _ Hre)|split; [done|split; [|split; [done|split; [|split]]]]]].
  - unfold read_head, getlog. rewrite bind_gets. unfold id. rewrite Hdev, Hst.
    rewrite (bind_Done _ _ _ _ _ Hr). unfold getbuf. rewrite bind_gets, Hbi.
    cbn [decode_head]. unfold decode_head. assert ((LOGSIZE <? get_int h 0) = false) as -> by (apply Z.ltb_ge; lia).
    unfold setlog. rewrite bind_modify. exact Hrel.
  - unfold log_at. rewrite Hku, Hdk. split_and!; try done. intros b Hb. by destruct (Hclu b).
  - rewrite (re_hist _ _ _ _ _ Hre). change (k_hist t') with (k_hist t). apply (gr_hist _ _ _ _ _ _ Hg).
  - by rewrite Hku.
  - intros k b Hkb. rewrite Hku. simpl. apply aget_lookup.
    rewrite lookup_app_l by (rewrite length_map; apply lookup_lt_Some in Hkb; unfold head_blocks in Hkb;
      by rewrite length_fmap in Hkb). exact Hkb.
Qed.

(** The contents of the first log blocks. *)
Lemma log_contents start s n :
  log_at start s -> (n <= 29)%nat ->
  exists vs, length vs = n /\
    forall i v, vs !! i = Some v -> k_disk s !! (start + Z.of_nat i + 1) = Some v.
Proof.
  intros (_ & _ & Hlx & _) Hn.
  exists ((fun i => default [] (k_disk s !! (start + Z.of_nat i + 1))) <$> seq 0 n).
  split; [by rewrite length_fmap, length_seq|].
  intros i v Hi. apply list_lookup_fmap_Some in Hi as (j & -> & Hj). apply lookup_seq in Hj as [-> Hj]. simpl.
  destruct (Hlx (Z.of_nat i + 1)) as [x Hx]; [unfold LOGSIZE, MAXOPBLOCKS; lia|].
  rewrite Z.add_assoc in Hx. by rewrite Hx.
Qed.

(** Recovery after a crash during recovery. *)
Lemma recover_again start h bs vs d k b :
  d !! start = Some h -> length h = 512%nat -> head_blocks h = bs -> length vs = length bs ->
  (length bs <= 29)%nat -> Forall (outside start) bs ->
  (forall i v, vs !! i = Some v -> d !! (start + Z.of_nat i + 1) = Some v) -> outside start b ->
  recover_disk start (apply_writes d (take k (zip bs vs ++ [(start, le_store 4 h 0 0)]))) !! b =
    apply_writes d (zip bs vs) !! b.
Proof.
  intros Hh Hhl Hbs Hvl Hlen Hout Hvs Hb.
  assert (length (zip bs vs) = length bs) as Hzl by (rewrite length_zip_with; lia).
  destruct (decide (k <= length bs)%nat) as [Hk|Hk].
  - rewrite take_app_le by lia. by apply (reinstall start h bs vs).
  - rewrite take_ge by (rewrite length_app; simpl; lia). rewrite apply_writes_app.
    cbn [apply_writes foldl fst snd].
    unfold recover_disk. rewrite lookup_insert_eq, head_blocks_cleared by lia. cbn [install_disk].
    by rewrite !lookup_insert_ne by (symmetry; by eapply outside_ne).
Qed.

(** C12: recovery.  On a kernel that has just booted, with nothing dirty in its
    cache, and a disk whose header lists blocks outside the log, fewer than LOGSIZE of them,
    recover_from_log returns, leaves the disk as [recover_disk] says and the
    log empty; a crash after any number of its writes recovers to the same
    contents. *)
Theorem recover_refines p start s h :
  cache_ok p [] s -> (forall b, ~ dirtyblk s b) -> log_at start s ->
  k_disk s !! start = Some h -> get_int h 0 < LOGSIZE -> Forall (outside start) (head_blocks h) ->
  Forall (fun b => is_Some (k_disk s !! b)) (head_blocks h) ->
  exists t ws, recover_from_log s = Done (Ok tt) t /\
    k_disk t = recover_disk start (k_disk s) /\ k_hist t = k_hist s ++ ws /\
    cache_ok p [] t /\ lh_n (k_log t) = 0 /\
    forall k b, outside start b ->
      recover_disk start (apply_writes (k_disk s) (take k ws)) !! b = recover_disk start (k_disk s) !! b.
Proof.
  intros Hc Hcl Hlog Hh Hn Hout Hex.
  destruct (read_head_ok p start s h Hc Hcl Hlog Hh Hn) as (t1 & Hr1 & Hc1 & Hcl1 & Hlog1 & Hdk1 & Hh1 & Hn1 & Hli).
  set (bs := head_blocks h) in *.
  assert (length bs <= 29)%nat as Hlen.
  { unfold bs, head_blocks. rewrite length_fmap, length_seq. unfold idx, LOGSIZE, MAXOPBLOCKS in *. lia. }
  destruct (log_contents start s (length bs) Hlog Hlen) as (vs & Hvl & Hvs).
  destruct (install_loop p start bs vs 0 t1 Hc1 ltac:(by eapply clean_room) Hlog1 Hli ltac:(lia) Hvl Hout)
    as (t2 & Hw2 & Hr2); [by rewrite Hdk1|by right|by rewrite Hdk1|].
  set (t3 := t2 <| k_log ::= (fun g => g <| lh_n := 0 |>) |>).
  pose proof (wrote_log_at _ _ _ _ _ Hw2 Hlog1) as Hlog2.
  assert (k_disk t3 !! start = Some h) as Hh3.
  { change (k_disk t3) with (k_disk t2). rewrite (wt_disk _ _ _ _ Hw2), Hdk1, apply_writes_other; [done|].
    intros Hin%zip_keys. exact (start_not_block start bs Hout Hin). }
  destruct (write_head_ok p start t3 h) as (t & Hr4 & Hw4);
    [apply setlog_ok, (wt_ok _ _ _ _ Hw2)|apply (wt_room _ _ _ _ Hw2)| |done|].
  { destruct Hlog2 as (?&?&?&?). by split_and!. }
  assert (recover_disk start (k_disk s) =
    apply_writes (k_disk s) (zip bs vs ++ [(start, le_store 4 h 0 0)])) as Hrd.
  { unfold recover_disk. rewrite Hh. fold bs. rewrite (install_disk_writes start 0 bs vs); [|done|lia|done|done].
    by rewrite apply_writes_app. }
  exists t, (zip bs vs ++ [(start, le_store 4 h 0 0)]).
  split; [|split; [|split; [|split; [apply (wt_ok _ _ _ _ Hw4)|split]]]].
  - unfold recover_from_log. rewrite (bind_Done _ _ _ _ _ Hr1), (bind_Done _ _ _ tt t2).
    + unfold setlog. by rewrite bind_modify.
    + unfold install_trans, getlog. rewrite bind_gets, Hn1. replace (idx (get_int h 0)) with (length bs); [done|].
      unfold bs, head_blocks. by rewrite length_fmap, length_seq.
  - rewrite (wt_disk _ _ _ _ Hw4), Hrd, apply_writes_app. change (k_disk t3) with (k_disk t2).
    by rewrite (wt_disk _ _ _ _ Hw2), Hdk1.
  - rewrite (wt_hist _ _ _ _ Hw4). change (k_hist t3) with (k_hist t2).
    by rewrite (wt_hist _ _ _ _ Hw2), Hh1, <- app_assoc.
  - by rewrite (bio_step_log _ _ (wt_step _ _ _ _ Hw4)).
  - intros k b Hb. rewrite Hrd, apply_writes_app. simpl.
    rewrite lookup_insert_ne by (symmetry; by eapply outside_ne).
    apply (recover_again start h bs vs); try done. exact (co_disk _ _ _ Hc _ _ Hh).
Qed.

(** The header block is read back as it was written: decode_head of
    encode_head gives the number of blocks and their numbers, and keeps the rest
    of the old array. *)
Theorem head_roundtrip bs lb d old :
  Forall (fun b => 0 <= b < 2 ^ 31) bs -> (length bs <= 29)%nat -> length d = 512%nat ->
  take (length bs) lb = bs ->
  decode_head (encode_head (Z.of_nat (length bs)) lb d) old =
    (Z.of_nat (length bs), bs ++ drop (length bs) old).
Proof.
  intros Hbs Hlen Hd Hlb. destruct (head_blocks_encode bs lb d Hbs Hlen Hd Hlb) as [Hn Hb].
  unfold decode_head. rewrite <- Hb at 5. unfold head_blocks. rewrite Hn. unfold idx. by rewrite Nat2Z.id.
Qed.

(** ** Examples *)

Lemma small_disk_some b : 0 <= b < 100 -> is_Some (small_disk !! b).
Proof.
  intros Hb. assert (Forall (fun k => is_Some (small_disk !! Z.of_nat k)) (seq 0 100)) as Hall.
  { apply (bool_decide_unpack _). by vm_compute. }
  rewrite Forall_forall in Hall. replace b with (Z.of_nat (idx b)) by (unfold idx; lia).
  apply Hall, elem_of_seq. unfold idx. lia.
Qed.

(** An idle kernel with an open transaction that has not written yet; the log
    starts at block 2. *)
Definition fresh_txn (disk : gmap Z (list Z)) : kstate :=
  (idle disk) <| k_log := mk_log 2 30 1 false 1 0 (replicate 30 0) |>.

Definition open_txn : kstate := fresh_txn small_disk.

(** The same with block 50 written: it is cached dirty and listed. *)
Definition one_dirty : kstate :=
  (idle small_disk)
    <| k_buf ::= <[0%nat := mk_buf 6 1 50 (mk_sleeplock false 0) 0 (replicate 512 7)]> |>
    <| k_log := mk_log 2 30 1 false 1 1 (50 :: replicate 29 0) |>.

Lemma fresh_txn_clean disk b : ~ dirtyblk (fresh_txn disk) b.
Proof.
  intros (i & Hi & _ & _ & H6). change (bget_ (fresh_txn disk) i) with (bget_ (idle disk) i) in H6.
  by rewrite bget_idle in H6.
Qed.

Lemma fresh_txn_pending disk :
  map_Forall (fun _ d => length d = 512%nat) disk -> (forall b, 0 <= b < 100 -> is_Some (disk !! b)) ->
  pending 1 2 [] (fresh_txn disk).
Proof.
  intros Hlen Hsome. split; [| |done|done|done|vm_compute; lia|constructor| |constructor].
  - apply (setlog_ok 1 [] (idle disk)). by apply idle_ok.
  - split; [done|]. split; [done|]. split; [|by intros b ?%fresh_txn_clean].
    intros k Hk. apply Hsome. unfold LOGSIZE, MAXOPBLOCKS in Hk. lia.
  - intros b. split; [by intros ?%fresh_txn_clean|by intros ?%elem_of_nil].
Qed.

Lemma open_txn_pending : pending 1 2 [] open_txn.
Proof. apply fresh_txn_pending; [apply small_disk_len|apply small_disk_some]. Qed.

Lemma one_dirty_buf i : (i < NBUF)%nat -> i <> 0%nat -> bget_ one_dirty i = buf0.
Proof.
  intros Hi Hne. rewrite <- (bget_idle small_disk i Hi). unfold bget_.
  change (k_buf one_dirty) with (<[0%nat := mk_buf 6 1 50 (mk_sleeplock false 0) 0 (replicate 512 7)]>
    (k_buf (idle small_disk))). by apply aget_insert_ne.
Qed.

Lemma one_dirty_buf0 : bget_ one_dirty 0 = mk_buf 6 1 50 (mk_sleeplock false 0) 0 (replicate 512 7).
Proof. done. Qed.

Lemma one_dirty_disk : k_disk one_dirty = small_disk.
Proof. done. Qed.

Lemma one_dirty_ok : cache_ok 1 [] one_dirty.
Proof.
  destruct (idle_ok small_disk small_disk_len) as [Hq Hlen Hp Hu Hd Hh Hb].
  split; [apply quiet_check_ok; by vm_compute|by vm_compute|done| |done|done|].
  - intros i j Hi Hj. destruct (decide (i = 0)%nat) as [->|Hi0], (decide (j = 0)%nat) as [->|Hj0]; [done|..];
      rewrite ?(one_dirty_buf i), ?(one_dirty_buf j) by done; done.
  - intros i Hi. destruct (decide (i = 0)%nat) as [->|Hi0]; [|rewrite one_dirty_buf by done; rewrite <- (bget_idle small_disk i Hi); by apply Hb].
    rewrite bool_decide_false, one_dirty_buf0, one_dirty_disk by set_solver. split; [done|].
    split; [by right; right|]. split; [|done]. intros _. split; [done|]. apply small_disk_some. simpl. lia.
Qed.

Lemma one_dirty_dirty b : dirtyblk one_dirty b <-> b ∈ [50].
Proof.
  rewrite list_elem_of_singleton. split.
  - intros (i & Hi & _ & <- & H6). destruct (decide (i = 0)%nat) as [->|Hi0]; [done|].
    by rewrite one_dirty_buf in H6.
  - intros ->. exists 0%nat. split; [vm_compute; lia|done].
Qed.

Lemma one_dirty_pending : pending 1 2 [50] one_dirty.
Proof.
  split; [apply one_dirty_ok| |done|done|done|vm_compute; lia|apply NoDup_singleton|apply one_dirty_dirty|].
  - split; [done|]. split; [done|]. split.
    + intros k Hk. apply small_disk_some. unfold LOGSIZE, MAXOPBLOCKS in Hk. lia.
    + intros b ->%one_dirty_dirty%list_elem_of_singleton. unfold outside, LOGSIZE, MAXOPBLOCKS. lia.
  - by apply Forall_singleton.
Qed.

Lemma one_dirty_view : bview one_dirty 50 = Some (replicate 512 7).
Proof.
  rewrite (bview_cached one_dirty 50 0 (co_uniq _ _ _ one_dirty_ok)); [by rewrite one_dirty_buf0|vm_compute; lia|].
  unfold caches. by rewrite one_dirty_buf0.
Qed.

Lemma commit_crash_safe_witness :
  exists t ws, commit one_dirty = Done (Ok tt) t /\ k_hist t = ws /\
    (exists h', k_disk t !! 2 = Some h' /\ head_blocks h' = []) /\
    recover_disk 2 (apply_writes small_disk (take 1 ws)) !! 50 = small_disk !! 50 /\
    recover_disk 2 (apply_writes small_disk (take 2 ws)) !! 50 = Some (replicate 512 7).
Proof.
  destruct (commit_crash_safe 1 2 [50] one_dirty (replicate 512 0) one_dirty_pending)
    as (t & ws & h' & Hr & Hh & _ & _ & Hd & He & _ & _ & Hk).
  - apply Forall_singleton, (small_disk_some 50). lia.
  - by vm_compute.
  - by vm_compute.
  - exists t, ws. split; [exact Hr|]. split; [exact Hh|]. split; [exists h'; split; [exact Hd|exact He]|]. assert (outside 2 50) as Ho by (unfold outside, LOGSIZE, MAXOPBLOCKS; lia).
    split; [exact (Hk 1%nat 50 Ho)|].
    transitivity (bview one_dirty 50); [exact (Hk 2%nat 50 Ho)|exact one_dirty_view].
Defined.

Lemma txn_update_witness :
  exists i t u, bread 1 60 open_txn = Done (Ok i) t /\
    (log_write i ;;; brelse i) (set_data i (replicate 512 9) t) = Done (Ok tt) u /\
    pending 1 2 [60] u /\ k_disk u = small_disk.
Proof.
  destruct (txn_update 1 2 [] open_txn 60 (replicate 512 9) open_txn_pending)
    as (i & t & u & Hr & _ & Hw & Hp & Hd & _).
  - apply (small_disk_some 60). lia.
  - unfold outside, LOGSIZE, MAXOPBLOCKS. lia.
  - lia.
  - done.
  - done.
  - done.
  - vm_compute. reflexivity.
  - exists i, t, u. split; [exact Hr|]. split; [exact Hw|]. split; [exact Hp|exact Hd].
Defined.

(** A crash between the two halves of a commit: the header of the log lists
    block 50 and its contents are in the first log block. *)
Definition crash_head : list Z := le_store 4 (le_store 4 (replicate 512 0) 0 1) 4 50.

Definition crash_disk : gmap Z (list Z) := <[2 := crash_head]> (<[3 := replicate 512 7]> small_disk).

Definition crashed : kstate := (idle crash_disk) <| k_log := mk_log 2 30 0 false 1 0 (replicate 30 0) |>.

Lemma crash_disk_some b : 0 <= b < 100 -> is_Some (crash_disk !! b).
Proof.
  intros Hb. unfold crash_disk. rewrite !lookup_insert.
  case_decide; [by eexists|]. case_decide; [by eexists|]. by apply small_disk_some.
Qed.

Lemma crash_disk_len : map_Forall (fun _ d => length d = 512%nat) crash_disk.
Proof.
  apply map_Forall_insert_2; [by vm_compute|]. apply map_Forall_insert_2; [done|]. apply small_disk_len.
Qed.

Lemma crash_head_blocks : head_blocks crash_head = [50].
Proof. by vm_compute. Qed.

Lemma crashed_clean b : ~ dirtyblk crashed b.
Proof.
  intros (i & Hi & _ & _ & H6). change (bget_ crashed i) with (bget_ (idle crash_disk) i) in H6.
  by rewrite bget_idle in H6.
Qed.

Lemma crashed_log : log_at 2 crashed.
Proof.
  split; [done|]. split; [done|]. split; [|by intros b ?%crashed_clean].
  intros k Hk. change (k_disk crashed) with crash_disk. apply crash_disk_some.
  unfold LOGSIZE, MAXOPBLOCKS in Hk. lia.
Qed.

Lemma recover_refines_witness :
  exists t, recover_from_log crashed = Done (Ok tt) t /\ k_disk t !! 50 = Some (replicate 512 7).
Proof.
  destruct (recover_refines 1 2 crashed crash_head) as (t & ws & Hr & Hd & _).
  - apply setlog_ok, idle_ok, crash_disk_len.
  - exact crashed_clean.
  - exact crashed_log.
  - by vm_compute.
  - by vm_compute.
  - rewrite crash_head_blocks. apply Forall_singleton. unfold outside, LOGSIZE, MAXOPBLOCKS. lia.
  - rewrite crash_head_blocks. apply Forall_singleton. apply crash_disk_some. lia.
  - exists t. split; [exact Hr|]. rewrite Hd. clear. by vm_compute.
Defined.

Lemma head_roundtrip_witness :
  decode_head (encode_head 2 (50 :: 60 :: replicate 28 0) (replicate 512 0)) (replicate 30 1) =
    (2, [50; 60] ++ replicate 28 1).
Proof.
  exact (head_roundtrip [50; 60] (50 :: 60 :: replicate 28 0) (replicate 512 0) (replicate 30 1)
    ltac:(repeat constructor; lia) ltac:(vm_compute; lia) eq_refl eq_refl).
Defined.
