(* ===== verification/Txn.v ===== *)
(** * Operations on the log (theorems on begin_op and end_op of log.c)

    begin_op and end_op of a process that runs without contention: the last
    end_op commits, and the log is idle again.  [same_io] relates states in
    which the disk looks the same. *)

From S2P Require Import Prelude Kernel Spinlock ProcCore Bio Quiet Cache Log Crash.

(** ** The same disk *)

(** The cache and the disk are the same, and so is the environment of a path. *)
Definition same_io (s t : kstate) : Prop :=
  same_env s t /\ k_buf t = k_buf s /\ k_lru t = k_lru s /\ k_disk t = k_disk s /\ k_hist t = k_hist s.

#[export] Instance same_io_equiv : Equivalence same_io.
Proof.
  split; unfold same_io.
  - done.
  - intros s t (H & ? & ? & ? & ?). split; [by symmetry|]. by split_and!.
  - intros s t u (H & ? & ? & ? & ?) (G & ? & ? & ? & ?). split; [by etransitivity|]. split_and!; congruence.
Qed.

Lemma io_bget s t i : same_io s t -> bget_ t i = bget_ s i.
Proof. intros (_ & H & _). unfold bget_. by rewrite H. Qed.

Lemma io_bview s t b : same_io s t -> bview t b = bview s b.
Proof.
  intros Hio. pose proof Hio as (_ & _ & _ & Hd & _). unfold bview.
  rewrite (list_find_ext (caches t b) (caches s b)) by (intros i; unfold caches; by rewrite (io_bget s t)).
  destruct (list_find _ _) as [[_ i]|]; [by rewrite (io_bget s t)|by rewrite Hd].
Qed.

Lemma io_dirty s t b : same_io s t -> dirtyblk t b <-> dirtyblk s b.
Proof. intros (_ & H & _). unfold dirtyblk, bget_. by rewrite H. Qed.

Lemma io_cache p held s t : same_io s t -> cache_ok p held s -> cache_ok p held t.
Proof.
  intros Hio Hc. pose proof Hio as (He & Hb & Hl & Hd & _). pose proof (quiet_env p s t He (co_quiet _ _ _ Hc)) as Hq.
  destruct Hc as [_ H2 H3 H4 H5 H6 H7]. split; rewrite ?Hb, ?Hl, ?Hd; try done.
  - intros i j. rewrite !(io_bget s t) by done. apply H4.
  - intros i Hi. rewrite (io_bget s t), <- (pid_env s t p He) by done. by apply H7.
Qed.

(** A cached block is a block of the disk. *)
Lemma caches_on_disk p held s b i :
  cache_ok p held s -> (i < NBUF)%nat -> caches s b i -> is_Some (k_disk s !! b).
Proof. intros Hc Hi (_ & <- & Hf). by apply (co_buf _ _ _ Hc i Hi). Qed.

Lemma dirty_on_disk p held s b : cache_ok p held s -> dirtyblk s b -> is_Some (k_disk s !! b).
Proof. intros Hc (i & Hi & Hci)%dirtyblk_caches. by eapply caches_on_disk. Qed.

Lemma view_on_disk p held s b : cache_ok p held s -> is_Some (bview s b) -> is_Some (k_disk s !! b).
Proof.
  intros Hc. unfold bview. destruct (list_find _ _) as [[j i]|] eqn:E; [|done]. intros _.
  apply list_find_Some in E as (Hi & Hca & _). apply lookup_seq in Hi as [-> Hi]. by eapply caches_on_disk.
Qed.

(** The parts of the log that a transaction with its blocks depends on. *)
Definition same_head (g g' : logst) : Prop :=
  lh_n g' = lh_n g /\ lh_block g' = lh_block g /\ lstart g' = lstart g /\ ldev g' = ldev g.

Lemma io_pending p start bs s t :
  same_io s t -> same_head (k_log s) (k_log t) -> pending p start bs s -> pending p start bs t.
Proof.
  intros Hio (Hn & Hb & Hs & Hd) [H1 (L1 & L2 & L3 & L4) H3 H4 H5 H6 H7 H8 H9]. pose proof Hio as (_ & _ & _ & Hk & _).
  split; rewrite ?Hn, ?Hb; try done.
  - by eapply io_cache.
  - unfold log_at. rewrite Hs, Hd, Hk. split_and!; try done. intros b. rewrite (io_dirty s t) by done. apply L4.
  - intros b. by rewrite (io_dirty s t).
Qed.

Lemma same_io_wake ch s : same_io s (s <| k_proc ::= fmap (wake ch) |>).
Proof. split; [apply same_env_wake|done]. Qed.

(** ** begin_op and end_op *)

Lemma log_free p s : quiet p s -> lock_free s lk_log.
Proof. intros Hq. apply (quiet_free p s lk_log Hq), static_fixed. set_solver. Qed.

(** wakeup inside the critical section of the log, and the end of it. *)
Lemma wakeup_release_log p s ch :
  quiet p s -> let t := s <| k_proc ::= fmap (wake ch) |> in
  (wakeup ch ;;; release lk_log) (acquired lk_log s) = Done (Ok tt) t /\ quiet p t.
Proof.
  intros Hq t. assert (quiet p t) as Hqt by (eapply quiet_env; [apply same_env_wake|done]). split; [|done].
  assert (lock_free (acquired lk_log s) lk_ptable) as Hf.
  { apply lock_free_acquired; [done|]. apply (quiet_free p s _ Hq), static_fixed. set_solver. }
  rewrite (bind_Done _ _ _ _ _ (wakeup_ok (acquired lk_log s) ch
    (proj1 (calm_acquired s lk_log (quiet_calm p s Hq))) Hf (quiet_len p s Hq))).
  apply (release_acquired t lk_log); [apply (quiet_calm p t Hqt)|by apply (log_free p)].
Qed.

(** end_op of a transaction that wrote nothing. *)
Lemma end_op_empty p s :
  quiet p s -> committing (k_log s) = false -> lh_n (k_log s) = 0 ->
  exists t, end_op s = Done (Ok tt) t /\ quiet p t /\
    k_log t = (k_log s) <| outstanding := i32 (outstanding (k_log s) - 1) |>.
Proof.
  intros Hq Hcom Hn. set (o := i32 (outstanding (k_log s) - 1)).
  unfold end_op. rewrite (bind_Done _ _ _ _ _ (acquire_calm s _ (quiet_calm p s Hq) (log_free p s Hq))).
  unfold setlog, getlog. rewrite bind_modify, bind_gets.
  pose (s1 := s <| k_log ::= (fun g => g <| outstanding := i32 (outstanding g - 1) |>) |>).
  change (upd _ (acquired lk_log s)) with (acquired lk_log s1).
  change (committing (k_log (acquired lk_log s1))) with (committing (k_log s)). rewrite Hcom, bind_gets.
  change (outstanding (k_log (acquired lk_log s1))) with o.
  assert (quiet p s1) as Hq1 by exact Hq.
  destruct (Z.eqb_spec o 0) as [Ho|Ho].
  - rewrite bind_modify. pose (s2 := s1 <| k_log ::= (fun g => g <| committing := true |>) |>).
    change (upd _ (acquired lk_log s1)) with (acquired lk_log s2).
    assert (quiet p s2) as Hq2 by exact Hq.
    rewrite (bind_Done _ _ _ _ _ (release_acquired s2 lk_log (quiet_calm p s2 Hq2) (log_free p s2 Hq2))).
    cbn [when]. unfold commit, getlog. rewrite bind_Done with (a := tt) (s' := s2).
    2:{ rewrite bind_gets. change (lh_n (k_log s2)) with (lh_n (k_log s)). by rewrite Hn. }
    rewrite (bind_Done _ _ _ _ _ (acquire_calm s2 _ (quiet_calm p s2 Hq2) (log_free p s2 Hq2))), bind_modify.
    pose (s3 := s2 <| k_log ::= (fun g => g <| committing := false |>) |>).
    change (upd _ (acquired lk_log s2)) with (acquired lk_log s3).
    destruct (wakeup_release_log p s3 (Some ch_log) Hq) as [Hr Hq3].
    eexists. split; [exact Hr|]. split; [exact Hq3|].
    transitivity ((k_log s) <| outstanding := o |> <| committing := true |> <| committing := false |>); [done|].
    destruct (k_log s). simpl in Hcom. by subst.
  - destruct (wakeup_release_log p s1 (Some ch_log) Hq1) as [Hr Hq2].
    eexists. split; [exact (seq2_run _ _ _ _ _ Hr)|]. split; [exact Hq2|done].
Qed.

(** begin_op when the operation is admitted at once. *)
Lemma begin_op_ok p s :
  quiet p s -> op_admitted (k_log s) = true ->
  begin_op s = Done (Ok tt) (s <| k_log ::= (fun g => g <| outstanding := i32 (outstanding g + 1) |>) |>).
Proof.
  intros Hq Ha. unfold begin_op.
  rewrite (bind_Done _ _ _ _ _ (acquire_calm s _ (quiet_calm p s Hq) (log_free p s Hq))), bind_gets.
  rewrite bind_Done with (a := tt) (s' := acquired lk_log s).
  2:{ change (op_admitted (k_log (acquired lk_log s)) = true) in Ha.
      destruct (k_fuel (acquired lk_log s)); cbn [mwhile]; unfold getlog; rewrite bind_gets, Ha; done. }
  unfold setlog. rewrite bind_modify. set (f := fun g => g <| outstanding := i32 (outstanding g + 1) |>).
  pose (s1 := s <| k_log ::= f |>). assert (quiet p s1) as Hq1 by exact Hq.
  apply (release_acquired s1 lk_log); [apply (quiet_calm p s1 Hq1)|by apply (log_free p)].
Qed.


Lemma setlog_ext s f g : f (k_log s) = g (k_log s) -> s <| k_log ::= f |> = s <| k_log ::= g |>.
Proof. intros H. transitivity (s <| k_log := f (k_log s) |>); [done|]. by rewrite H. Qed.

(** The last end_op of a transaction commits it. *)
Lemma end_op_commit p start bs s h :
  pending p start bs s -> Forall (fun b => is_Some (k_disk s !! b)) bs ->
  k_disk s !! start = Some h -> head_blocks h = [] ->
  outstanding (k_log s) = 1 -> committing (k_log s) = false ->
  exists t ws h', end_op s = Done (Ok tt) t /\ k_hist t = k_hist s ++ ws /\ pending p start [] t /\
    bio_step (s <| k_log ::= (fun g => g <| lh_n := 0 |> <| outstanding := 0 |>) |>) t /\
    k_disk t !! start = Some h' /\ head_blocks h' = [] /\ k_disk t = apply_writes (k_disk s) ws /\
    (forall b, outside start b -> k_disk t !! b = bview s b) /\
    forall k b, outside start b ->
      recover_disk start (apply_writes (k_disk s) (take k ws)) !! b =
        if (k <=? length bs)%nat then k_disk s !! b else bview s b.
Proof.
  intros Hp Hex Hh Hempty Hout Hcom. pose proof (co_quiet _ _ _ (pe_ok _ _ _ _ Hp)) as Hq.
  pose (s1 := s <| k_log ::= (fun g => g <| outstanding := i32 (outstanding g - 1) |>) |>).
  pose (s2 := s1 <| k_log ::= (fun g => g <| committing := true |>) |>).
  assert (same_io s s2) as Hio2 by done.
  destruct (commit_atomic p start bs s2 h) as (t & ws & h' & Hr & Hw & Hpt & Hst & Hh' & He' & Hd & Hv & Hk); try done.
  { apply (io_pending _ _ _ s); done. }
  pose (t1 := t <| k_log ::= (fun g => g <| committing := false |>) |>).
  pose proof (co_quiet _ _ _ (pe_ok _ _ _ _ Hpt)) as Hqt. assert (quiet p s2) as Hq2 by exact Hq.
  destruct (wakeup_release_log p t1 (Some ch_log) Hqt) as [Hrel _].
  exists (t1 <| k_proc ::= fmap (wake (Some ch_log)) |>), ws, h'. split; [|split; [done|split; [|split; [|done]]]].
  - unfold end_op. rewrite (bind_Done _ _ _ _ _ (acquire_calm s _ (quiet_calm p s Hq) (log_free p s Hq))).
    unfold setlog, getlog. rewrite bind_modify, bind_gets.
    change (upd _ (acquired lk_log s)) with (acquired lk_log s1).
    change (committing (k_log (acquired lk_log s1))) with (committing (k_log s)). rewrite Hcom, bind_gets.
    change (outstanding (k_log (acquired lk_log s1))) with (i32 (outstanding (k_log s) - 1)). rewrite Hout.
    change (i32 (1 - 1) =? 0) with true. cbv beta iota. rewrite bind_modify.
    change (upd _ (acquired lk_log s1)) with (acquired lk_log s2).
    rewrite (bind_Done _ _ _ _ _ (release_acquired s2 lk_log (quiet_calm p s2 Hq2) (log_free p s2 Hq2))).
    cbn [when]. rewrite (bind_Done _ _ _ _ _ Hr).
    rewrite (bind_Done _ _ _ _ _ (acquire_calm t _ (quiet_calm p t Hqt) (log_free p t Hqt))), bind_modify.
    exact Hrel.
  - apply (io_pending p start [] t); [|done|done]. exact (same_io_wake (Some ch_log) t1).
  - etransitivity; [|split; [|apply pid_wake]; destruct t; reflexivity].
    pose proof (bio_step_setlog _ _ (fun g => g <| committing := false |>) Hst) as Hst1.
    rewrite (setlog_ext s _ (fun g => g <| outstanding := i32 (outstanding g - 1) |> <| committing := true |>
      <| lh_n := 0 |> <| committing := false |>)); [exact Hst1|].
    simpl. rewrite Hout. destruct (k_log s). simpl in Hcom. by subst.
Qed.
