(* ===== verification/Inode.v ===== *)
(** * Blocks and inodes (fs.c, first half)

    The super block, the block bitmap, and the inode layer: the on-disk inode
    as bytes of its block, the inode cache, bmap and itrunc.  A string copy
    that leaves its array goes on in the next field, as in memory; one that
    leaves the structure is undefined behaviour. *)

From S2P Require Import Prelude Cstring Kernel Spinlock ProcCore Console Bio Log.

(** ** The super block *)

Definition decode_sb (d : list Z) : superblock :=
  mk_sb (le_load 4 d 0) (le_load 4 d 4) (le_load 4 d 8) (le_load 4 d 12)
        (le_load 4 d 16) (le_load 4 d 20) (le_load 4 d 24).

Definition readsb (dev : Z) : K superblock :=
  bp <- bread dev 1 ;;
  d <- getbuf bp bdata ;;
  brelse bp ;;;
  ret (decode_sb d).

(** initlog of log.c *)
Definition initlog (dev : Z) : K unit :=
  initlock lk_log ;;;
  sb <- readsb dev ;;
  setlog (fun g => g <| lstart := sb_logstart sb |> <| lsize := sb_nlog sb |> <| ldev := dev |>) ;;;
  recover_from_log.

(** ** The block bitmap *)

Definition BPB : Z := BSIZE * 8.

Definition BBLOCK (b : Z) (sb : superblock) : Z := b / BPB + sb_bmapstart sb.

(** (data[bi/8] & (1 << (bi % 8))) != 0 *)
Definition bit_at (d : list Z) (bi : nat) : bool :=
  Z.testbit (aget d (bi / 8)) (Z.of_nat (bi mod 8)).

Definition set_bit (d : list Z) (bi : nat) : list Z :=
  alter (fun x => Z.lor x (Z.shiftl 1 (Z.of_nat (bi mod 8)))) (bi / 8)%nat d.

Definition clear_bit (d : list Z) (bi : nat) : list Z :=
  alter (fun x => Z.land x (Z.lnot (Z.shiftl 1 (Z.of_nat (bi mod 8))))) (bi / 8)%nat d.

(** The inner loop of balloc: the first clear bit among the first [n]. *)
Definition find_free (d : list Z) (n : nat) : option nat :=
  snd <$> list_find (fun bi => bit_at d bi = false) (seq 0 n).

Definition bzero (dev bno : Z) : K unit :=
  bp <- bread dev bno ;;
  setbuf bp (fun y => y <| bdata := replicate 512 0 |>) ;;;
  log_write bp ;;;
  brelse bp.

(** The body of the outer loop, for bitmap block [k]. *)
Definition balloc_in (dev : Z) (sb : superblock) (k : nat) : K (option Z) :=
  let b := Z.of_nat k * BPB in
  bp <- bread dev (BBLOCK b sb) ;;
  d <- getbuf bp bdata ;;
  match find_free d (idx (Z.min BPB (sb_size sb - b))) with
  | Some bi =>
      setbuf bp (fun y => y <| bdata := set_bit (bdata y) bi |>) ;;;
      log_write bp ;;;
      brelse bp ;;;
      bzero dev (b + Z.of_nat bi) ;;;
      ret (Some (b + Z.of_nat bi))
  | None => brelse bp ;;; ret None
  end.

Definition balloc (dev : Z) : K Z :=
  sb <- gets k_sb ;;
  r <- mfor_ret (seq 0 (idx ((sb_size sb + BPB - 1) / BPB))) (balloc_in dev sb) ;;
  match r with
  | Some b => ret b
  | None => panic "balloc: out of blocks"
  end.

Definition bfree (dev b : Z) : K unit :=
  sb <- gets k_sb ;;
  bp <- bread dev (BBLOCK b sb) ;;
  d <- getbuf bp bdata ;;
  let bi := idx (b mod BPB) in
  if negb (bit_at d bi) then panic "freeing free block"
  else
    setbuf bp (fun y => y <| bdata := clear_bit (bdata y) bi |>) ;;;
    log_write bp ;;;
    brelse bp.

(** ** On-disk inodes *)

Definition IPB : Z := 8.

Definition IBLOCK (i : Z) (sb : superblock) : Z := i / IPB + sb_inodestart sb.

(** The byte offset of inode [i] in its block. *)
Definition dinode_off (i : Z) : nat := idx (64 * (i mod IPB)).

Definition di_type (d : list Z) (o : nat) : Z := i16 (le_load 2 d o).

Definition di_addrs (d : list Z) (o : nat) : list Z :=
  map (fun k => le_load 4 d (o + 12 + 4 * k)) (seq 0 8).

Fixpoint put_addrs (d : list Z) (o : nat) (addrs : list Z) : list Z :=
  match addrs with
  | [] => d
  | a :: l => put_addrs (le_store 4 d o a) (o + 4) l
  end.

(** strcpy to the bytes of [d] from [o] on; [None] past the end. *)
Definition strcpy_at (d : list Z) (o : nat) (src : list Z) : option (list Z) :=
  (fun t => take o d ++ t) <$> strcpy (drop o d) src.

(** The bytes of an in-memory inode from its userid on. *)
Definition userid_bytes (ip : inode) : list Z := iuserid ip ++ le_store 4 (replicate 4 0) 0 (imode ip).

(** The stores of iupdate. *)
Definition encode_dinode (d : list Z) (o : nat) (ip : inode) : option (list Z) :=
  let d := le_store 2 d o (itype ip) in
  let d := le_store 2 d (o + 2) (imajor ip) in
  let d := le_store 2 d (o + 4) (iminor ip) in
  let d := le_store 2 d (o + 6) (inlink ip) in
  let d := le_store 4 d (o + 8) (isize ip) in
  match strcpy_at d (o + 44) (userid_bytes ip) with
  | Some d => Some (put_addrs (le_store 4 d (o + 60) (imode ip)) (o + 12) (iaddrs ip))
  | None => None
  end.

(** The loads of ilock. *)
Definition decode_dinode (d : list Z) (o : nat) (ip : inode) : option inode :=
  match strcpy (userid_bytes ip) (drop (o + 44) d) with
  | Some u =>
      Some (ip <| itype := di_type d o |> <| imajor := i16 (le_load 2 d (o + 2)) |>
               <| iminor := i16 (le_load 2 d (o + 4)) |> <| inlink := i16 (le_load 2 d (o + 6)) |>
               <| isize := le_load 4 d (o + 8) |> <| iuserid := take 16 u |>
               <| imode := le_load 4 d (o + 60) |> <| iaddrs := di_addrs d o |>)
  | None => None
  end.

(** The mode ialloc gives a new inode. *)
Definition init_mode (type : Z) (old : Z) : Z :=
  if type =? T_FILE then Z.lor (Z.lor MODE_RUSR MODE_WUSR) MODE_ROTH
  else if type =? T_DIR then
    Z.lor (Z.lor (Z.lor (Z.lor MODE_RUSR MODE_WUSR) MODE_XUSR) MODE_ROTH) MODE_XOTH
  else if type =? T_DEV then
    Z.lor (Z.lor (Z.lor (Z.lor (Z.lor MODE_RUSR MODE_WUSR) MODE_XUSR) MODE_ROTH) MODE_WOTH) MODE_XOTH
  else old.

(** memset(dip, 0, sizeof); dip->type = type; strcpy(dip->userid, "SYSTEM"); mode *)
Definition fresh_dinode (d : list Z) (o : nat) (type : Z) : option (list Z) :=
  let d := take o d ++ replicate 64 0 ++ drop (o + 64) d in
  let d := le_store 2 d o type in
  match strcpy_at d (o + 44) (chars "SYSTEM" ++ [0]) with
  | Some d => Some (le_store 4 d (o + 60) (init_mode type 0))
  | None => None
  end.

(** ** The inode cache *)

Definition iget_ (s : kstate) (i : nat) : inode := aget (k_inode s) i.

Definition getinode {A} (i : nat) (f : inode -> A) : K A := gets (fun s => f (iget_ s i)).

Definition setinode (i : nat) (f : inode -> inode) : K unit :=
  modify (fun s => s <| k_inode ::= alter f i |>).

Definition find_inode (s : kstate) (dev n : Z) : option nat :=
  fst <$> list_find (fun x => 0 < iref x /\ idev x = dev /\ inum x = n) (k_inode s).

Definition find_empty (s : kstate) : option nat :=
  fst <$> list_find (fun x => iref x = 0) (k_inode s).

Definition iget (dev n : Z) : K nat :=
  acquire lk_icache ;;;
  c <- gets (fun s => find_inode s dev n) ;;
  match c with
  | Some i =>
      setinode i (fun x => x <| iref := i32 (iref x + 1) |>) ;;;
      release lk_icache ;;;
      ret i
  | None =>
      e <- gets find_empty ;;
      match e with
      | None => panic "iget: no inodes"
      | Some i =>
          setinode i (fun x => x <| idev := dev |> <| inum := n |> <| iref := 1 |>
                                 <| ivalid := false |>) ;;;
          release lk_icache ;;;
          ret i
      end
  end.

Definition idup (i : nat) : K nat :=
  acquire lk_icache ;;;
  setinode i (fun x => x <| iref := i32 (iref x + 1) |>) ;;;
  release lk_icache ;;;
  ret i.

Definition ilock (i : nat) : K unit :=
  r <- getinode i iref ;;
  if r <? 1 then panic "ilock"
  else
    acquiresleep (sl_inode i) ;;;
    x <- getinode i id ;;
    if ivalid x then ret tt
    else
      sb <- gets k_sb ;;
      bp <- bread (idev x) (IBLOCK (inum x) sb) ;;
      d <- getbuf bp bdata ;;
      y <- getinode i id ;;
      match decode_dinode d (dinode_off (inum x)) y with
      | None => halt (UB "strcpy")
      | Some x' =>
          setinode i (fun _ => x') ;;;
          brelse bp ;;;
          setinode i (fun x => x <| ivalid := true |>) ;;;
          when (itype x' =? 0) (panic "ilock: no type")
      end.

Definition iunlock (i : nat) : K unit :=
  h <- holdingsleep (sl_inode i) ;;
  r <- getinode i iref ;;
  if negb h || (r <? 1) then panic "iunlock"
  else releasesleep (sl_inode i).

Definition iupdate (i : nat) : K unit :=
  y <- getinode i id ;;
  sb <- gets k_sb ;;
  bp <- bread (idev y) (IBLOCK (inum y) sb) ;;
  d <- getbuf bp bdata ;;
  x <- getinode i id ;;
  match encode_dinode d (dinode_off (inum x)) x with
  | None => halt (UB "strcpy")
  | Some d' =>
      setbuf bp (fun y => y <| bdata := d' |>) ;;;
      log_write bp ;;;
      brelse bp
  end.

(** for(inum = 1; inum < sb.ninodes; inum++) *)
Definition ialloc (dev type : Z) : K nat :=
  sb <- gets k_sb ;;
  r <- mfor_ret (seq 1 (idx (sb_ninodes sb) - 1)) (fun k =>
    let n := Z.of_nat k in
    bp <- bread dev (IBLOCK n sb) ;;
    d <- getbuf bp bdata ;;
    if di_type d (dinode_off n) =? 0 then
      match fresh_dinode d (dinode_off n) type with
      | None => halt (UB "strcpy")
      | Some d' =>
          setbuf bp (fun y => y <| bdata := d' |>) ;;;
          log_write bp ;;;
          brelse bp ;;;
          i <- iget dev n ;;
          ret (Some i)
      end
    else brelse bp ;;; ret None) ;;
  match r with
  | Some i => ret i
  | None => panic "ialloc: no inodes"
  end.

(** ** Contents *)

Definition setaddr (i k : nat) (a : Z) : K unit :=
  setinode i (fun x => x <| iaddrs ::= <[k := a]> |>).

Definition bmap (i : nat) (bn : Z) : K Z :=
  x <- getinode i id ;;
  if bn <? NDIRECT then
    let addr := aget (iaddrs x) (idx bn) in
    if addr =? 0 then a <- balloc (idev x) ;; setaddr i (idx bn) a ;;; ret a
    else ret addr
  else
    let bn := bn - NDIRECT in
    if bn <? NINDIRECT then
      let addr := aget (iaddrs x) (idx NDIRECT) in
      addr <- (if addr =? 0 then a <- balloc (idev x) ;; setaddr i (idx NDIRECT) a ;;; ret a
               else ret addr) ;;
      bp <- bread (idev x) addr ;;
      d <- getbuf bp bdata ;;
      let a := le_load 4 d (idx (4 * bn)) in
      a <- (if a =? 0 then
              a <- balloc (idev x) ;;
              setbuf bp (fun y => y <| bdata := le_store 4 (bdata y) (idx (4 * bn)) a |>) ;;;
              log_write bp ;;;
              ret a
            else ret a) ;;
      brelse bp ;;;
      ret a
    else panic "bmap: out of range".

Definition itrunc (i : nat) : K unit :=
  mfor (seq 0 7) (fun k =>
    x <- getinode i id ;;
    let a := aget (iaddrs x) k in
    when (negb (a =? 0)) (bfree (idev x) a ;;; setaddr i k 0)) ;;;
  x <- getinode i id ;;
  let a := aget (iaddrs x) (idx NDIRECT) in
  when (negb (a =? 0))
    (bp <- bread (idev x) a ;;
     mfor (seq 0 (idx NINDIRECT)) (fun j =>
       d <- getbuf bp bdata ;;
       let b := le_load 4 d (4 * j) in
       when (negb (b =? 0)) (bfree (idev x) b)) ;;;
     brelse bp ;;;
     bfree (idev x) a ;;;
     setaddr i (idx NDIRECT) 0) ;;;
  setinode i (fun x => x <| isize := 0 |>) ;;;
  iupdate i.

Definition iput (i : nat) : K unit :=
  acquiresleep (sl_inode i) ;;;
  x <- getinode i id ;;
  when (ivalid x && (inlink x =? 0))
    (acquire lk_icache ;;;
     r <- getinode i iref ;;
     release lk_icache ;;;
     when (r =? 1)
       (itrunc i ;;;
        setinode i (fun x => x <| itype := 0 |>) ;;;
        iupdate i ;;;
        setinode i (fun x => x <| ivalid := false |>))) ;;;
  releasesleep (sl_inode i) ;;;
  acquire lk_icache ;;;
  setinode i (fun x => x <| iref := i32 (iref x - 1) |>) ;;;
  release lk_icache.

Definition iunlockput (i : nat) : K unit := iunlock i ;;; iput i.

(** iinit *)
Definition iinit (dev : Z) : K unit :=
  initlock lk_icache ;;;
  mfor (seq 0 NINODE) (fun i => initsleeplock (sl_inode i)) ;;;
  sb <- readsb dev ;;
  modify (fun s => s <| k_sb := sb |>) ;;;
  cprintf "sb: size %d nblocks %d ninodes %d nlog %d logstart %d inodestart %d bmap start %d
"
    [AInt (i32 (sb_size sb)); AInt (i32 (sb_nblocks sb)); AInt (i32 (sb_ninodes sb));
     AInt (i32 (sb_nlog sb)); AInt (i32 (sb_logstart sb)); AInt (i32 (sb_inodestart sb));
     AInt (i32 (sb_bmapstart sb))].

(** struct stat and stati *)
Record stat := mk_stat {
  st_type : Z; st_dev : Z; st_ino : Z; st_nlink : Z; st_size : Z;
  st_userid : list Z; st_mode : Z
}.

Definition stati (i : nat) : K stat :=
  x <- getinode i id ;;
  match strcpy (replicate 20 0) (userid_bytes x) with
  | None => halt (UB "strcpy")
  | Some u =>
      ret (mk_stat (itype x) (i32 (idev x)) (inum x) (inlink x) (isize x) (take 16 u) (imode x))
  end.

(** ** Strings in a block *)

(** The bytes after strcpy of [a] to [off]. *)
Definition put_field (t : list Z) (off : nat) (a : list Z) : list Z :=
  take off t ++ a ++ 0 :: drop (off + S (length a)) t.

Lemma length_put_field t off a :
  (off + length a < length t)%nat -> length (put_field t off a) = length t.
Proof.
  intros H. unfold put_field. rewrite !length_app, length_take. simpl. rewrite length_drop. lia.
Qed.

Lemma strcpy_at_ok d off src a :
  cstr src = Some a -> (off + length a < length d)%nat -> strcpy_at d off src = Some (put_field d off a).
Proof.
  intros Ha Hlen. unfold strcpy_at. rewrite (strcpy_spec _ _ a Ha) by (rewrite length_drop; lia).
  simpl. by rewrite drop_drop.
Qed.

Lemma put_field_out t off a j :
  (off + length a < length t)%nat -> (j < off \/ off + length a < j)%nat ->
  aget (put_field t off a) j = aget t j.
Proof.
  intros Hlen Hj. unfold put_field, aget. f_equal. destruct Hj as [Hj|Hj].
  - rewrite lookup_app_l by (rewrite length_take; lia). by rewrite lookup_take_lt by lia.
  - rewrite lookup_app_r by (rewrite length_take; lia). rewrite length_take, Nat.min_l by lia.
    rewrite lookup_app_r by lia. destruct (j - off - length a)%nat eqn:E; [lia|]. simpl.
    rewrite lookup_drop. f_equal. lia.
Qed.

Lemma drop_put_field t off a :
  (off + length a < length t)%nat -> drop off (put_field t off a) = a ++ 0 :: drop (off + S (length a)) t.
Proof. intros H. unfold put_field. apply drop_app_length'. rewrite length_take. lia. Qed.

Lemma le_load_put n t off a o :
  (off + length a < length t)%nat -> (o + n <= off \/ off + length a < o)%nat ->
  le_load n (put_field t off a) o = le_load n t o.
Proof. intros Hl Ho. apply le_load_ext. intros j Hj. apply put_field_out; lia. Qed.

(** A field of 16 bytes. *)
Definition field (t : list Z) (off : nat) : list Z := take 16 (drop off t).

Lemma cstr_take n l a : cstr (take n l) = Some a -> cstr l = Some a.
Proof.
  rewrite !cstr_spec. intros [Ha [rest Hr]]. split; [done|]. exists (rest ++ drop n l).
  rewrite <- (take_drop n l) at 1. by rewrite Hr, <- app_assoc.
Qed.

Lemma field_ext t t' off :
  length t = length t' -> (off + 16 <= length t)%nat ->
  (forall j, (off <= j < off + 16)%nat -> aget t j = aget t' j) -> field t off = field t' off.
Proof.
  intros Hl Hlen Hj. unfold field. apply list_eq_same_length with 16%nat;
    [rewrite length_take, length_drop; lia..|].
  intros i x y Hi Hx Hy. rewrite lookup_take_lt, lookup_drop in Hx, Hy by done.
  specialize (Hj (off + i)%nat ltac:(lia)). unfold aget in Hj. by rewrite Hx, Hy in Hj.
Qed.

Lemma field_put_eq t off a :
  Forall (fun c => c <> 0) a -> (length a < 16)%nat -> (off + 16 <= length t)%nat ->
  cstr (field (put_field t off a) off) = Some a.
Proof.
  intros Ha Hlen Hoff. apply cstr_spec. split; [done|]. unfold field, put_field.
  rewrite drop_app_length' by (rewrite length_take; lia).
  rewrite take_app_ge by lia. destruct (16 - length a)%nat eqn:E; [lia|]. simpl. by eexists.
Qed.

(** ** The round trip of an inode *)

Lemma length_put_addrs d o l : length (put_addrs d o l) = length d.
Proof. revert d o. induction l as [|a l IH]; intros d o; cbn [put_addrs]; [done|].
  by rewrite IH, length_le_store.
Qed.

Lemma aget_put_addrs d o l j :
  (j < o \/ o + 4 * length l <= j)%nat -> aget (put_addrs d o l) j = aget d j.
Proof.
  revert d o. induction l as [|a l IH]; intros d o Hj; cbn [put_addrs length] in *; [done|].
  rewrite IH by lia. destruct Hj; [apply aget_le_store_lt|apply aget_le_store_ge]; lia.
Qed.

Lemma le_load_addrs n d o l off :
  (off + n <= o \/ o + 4 * length l <= off)%nat -> le_load n (put_addrs d o l) off = le_load n d off.
Proof. intros Ho. apply le_load_ext. intros j Hj. apply aget_put_addrs. lia. Qed.

Lemma put_addrs_at d o l k a :
  (o + 4 * length l <= length d)%nat -> l !! k = Some a -> 0 <= a < 2 ^ 32 ->
  le_load 4 (put_addrs d o l) (o + 4 * k) = a.
Proof.
  revert d o k. induction l as [|b l IH]; intros d o k Hlen Hk Ha; [done|]. cbn [put_addrs length] in *.
  destruct k as [|k]; simpl in Hk.
  - injection Hk as ->. rewrite Nat.mul_0_r, Nat.add_0_r, le_load_addrs, le_load_store by lia.
    change (256 ^ Z.of_nat 4) with (2 ^ 32). by apply Z.mod_small.
  - replace (o + 4 * S k)%nat with (o + 4 + 4 * k)%nat by lia. apply IH; [|done|done].
    rewrite length_le_store. lia.
Qed.

(** The fields of an inode fit the on-disk inode. *)
Record inode_fits (x : inode) : Prop := {
  fits_type : - 2 ^ 15 <= itype x < 2 ^ 15;
  fits_major : - 2 ^ 15 <= imajor x < 2 ^ 15;
  fits_minor : - 2 ^ 15 <= iminor x < 2 ^ 15;
  fits_nlink : - 2 ^ 15 <= inlink x < 2 ^ 15;
  fits_size : 0 <= isize x < 2 ^ 32;
  fits_mode : 0 <= imode x < 2 ^ 32;
  fits_user : length (iuserid x) = 16%nat /\ is_Some (cstr (iuserid x));
  fits_addrs : length (iaddrs x) = 8%nat /\ Forall (fun a => 0 <= a < 2 ^ 32) (iaddrs x)
}.

Lemma i16_load x : - 2 ^ 15 <= x < 2 ^ 15 -> i16 (x mod 256 ^ Z.of_nat 2) = x.
Proof.
  intros Hx. unfold i16. change (256 ^ Z.of_nat 2) with (2 ^ 16). rewrite Zplus_mod_idemp_l, Z.mod_small; lia.
Qed.

Lemma u32_load x : 0 <= x < 2 ^ 32 -> x mod 256 ^ Z.of_nat 4 = x.
Proof. intros Hx. change (256 ^ Z.of_nat 4) with (2 ^ 32). by apply Z.mod_small. Qed.

Lemma cstr_app l l' a : cstr l = Some a -> cstr (l ++ l') = Some a.
Proof.
  rewrite !cstr_spec. intros [Ha [r ->]]. split; [done|]. exists (r ++ l'). by rewrite <- app_assoc.
Qed.

Local Arguments le_load : simpl never.
Local Arguments le_store : simpl never.

(** What iupdate leaves in the block. *)
Lemma encode_dinode_spec d o x a :
  length d = 512%nat -> (o + 64 <= 512)%nat -> cstr (iuserid x) = Some a -> length (iuserid x) = 16%nat ->
  length (iaddrs x) = 8%nat ->
  exists d', encode_dinode d o x = Some d' /\ length d' = 512%nat /\
    le_load 2 d' o = itype x mod 256 ^ Z.of_nat 2 /\ le_load 2 d' (o + 2) = imajor x mod 256 ^ Z.of_nat 2 /\
    le_load 2 d' (o + 4) = iminor x mod 256 ^ Z.of_nat 2 /\ le_load 2 d' (o + 6) = inlink x mod 256 ^ Z.of_nat 2 /\
    le_load 4 d' (o + 8) = isize x mod 256 ^ Z.of_nat 4 /\ le_load 4 d' (o + 60) = imode x mod 256 ^ Z.of_nat 4 /\
    cstr (drop (o + 44) d') = Some a /\
    (forall k b, iaddrs x !! k = Some b -> 0 <= b < 2 ^ 32 -> le_load 4 d' (o + 12 + 4 * k) = b) /\
    (forall j, (j < o \/ o + 64 <= j)%nat -> aget d' j = aget d j).
Proof.
  intros Hd Ho Ha Hul Hal. assert (length a < 16)%nat as Hla by (apply cstr_len in Ha; lia).
  set (d5 := le_store 4 (le_store 2 (le_store 2 (le_store 2 (le_store 2 d o (itype x)) (o + 2) (imajor x))
    (o + 4) (iminor x)) (o + 6) (inlink x)) (o + 8) (isize x)).
  assert (length d5 = 512%nat) as H5 by (unfold d5; by rewrite !length_le_store).
  set (d6 := put_field d5 (o + 44) a). assert (length d6 = 512%nat) as H6
    by (unfold d6; rewrite length_put_field; lia).
  set (d7 := le_store 4 d6 (o + 60) (imode x)). assert (length d7 = 512%nat) as H7
    by (unfold d7; by rewrite length_le_store).
  set (d' := put_addrs d7 (o + 12) (iaddrs x)).
  assert (forall n off, (off + n <= o + 12 \/ o + 44 <= off)%nat -> le_load n d' off = le_load n d7 off) as Hl
    by (intros n off Hoff; apply le_load_addrs; lia).
  assert (forall n off, (off + n <= o + 12)%nat -> le_load n d' off = le_load n d5 off) as Hl5.
  { intros n off Hoff. rewrite Hl by lia. unfold d7, d6. by rewrite le_load_store_ne, le_load_put by lia. }
  exists d'. split_and!.
  - unfold encode_dinode. fold d5. by rewrite (strcpy_at_ok d5 (o + 44) _ a) by (by apply cstr_app || lia).
  - unfold d'. by rewrite length_put_addrs.
  - rewrite Hl5 by lia. unfold d5. rewrite !le_load_store_ne by lia. by rewrite le_load_store by lia.
  - rewrite Hl5 by lia. unfold d5. rewrite !le_load_store_ne by lia. by rewrite le_load_store by (rewrite !length_le_store; lia).
  - rewrite Hl5 by lia. unfold d5. rewrite !le_load_store_ne by lia. by rewrite le_load_store by (rewrite !length_le_store; lia).
  - rewrite Hl5 by lia. unfold d5. rewrite !le_load_store_ne by lia. by rewrite le_load_store by (rewrite !length_le_store; lia).
  - rewrite Hl5 by lia. unfold d5. by rewrite le_load_store by (rewrite !length_le_store; lia).
  - rewrite Hl by lia. unfold d7. by rewrite le_load_store by lia.
  - apply (cstr_take 16). change (take 16 (drop (o + 44) d')) with (field d' (o + 44)).
    rewrite (field_ext d' d6); unfold d', d7; rewrite ?length_put_addrs, ?length_le_store; [|done|lia|].
    + apply field_put_eq; [by apply cstr_spec in Ha as [? _]|done|lia].
    + intros j Hj. rewrite aget_put_addrs by lia. apply aget_le_store_lt. lia.
  - intros k b Hk Hb. apply (put_addrs_at d7 (o + 12) (iaddrs x)); [lia|done|done].
  - intros j Hj. unfold d', d7, d6, d5. rewrite aget_put_addrs by lia.
    assert (forall n l off v, (o <= off)%nat -> (off + n <= o + 64)%nat -> aget (le_store n l off v) j = aget l j) as Hs
      by (intros; destruct Hj; [apply aget_le_store_lt|apply aget_le_store_ge]; lia).
    rewrite Hs, put_field_out, !Hs by (fold d5; lia). done.
Qed.

(** What iupdate() writes of an inode is what ilock() reads back.  For
    fields that fit the on-disk inode, encoding inode [x] at offset [o] of its
    block and decoding it gives its type, device numbers, link count, size,
    mode, owner and addresses, whatever the in-memory inode held before; and
    the bytes of the other inodes in the block are untouched. *)
Theorem dinode_roundtrip d o x y :
  length d = 512%nat -> (o + 64 <= 512)%nat -> inode_fits x -> length (iuserid y) = 16%nat ->
  exists d' z, encode_dinode d o x = Some d' /\ decode_dinode d' o y = Some z /\
    itype z = itype x /\ imajor z = imajor x /\ iminor z = iminor x /\ inlink z = inlink x /\
    isize z = isize x /\ imode z = imode x /\ iaddrs z = iaddrs x /\ cstr (iuserid z) = cstr (iuserid x) /\
    forall j, (j < o \/ o + 64 <= j)%nat -> aget d' j = aget d j.
Proof.
  intros Hd Ho [Hty Hma Hmi Hnl Hsz Hmo [Hul [a Ha]] [Hal Haf]] Hyl.
  destruct (encode_dinode_spec d o x a Hd Ho Ha Hul Hal)
    as (d' & Henc & Hd' & L1 & L2 & L3 & L4 & L5 & L6 & Hu & Hadr & Hout).
  assert (length a < 16)%nat as Hla by (apply cstr_len in Ha; lia).
  eexists d', _. split; [done|]. split.
  { unfold decode_dinode. rewrite (strcpy_spec _ _ a Hu); [done|].
    unfold userid_bytes. rewrite length_app, length_le_store. simpl. lia. }
  cbn -[di_addrs take]. unfold di_type. rewrite L1, L2, L3, L4, L5, L6, !i16_load, !u32_load, Ha by done. split_and!; try done.
  - apply list_eq_same_length with 8%nat; [done|by unfold di_addrs; rewrite length_map, length_seq|].
    intros k b c Hk Hb Hc. unfold di_addrs in Hb. change (map ?f ?l) with (f <$> l) in Hb.
    rewrite list_lookup_fmap, lookup_seq_lt in Hb by done. simplify_eq/=. apply Hadr; [done|].
    by eapply Forall_lookup_1 in Haf.
  - apply cstr_spec. split; [by apply cstr_spec in Ha as [? _]|]. rewrite take_app_ge by lia.
    destruct (16 - length a)%nat eqn:E; [lia|]. simpl. by eexists.
Qed.

Lemma inode0_fits : inode_fits inode0.
Proof.
  split; try (simpl; lia).
  - split; [done|]. by exists [].
  - split; [done|]. apply Forall_replicate. lia.
Qed.

Lemma dinode_roundtrip_witness :
  exists d' z, encode_dinode (replicate 512 3) 64 inode0 = Some d' /\ decode_dinode d' 64 inode0 = Some z.
Proof.
  destruct (dinode_roundtrip (replicate 512 3) 64 inode0 inode0) as (d' & z & H1 & H2 & _);
    [done|lia|apply inode0_fits|done|exists d', z; split; [exact H1|exact H2]].
Defined.
