(* ===== verification/Fs.v ===== *)
(** * Files, directories and paths (fs.c, second half) and the console device

    readi, writei, directories and namex with its permission checks;
    consoleread and consolewrite, which readi and writei call for the console
    (the only entry of devsw[]).  A read returns its value and the bytes it
    stored at dst. *)

From S2P Require Import Prelude Cstring Kernel Spinlock ProcCore Console Bio Log Inode.

(** ** consoleread and consolewrite (console.c) *)

(** while(input.r == input.w) { if(killed) ... sleep }: [true] when killed. *)
Fixpoint input_wait (n : nat) : K bool :=
  i <- gets k_input ;;
  if in_r i =? in_w i then
    p <- curproc ;;
    k <- getproc p killed ;;
    if (k : bool) then ret true
    else
      match n with
      | O => halt (Hang "consoleread")
      | S n' => sleep (Some ch_input) lk_cons ;;; input_wait n'
      end
  else ret false.

(** while(n > 0), [target] the n of the call: the value left in n, or [None]
    for the -1 of a killed process, with the bytes stored. *)
Fixpoint input_loop (n : nat) (target : nat) (acc : list Z) : K (option nat * list Z) :=
  match n with
  | O => ret (Some O, acc)
  | S n' =>
      f <- gets k_fuel ;;
      k <- input_wait f ;;
      if (k : bool) then ret (None, acc)
      else
        i <- gets k_input ;;
        let c := aget (in_buf i) (idx (in_r i mod 128)) in
        modify (fun s => s <| k_input ::= (fun i => i <| in_r := u32 (in_r i + 1) |>) |>) ;;;
        if c =? 4 then
          when (n <? target)%nat
            (modify (fun s => s <| k_input ::= (fun i => i <| in_r := u32 (in_r i - 1) |>) |>)) ;;;
          ret (Some n, acc)
        else if c =? 10 then ret (Some n', acc ++ [c])
        else input_loop n' target (acc ++ [c])
  end.

Definition consoleread (ip : nat) (n : Z) : K (Z * list Z) :=
  iunlock ip ;;;
  acquire lk_cons ;;;
  r <- input_loop (idx n) (idx n) [] ;;
  release lk_cons ;;;
  ilock ip ;;;
  match r with
  | (Some rest, l) => ret (n - (if n <=? 0 then n else Z.of_nat rest), l)
  | (None, l) => ret (-1, l)
  end.

Definition consolewrite (ip : nat) (buf : list Z) (n : Z) : K Z :=
  iunlock ip ;;;
  acquire lk_cons ;;;
  mfor (take (idx n) buf) (fun c => consputc (Z.land c 255)) ;;;
  release lk_cons ;;;
  ilock ip ;;;
  ret n.

Definition CONSOLE : Z := 1.

(** ** readi and writei *)

(** for(tot = 0; tot < n; tot += m, off += m): each turn but the first starts at
    a block boundary, so that n/BSIZE + 2 turns are enough. *)
Fixpoint readi_loop (fuel : nat) (i : nat) (off n : Z) (acc : list Z) : K (list Z) :=
  if n <=? 0 then ret acc
  else
    match fuel with
    | O => halt (Hang "readi")
    | S fuel' =>
        b <- bmap i (off / BSIZE) ;;
        dev <- getinode i idev ;;
        bp <- bread dev b ;;
        d <- getbuf bp bdata ;;
        let m := Z.min n (BSIZE - off mod BSIZE) in
        brelse bp ;;;
        readi_loop fuel' i (off + m) (n - m) (acc ++ take (idx m) (drop (idx (off mod BSIZE)) d))
    end.

Definition readi (i : nat) (off n : Z) : K (Z * list Z) :=
  x <- getinode i id ;;
  if itype x =? T_DEV then
    if (imajor x <? 0) || (NDEV <=? imajor x) || negb (imajor x =? CONSOLE) then ret (-1, [])
    else consoleread i (i32 n)
  else if (isize x <? off) || (u32 (off + n) <? off) then ret (-1, [])
  else
    let n := if isize x <? u32 (off + n) then isize x - off else n in
    l <- readi_loop (idx (n / BSIZE) + 2) i off n [] ;;
    ret (i32 n, l).

Fixpoint writei_loop (fuel : nat) (i : nat) (off n : Z) (src : list Z) : K unit :=
  if n <=? 0 then ret tt
  else
    match fuel with
    | O => halt (Hang "writei")
    | S fuel' =>
        b <- bmap i (off / BSIZE) ;;
        dev <- getinode i idev ;;
        bp <- bread dev b ;;
        let m := Z.min n (BSIZE - off mod BSIZE) in
        let o := idx (off mod BSIZE) in
        setbuf bp (fun y => y <| bdata := take o (bdata y) ++ take (idx m) src
                                            ++ drop (o + idx m) (bdata y) |>) ;;;
        log_write bp ;;;
        brelse bp ;;;
        writei_loop fuel' i (off + m) (n - m) (drop (idx m) src)
    end.

Definition writei (i : nat) (src : list Z) (off n : Z) : K Z :=
  x <- getinode i id ;;
  if itype x =? T_DEV then
    if (imajor x <? 0) || (NDEV <=? imajor x) || negb (imajor x =? CONSOLE) then ret (-1)
    else consolewrite i src (i32 n)
  else if (isize x <? off) || (u32 (off + n) <? off) then ret (-1)
  else if MAXFILE * BSIZE <? u32 (off + n) then ret (-1)
  else
    writei_loop (idx (n / BSIZE) + 2) i off n src ;;;
    sz <- getinode i isize ;;
    when ((0 <? n) && (sz <? off + n))
      (setinode i (fun x => x <| isize := off + n |>) ;;; iupdate i) ;;;
    ret (i32 n).

(** ** Directories *)

Definition sizeof_dirent : Z := 16.

(** strncmp(s, t, DIRSIZ) == 0; reading past an object is [None]. *)
Definition namecmp (s t : list Z) : option Z := strncmp s t DIRSIZ.

Definition de_inum (de : list Z) : Z := le_load 2 de 0.

Definition de_name (de : list Z) : list Z := drop 2 de.

(** dirlookup: the inode and the offset of the entry. *)
Fixpoint dirlookup_loop (fuel : nat) (dp : nat) (name : list Z) (off : Z) : K (option (nat * Z)) :=
  size <- getinode dp isize ;;
  if negb (off <? size) then ret None
  else
    match fuel with
    | O => halt (Hang "dirlookup")
    | S fuel' =>
        r <- readi dp off sizeof_dirent ;;
        let '(n, de) := r in
        if negb (n =? sizeof_dirent) then panic "dirlookup read"
        else if de_inum de =? 0 then dirlookup_loop fuel' dp name (off + sizeof_dirent)
        else
          match namecmp name (de_name de) with
          | None => halt (UB "strncmp")
          | Some c =>
              if c =? 0 then
                dev <- getinode dp idev ;;
                ip <- iget dev (de_inum de) ;;
                ret (Some (ip, off))
              else dirlookup_loop fuel' dp name (off + sizeof_dirent)
          end
    end.

Definition dirlookup (dp : nat) (name : list Z) : K (option (nat * Z)) :=
  x <- getinode dp id ;;
  if negb (itype x =? T_DIR) then panic "dirlookup not DIR"
  else dirlookup_loop (S (idx (isize x / sizeof_dirent))) dp name 0.

(** The search for an empty entry in dirlink: the offset to write at. *)
Fixpoint dirlink_loop (fuel : nat) (dp : nat) (off : Z) : K Z :=
  size <- getinode dp isize ;;
  if negb (off <? size) then ret off
  else
    match fuel with
    | O => halt (Hang "dirlink")
    | S fuel' =>
        r <- readi dp off sizeof_dirent ;;
        let '(n, de) := r in
        if negb (n =? sizeof_dirent) then panic "dirlink read"
        else if de_inum de =? 0 then ret off
        else dirlink_loop fuel' dp (off + sizeof_dirent)
    end.

Definition dirlink (dp : nat) (name : list Z) (n : Z) : K Z :=
  r <- dirlookup dp name ;;
  match r with
  | Some (ip, _) => iput ip ;;; ret (-1)
  | None =>
      size <- getinode dp isize ;;
      off <- dirlink_loop (S (idx (size / sizeof_dirent))) dp 0 ;;
      match strncpy (replicate 14 0) name DIRSIZ with
      | None => halt (UB "strncpy")
      | Some nm =>
          w <- writei dp (le_store 2 [0; 0] 0 n ++ nm) off sizeof_dirent ;;
          if negb (w =? sizeof_dirent) then panic "dirlink" else ret 0
      end
  end.

(** ** Paths *)

Fixpoint skip_slashes (path : list Z) : list Z :=
  match path with
  | c :: path' => if c =? 47 then skip_slashes path' else path
  | [] => []
  end.

(** The element up to the next slash or NUL, and the rest. *)
Fixpoint span_elem (path : list Z) : list Z * list Z :=
  match path with
  | c :: path' =>
      if (c =? 47) || (c =? 0) then ([], path)
      else let '(e, r) := span_elem path' in (c :: e, r)
  | [] => ([], [])
  end.

(** skipelem on a NUL-terminated path and the array name: [None] for 0. *)
Definition skipelem (path name : list Z) : option (list Z * list Z) :=
  let path := skip_slashes path in
  match path with
  | c :: _ =>
      if c =? 0 then None
      else
        let '(e, r) := span_elem path in
        let name :=
          if (DIRSIZ <=? length e)%nat then take DIRSIZ e
          else e ++ [0] ++ drop (S (length e)) name in
        Some (skip_slashes r, name)
  | [] => None
  end.

(** strcmp of userids; running past the arrays is undefined. *)
Definition same_user (u v : list Z) : K bool :=
  match strcmp u v with
  | Some r => ret (r =? 0)
  | None => halt (UB "strcmp")
  end.

Definition root_name : list Z := chars "root" ++ [0].

(** The permission test: the owner's bit for root and the owner, the others'
    bit for the rest. *)
Definition allowed (usr oth : Z) (ip : nat) : K bool :=
  p <- curproc ;;
  u <- getproc p userid ;;
  x <- getinode ip id ;;
  r <- same_user u root_name ;;
  o <- (if (r : bool) then ret true else same_user u (userid_bytes x)) ;;
  ret (negb (Z.land (imode x) (if (o : bool) then usr else oth) =? 0)).

(** namex; each turn consumes a character of the path. *)
Fixpoint namex_loop (fuel : nat) (ip : nat) (path name : list Z) (parent : bool)
    : K (option nat * list Z) :=
  match skipelem path name with
  | None =>
      if parent then iput ip ;;; ret (None, name) else ret (Some ip, name)
  | Some (path, name) =>
      match fuel with
      | O => halt (Hang "namex")
      | S fuel' =>
          ilock ip ;;;
          t <- getinode ip itype ;;
          if negb (t =? T_DIR) then iunlockput ip ;;; ret (None, name)
          else
            ok <- allowed MODE_XUSR MODE_XOTH ip ;;
            if negb ok then iunlockput ip ;;; ret (None, name)
            else if parent && (aget path 0 =? 0) then iunlock ip ;;; ret (Some ip, name)
            else
              next <- dirlookup ip name ;;
              match next with
              | None => iunlockput ip ;;; ret (None, name)
              | Some (next, _) => iunlockput ip ;;; namex_loop fuel' next path name parent
              end
      end
  end.

(** The array name starts with arbitrary contents; zeros here. *)
Definition namex (path : list Z) (parent : bool) : K (option nat * list Z) :=
  ip <- (if aget path 0 =? 47 then iget ROOTDEV ROOTINO
         else p <- curproc ;; c <- getproc p cwd ;;
              match c with Some c => idup c | None => halt (UB "cwd") end) ;;
  namex_loop (length path) ip path (replicate DIRSIZ 0) parent.

Definition namei (path : list Z) : K (option nat) :=
  r <- namex path false ;; ret (fst r).

Definition nameiparent (path : list Z) : K (option nat * list Z) := namex path true.

(** ** Path elements *)

(** A path cut at its slashes. *)
Fixpoint split_slash (l : list Z) : list (list Z) :=
  match l with
  | [] => [[]]
  | c :: l' =>
      if c =? 47 then [] :: split_slash l'
      else match split_slash l' with e :: r => (c :: e) :: r | [] => [[c]] end
  end.

(** The elements that name something. *)
Definition components (l : list Z) : list (list Z) := filter (fun e => e <> []) (split_slash l).

Lemma components_slash l : components (47 :: l) = components l.
Proof. done. Qed.

Lemma components_elem e l :
  e <> [] -> (47 ∉ e) -> l = [] \/ (exists l', l = 47 :: l') -> components (e ++ l) = e :: components l.
Proof.
  intros Hne Hs Hl. assert (exists r, split_slash l = [] :: r) as [r Hr].
  { destruct Hl as [->|[l' ->]]; simpl; by eexists. }
  assert (split_slash (e ++ l) = e :: r) as He.
  { clear Hne Hl. induction e as [|c e IH]; [done|]. simpl. rewrite IH by set_solver.
    rewrite (proj2 (Z.eqb_neq c 47)); [done|]. intros ->. set_solver. }
  unfold components. rewrite He, Hr. rewrite filter_cons_True by done. by rewrite filter_cons_False by naive_solver.
Qed.

Lemma skip_slashes_spec path l :
  cstr path = Some l ->
  exists l', cstr (skip_slashes path) = Some l' /\ components l' = components l /\
    (forall l2, l' <> 47 :: l2) /\ (length (skip_slashes path) <= length path)%nat.
Proof.
  revert l. induction path as [|c path IH]; intros l Hl; [done|]. simpl in *.
  destruct (Z.eqb_spec c 0) as [->|Hc0].
  { injection Hl as <-. exists []. by split_and!. }
  destruct (cstr path) as [l1|] eqn:Hp; [|done]. injection Hl as <-.
  destruct (Z.eqb_spec c 47) as [->|Hc].
  - destruct (IH l1 eq_refl) as (l' & H1 & H2 & H3 & H4). exists l'. split_and!; [done|done|done|lia].
  - exists (c :: l1). simpl. rewrite (proj2 (Z.eqb_neq c 0)), Hp by done. split_and!; [done|done| |done].
    intros l2 [= -> _]. done.
Qed.

Lemma span_elem_spec path l e r :
  cstr path = Some l -> span_elem path = (e, r) ->
  exists l', l = e ++ l' /\ cstr r = Some l' /\ (47 ∉ e) /\ (l' = [] \/ exists l2, l' = 47 :: l2) /\
    Forall (fun c => c <> 0) e /\ (length r + length e = length path)%nat.
Proof.
  revert l e r. induction path as [|c path IH]; intros l e r Hl He; [done|]. simpl in *.
  destruct (Z.eqb_spec c 0) as [->|Hc0].
  { rewrite orb_true_r in He. injection He as <- <-. injection Hl as <-.
    exists []. split_and!; [done|done|set_solver|by left|done|simpl; lia]. }
  destruct (cstr path) as [l1|] eqn:Hp; [|done]. injection Hl as <-.
  destruct (Z.eqb_spec c 47) as [->|Hc]; simpl in He.
  - injection He as <- <-. exists (47 :: l1). simpl. rewrite Hp.
    split_and!; [done|done|set_solver|right; by eexists|done|lia].
  - destruct (span_elem path) as [e1 r1]. injection He as <- <-.
    destruct (IH l1 e1 r1 eq_refl eq_refl) as (l' & -> & H2 & H3 & H4 & H5 & H6). exists l'.
    split_and!; [done|done|set_solver|done|by constructor|simpl; lia].
Qed.

Lemma cprefix_full l : Forall (fun c => c <> 0) l -> cprefix (length l) l = l.
Proof.
  induction 1 as [|c l Hc Hl IH]; [done|]. simpl. rewrite (proj2 (Z.eqb_neq c 0)) by done. by rewrite IH.
Qed.

(** The name array holds the first DIRSIZ characters of the element. *)
Lemma elem_name e name :
  Forall (fun c => c <> 0) e -> length name = DIRSIZ ->
  let name' := if (DIRSIZ <=? length e)%nat then take DIRSIZ e else e ++ [0] ++ drop (S (length e)) name in
  cprefix DIRSIZ name' = take DIRSIZ e /\ length name' = DIRSIZ.
Proof.
  intros He Hn name'. unfold name'. destruct (Nat.leb_spec DIRSIZ (length e)) as [Hle|Hlt].
  - assert (length (take DIRSIZ e) = DIRSIZ) as Hl by (rewrite length_take; lia). split; [|done].
    rewrite <- Hl at 1. by apply cprefix_full, Forall_take.
  - split; [|rewrite !length_app, length_drop; simpl; lia].
    rewrite (cprefix_cstr DIRSIZ _ e); [done|]. apply cstr_spec. split; [done|]. by eexists.
Qed.

Lemma skipelem_spec path name l :
  cstr path = Some l -> length name = DIRSIZ ->
  match components l with
  | [] => skipelem path name = None
  | e :: es => exists path' name' l', skipelem path name = Some (path', name') /\ cstr path' = Some l' /\
      components l' = es /\ (length path' < length path)%nat /\
      cprefix DIRSIZ name' = take DIRSIZ e /\ length name' = DIRSIZ
  end.
Proof.
  intros Hl Hn. destruct (skip_slashes_spec path l Hl) as (l1 & H1 & <- & Hns & Hle).
  unfold skipelem. destruct (skip_slashes path) as [|c p1] eqn:Hp; [done|].
  destruct (Z.eqb_spec c 0) as [->|Hc]; [simpl in H1; injection H1 as <-; done|].
  destruct (span_elem (c :: p1)) as [e r] eqn:Hsp.
  destruct (span_elem_spec _ _ _ _ H1 Hsp) as (l2 & -> & Hr & Hs & Hshape & Hnz & Hlen).
  assert (e <> []) as Hne.
  { simpl in Hsp. destruct (Z.eqb_spec c 47) as [->|Hc47]; simpl in Hsp.
    - injection Hsp as <- <-. simpl in H1. destruct (cstr p1) as [l0|]; [|done].
      injection H1 as H1. by destruct (Hns l0).
    - rewrite (proj2 (Z.eqb_neq c 0)) in Hsp by done. destruct (span_elem p1). by injection Hsp as <- <-. }
  rewrite components_elem by done.
  destruct (skip_slashes_spec r l2 Hr) as (l3 & H3 & Hc3 & _ & Hle3).
  destruct (elem_name e name Hnz Hn) as [Hpre Hlen'].
  eexists _, _, l3. split; [done|]. split_and!; [done|done| |done|done].
  destruct e; [done|]. simpl in Hlen, Hle. lia.
Qed.

(** The names that namex looks up, one skipelem after the other; [None] when
    the turns run out. *)
Fixpoint elem_names (fuel : nat) (path name : list Z) : option (list (list Z)) :=
  match skipelem path name with
  | None => Some []
  | Some (path', name') =>
      match fuel with
      | O => None
      | S fuel' => cons (cprefix DIRSIZ name') <$> elem_names fuel' path' name'
      end
  end.

(** Skipelem() cuts a path into its elements.  Repeated from any path, it
    gives the non-empty parts between slashes in order, each cut at DIRSIZ
    characters, and stops at the end; the turns namex() is given, one for each
    character of the path, are enough. *)
Theorem skipelem_components path name l :
  cstr path = Some l -> length name = DIRSIZ ->
  elem_names (length path) path name = Some (take DIRSIZ <$> components l).
Proof.
  remember (length path) as n eqn:Hn. assert (length path <= n)%nat as Hle by lia. clear Hn.
  revert path name l Hle. induction n as [|n IH]; intros path name l Hle Hl Hname.
  { apply cstr_len in Hl. lia. }
  pose proof (skipelem_spec path name l Hl Hname) as Hs. cbn [elem_names].
  destruct (components l) as [|e es]; [by rewrite Hs|].
  destruct Hs as (path' & name' & l' & -> & Hl' & Hc & Hlen & Hpre & Hn').
  rewrite (IH path' name' l') by (done || lia). rewrite Hc, Hpre. done.
Qed.

Lemma skipelem_components_witness :
  elem_names 9 (chars "//usr/ls" ++ [0]) (replicate DIRSIZ 0) = Some [chars "usr"; chars "ls"].
Proof.
  exact (skipelem_components (chars "//usr/ls" ++ [0]) (replicate DIRSIZ 0) (chars "//usr/ls") eq_refl eq_refl).
Defined.

(** ** Permissions *)

(** The caller has user name [u]; the owner of the inode is [o]. *)
Lemma allowed_ok usr oth ip p u o s :
  calm s -> cproc (thiscpu s) = Some p -> cstr (userid (pget s p)) = Some u ->
  cstr (userid_bytes (iget_ s ip)) = Some o ->
  allowed usr oth ip s =
    Done (Ok (negb (Z.land (imode (iget_ s ip)) (if bool_decide (u = chars "root" \/ u = o) then usr else oth) =? 0))) s.
Proof.
  intros Hc Hp Hu Ho. unfold allowed. rewrite (bind_Done _ _ _ _ _ (curproc_ok s p Hc Hp)).
  unfold getproc, getinode. rewrite !bind_gets. unfold id.
  destruct (strcmp_spec _ root_name _ (chars "root") Hu eq_refl) as (r1 & Hr1 & He1).
  destruct (strcmp_spec _ _ _ _ Hu Ho) as (r2 & Hr2 & He2).
  unfold same_user at 1. rewrite Hr1, bind_ret_l.
  destruct (Z.eqb_spec r1 0) as [Hz|Hz]; [rewrite bind_ret_l, bool_decide_true by (left; by apply He1); done|].
  unfold same_user. rewrite Hr2, bind_ret_l.
  destruct (Z.eqb_spec r2 0) as [Hz2|Hz2].
  - rewrite bool_decide_true by (right; by apply He2). done.
  - rewrite bool_decide_false; [done|]. naive_solver.
Qed.
