(* ===== verification/Files.v ===== *)
(** * File contents (theorems on fs.c)

    The contents of an inode as the bytes its blocks hold, direct and indirect,
    through the buffer cache; readi returns them and writei changes them. *)

From S2P Require Import Prelude Cstring Kernel Spinlock ProcCore Console Bio Quiet Cache Log Crash Inode Fs.

(** ** Reading blocks *)

(** [u] is [s] after some blocks were read: only the cache differs, and every
    block looks the same. *)
Record looked (p : nat) (s u : kstate) : Prop := {
  lo_step : bio_step s u;
  lo_ok : cache_ok p [] u;
  lo_room : room [] u;
  lo_disk : k_disk u = k_disk s;
  lo_hist : k_hist u = k_hist s;
  lo_view : forall b, bview u b = bview s b;
  lo_dirty : forall b, dirtyblk u b <-> dirtyblk s b
}.

Lemma looked_refl p s : cache_ok p [] s -> room [] s -> looked p s s.
Proof. intros. by split; try done. Qed.

Lemma looked_trans p s t u : looked p s t -> looked p t u -> looked p s u.
Proof.
  intros [H1 _ _ Hd1 Hh1 Hv1 Hy1] [H2 ?? Hd2 Hh2 Hv2 Hy2].
  split; [by etransitivity|done|done|congruence|congruence|intros b; by rewrite Hv2|intros b; by rewrite Hy2].
Qed.

Lemma looked_inode p s u : looked p s u -> k_inode u = k_inode s.
Proof. intros [[-> _]]. done. Qed.

Lemma read_block p s b :
  cache_ok p [] s -> room [] s -> is_Some (k_disk s !! b) ->
  exists i t u, bread 1 b s = Done (Ok i) t /\ bview s b = Some (bdata (bget_ t i)) /\
    k_inode t = k_inode s /\ brelse i t = Done (Ok tt) u /\ looked p s u.
Proof.
  intros Hc Hroom Hb.
  destruct (bread_ok p [] s b Hc Hb) as (i & t & Hr & Hg); [set_solver|by right|].
  pose proof (gr_ok _ _ _ _ _ _ Hg) as Hct. pose proof (gr_block _ _ _ _ _ _ Hg) as Hbi.
  destruct (brelse_ok p [] t i Hct) as (u & Hrel & Hre); [set_solver|..].
  { intros Hf. rewrite Hbi. exact (grabbed_clean p [] s b i t Hc Hg Hf). }
  exists i, t, u. split_and!; [done|apply (gr_data _ _ _ _ _ _ Hg)| |done|].
  { by destruct (gr_step _ _ _ _ _ _ Hg) as [-> _]. }
  split.
  - etransitivity; [apply (gr_step _ _ _ _ _ _ Hg)|apply (re_step _ _ _ _ _ Hre)].
  - apply (re_ok _ _ _ _ _ Hre).
  - destruct Hroom as (k & Hk & _ & Hd). exists k. split_and!; [done|set_solver|].
    destruct (decide (k = i)) as [->|Hne].
    + unfold has_flag in *. rewrite (re_buf _ _ _ _ _ Hre). simpl.
      destruct (gr_flags _ _ _ _ _ _ Hg) as [[_ ->]|(_ & -> & _)]; done.
    + by rewrite (re_other _ _ _ _ _ Hre), (gr_other _ _ _ _ _ _ Hg).
  - by rewrite (re_disk _ _ _ _ _ Hre), (gr_disk _ _ _ _ _ _ Hg).
  - by rewrite (re_hist _ _ _ _ _ Hre), (gr_hist _ _ _ _ _ _ Hg).
  - intros b'. by rewrite (re_view _ _ _ _ _ Hre), (gr_view _ _ _ _ _ _ Hg).
  - intros b'. by rewrite (returned_dirty _ _ _ _ _ Hre), (grabbed_dirty _ _ _ _ _ _ Hc Hg).
Qed.

Lemma view_len p held s b d : cache_ok p held s -> bview s b = Some d -> length d = 512%nat.
Proof.
  intros Hc. unfold bview. destruct (list_find (caches s b) (seq 0 NBUF)) as [[k i]|] eqn:E.
  - intros [= <-]. apply list_find_Some in E as (Hk & _ & _). apply lookup_seq in Hk as [-> Hk].
    by destruct (co_buf _ _ _ Hc (0 + k)%nat Hk).
  - apply (co_disk _ _ _ Hc).
Qed.

Lemma view_some p held s b : cache_ok p held s -> is_Some (k_disk s !! b) -> is_Some (bview s b).
Proof. intros _ Hb. unfold bview. destruct (list_find (caches s b) (seq 0 NBUF)) as [[k i]|]; [by eexists|done]. Qed.

(** ** The blocks of an inode *)

(** The address of the indirect block. *)
Definition indirect (x : inode) : Z := aget (iaddrs x) (idx NDIRECT).

(** The address of block [bn] of the file, 0 if it has none. *)
Definition addr_of (s : kstate) (x : inode) (bn : Z) : Z :=
  if bn <? NDIRECT then aget (iaddrs x) (idx bn)
  else match bview s (indirect x) with
       | Some d => le_load 4 d (idx (4 * (bn - NDIRECT)))
       | None => 0
       end.

(** Block [bn] of the file has a block of the disk. *)
Definition mapped (s : kstate) (x : inode) (bn : Z) : Prop :=
  0 <= bn < MAXFILE /\ addr_of s x bn <> 0 /\ is_Some (k_disk s !! addr_of s x bn) /\
  (NDIRECT <= bn -> indirect x <> 0 /\ is_Some (k_disk s !! indirect x)).

Definition block_of (s : kstate) (x : inode) (bn : Z) : list Z := default [] (bview s (addr_of s x bn)).

(** Byte [j] of the file, and the [n] bytes from [off] on. *)
Definition fbyte (s : kstate) (x : inode) (j : Z) : Z :=
  aget (block_of s x (j / BSIZE)) (idx (j mod BSIZE)).

Definition fbytes (s : kstate) (x : inode) (off : Z) (n : nat) : list Z :=
  (fun k => fbyte s x (off + Z.of_nat k)) <$> seq 0 n.

Lemma addr_of_view s u x bn : (forall b, bview u b = bview s b) -> addr_of u x bn = addr_of s x bn.
Proof. intros Hv. unfold addr_of. by rewrite Hv. Qed.

Lemma looked_mapped p s u x bn : looked p s u -> mapped s x bn -> mapped u x bn.
Proof.
  intros Hl. unfold mapped. rewrite (addr_of_view s u) by apply (lo_view _ _ _ Hl). by rewrite (lo_disk _ _ _ Hl).
Qed.

Lemma looked_fbyte p s u x j : looked p s u -> fbyte u x j = fbyte s x j.
Proof.
  intros Hl. unfold fbyte, block_of. rewrite (addr_of_view s u) by apply (lo_view _ _ _ Hl).
  by rewrite (lo_view _ _ _ Hl).
Qed.

Lemma bmap_mapped p s i x bn :
  cache_ok p [] s -> room [] s -> iget_ s i = x -> idev x = 1 -> mapped s x bn ->
  exists u, bmap i bn s = Done (Ok (addr_of s x bn)) u /\ looked p s u.
Proof.
  intros Hc Hr Hx Hdev (Hbn & Hne & Hon & Hind). unfold bmap, getinode. rewrite bind_gets, Hx. unfold id.
  unfold addr_of in *. destruct (Z.ltb_spec bn NDIRECT) as [Hd|Hd].
  - rewrite (proj2 (Z.eqb_neq _ 0)) by done. exists s. split; [done|by apply looked_refl].
  - destruct (Hind Hd) as [Hi0 Hi1]. fold (indirect x) in *.
    rewrite (proj2 (Z.ltb_lt (bn - NDIRECT) NINDIRECT)) by (unfold MAXFILE in Hbn; lia).
    rewrite (proj2 (Z.eqb_neq (indirect x) 0)) by done. rewrite bind_ret_l, Hdev.
    destruct (read_block p s (indirect x) Hc Hr Hi1) as (b & t & u & Hb & Hv & _ & Hrel & Hl).
    rewrite (bind_Done _ _ _ _ _ Hb). unfold getbuf. rewrite bind_gets. rewrite Hv in *.
    rewrite (proj2 (Z.eqb_neq _ 0)) by done. rewrite bind_ret_l.
    exists u. split; [by rewrite (bind_Done _ _ _ _ _ Hrel)|done].
Qed.

(** ** readi *)

(** The bytes of one block. *)
Lemma fbytes_block s x off m d :
  bview s (addr_of s x (off / BSIZE)) = Some d -> length d = 512%nat ->
  off mod BSIZE + Z.of_nat m <= BSIZE ->
  take m (drop (idx (off mod BSIZE)) d) = fbytes s x off m.
Proof.
  intros Hv Hlen Hm. pose proof (Z.mod_pos_bound off BSIZE ltac:(done)) as Hmod. unfold BSIZE in *.
  apply list_eq_same_length with m; [by unfold fbytes; rewrite length_fmap, length_seq|
    rewrite length_take, length_drop; unfold idx; lia|].
  intros k y z Hk Hy Hz. unfold fbytes in Hz. rewrite list_lookup_fmap, lookup_seq_lt in Hz by done.
  rewrite lookup_take_lt, lookup_drop in Hy by done. simplify_eq/=.
  unfold fbyte, block_of, BSIZE.
  pose proof (Z.div_mod off 512 ltac:(lia)) as Hdm.
  assert ((off + Z.of_nat k) / 512 = off / 512) as ->.
  { symmetry. apply (Z.div_unique _ _ _ (off mod 512 + Z.of_nat k)); lia. }
  assert ((off + Z.of_nat k) mod 512 = off mod 512 + Z.of_nat k) as ->.
  { symmetry. apply (Z.mod_unique _ _ (off / 512)); lia. }
  rewrite Hv. simpl. symmetry. apply aget_lookup. rewrite <- Hy. f_equal. unfold idx. lia.
Qed.

Lemma fbytes_app s x off m n :
  fbytes s x off (m + n) = fbytes s x off m ++ fbytes s x (off + Z.of_nat m) n.
Proof.
  unfold fbytes. rewrite seq_app, fmap_app. f_equal. simpl.
  rewrite <- (Nat.add_0_r m) at 1. rewrite <- fmap_add_seq, <- list_fmap_compose.
  apply list_fmap_ext. intros k j _. unfold compose. f_equal. lia.
Qed.

(** [n] bytes from [off] on are in at most [k] blocks. *)
Definition spans (off n : Z) (k : nat) : Prop := n <= 0 \/ off mod BSIZE + n <= BSIZE * Z.of_nat k.

Lemma spans_step off n k :
  0 <= off -> 0 < n -> spans off n k -> let m := Z.min n (BSIZE - off mod BSIZE) in
  0 < m <= n /\ off mod BSIZE + m <= BSIZE /\ exists k', k = S k' /\ spans (off + m) (n - m) k'.
Proof.
  intros Hoff Hn Hs m. pose proof (Z.mod_pos_bound off BSIZE ltac:(done)) as Hmod. unfold spans, m, BSIZE in *.
  destruct k as [|k]; [lia|]. split_and!; [lia|lia|lia|]. exists k. split; [done|].
  destruct (Z.min_spec n (512 - off mod 512)) as [[Hlt ->]|[Hge ->]]; [left; lia|right].
  pose proof (Z.div_mod off 512 ltac:(lia)) as Hdm.
  assert ((off + (512 - off mod 512)) mod 512 = 0) as ->; [|lia].
  symmetry. apply (Z.mod_unique _ _ (off / 512 + 1)); lia.
Qed.

(** The fuel of readi and writei is enough. *)
Lemma spans_fuel off n : spans off n (idx (n / BSIZE) + 2).
Proof.
  destruct (decide (n <= 0)) as [|Hn]; [by left|right]. unfold BSIZE.
  pose proof (Z.mod_pos_bound off 512 ltac:(done)). pose proof (Z.div_mod n 512 ltac:(lia)).
  pose proof (Z.mod_pos_bound n 512 ltac:(done)). assert (0 <= n / 512) by (apply Z.div_pos; lia). unfold idx. lia.
Qed.

Section contents.
Context (p : nat) (i : nat) (x : inode).
Hypothesis Hdev : idev x = 1.

(** The blocks of the [n] bytes from [off] on. *)
Definition covers (s : kstate) (off n : Z) : Prop := forall j, off <= j < off + n -> mapped s x (j / BSIZE).

Lemma readi_loop_ok fuel off n acc s :
  cache_ok p [] s -> room [] s -> iget_ s i = x -> 0 <= off -> spans off n fuel -> covers s off n ->
  exists u, readi_loop fuel i off n acc s = Done (Ok (acc ++ fbytes s x off (idx n))) u /\ looked p s u.
Proof.
  revert off n acc s. induction fuel as [|fuel IH]; intros off n acc s Hc Hr Hx Hoff Hsp Hcov; cbn [readi_loop].
  all: destruct (Z.leb_spec n 0) as [Hn|Hn];
    [exists s; replace (idx n) with 0%nat by (unfold idx; lia); unfold fbytes; simpl; rewrite app_nil_r;
     split; [done|by apply looked_refl]|].
  all: destruct (spans_step off n _ Hoff Hn Hsp) as (Hm & Hfit & k' & [= ->] & Hsp').
  set (m := Z.min n (BSIZE - off mod BSIZE)) in *.
  assert (mapped s x (off / BSIZE)) as Hmap by (apply Hcov; lia).
  destruct (bmap_mapped p s i x (off / BSIZE) Hc Hr Hx Hdev Hmap) as (t & Ht & Hlt).
  rewrite (bind_Done _ _ _ _ _ Ht). unfold getinode. rewrite bind_gets.
  assert (iget_ t i = x) as Hxt by (unfold iget_; by rewrite (looked_inode _ _ _ Hlt)).
  rewrite Hxt, Hdev.
  destruct (read_block p t (addr_of s x (off / BSIZE)) (lo_ok _ _ _ Hlt) (lo_room _ _ _ Hlt))
    as (b & v & w & Hb & Hv & _ & Hrel & Hl2); [rewrite (lo_disk _ _ _ Hlt); apply Hmap|].
  rewrite (bind_Done _ _ _ _ _ Hb). unfold getbuf. rewrite bind_gets, (bind_Done _ _ _ _ _ Hrel).
  pose proof (looked_trans _ _ _ _ Hlt Hl2) as Hlw. rewrite (lo_view _ _ _ Hlt) in Hv.
  rewrite (fbytes_block s x off (idx m) _ Hv); [|by eapply view_len|unfold idx; lia].
  destruct (IH (off + m) (n - m) (acc ++ fbytes s x off (idx m)) w) as (u & Hu & Hlu).
  { apply (lo_ok _ _ _ Hlw). } { apply (lo_room _ _ _ Hlw). }
  { unfold iget_. by rewrite (looked_inode _ _ _ Hlw). } { lia. } { done. }
  { intros j Hj. eapply looked_mapped; [done|]. apply Hcov. lia. }
  exists u. split; [|by eapply looked_trans].
  rewrite Hu. do 2 f_equal. rewrite <- app_assoc. f_equal.
  replace (idx n) with (idx m + idx (n - m))%nat by (unfold idx; lia).
  rewrite fbytes_app. f_equal. replace (Z.of_nat (idx m)) with m by (unfold idx; lia).
  apply list_fmap_ext. intros k j _. by eapply looked_fbyte.
Qed.
End contents.

(** Every byte of the file is in a block of the disk. *)
Definition file_mapped (s : kstate) (x : inode) : Prop := covers x s 0 (isize x).

Lemma readi_covered p i x off n s :
  let m := Z.min n (isize x - off) in
  cache_ok p [] s -> room [] s -> iget_ s i = x -> idev x = 1 -> itype x <> T_DEV ->
  isize x < 2 ^ 31 -> covers x s off m -> 0 <= off <= isize x -> 0 <= n -> off + n < 2 ^ 32 ->
  exists u, readi i off n s = Done (Ok (m, fbytes s x off (idx m))) u /\ looked p s u.
Proof.
  intros m Hc Hr Hx Hdev Hty Hsz Hcov Hoff Hn Hov.
  unfold readi, getinode. rewrite bind_gets, Hx. unfold id.
  rewrite (proj2 (Z.eqb_neq _ _)) by done. rewrite u32_id by lia.
  rewrite (proj2 (Z.ltb_ge (isize x) off)), (proj2 (Z.ltb_ge (off + n) off)) by lia. cbn [orb].
  replace (if isize x <? off + n then isize x - off else n) with m
    by (unfold m; destruct (Z.ltb_spec (isize x) (off + n)); lia).
  destruct (readi_loop_ok p i x Hdev (idx (m / BSIZE) + 2) off m [] s) as (u & Hu & Hl); try done; try lia.
  { apply spans_fuel. }
  exists u. split; [|done]. rewrite (bind_Done _ _ _ _ _ Hu). unfold ret. rewrite i32_id by lia. done.
Qed.

Lemma readi_ok p i x off n s :
  cache_ok p [] s -> room [] s -> iget_ s i = x -> idev x = 1 -> itype x <> T_DEV ->
  isize x < 2 ^ 31 -> file_mapped s x -> 0 <= off <= isize x -> 0 <= n -> off + n < 2 ^ 32 ->
  let m := Z.min n (isize x - off) in
  exists u, readi i off n s = Done (Ok (m, fbytes s x off (idx m))) u /\ looked p s u.
Proof.
  intros Hc Hr Hx Hdev Hty Hsz Hmap Hoff Hn Hov m. apply (readi_covered p); try done. intros j Hj. apply Hmap. lia.
Qed.

(** ** writei *)

(** A transaction that may log [n] more blocks. *)
Definition txn (p : nat) (start : Z) (n : nat) (s : kstate) : Prop :=
  exists bs, pending p start bs s /\ 1 <= outstanding (k_log s) /\ lsize (k_log s) <= LOGSIZE /\
    Z.of_nat (length bs) + Z.of_nat n < lsize (k_log s).

Lemma txn_cache p start n s : txn p start n s -> cache_ok p [] s /\ room [] s.
Proof. intros (bs & Hp & _). split; [apply (pe_ok _ _ _ _ Hp)|by eapply pending_room]. Qed.

Lemma txn_looked p start n s u : looked p s u -> txn p start n s -> txn p start n u.
Proof.
  intros Hl (bs & Hp & Ho & Hls & Hn). exists bs.
  pose proof (bio_step_log _ _ (lo_step _ _ _ Hl)) as Hk.
  rewrite Hk. split_and!; try done.
  destruct Hp as [? (Hl1 & Hl2 & Hl3 & Hl4)]. split; rewrite ?Hk; try done.
  - apply (lo_ok _ _ _ Hl).
  - unfold log_at. rewrite Hk, (lo_disk _ _ _ Hl). split_and!; try done.
    intros b Hb%(lo_dirty _ _ _ Hl). by apply Hl4.
  - intros b. by rewrite (lo_dirty _ _ _ Hl).
Qed.

(** A step of a transaction: the cache and the list of blocks in the log change,
    and nothing goes to the disk. *)
Record txn_step (s u : kstate) : Prop := {
  ts_step : bio_step (s <| k_log := k_log u |>) u;
  ts_outstanding : outstanding (k_log u) = outstanding (k_log s);
  ts_committing : committing (k_log u) = committing (k_log s);
  ts_size : lsize (k_log u) = lsize (k_log s);
  ts_disk : k_disk u = k_disk s;
  ts_hist : k_hist u = k_hist s
}.

#[export] Instance txn_step_preorder : PreOrder txn_step.
Proof.
  split.
  - intros s. split; try done. split; [by destruct s|done].
  - intros s u w [H1 H2 H3 H4 H5 H6] [G1 G2 G3 G4 G5 G6]. split; try congruence.
    etransitivity; [|exact G1]. exact (bio_step_setlog _ _ (fun _ => k_log w) H1).
Qed.

Lemma txn_step_inode s u : txn_step s u -> k_inode u = k_inode s.
Proof. intros [[-> _] _ _ _ _ _]. done. Qed.

Lemma looked_txn_step p s u : looked p s u -> txn_step s u.
Proof.
  intros Hl. pose proof (bio_step_log _ _ (lo_step _ _ _ Hl)) as Hk.
  split; [|by rewrite Hk|by rewrite Hk|by rewrite Hk|apply (lo_disk _ _ _ Hl)|apply (lo_hist _ _ _ Hl)].
  rewrite Hk. destruct (lo_step _ _ _ Hl) as [Hu Hp]. split; [|exact Hp]. rewrite Hu. by destruct s.
Qed.

(** [u] is [s] with block [b] set to [d] in a transaction. *)
Record block_set (s : kstate) (b : Z) (d : list Z) (u : kstate) : Prop := {
  bs_disk : k_disk u = k_disk s;
  bs_hist : k_hist u = k_hist s;
  bs_step : txn_step s u;
  bs_inode : k_inode u = k_inode s;
  bs_sb : k_sb u = k_sb s;
  bs_view : forall b', bview u b' = if decide (b' = b) then Some d else bview s b'
}.

(** bp = bread(dev, b); ... change the data ...; log_write(bp); brelse(bp); *)
Lemma txn_change p start n s b (f : list Z -> list Z) v :
  txn p start (S n) s -> is_Some (k_disk s !! b) -> outside start b -> 0 <= b < 2 ^ 31 ->
  bview s b = Some v -> length (f v) = 512%nat ->
  exists i t u, bread 1 b s = Done (Ok i) t /\ bdata (bget_ t i) = v /\ k_inode t = k_inode s /\
    (setbuf i (fun y => y <| bdata := f (bdata y) |>) ;;; log_write i ;;; brelse i) t = Done (Ok tt) u /\
    txn p start n u /\ block_set s b (f v) u.
Proof.
  intros (bs & Hp & Ho & Hls & Hn) Hb Hout Hrg Hv Hf.
  destruct (txn_write_ok p start bs s b (f v)) as (i & t & u & Hr & Hvt & Hw & Hpu & Hd & Hh & Hview & Hst & Hsu);
    try done; [lia|].
  assert (bdata (bget_ t i) = v) as Hdat by congruence.
  assert (k_log u = log_record b (k_log s)) as Hlog by (apply (bio_step_log _ _ Hsu)).
  exists i, t, u. split_and!; [done|done|by destruct Hst as [-> _]| | |].
  - unfold setbuf. rewrite bind_modify. rewrite <- Hw. f_equal. unfold set_data, upd, upd_k_buf; simpl. f_equal.
    apply alter_ext_at. intros y Hy. unfold bget_ in Hdat. rewrite (aget_lookup _ _ _ Hy) in Hdat. by rewrite Hdat.
  - eexists. split; [done|]. rewrite Hlog. simpl. split_and!; [done|done|].
    destruct (decide (b ∈ bs)); rewrite ?length_app; simpl; lia.
  - split; try done; [|by destruct Hsu as [-> _]..].
    by split; rewrite ?Hlog.
Qed.

(** The file as the log sees it: its blocks are distinct blocks of the disk,
    apart from the log and from the indirect block. *)
Record file_ok (start : Z) (s : kstate) (x : inode) : Prop := {
  fo_mapped : file_mapped s x;
  fo_out : forall bn, mapped s x bn -> outside start (addr_of s x bn) /\ 0 <= addr_of s x bn < 2 ^ 31;
  fo_inj : forall bn bn', mapped s x bn -> mapped s x bn' -> addr_of s x bn = addr_of s x bn' -> bn = bn';
  fo_ind : forall bn, mapped s x bn -> addr_of s x bn <> indirect x
}.

Lemma block_set_addr s bn d u x :
  mapped s x bn -> addr_of s x bn <> indirect x -> block_set s (addr_of s x bn) d u ->
  (forall bn', addr_of u x bn' = addr_of s x bn') /\ (forall bn', mapped u x bn' <-> mapped s x bn').
Proof.
  intros Hm Hne Hb. assert (forall bn', addr_of u x bn' = addr_of s x bn') as Ha.
  { intros bn'. unfold addr_of at 1 2. destruct (bn' <? NDIRECT); [done|].
    by rewrite (bs_view _ _ _ _ Hb), decide_False. }
  split; [done|]. intros bn'. unfold mapped. by rewrite Ha, (bs_disk _ _ _ _ Hb).
Qed.

Lemma block_set_file start s bn d u x :
  file_ok start s x -> mapped s x bn -> block_set s (addr_of s x bn) d u -> file_ok start u x.
Proof.
  intros Hf Hm Hb. destruct (block_set_addr s bn d u x Hm (fo_ind _ _ _ Hf bn Hm) Hb) as [Ha Hmm]. split.
  - intros j Hj. apply Hmm. by apply (fo_mapped _ _ _ Hf).
  - intros bn' ?%Hmm. rewrite Ha. by apply (fo_out _ _ _ Hf).
  - intros b1 b2 ?%Hmm ?%Hmm. rewrite !Ha. by apply (fo_inj _ _ _ Hf).
  - intros bn' ?%Hmm. rewrite Ha. by apply (fo_ind _ _ _ Hf).
Qed.

(** Byte [j] after block [bn] was set. *)
Lemma block_set_fbyte start s bn d u x j :
  file_ok start s x -> mapped s x bn -> mapped s x (j / BSIZE) -> block_set s (addr_of s x bn) d u ->
  fbyte u x j = if decide (j / BSIZE = bn) then aget d (idx (j mod BSIZE)) else fbyte s x j.
Proof.
  intros Hf Hm Hj Hb. destruct (block_set_addr s bn d u x Hm (fo_ind _ _ _ Hf bn Hm) Hb) as [Ha _].
  unfold fbyte, block_of. rewrite Ha, (bs_view _ _ _ _ Hb).
  destruct (decide (j / BSIZE = bn)) as [He|He].
  - rewrite He, decide_True by done. done.
  - rewrite decide_False; [done|]. intros Heq. by apply He, (fo_inj _ _ _ Hf).
Qed.

Lemma looked_file p start s u x : looked p s u -> file_ok start s x -> file_ok start u x.
Proof.
  intros Hl Hf. assert (forall bn, addr_of u x bn = addr_of s x bn) as Ha
    by (intros; apply addr_of_view, (lo_view _ _ _ Hl)).
  assert (forall bn, mapped u x bn <-> mapped s x bn) as Hm
    by (intros bn; unfold mapped; by rewrite Ha, (lo_disk _ _ _ Hl)).
  split.
  - intros j Hj. apply Hm. by apply (fo_mapped _ _ _ Hf).
  - intros bn' ?%Hm. rewrite Ha. by apply (fo_out _ _ _ Hf).
  - intros b1 b2 ?%Hm ?%Hm. rewrite !Ha. by apply (fo_inj _ _ _ Hf).
  - intros bn' ?%Hm. rewrite Ha. by apply (fo_ind _ _ _ Hf).
Qed.

Lemma txn_le p start m n s : (m <= n)%nat -> txn p start n s -> txn p start m s.
Proof. intros Hle (bs & ? & ? & ? & ?). exists bs. split_and!; try done. lia. Qed.

Lemma aget_drop {A} `{Inhabited A} (l : list A) n k : aget (drop n l) k = aget l (n + k).
Proof. unfold aget. by rewrite lookup_drop. Qed.

Lemma aget_take {A} `{Inhabited A} (l : list A) n k : (k < n)%nat -> aget (take n l) k = aget l k.
Proof. intros Hk. unfold aget. by rewrite lookup_take_lt. Qed.

Section writing.
Context (p : nat) (i : nat) (x : inode) (start : Z).
Hypothesis Hdev : idev x = 1.

(** The data of a block with [l] written at [o]. *)
Definition splice (o : nat) (l d : list Z) : list Z := take o d ++ l ++ drop (o + length l) d.

Lemma length_splice o l d : (o + length l <= length d)%nat -> length (splice o l d) = length d.
Proof. intros H. unfold splice. rewrite !length_app, length_take, length_drop. lia. Qed.

Lemma aget_splice o l d k :
  (o + length l <= length d)%nat -> (k < length d)%nat ->
  aget (splice o l d) k = if decide (o <= k < o + length l)%nat then aget l (k - o) else aget d k.
Proof.
  intros H Hk. unfold splice, aget. case_decide as Hin.
  - f_equal. rewrite lookup_app_r by (rewrite length_take; lia). rewrite length_take, Nat.min_l by lia.
    by rewrite lookup_app_l by lia.
  - f_equal. destruct (decide (k < o)%nat).
    + rewrite lookup_app_l by (rewrite length_take; lia). by rewrite lookup_take_lt.
    + rewrite lookup_app_r by (rewrite length_take; lia). rewrite length_take, Nat.min_l by lia.
      rewrite lookup_app_r by lia. rewrite lookup_drop. f_equal. lia.
Qed.

(** The file after [n] bytes of [src] were written at [off]. *)
Definition overwritten (s u : kstate) (off n : Z) (src : list Z) : Prop :=
  txn_step s u /\ file_ok start u x /\
  forall j, 0 <= j < isize x ->
    fbyte u x j = if decide (off <= j < off + n) then aget src (idx (j - off)) else fbyte s x j.

(** The bytes of the block that a turn changes. *)
Lemma turn_byte off m src v j old :
  length v = 512%nat -> 0 < m -> off mod BSIZE + m <= BSIZE -> length (take (idx m) src) = idx m ->
  (j / BSIZE = off / BSIZE -> old = aget v (idx (j mod BSIZE))) ->
  (if decide (j / BSIZE = off / BSIZE)
   then aget (splice (idx (off mod BSIZE)) (take (idx m) src) v) (idx (j mod BSIZE)) else old) =
  if decide (off <= j < off + m) then aget src (idx (j - off)) else old.
Proof.
  intros Hv Hm Hfit Hls Hold. unfold BSIZE in *.
  pose proof (Z.mod_pos_bound off 512 ltac:(done)). pose proof (Z.mod_pos_bound j 512 ltac:(done)).
  pose proof (Z.div_mod off 512 ltac:(lia)) as Hdo. pose proof (Z.div_mod j 512 ltac:(lia)) as Hdj.
  destruct (decide (j / 512 = off / 512)) as [He|He].
  - rewrite aget_splice by (rewrite ?Hls, Hv; unfold idx; lia). rewrite Hls.
    destruct (decide (off <= j < off + m)) as [Hin|Hin].
    + rewrite decide_True by (unfold idx; lia). rewrite aget_take by (unfold idx; lia). f_equal. unfold idx. lia.
    + rewrite decide_False by (unfold idx; lia). symmetry. by apply Hold.
  - rewrite decide_False; [done|]. intros Hin. apply He. lia.
Qed.

(** One turn of the loop. *)
Lemma write_turn off m src s cap {A} (rest : K A) :
  txn p start (S cap) s -> iget_ s i = x -> file_ok start s x -> 0 <= off -> 0 < m ->
  off + m <= isize x -> off mod BSIZE + m <= BSIZE -> m <= Z.of_nat (length src) ->
  let o := idx (off mod BSIZE) in
  exists u, (b <- bmap i (off / BSIZE) ;; dev <- getinode i idev ;; bp <- bread dev b ;;
     setbuf bp (fun y => y <| bdata := take o (bdata y) ++ take (idx m) src ++ drop (o + idx m) (bdata y) |>) ;;;
     log_write bp ;;; brelse bp ;;; rest) s = rest u /\
    txn p start cap u /\ iget_ u i = x /\ overwritten s u off m src.
Proof.
  intros Ht Hx Hf Hoff Hm Hsz Hfit Hsrc o. pose proof (Z.mod_pos_bound off BSIZE ltac:(done)) as Hmod.
  destruct (txn_cache _ _ _ _ Ht) as [Hc Hr].
  assert (mapped s x (off / BSIZE)) as Hmap by (apply (fo_mapped _ _ _ Hf); lia).
  destruct (bmap_mapped p s i x (off / BSIZE) Hc Hr Hx Hdev Hmap) as (t & Hbm & Hlt).
  rewrite (bind_Done _ _ _ _ _ Hbm). unfold getinode. rewrite bind_gets.
  assert (iget_ t i = x) as Hxt by (unfold iget_; by rewrite (looked_inode _ _ _ Hlt)). rewrite Hxt, Hdev.
  pose proof (looked_file _ _ _ _ _ Hlt Hf) as Hft. pose proof (looked_mapped _ _ _ _ _ Hlt Hmap) as Hmt.
  assert (addr_of t x (off / BSIZE) = addr_of s x (off / BSIZE)) as Hat by (apply addr_of_view, (lo_view _ _ _ Hlt)).
  rewrite <- Hat. pose proof Hmt as (_ & _ & Hon & _). destruct (fo_out _ _ _ Hft _ Hmt) as [Hout Hrg].
  destruct (view_some p [] t _ (lo_ok _ _ _ Hlt) Hon) as [v Hv].
  pose proof (view_len _ _ _ _ _ (lo_ok _ _ _ Hlt) Hv) as Hlv.
  assert (length (take (idx m) src) = idx m) as Hls by (rewrite length_take; unfold idx; lia).
  set (f := fun d => take o d ++ take (idx m) src ++ drop (o + idx m) d).
  assert (f v = splice o (take (idx m) src) v) as Hfv by (unfold f, splice; by rewrite Hls).
  destruct (txn_change p start cap t _ f v (txn_looked _ _ _ _ _ Hlt Ht) Hon Hout Hrg Hv)
    as (bp & t' & u & Hb & _ & _ & Hrun & Htu & Hset).
  { rewrite Hfv, length_splice; [done|]. rewrite Hls, Hlv. unfold o, idx, BSIZE in *. lia. }
  rewrite (bind_Done _ _ _ _ _ Hb).
  exists u. split; [exact (seq3_run _ _ _ rest _ _ Hrun)|]. split; [done|]. split; [unfold iget_; rewrite (bs_inode _ _ _ _ Hset); done|].
  split_and!; [etransitivity; [by eapply looked_txn_step|apply (bs_step _ _ _ _ Hset)]|by eapply block_set_file|].
  intros j Hj. rewrite (block_set_fbyte start t (off / BSIZE) (f v) u x j Hft Hmt); [|by apply (fo_mapped _ _ _ Hft)|done].
  rewrite (looked_fbyte p s t), Hfv by done. apply turn_byte; [done|done|done|by rewrite Hls|].
  intros He. unfold fbyte, block_of. by rewrite He, <- Hat, <- (lo_view _ _ _ Hlt), Hv.
Qed.

Lemma writei_loop_ok fuel off n src s cap :
  txn p start cap s -> iget_ s i = x -> file_ok start s x -> 0 <= off -> off + n <= isize x ->
  n <= Z.of_nat (length src) -> spans off n (min fuel cap) ->
  exists u, writei_loop fuel i off n src s = Done (Ok tt) u /\ txn p start 0 u /\ overwritten s u off n src.
Proof.
  revert off n src s cap.
  induction fuel as [|fuel IH]; intros off n src s cap Ht Hx Hf Hoff Hsz Hsrc Hsp; cbn [writei_loop].
  all: destruct (Z.leb_spec n 0) as [Hn|Hn];
    [exists s; split_and!; [done|by eapply txn_le, Ht; lia|];
     split_and!; [done|done|intros j _; by rewrite decide_False by lia]|].
  all: destruct (spans_step off n _ Hoff Hn Hsp) as (Hm & Hfit & k' & Hk' & Hsp'); try done.
  set (m := Z.min n (BSIZE - off mod BSIZE)) in *.
  destruct cap as [|cap]; [done|]. injection Hk' as <-.
  destruct (write_turn off m src s cap (writei_loop fuel i (off + m) (n - m) (drop (idx m) src)) Ht Hx Hf Hoff)
    as (u & Hu & Htu & Hxu & Hov); [lia|lia|lia|lia|].
  destruct Hov as (Hiu & Hfu & Hbu).
  destruct (IH (off + m) (n - m) (drop (idx m) src) u cap) as (w & Hw & Htw & Hiw & Hfw & Hbw);
    [done|done|done|lia|lia|rewrite length_drop; unfold idx; lia|done|].
  exists w. split; [transitivity (writei_loop fuel i (off + m) (n - m) (drop (idx m) src) u); [exact Hu|exact Hw]|].
  split; [done|]. split_and!; [by etransitivity|done|].
  intros j Hj. rewrite Hbw, Hbu by done. repeat case_decide; try lia; try done.
  rewrite aget_drop. f_equal. unfold idx. lia.
Qed.
End writing.

Lemma writei_ok p start i x src off n s cap :
  txn p start cap s -> iget_ s i = x -> idev x = 1 -> itype x <> T_DEV -> isize x <= MAXFILE * BSIZE ->
  file_ok start s x -> 0 <= off -> 0 <= n -> off + n <= isize x -> n <= Z.of_nat (length src) ->
  spans off n cap ->
  exists u, writei i src off n s = Done (Ok n) u /\ txn p start 0 u /\ iget_ u i = x /\
    overwritten x start s u off n src.
Proof.
  intros Ht Hx Hdev Hty Hmax Hf Hoff Hn Hsz Hsrc Hcap. unfold MAXFILE, NINDIRECT, NDIRECT, BSIZE in Hmax.
  change (512 / 4) with 128 in Hmax.
  destruct (writei_loop_ok p i x start Hdev (idx (n / BSIZE) + 2) off n src s cap) as (u & Hu & Htu & Hov);
    try done; [destruct (Nat.min_spec (idx (n / BSIZE) + 2) cap) as [[_ ->]|[_ ->]]; [apply spans_fuel|done]|].
  assert (iget_ u i = x) as Hxu by (destruct Hov as [Hi _]; unfold iget_; by rewrite (txn_step_inode _ _ Hi)).
  exists u. split; [|done]. unfold writei, getinode. rewrite bind_gets, Hx. unfold id.
  rewrite (proj2 (Z.eqb_neq _ _)) by done. rewrite u32_id by lia.
  rewrite (proj2 (Z.ltb_ge (isize x) off)), (proj2 (Z.ltb_ge (off + n) off)) by lia. cbn [orb].
  rewrite (proj2 (Z.ltb_ge (MAXFILE * BSIZE) (off + n)))
    by (unfold MAXFILE, NINDIRECT, NDIRECT, BSIZE; change (512 / 4) with 128; lia).
  rewrite (bind_Done _ _ _ _ _ Hu), bind_gets, Hxu.
  rewrite (proj2 (Z.ltb_ge (isize x) (off + n))) by lia. rewrite andb_false_r. cbn [when].
  rewrite bind_ret_l. unfold ret. by rewrite i32_id by lia.
Qed.

Lemma overwritten_read x start s u off n src :
  overwritten x start s u off n src -> 0 <= off -> 0 <= n -> off + n <= isize x -> n <= Z.of_nat (length src) ->
  fbytes u x off (idx n) = take (idx n) src.
Proof.
  intros (_ & _ & Hb) Hoff Hn Hsz Hsrc.
  apply list_eq_same_length with (idx n); [rewrite length_take; unfold idx; lia|
    by unfold fbytes; rewrite length_fmap, length_seq|].
  intros k y z Hk Hy Hz. unfold fbytes in Hy. rewrite list_lookup_fmap, lookup_seq_lt in Hy by done.
  rewrite lookup_take_lt in Hz by done. simplify_eq/=. unfold idx in Hk.
  rewrite Hb, decide_True by lia. apply aget_lookup. rewrite <- Hz. f_equal. unfold idx. lia.
Qed.

(** C11: readi() returns the contents of the file.  For an inode whose bytes are
    all in blocks of the disk, direct or through the indirect block, a read of
    n bytes at off returns min(n, size - off) and exactly those bytes, as the
    buffer cache shows them, and changes no block, no inode and nothing on
    disk; a read past the end returns -1 at once. *)
Theorem readi_contents p i x off n s :
  cache_ok p [] s -> room [] s -> iget_ s i = x -> idev x = 1 -> itype x <> T_DEV ->
  isize x < 2 ^ 31 -> file_mapped s x -> 0 <= off < 2 ^ 31 -> 0 <= n < 2 ^ 31 ->
  if isize x <? off then readi i off n s = Done (Ok (-1, [])) s
  else let m := Z.min n (isize x - off) in
    exists u, readi i off n s = Done (Ok (m, fbytes s x off (idx m))) u /\ looked p s u.
Proof.
  intros Hc Hr Hx Hdev Hty Hsz Hmap Hoff Hn. destruct (Z.ltb_spec (isize x) off) as [Hlt|Hge].
  - unfold readi, getinode. rewrite bind_gets, Hx. unfold id.
    rewrite (proj2 (Z.eqb_neq _ _)) by done. by rewrite (proj2 (Z.ltb_lt (isize x) off)).
  - apply (readi_ok p); try done; lia.
Qed.

(** C10: writei() inside a transaction changes the contents of the file.  For n
    bytes within the file, in blocks that are distinct and outside the log, and
    with room in the transaction for the blocks they span, it returns n; the
    bytes from off to off + n are those of the source and every other byte of
    the file is as before; it writes nothing to the disk, which waits for the
    commit; and a read of the same range returns what was written. *)
Theorem writei_overwrites p start i x src off n s cap :
  txn p start cap s -> iget_ s i = x -> idev x = 1 -> itype x <> T_DEV -> isize x <= MAXFILE * BSIZE ->
  file_ok start s x -> 0 <= off -> 0 <= n -> off + n <= isize x -> n <= Z.of_nat (length src) ->
  spans off n cap ->
  exists u, writei i src off n s = Done (Ok n) u /\ txn p start 0 u /\
    k_disk u = k_disk s /\ k_hist u = k_hist s /\
    (forall j, 0 <= j < isize x ->
       fbyte u x j = if decide (off <= j < off + n) then aget src (idx (j - off)) else fbyte s x j) /\
    exists w, readi i off n u = Done (Ok (n, take (idx n) src)) w /\ looked p u w.
Proof.
  intros Ht Hx Hdev Hty Hmax Hf Hoff Hn Hsz Hsrc Hcap.
  destruct (writei_ok p start i x src off n s cap) as (u & Hu & Htu & Hxu & Hov); try done.
  unfold MAXFILE, NINDIRECT, NDIRECT, BSIZE in Hmax. change (512 / 4) with 128 in Hmax.
  exists u. pose proof Hov as (Hst & _ & Hby).
  split_and!; [done|done|apply (ts_disk _ _ Hst)|apply (ts_hist _ _ Hst)|exact Hby|].
  destruct (txn_cache _ _ _ _ Htu) as [Hcu Hru]. pose proof Hov as (_ & Hfu & _).
  destruct (readi_ok p i x off n u) as (w & Hw & Hl); try done; try lia; [apply (fo_mapped _ _ _ Hfu)|].
  exists w. split; [|done]. rewrite Hw, Z.min_l by lia. by rewrite (overwritten_read x start s u off n src).
Qed.

(** ** An open transaction and a file of two blocks *)

Definition two_blocks : inode :=
  inode0 <| idev := 1 |> <| inum := 5 |> <| iref := 1 |> <| ivalid := true |> <| itype := T_FILE |>
         <| isize := 700 |> <| iaddrs := [60; 61; 0; 0; 0; 0; 0; 0] |>.

Definition open_file : kstate := open_txn <| k_inode := two_blocks :: replicate 49 inode0 |>.

Lemma pending_inode p start bs s l : pending p start bs s -> pending p start bs (s <| k_inode := l |>).
Proof. intros [Hc ????????]. split; try done. destruct Hc. by split. Qed.

Lemma open_file_txn : txn 1 2 5 open_file.
Proof.
  exists []. split; [apply pending_inode, open_txn_pending|split_and!; vm_compute; done].
Qed.

Lemma two_blocks_mapped bn : mapped open_file two_blocks bn <-> bn = 0 \/ bn = 1.
Proof.
  split.
  - intros (Hbn & Ha & _ & Hi). unfold NDIRECT in Hi. destruct (decide (7 <= bn)) as [H7|H7].
    { destruct (Hi H7) as [Hz _]. by unfold indirect in Hz. }
    unfold addr_of, NDIRECT in Ha. rewrite (proj2 (Z.ltb_lt bn 7)) in Ha by lia.
    assert (bn = 0 \/ bn = 1 \/ bn = 2 \/ bn = 3 \/ bn = 4 \/ bn = 5 \/ bn = 6) as Hc by lia.
    destruct Hc as [-> | [-> | [-> | [-> | [-> | [-> | -> ]]]]]]; try (by left); try (by right); by exfalso; apply Ha.
  - intros [-> | ->]; (split_and!; [vm_compute; done|vm_compute; done|done| |unfold NDIRECT; lia]);
      change (k_disk open_file) with small_disk; apply small_disk_some; vm_compute; done.
Qed.

Lemma two_blocks_ok : file_ok 2 open_file two_blocks.
Proof.
  split.
  - intros j [Hj0 Hj]. change (isize two_blocks) with 700 in Hj. apply two_blocks_mapped. unfold BSIZE.
    pose proof (Z.div_mod j 512 ltac:(lia)). pose proof (Z.mod_pos_bound j 512 ltac:(lia)). lia.
  - intros bn [-> | ->]%two_blocks_mapped; (split; [right; vm_compute; done|vm_compute; done]).
  - intros b1 b2 [-> | ->]%two_blocks_mapped [-> | ->]%two_blocks_mapped; done.
  - intros bn [-> | ->]%two_blocks_mapped; done.
Qed.

Lemma readi_contents_witness :
  exists u, readi 0 500 300 open_file = Done (Ok (200, fbytes open_file two_blocks 500 200)) u.
Proof.
  destruct (txn_cache _ _ _ _ open_file_txn) as [Hc Hr].
  destruct (readi_contents 1 0 two_blocks 500 300 open_file Hc Hr) as (u & Hu & _);
    [done|done|done|vm_compute; done|apply (fo_mapped _ _ _ two_blocks_ok)|lia|lia|exists u; exact Hu].
Defined.

Lemma writei_overwrites_witness :
  exists u w, writei 0 [1; 2; 3] 511 3 open_file = Done (Ok 3) u /\ k_disk u = small_disk /\
    readi 0 511 3 u = Done (Ok (3, [1; 2; 3])) w.
Proof.
  destruct (writei_overwrites 1 2 0 two_blocks [1; 2; 3] 511 3 open_file 5 open_file_txn)
    as (u & Hu & _ & Hd & _ & _ & w & Hw & _);
    [done|done|done|vm_compute; done|apply two_blocks_ok|lia|lia|vm_compute; done|simpl; lia|right; vm_compute; done|].
  exists u, w. split; [exact Hu|]. split; [exact Hd|exact Hw].
Defined.
