(* ===== verification/Balloc.v ===== *)
(** * The block bitmap (theorems on balloc and bfree of fs.c) *)

From S2P Require Import Prelude Cstring Kernel Spinlock ProcCore Console Bio Quiet Cache Log Crash Inode Fs Files.

(** ** Bits *)

Lemma aget_alter {A} `{Inhabited A} (f : A -> A) l i j :
  (i < length l)%nat -> aget (alter f i l) j = if decide (i = j) then f (aget l j) else aget l j.
Proof.
  intros Hi. unfold aget. case_decide as He.
  - subst j. rewrite list_lookup_alter_eq. destruct (lookup_lt_is_Some_2 l i Hi) as [y ->]. done.
  - by rewrite list_lookup_alter_ne.
Qed.

Lemma bit_index bi bj : (bi = bj <-> bi / 8 = bj / 8 /\ bi mod 8 = bj mod 8)%nat.
Proof.
  split; [by intros ->|]. intros [Hd Hm]. rewrite (Nat.div_mod_eq bi 8), (Nat.div_mod_eq bj 8). lia.
Qed.

Lemma testbit_shift1 k j :
  Z.testbit (Z.shiftl 1 (Z.of_nat k)) (Z.of_nat j) = bool_decide (k = j).
Proof.
  rewrite Z.shiftl_1_l, Z.pow2_bits_eqb by lia. apply eq_iff_eq_true. rewrite Z.eqb_eq, bool_decide_eq_true. lia.
Qed.

Lemma bit_set d bi bj :
  (bi / 8 < length d)%nat -> bit_at (set_bit d bi) bj = bool_decide (bi = bj) || bit_at d bj.
Proof.
  intros Hl. unfold bit_at, set_bit. rewrite aget_alter by done. case_decide as He.
  - rewrite Z.lor_spec, testbit_shift1, orb_comm. f_equal. apply bool_decide_ext. rewrite (bit_index bi). tauto.
  - rewrite bool_decide_false; [done|]. intros ->. done.
Qed.

Lemma bit_clear d bi bj :
  (bi / 8 < length d)%nat -> bit_at (clear_bit d bi) bj = negb (bool_decide (bi = bj)) && bit_at d bj.
Proof.
  intros Hl. unfold bit_at, clear_bit. rewrite aget_alter by done. case_decide as He.
  - rewrite Z.land_spec, Z.lnot_spec, testbit_shift1, andb_comm by lia. f_equal. f_equal.
    apply bool_decide_ext. rewrite (bit_index bi). tauto.
  - rewrite bool_decide_false; [done|]. intros ->. done.
Qed.

Lemma find_free_some d n bi :
  find_free d n = Some bi ->
  (bi < n)%nat /\ bit_at d bi = false /\ forall bj, (bj < bi)%nat -> bit_at d bj = true.
Proof.
  unfold find_free. destruct (list_find _ (seq 0 n)) as [[k y]|] eqn:E; [|done]. intros [= <-].
  apply list_find_Some in E as (Hk & Hb & Hlt). apply lookup_seq in Hk as [-> Hk]. simpl in *.
  split_and!; [done|done|]. intros bj Hj. specialize (Hlt bj bj). rewrite lookup_seq_lt in Hlt by lia.
  specialize (Hlt eq_refl Hj). by destruct (bit_at d bj).
Qed.

Lemma find_free_none d n : find_free d n = None -> forall bj, (bj < n)%nat -> bit_at d bj = true.
Proof.
  unfold find_free. intros E%fmap_None bj Hj. apply list_find_None in E.
  rewrite Forall_forall in E. specialize (E bj ltac:(apply elem_of_seq; lia)). by destruct (bit_at d bj).
Qed.

(** ** balloc *)

(** Block [b] is marked free in the bitmap. *)
Definition bfree_in (s : kstate) (b : Z) : Prop :=
  exists d, bview s (BBLOCK b (k_sb s)) = Some d /\ bit_at d (idx (b mod BPB)) = false.

(** The bitmap blocks exist outside the log, and no block of the log or the
    bitmap itself is marked free. *)
Record bitmap_ok (start : Z) (s : kstate) : Prop := {
  bm_size : 0 <= sb_size (k_sb s) < 2 ^ 31;
  bm_start : 0 <= sb_bmapstart (k_sb s) < 2 ^ 30;
  bm_disk : forall b, 0 <= b < sb_size (k_sb s) -> is_Some (k_disk s !! b);
  bm_map : forall b, 0 <= b < sb_size (k_sb s) ->
    is_Some (k_disk s !! BBLOCK b (k_sb s)) /\ outside start (BBLOCK b (k_sb s)) /\
    ~ bfree_in s (BBLOCK b (k_sb s));
  bm_out : forall b, 0 <= b < sb_size (k_sb s) -> bfree_in s b -> outside start b
}.

(** Block [k * BPB + r] has bit [r] of bitmap block [k]. *)
Lemma bitmap_pos k r sb :
  0 <= r < BPB -> BBLOCK (k * BPB + r) sb = k + sb_bmapstart sb /\ (k * BPB + r) mod BPB = r.
Proof.
  intros Hr. unfold BBLOCK, BPB, BSIZE in *. split.
  - rewrite Z.div_add_l by lia. rewrite Z.div_small by lia. lia.
  - rewrite Z.add_comm, Z.mod_add by lia. by apply Z.mod_small.
Qed.

Lemma bitmap_split b : exists r, b = b / BPB * BPB + r /\ 0 <= r < BPB /\ r = b mod BPB.
Proof.
  exists (b mod BPB). pose proof (Z.div_mod b BPB ltac:(done)). pose proof (Z.mod_pos_bound b BPB ltac:(done)). lia.
Qed.

Lemma bfree_bit s k r d :
  0 <= r < BPB -> bview s (k + sb_bmapstart (k_sb s)) = Some d ->
  bfree_in s (k * BPB + r) <-> bit_at d (idx r) = false.
Proof.
  intros Hr Hd. destruct (bitmap_pos k r (k_sb s) Hr) as [H1 H2]. unfold bfree_in. rewrite H1, H2, Hd. naive_solver.
Qed.

(** What an allocation of block [b] does. *)
Record allocated (p : nat) (start : Z) (n : nat) (s : kstate) (b : Z) (u : kstate) : Prop := {
  al_range : 0 <= b < sb_size (k_sb s);
  al_free : bfree_in s b;
  al_first : forall b', 0 <= b' < b -> ~ bfree_in s b';
  al_txn : txn p start n u;
  al_disk : k_disk u = k_disk s;
  al_inode : k_inode u = k_inode s;
  al_zero : bview u b = Some (replicate 512 0);
  al_marks : forall b', 0 <= b' < sb_size (k_sb s) -> bfree_in u b' <-> bfree_in s b' /\ b' <> b;
  al_other : forall b', b' <> b -> b' <> BBLOCK b (k_sb s) -> bview u b' = bview s b'
}.

Lemma marks_after start s u1 u k bi v b' :
  bitmap_ok start s -> 0 <= k -> 0 <= b' < sb_size (k_sb s) ->
  Z.of_nat bi < BPB -> (bi / 8 < length v)%nat -> bview s (k + sb_bmapstart (k_sb s)) = Some v ->
  bfree_in s (k * BPB + Z.of_nat bi) ->
  block_set s (k + sb_bmapstart (k_sb s)) (set_bit v bi) u1 ->
  block_set u1 (k * BPB + Z.of_nat bi) (replicate 512 0) u ->
  bfree_in u b' <-> bfree_in s b' /\ b' <> k * BPB + Z.of_nat bi.
Proof.
  intros Hbm Hk Hb' Hbi Hbyte Hv Hfree Hset1 Hset2. set (b := k * BPB + Z.of_nat bi) in *.
  destruct (bitmap_split b') as (r & Hr & Hrr & Hrm). set (k' := b' / BPB) in *.
  destruct (bitmap_pos k' r (k_sb s) Hrr) as [HB Hmod]. rewrite <- Hr in HB, Hmod.
  destruct (bm_map _ _ Hbm b' Hb') as (_ & _ & Hnot). rewrite HB in Hnot.
  assert (k' + sb_bmapstart (k_sb s) <> b) as Hne by (intros He; apply Hnot; by rewrite He).
  assert (k_sb u = k_sb s) as Hsb by (by rewrite (bs_sb _ _ _ _ Hset2), (bs_sb _ _ _ _ Hset1)).
  unfold bfree_in. rewrite Hsb, HB, Hmod, (bs_view _ _ _ _ Hset2), decide_False, (bs_view _ _ _ _ Hset1) by done.
  destruct (decide (k' + sb_bmapstart (k_sb s) = k + sb_bmapstart (k_sb s))) as [Hkk|Hkk].
  - assert (k' = k) as -> by lia. rewrite Hv. split.
    + intros (d & [= <-] & Hd). rewrite bit_set in Hd by done. apply orb_false_iff in Hd as [Hd1 Hd2].
      apply bool_decide_eq_false in Hd1. split; [by exists v|]. intros ->. apply Hd1. unfold b in Hr. unfold idx. lia.
    + intros [(d & [= <-] & Hd) Hne']. eexists. split; [done|]. rewrite bit_set, Hd, orb_false_r by done.
      apply bool_decide_eq_false. intros ->. apply Hne'. rewrite Hr. unfold b, idx. lia.
  - split; [|naive_solver]. intros Hex. split; [done|]. intros ->. apply Hkk.
    unfold k'. f_equal. unfold b. unfold BPB, BSIZE in *. rewrite Z.div_add_l by lia. rewrite Z.div_small by lia. lia.
Qed.

(** Marking the bit and clearing the block. *)
Lemma mark_and_zero p start n s k bi v :
  txn p start (S (S n)) s -> bitmap_ok start s -> 0 <= k ->
  bview s (k + sb_bmapstart (k_sb s)) = Some v -> bit_at v bi = false ->
  (forall bj, (bj < bi)%nat -> bit_at v bj = true) ->
  (forall b', 0 <= b' < k * BPB -> ~ bfree_in s b') ->
  Z.of_nat bi < BPB -> k * BPB + Z.of_nat bi < sb_size (k_sb s) ->
  exists i t u, bread 1 (k + sb_bmapstart (k_sb s)) s = Done (Ok i) t /\ bdata (bget_ t i) = v /\
    (setbuf i (fun y => y <| bdata := set_bit (bdata y) bi |>) ;;; log_write i ;;; brelse i ;;;
     bzero 1 (k * BPB + Z.of_nat bi)) t = Done (Ok tt) u /\
    allocated p start n s (k * BPB + Z.of_nat bi) u.
Proof.
  intros Ht Hbm Hk Hv Hbit Hlow Hprev Hbi Hsz. set (b := k * BPB + Z.of_nat bi) in *.
  assert (0 <= b) as Hb0 by (unfold b, BPB, BSIZE in *; lia).
  destruct (bitmap_pos k (Z.of_nat bi) (k_sb s) ltac:(lia)) as [HB Hmod]. fold b in HB, Hmod.
  destruct (bm_map _ _ Hbm b ltac:(lia)) as (Hon & Hout & Hnot). rewrite HB in Hon, Hout, Hnot.
  pose proof (bm_start _ _ Hbm). pose proof (bm_size _ _ Hbm).
  assert (k < 2 ^ 30) as Hk30 by (unfold b, BPB, BSIZE in *; lia).
  destruct (txn_cache _ _ _ _ Ht) as [Hc _]. pose proof (view_len _ _ _ _ _ Hc Hv) as Hlen.
  assert (bi / 8 < length v)%nat as Hbyte.
  { rewrite Hlen. unfold BPB, BSIZE in Hbi. apply Nat.Div0.div_lt_upper_bound. lia. }
  destruct (txn_change p start (S n) s _ (fun d => set_bit d bi) v Ht Hon Hout ltac:(lia) Hv)
    as (i & t & u1 & Hr & Hdat & _ & Hrun & Ht1 & Hset1); [unfold set_bit; by rewrite length_alter|].
  assert (bfree_in s b) as Hfree by (exists v; by rewrite HB, Hmod; unfold idx; rewrite Nat2Z.id).
  assert (b <> k + sb_bmapstart (k_sb s)) as Hne by (intros He; apply Hnot; by rewrite <- He).
  destruct (bm_disk _ _ Hbm b ltac:(lia)) as [old Hold].
  assert (bview u1 b = bview s b) as Hvb by (rewrite (bs_view _ _ _ _ Hset1), decide_False by done; done).
  destruct (view_some p [] s b Hc ltac:(by eexists)) as [ov Hov]. rewrite Hov in Hvb.
  destruct (txn_change p start n u1 b (fun _ => replicate 512 0) ov Ht1) as (i2 & t2 & u & Hr2 & _ & _ & Hrun2 & Ht2 & Hset2);
    [rewrite (bs_disk _ _ _ _ Hset1); by eexists|by apply (bm_out _ _ Hbm); [lia|]|lia|done|done|].
  exists i, t, u. split_and!; [done|done| |].
  { rewrite (seq3_run _ _ _ _ _ _ Hrun). unfold bzero. rewrite (bind_Done _ _ _ _ _ Hr2). exact Hrun2. }
  split; try done.
  - intros b' Hb'. destruct (decide (b' < k * BPB)); [by apply Hprev; lia|].
    replace b' with (k * BPB + (b' - k * BPB)) by lia. rewrite (bfree_bit s k _ v) by (done || lia).
    rewrite Hlow; [done|]. unfold b, idx in *. lia.
  - by rewrite (bs_disk _ _ _ _ Hset2), (bs_disk _ _ _ _ Hset1).
  - by rewrite (bs_inode _ _ _ _ Hset2), (bs_inode _ _ _ _ Hset1).
  - by rewrite (bs_view _ _ _ _ Hset2), decide_True.
  - intros b' Hb'. by eapply marks_after.
  - intros b' Hb1 Hb2. rewrite HB in Hb2.
    by rewrite (bs_view _ _ _ _ Hset2), decide_False, (bs_view _ _ _ _ Hset1), decide_False.
Qed.

Lemma looked_bfree p s u b : looked p s u -> bfree_in u b <-> bfree_in s b.
Proof.
  intros Hl. assert (k_sb u = k_sb s) as Hsb by (by destruct (lo_step _ _ _ Hl) as [-> _]).
  unfold bfree_in. by rewrite Hsb, (lo_view _ _ _ Hl).
Qed.

Lemma looked_bitmap p start s u : looked p s u -> bitmap_ok start s -> bitmap_ok start u.
Proof.
  intros Hl []. assert (k_sb u = k_sb s) as Hsb by (by destruct (lo_step _ _ _ Hl) as [-> _]).
  split; rewrite ?Hsb, ?(lo_disk _ _ _ Hl); try done.
  - intros b Hb. rewrite (looked_bfree p s u) by done. by apply bm_map0.
  - intros b Hb. rewrite (looked_bfree p s u) by done. by apply bm_out0.
Qed.

Lemma looked_allocated p start n s t b u :
  looked p s t -> allocated p start n t b u -> allocated p start n s b u.
Proof.
  intros Hl []. assert (k_sb t = k_sb s) as Hsb by (by destruct (lo_step _ _ _ Hl) as [-> _]). rewrite Hsb in *.
  split; try done.
  - by apply (looked_bfree p s t).
  - intros b' Hb'. rewrite <- (looked_bfree p s t) by done. by apply al_first0.
  - by rewrite al_disk0, (lo_disk _ _ _ Hl).
  - by rewrite al_inode0, (looked_inode _ _ _ Hl).
  - intros b' Hb'. rewrite <- (looked_bfree p s t) by done. by apply al_marks0.
  - intros b' H1 H2. rewrite al_other0 by done. apply (lo_view _ _ _ Hl).
Qed.

(** One bitmap block. *)
Lemma balloc_in_ok p start n s k :
  txn p start (S (S n)) s -> bitmap_ok start s -> Z.of_nat k * BPB < sb_size (k_sb s) ->
  (forall b', 0 <= b' < Z.of_nat k * BPB -> ~ bfree_in s b') ->
  (exists b u, balloc_in 1 (k_sb s) k s = Done (Ok (Some b)) u /\ allocated p start n s b u) \/
  (exists u, balloc_in 1 (k_sb s) k s = Done (Ok None) u /\ looked p s u /\
     forall b', 0 <= b' < Z.min (Z.of_nat (S k) * BPB) (sb_size (k_sb s)) -> ~ bfree_in s b').
Proof.
  intros Ht Hbm Hk Hprev. set (b0 := Z.of_nat k * BPB) in *.
  assert (0 < BPB) as Hpos by done.
  destruct (bitmap_pos (Z.of_nat k) 0 (k_sb s) ltac:(lia)) as [HB _]. rewrite Z.add_0_r in HB. fold b0 in HB.
  destruct (bm_map _ _ Hbm b0 ltac:(unfold b0; lia)) as (Hon & _ & _). rewrite HB in Hon.
  destruct (txn_cache _ _ _ _ Ht) as [Hc Hr]. destruct (view_some p [] s _ Hc Hon) as [v Hv].
  unfold balloc_in. fold b0. rewrite HB.
  destruct (find_free v (idx (Z.min BPB (sb_size (k_sb s) - b0)))) as [bi|] eqn:Hfind.
  - left. destruct (find_free_some _ _ _ Hfind) as (Hlt & Hbit & Hlow). unfold idx in Hlt.
    destruct (mark_and_zero p start n s (Z.of_nat k) bi v Ht Hbm) as (i & t & u & Hb & Hd & Hrun & Hal);
      try done; try lia.
    exists (b0 + Z.of_nat bi), u. split; [|done]. rewrite (bind_Done _ _ _ _ _ Hb). unfold getbuf.
    rewrite bind_gets, Hd, Hfind. exact (seq4_run _ _ _ _ _ _ _ Hrun).
  - right. pose proof (find_free_none _ _ Hfind) as Hall.
    destruct (read_block p s _ Hc Hr Hon) as (i & t & u & Hb & Hvt & _ & Hrel & Hl).
    rewrite Hv in Hvt. injection Hvt as Hvt.
    exists u. split; [|split; [done|]].
    + rewrite (bind_Done _ _ _ _ _ Hb). unfold getbuf. rewrite bind_gets, <- Hvt, Hfind.
      by rewrite (bind_Done _ _ _ _ _ Hrel).
    + intros b' Hb'. destruct (decide (b' < b0)); [apply Hprev; lia|].
      replace b' with (Z.of_nat k * BPB + (b' - b0)) by lia.
      rewrite (bfree_bit s _ _ v) by (done || unfold b0 in *; lia). rewrite Hall; [done|].
      unfold idx, b0 in *. lia.
Qed.

Lemma balloc_loop_ok p start n m k s :
  txn p start (S (S n)) s -> bitmap_ok start s ->
  Z.of_nat (k + m) * BPB < sb_size (k_sb s) + BPB ->
  (forall b', 0 <= b' < Z.min (Z.of_nat k * BPB) (sb_size (k_sb s)) -> ~ bfree_in s b') ->
  (exists b u, mfor_ret (seq k m) (balloc_in 1 (k_sb s)) s = Done (Ok (Some b)) u /\ allocated p start n s b u) \/
  (exists u, mfor_ret (seq k m) (balloc_in 1 (k_sb s)) s = Done (Ok None) u /\ looked p s u /\
     forall b', 0 <= b' < Z.min (Z.of_nat (k + m) * BPB) (sb_size (k_sb s)) -> ~ bfree_in s b').
Proof.
  revert k s. induction m as [|m IH]; intros k s Ht Hbm Hlt Hprev; cbn [seq mfor_ret].
  { right. exists s. rewrite Nat.add_0_r. split_and!; [done|by apply looked_refl; eapply txn_cache|done]. }
  assert (0 < BPB) as Hpos by done.
  assert (Z.of_nat k * BPB < sb_size (k_sb s)) as Hk by nia.
  destruct (balloc_in_ok p start n s k Ht Hbm Hk) as [(b & u & Hu & Hal)|(t & Hu & Hl & Hnone)].
  { intros b' Hb'. apply Hprev. lia. }
  { left. exists b, u. split; [|done]. by rewrite (bind_Done _ _ _ _ _ Hu). }
  assert (k_sb t = k_sb s) as Hsb by (by destruct (lo_step _ _ _ Hl) as [-> _]).
  rewrite (bind_Done _ _ _ _ _ Hu). rewrite <- Hsb in *. rewrite <- Nat.add_succ_comm in Hlt.
  destruct (IH (S k) t) as [(b & u & Hrun & Hal)|(u & Hrun & Hl2 & Hall)].
  { by eapply txn_looked. } { by eapply looked_bitmap. } { done. }
  { intros b' Hb'. rewrite (looked_bfree p s t) by done. by apply Hnone. }
  - left. exists b, u. split; [done|]. by eapply looked_allocated.
  - right. exists u. split; [done|]. split; [by eapply looked_trans|]. rewrite <- Nat.add_succ_comm.
    intros b' Hb'. rewrite <- (looked_bfree p s t) by done. by apply Hall.
Qed.

Lemma bitmap_blocks size : 0 <= size ->
  size <= Z.of_nat (idx ((size + BPB - 1) / BPB)) * BPB < size + BPB.
Proof.
  intros Hs. unfold BPB, BSIZE. pose proof (Z.div_mod (size + 512 * 8 - 1) (512 * 8) ltac:(lia)).
  pose proof (Z.mod_pos_bound (size + 512 * 8 - 1) (512 * 8) ltac:(lia)).
  assert (0 <= (size + 512 * 8 - 1) / (512 * 8)) by (apply Z.div_pos; lia). unfold idx. lia.
Qed.

(** C21: balloc() in a transaction with two blocks to spare returns the lowest
    block that is marked free, marks it and nothing else as used, and clears
    it; no other block but its bitmap block changes, and nothing goes to the
    disk before the commit.  If no block is free it panics. *)
Theorem balloc_lowest p start n s :
  txn p start (S (S n)) s -> bitmap_ok start s ->
  (exists b u, balloc 1 s = Done (Ok b) u /\ allocated p start n s b u) \/
  ((exists u, balloc 1 s = Done (Stop (Panic "balloc: out of blocks")) u) /\
   forall b, 0 <= b < sb_size (k_sb s) -> ~ bfree_in s b).
Proof.
  intros Ht Hbm. pose proof (bm_size _ _ Hbm) as Hsz. pose proof (bitmap_blocks (sb_size (k_sb s)) ltac:(lia)).
  unfold balloc. rewrite bind_gets.
  destruct (balloc_loop_ok p start n (idx ((sb_size (k_sb s) + BPB - 1) / BPB)) 0 s Ht Hbm)
    as [(b & u & Hu & Hal)|(u & Hu & _ & Hnone)]; [simpl; lia|lia|..].
  - left. exists b, u. split; [|done]. by rewrite (bind_Done _ _ _ _ _ Hu).
  - right. split; [exists u; by rewrite (bind_Done _ _ _ _ _ Hu)|]. intros b Hb. apply Hnone. simpl. lia.
Qed.

(** A disk of 100 blocks whose bitmap, block 40, marks blocks 60 to 99 free. *)
Definition map_disk : gmap Z (list Z) :=
  <[40 := replicate 7 255 ++ [15] ++ replicate 504 0]> small_disk.

Definition alloc_world : kstate :=
  (fresh_txn map_disk) <| k_sb := mk_sb 100 60 8 30 2 33 40 |>.

Lemma map_disk_some b : 0 <= b < 100 -> is_Some (map_disk !! b).
Proof.
  intros Hb. unfold map_disk. rewrite lookup_insert. case_decide; [by eexists|]. by apply small_disk_some.
Qed.

Lemma pending_sb p start bs s sb : pending p start bs s -> pending p start bs (s <| k_sb := sb |>).
Proof. intros [Hc ????????]. split; try done. destruct Hc. by split. Qed.

Lemma alloc_world_txn : txn 1 2 2 alloc_world.
Proof.
  exists []. split; [|split_and!; vm_compute; done]. apply pending_sb, fresh_txn_pending.
  - apply map_Forall_insert_2; [done|apply small_disk_len].
  - apply map_disk_some.
Qed.

Lemma alloc_world_view : bview alloc_world 40 = Some (replicate 7 255 ++ [15] ++ replicate 504 0).
Proof. by vm_compute. Qed.

(** Block [b] of the example is free exactly from 60 on. *)
Lemma alloc_world_free b : 0 <= b < 100 -> bfree_in alloc_world b <-> 60 <= b.
Proof.
  intros Hb. replace b with (0 * BPB + b) at 1 by lia.
  rewrite (bfree_bit alloc_world 0 b _ ltac:(unfold BPB, BSIZE; lia) alloc_world_view).
  assert (forallb (fun k => Bool.eqb (bit_at (replicate 7 255 ++ [15] ++ replicate 504 0) k) (k <? 60)%nat)
    (seq 0 100) = true) as Hall by (by vm_compute).
  rewrite forallb_forall in Hall. specialize (Hall (idx b)).
  rewrite <- list_elem_of_In, elem_of_seq in Hall. specialize (Hall ltac:(unfold idx; lia)).
  apply Bool.eqb_prop in Hall. rewrite Hall. unfold idx. rewrite Nat.ltb_ge. lia.
Qed.

Lemma alloc_world_bitmap : bitmap_ok 2 alloc_world.
Proof.
  assert (forall b, 0 <= b < 100 -> BBLOCK b (k_sb alloc_world) = 40) as HB.
  { intros b Hb. unfold BBLOCK, BPB, BSIZE. rewrite Z.div_small by lia. done. }
  split; change (sb_size (k_sb alloc_world)) with 100.
  - lia.
  - vm_compute. done.
  - apply map_disk_some.
  - intros b Hb. rewrite HB by done. split_and!; [apply map_disk_some; lia|right; vm_compute; done|].
    rewrite alloc_world_free by lia. lia.
  - intros b Hb. rewrite alloc_world_free by done. right. unfold LOGSIZE, MAXOPBLOCKS. lia.
Qed.

Lemma balloc_lowest_witness :
  exists b u, balloc 1 alloc_world = Done (Ok b) u /\ bview u b = Some (replicate 512 0).
Proof.
  destruct (balloc_lowest 1 2 0 alloc_world alloc_world_txn alloc_world_bitmap)
    as [(b & u & Hu & Hal)|[_ Hnone]].
  - exists b, u. split; [exact Hu|apply (al_zero _ _ _ _ _ _ Hal)].
  - exfalso. apply (Hnone 60); [vm_compute; done|]. apply alloc_world_free; lia.
Defined.
