(* ===== verification/Dir.v ===== *)
(** * Directories (theorems on dirlookup and dirlink of fs.c) *)

From S2P Require Import Prelude Cstring Kernel Spinlock ProcCore Console Bio Quiet Cache Log Crash Inode Fs Files.

(** ** Entries *)

(** Entry [k] of the directory [x], as the buffer cache shows it. *)
Definition dir_entry (s : kstate) (x : inode) (k : nat) : list Z := fbytes s x (16 * Z.of_nat k) 16.

(** The entry is in use and has the name, cut at 14 characters. *)
Definition names (name e : list Z) : Prop := de_inum e <> 0 /\ cprefix DIRSIZ (de_name e) = cprefix DIRSIZ name.

#[export] Instance names_dec name e : Decision (names name e).
Proof. unfold names. apply _. Defined.

(** The name is an array of at least 14 characters, or a string. *)
Definition readable (name : list Z) : Prop := (DIRSIZ <= length name)%nat \/ is_Some (cstr name).

(** A directory of [n] entries whose blocks are all there. *)
Record dir_ok (s : kstate) (x : inode) (n : nat) : Prop := {
  dk_dev : idev x = 1;
  dk_type : itype x = T_DIR;
  dk_size : isize x = 16 * Z.of_nat n;
  dk_small : isize x < 2 ^ 31;
  dk_mapped : file_mapped s x
}.

Lemma strncmp_prefix p q n : (n <= length p)%nat \/ is_Some (cstr p) -> (n <= length q)%nat ->
  exists r, strncmp p q n = Some r /\ (r = 0 <-> cprefix n p = cprefix n q).
Proof.
  revert p q. induction n as [|n IH]; intros p q Hp Hq; simpl; [by exists 0|].
  destruct p as [|x p]; [simpl in Hp; destruct Hp as [Hp|[??]]; [lia|done]|]. destruct q as [|y q]; [simpl in Hq; lia|]. simpl in *.
  destruct (Z.eqb_spec x 0) as [->|Hx]; simpl.
  - exists (0 - y). split; [done|]. destruct (Z.eqb_spec y 0) as [->|]; [by split|]. split; [lia|done].
  - destruct (Z.eqb_spec x y) as [->|Hxy].
    + rewrite (proj2 (Z.eqb_neq y 0)) by done. destruct (IH p q) as (r & -> & Hr); [|lia|].
      { destruct Hp as [Hp|[z Hz]]; [left; lia|right]. by destruct (cstr p). }
      exists r. split; [done|]. rewrite Hr. split; [by intros ->|by intros [=]].
    + exists (x - y). split; [done|]. split; [lia|]. destruct (Z.eqb_spec y 0); by intros [=].
Qed.

(** ** The inode cache *)

(** A new entry of the inode cache. *)
Definition fresh_inode (dev n : Z) (x : inode) : inode :=
  x <| idev := dev |> <| inum := n |> <| iref := 1 |> <| ivalid := false |>.

Definition one_more (x : inode) : inode := x <| iref := i32 (iref x + 1) |>.

(** What iget does: a cached inode gets one more reference, else the first
    free entry is taken. *)
Definition iget_spec (dev n : Z) (s : kstate) : option (nat * kstate) :=
  match find_inode s dev n with
  | Some i => Some (i, s <| k_inode ::= alter one_more i |>)
  | None =>
      match find_empty s with
      | Some i => Some (i, s <| k_inode ::= alter (fresh_inode dev n) i |>)
      | None => None
      end
  end.

Lemma critical_inode {A} p s (f : list inode -> list inode) (a : A) : quiet p s ->
  (modify (fun s => s <| k_inode ::= f |>) ;;; release lk_icache ;;; ret a)%K (acquired lk_icache s) = Done (Ok a) (s <| k_inode ::= f |>).
Proof.
  intros Hq. rewrite bind_modify. change ((acquired lk_icache s) <| k_inode ::= f |>) with (acquired lk_icache (s <| k_inode ::= f |>)).
  assert (quiet p (s <| k_inode ::= f |>)) as Hq' by (by apply (quiet_env p s)).
  by rewrite (bind_Done _ _ _ _ _ (release_acquired _ lk_icache (quiet_calm _ _ Hq') (quiet_free _ _ _ Hq' (static_fixed lk_icache ltac:(set_solver))))).
Qed.

Lemma iget_ok p dev n s : quiet p s ->
  match iget_spec dev n s with
  | Some (i, t) => iget dev n s = Done (Ok i) t
  | None => exists u, iget dev n s = Done (Stop (Panic "iget: no inodes")) u
  end.
Proof.
  intros Hq. unfold iget_spec, iget.
  rewrite (bind_Done _ _ _ _ _ (acquire_calm s lk_icache (quiet_calm _ _ Hq) (quiet_free _ _ _ Hq (static_fixed lk_icache ltac:(set_solver))))).
  rewrite bind_gets. change (find_inode (acquired lk_icache s) dev n) with (find_inode s dev n).
  destruct (find_inode s dev n) as [i|]; [by apply (critical_inode p)|].
  rewrite bind_gets. change (find_empty (acquired lk_icache s)) with (find_empty s).
  destruct (find_empty s) as [i|]; [by apply (critical_inode p)|]. by eexists.
Qed.

(** ** dirlookup *)

Lemma looked_entry p s u x k : looked p s u -> dir_entry u x k = dir_entry s x k.
Proof. intros Hl. unfold dir_entry, fbytes. apply list_fmap_ext. intros i j _. by eapply looked_fbyte. Qed.

Lemma looked_dir p s u x n : looked p s u -> dir_ok s x n -> dir_ok u x n.
Proof. intros Hl [H1 H2 H3 H4 H5]. split; try done. intros j Hj. eapply looked_mapped; [done|]. by apply H5. Qed.

Lemma length_dir_entry s x k : length (dir_entry s x k) = 16%nat.
Proof. unfold dir_entry, fbytes. by rewrite length_fmap, length_seq. Qed.

(** Reading entry [k]. *)
Lemma read_entry p dp x n s k :
  cache_ok p [] s -> room [] s -> iget_ s dp = x -> dir_ok s x n -> (k < n)%nat ->
  exists u, readi dp (16 * Z.of_nat k) sizeof_dirent s = Done (Ok (16, dir_entry s x k)) u /\ looked p s u.
Proof.
  intros Hc Hr Hx [Hdev Hty Hsz Hsm Hmap] Hk.
  destruct (readi_ok p dp x (16 * Z.of_nat k) sizeof_dirent s) as (u & Hu & Hl); try done; unfold sizeof_dirent in *; try lia.
  { by rewrite Hty. }
  exists u. split; [|done]. rewrite Hu. by rewrite Z.min_l by lia.
Qed.

(** The outcome of a search from entry [k] on. *)
Definition lookup_result (p : nat) (name : list Z) (x : inode) (n k : nat) (s : kstate) (r : exec kstate (option (nat * Z))) : Prop :=
  (exists j t, (k <= j < n)%nat /\ names name (dir_entry s x j) /\ (forall i, (k <= i < j)%nat -> ~ names name (dir_entry s x i)) /\
     looked p s t /\
     match iget_spec 1 (de_inum (dir_entry s x j)) t with
     | Some (i, u) => r = Done (Ok (Some (i, 16 * Z.of_nat j))) u
     | None => exists u, r = Done (Stop (Panic "iget: no inodes")) u
     end) \/
  (forall j, (k <= j < n)%nat -> ~ names name (dir_entry s x j)) /\ exists u, r = Done (Ok None) u /\ looked p s u.

Lemma lookup_result_next p name x n k s t r :
  looked p s t -> ~ names name (dir_entry s x k) -> lookup_result p name x n (S k) t r -> lookup_result p name x n k s r.
Proof.
  intros Hl Hno [(j & u & Hj & Hn & Hf & Hlu & Hr)|[Hf (u & Hr & Hlu)]].
  - left. exists j, u. rewrite (looked_entry p s t) in Hn, Hr by done. split; [lia|]. split; [exact Hn|]. split; [|split; [|exact Hr]].
    + intros i Hi. destruct (decide (i = k)) as [->|Hne]; [done|]. rewrite <- (looked_entry p s t) by done. apply Hf. lia.
    + by eapply looked_trans.
  - right. split; [|exists u; split; [done|by eapply looked_trans]].
    intros j Hj. destruct (decide (j = k)) as [->|Hne]; [done|]. rewrite <- (looked_entry p s t) by done. apply Hf. lia.
Qed.

Lemma dirlookup_loop_ok fuel p dp x name n k s :
  cache_ok p [] s -> room [] s -> iget_ s dp = x -> dir_ok s x n -> readable name -> (k <= n)%nat -> (n - k <= fuel)%nat ->
  lookup_result p name x n k s (dirlookup_loop fuel dp name (16 * Z.of_nat k) s).
Proof.
  revert k s. induction fuel as [|fuel IH]; intros k s Hc Hr Hx Hdir Hname Hk Hfuel;
    cbn [dirlookup_loop]; unfold getinode; rewrite bind_gets, Hx, (dk_size _ _ _ Hdir).
  { rewrite (proj2 (Z.ltb_ge _ _)) by lia. right. split; [intros j Hj; lia|]. exists s. split; [done|by apply looked_refl]. }
  destruct (Z.ltb_spec (16 * Z.of_nat k) (16 * Z.of_nat n)) as [Hlt|Hge]; cbn [negb].
  2: { right. split; [intros j Hj; lia|]. exists s. split; [done|by apply looked_refl]. }
  destruct (read_entry p dp x n s k Hc Hr Hx Hdir ltac:(lia)) as (t & Ht & Hl). rewrite (bind_Done _ _ _ _ _ Ht).
  change (16 =? sizeof_dirent) with true. cbn [negb].
  assert (~ names name (dir_entry s x k) -> lookup_result p name x n k s (dirlookup_loop fuel dp name (16 * Z.of_nat k + sizeof_dirent) t)) as Hnext.
  { intros Hno. apply (lookup_result_next p name x n k s t); [done|done|]. unfold sizeof_dirent.
    replace (16 * Z.of_nat k + 16) with (16 * Z.of_nat (S k)) by lia.
    apply IH; [apply Hl|apply Hl|unfold iget_; by rewrite (looked_inode _ _ _ Hl)|by eapply looked_dir|done|lia|lia]. }
  destruct (Z.eqb_spec (de_inum (dir_entry s x k)) 0) as [H0|H0]; [apply Hnext; by intros [? _]|].
  destruct (strncmp_prefix name (de_name (dir_entry s x k)) DIRSIZ Hname) as (c & Hcmp & Hc0).
  { unfold de_name. rewrite length_drop, length_dir_entry. unfold DIRSIZ. lia. }
  unfold namecmp. rewrite Hcmp. destruct (Z.eqb_spec c 0) as [->|Hne].
  - left. exists k, t. split_and!; try done; try lia; [split; [done|symmetry; by apply Hc0]|].
    assert (iget_ t dp = x) as Hxt by (unfold iget_; by rewrite (looked_inode _ _ _ Hl)).
    rewrite bind_gets, Hxt, (dk_dev _ _ _ Hdir).
    pose proof (iget_ok p 1 (de_inum (dir_entry s x k)) t (co_quiet _ _ _ (lo_ok _ _ _ Hl))) as Hg.
    destruct (iget_spec _ _ t) as [[i u]|]; [by rewrite (bind_Done _ _ _ _ _ Hg)|].
    destruct Hg as [u Hu]. exists u. by rewrite (bind_Stop _ _ _ _ _ Hu).
  - apply Hnext. intros [_ He]. apply Hne, Hc0. done.
Qed.

Lemma dirlookup_ok p dp x name n s :
  cache_ok p [] s -> room [] s -> iget_ s dp = x -> dir_ok s x n -> readable name ->
  lookup_result p name x n 0 s (dirlookup dp name s).
Proof.
  intros Hc Hr Hx Hdir Hname. unfold dirlookup, getinode. rewrite bind_gets, Hx. unfold id.
  rewrite (dk_type _ _ _ Hdir). change (T_DIR =? T_DIR) with true. cbn [negb].
  apply (dirlookup_loop_ok _ p dp x name n 0); try done; [lia|]. rewrite (dk_size _ _ _ Hdir). unfold sizeof_dirent, idx.
  rewrite Z.mul_comm, Z.div_mul by lia. lia.
Qed.

(** C17: dirlookup() finds the entry with the name.  In a directory whose blocks
    are there, it returns the inode of the first entry in use whose name agrees
    with the given one up to 14 characters, with a new reference from iget, and
    the offset of the entry; if there is none it returns 0.  Reading changes
    no block, and the fuel is enough. *)
Theorem dirlookup_finds p dp x name n s :
  cache_ok p [] s -> room [] s -> iget_ s dp = x -> dir_ok s x n -> readable name ->
  lookup_result p name x n 0 s (dirlookup dp name s).
Proof. apply dirlookup_ok. Qed.

(** ** dirlink *)

Lemma dirlink_loop_ok fuel p dp x n k j s :
  cache_ok p [] s -> room [] s -> iget_ s dp = x -> dir_ok s x n -> (k <= j < n)%nat -> (j - k < fuel)%nat ->
  de_inum (dir_entry s x j) = 0 -> (forall i, (k <= i < j)%nat -> de_inum (dir_entry s x i) <> 0) ->
  exists u, dirlink_loop fuel dp (16 * Z.of_nat k) s = Done (Ok (16 * Z.of_nat j)) u /\ looked p s u.
Proof.
  revert k s. induction fuel as [|fuel IH]; intros k s Hc Hr Hx Hdir Hk Hfuel Hj Hi; [lia|].
  cbn [dirlink_loop]. unfold getinode. rewrite bind_gets, Hx, (dk_size _ _ _ Hdir).
  rewrite (proj2 (Z.ltb_lt _ _)) by lia. cbn [negb].
  destruct (read_entry p dp x n s k Hc Hr Hx Hdir ltac:(lia)) as (t & Ht & Hl). rewrite (bind_Done _ _ _ _ _ Ht).
  change (16 =? sizeof_dirent) with true. cbn [negb]. destruct (decide (k = j)) as [->|Hne].
  - rewrite Hj. by exists t.
  - rewrite (proj2 (Z.eqb_neq _ _)) by (apply Hi; lia). unfold sizeof_dirent.
    replace (16 * Z.of_nat k + 16) with (16 * Z.of_nat (S k)) by lia.
    destruct (IH (S k) t) as (u & Hu & Hlu); [apply Hl|apply Hl|unfold iget_; by rewrite (looked_inode _ _ _ Hl)|
      by eapply looked_dir|lia|lia|by rewrite (looked_entry p s t)|intros i Hi'; rewrite (looked_entry p s t) by done; apply Hi; lia|].
    exists u. split; [done|]. by eapply looked_trans.
Qed.

(** The entry dirlink writes. *)
Definition new_entry (ino : Z) (name : list Z) : list Z :=
  le_store 2 [0; 0] 0 ino ++ cprefix DIRSIZ name ++ replicate (DIRSIZ - length (cprefix DIRSIZ name)) 0.

Lemma cprefix_length n l : (length (cprefix n l) <= n)%nat.
Proof. revert l. induction n as [|n IH]; intros [|c l]; simpl; try lia. case_match; simpl; [lia|]. specialize (IH l). lia. Qed.

Lemma length_new_entry ino name : length (new_entry ino name) = 16%nat.
Proof.
  unfold new_entry. pose proof (cprefix_length DIRSIZ name). rewrite !length_app, length_le_store, length_replicate. change DIRSIZ with 14%nat in *. cbn [length]. lia.
Qed.

Lemma cprefix_pad n m l : cprefix n (cprefix n l ++ replicate m 0) = cprefix n l.
Proof.
  revert l. induction n as [|n IH]; intros l; [by destruct (_ ++ _)|]. destruct l as [|c l]; simpl; [by destruct m|].
  destruct (Z.eqb_spec c 0) as [->|Hc]; simpl; [by destruct m|]. rewrite (proj2 (Z.eqb_neq _ _)) by done. by rewrite IH.
Qed.

Lemma new_entry_names ino name : 0 < ino < 2 ^ 16 -> de_inum (new_entry ino name) = ino /\ names name (new_entry ino name).
Proof.
  intros Hi. assert (de_inum (new_entry ino name) = ino) as Hn.
  { unfold de_inum, new_entry. etransitivity; [|by apply (Z.mod_small ino (256 ^ Z.of_nat 2)); change (256 ^ Z.of_nat 2) with (2 ^ 16); lia].
    rewrite <- (le_load_store 2 [0; 0] 0 ino) by (cbn; lia). apply le_load_ext. intros j Hj. unfold aget.
    rewrite lookup_app_l; [done|]. rewrite length_le_store. cbn. lia. }
  split; [done|]. split; [lia|]. unfold de_name, new_entry. rewrite drop_app_length' by (by rewrite length_le_store). apply cprefix_pad.
Qed.

(** The first free entry. *)
Definition first_free (s : kstate) (x : inode) (n j : nat) : Prop :=
  (j < n)%nat /\ de_inum (dir_entry s x j) = 0 /\ forall i, (i < j)%nat -> de_inum (dir_entry s x i) <> 0.

Lemma entries_overwritten x start s u n j src k :
  overwritten x start s u (16 * Z.of_nat j) 16 src -> length src = 16%nat -> isize x = 16 * Z.of_nat n -> (j < n)%nat -> (k < n)%nat ->
  dir_entry u x k = if decide (k = j) then src else dir_entry s x k.
Proof.
  intros Hov Hlen Hsz Hj Hk. case_decide as He.
  - subst k. unfold dir_entry. change 16%nat with (idx 16). rewrite (overwritten_read x start s u _ _ src) by (done || lia).
    apply take_ge. unfold idx. lia.
  - destruct Hov as (_ & _ & Hb). unfold dir_entry, fbytes. apply list_fmap_ext. intros i i' Hi. apply lookup_seq in Hi as [-> Hi].
    rewrite Hb, decide_False by lia. done.
Qed.

Lemma dirlink_ok p start dp x name ino n j cap s :
  txn p start (S cap) s -> iget_ s dp = x -> dir_ok s x n -> file_ok start s x -> isize x <= MAXFILE * BSIZE -> readable name ->
  (forall k, (k < n)%nat -> ~ names name (dir_entry s x k)) -> first_free s x n j ->
  exists u, dirlink dp name ino s = Done (Ok 0) u /\ txn p start 0 u /\ iget_ u dp = x /\ dir_ok u x n /\ file_ok start u x /\
    forall k, (k < n)%nat -> dir_entry u x k = if decide (k = j) then new_entry ino name else dir_entry s x k.
Proof.
  intros Ht Hx Hdir Hf Hmax Hname Hno (Hj & Hj0 & Hfirst). destruct (txn_cache _ _ _ _ Ht) as [Hc Hr].
  destruct (dirlookup_ok p dp x name n s Hc Hr Hx Hdir Hname) as [(k & t & Hk & Hn & _)|[_ (t & Hrun & Hlt)]]; [by destruct (Hno k ltac:(lia))|].
  assert (iget_ t dp = x) as Hxt by (unfold iget_; by rewrite (looked_inode _ _ _ Hlt)). pose proof (looked_dir _ _ _ _ _ Hlt Hdir) as Hdt.
  destruct (dirlink_loop_ok (S (idx (isize x / sizeof_dirent))) p dp x n 0 j t) as (v & Hloop & Hlv);
    [apply Hlt|apply Hlt|done|done|lia| |by rewrite (looked_entry p s t)|intros i Hi; rewrite (looked_entry p s t) by done; apply Hfirst; lia|].
  { rewrite (dk_size _ _ _ Hdir). unfold sizeof_dirent, idx. rewrite Z.mul_comm, Z.div_mul by lia. lia. }
  pose proof (looked_trans _ _ _ _ Hlt Hlv) as Hl. assert (iget_ v dp = x) as Hxv by (unfold iget_; by rewrite (looked_inode _ _ _ Hlv)).
  pose proof (dk_size _ _ _ Hdir) as Hsz. pose proof (Z.mod_pos_bound (16 * Z.of_nat j) 512).
  destruct (writei_ok p start dp x (new_entry ino name) (16 * Z.of_nat j) 16 v (S cap)) as (u & Hw & Htu & Hxu & Hov);
    [by eapply txn_looked|done|apply Hdir|by rewrite (dk_type _ _ _ Hdir)|done|by eapply looked_file|lia|lia|lia|by rewrite length_new_entry| |].
  { right. unfold BSIZE. pose proof (Z.div_mod (16 * Z.of_nat j) 512). lia. }
  exists u. split.
  - unfold dirlink. rewrite (bind_Done _ _ _ _ _ Hrun). unfold getinode. rewrite bind_gets, Hxt.
    rewrite (bind_Done _ _ _ _ _ Hloop). rewrite strncpy_spec; [|done|done]. rewrite drop_ge, app_nil_r by done.
    fold (new_entry ino name). by rewrite (bind_Done _ _ _ _ _ Hw).
  - split; [done|]. split; [done|]. pose proof Hov as (_ & Hfu & _). split; [|split; [done|]].
    + destruct Hdir as [H1 H2 H3 H4 H5]. split; try done. apply (fo_mapped _ _ _ Hfu).
    + intros k Hk. rewrite (entries_overwritten x start v u n j (new_entry ino name) k) by (done || apply length_new_entry).
      case_decide; [done|]. by rewrite (looked_entry p s v).
Qed.

(** C16: dirlink() then dirlookup() is a round trip.  In a transaction, in a
    directory with a free entry and without the name, dirlink succeeds, writes
    the inode number and the name into the first free entry and leaves every
    other entry as it was; a lookup of the name then returns that inode and
    the offset of that entry. *)
Theorem dirlink_dirlookup p start dp x name ino n j cap s :
  txn p start (S cap) s -> iget_ s dp = x -> dir_ok s x n -> file_ok start s x -> isize x <= MAXFILE * BSIZE -> readable name ->
  0 < ino < 2 ^ 16 -> (forall k, (k < n)%nat -> ~ names name (dir_entry s x k)) -> first_free s x n j ->
  exists u, dirlink dp name ino s = Done (Ok 0) u /\
    (forall k, (k < n)%nat -> dir_entry u x k = if decide (k = j) then new_entry ino name else dir_entry s x k) /\
    exists t, looked p u t /\
      match iget_spec 1 ino t with
      | Some (i, v) => dirlookup dp name u = Done (Ok (Some (i, 16 * Z.of_nat j))) v
      | None => exists v, dirlookup dp name u = Done (Stop (Panic "iget: no inodes")) v
      end.
Proof.
  intros Ht Hx Hdir Hf Hmax Hname Hino Hno Hfree. destruct (new_entry_names ino name Hino) as [Hin Hnn].
  destruct (dirlink_ok p start dp x name ino n j cap s Ht Hx Hdir Hf Hmax Hname Hno Hfree) as (u & Hu & Htu & Hxu & Hdu & _ & He).
  exists u. split; [done|]. split; [done|]. destruct (txn_cache _ _ _ _ Htu) as [Hc Hr]. destruct Hfree as (Hj & _).
  assert (names name (dir_entry u x j)) as Hnj by (rewrite He, decide_True; done).
  destruct (dirlookup_ok p dp x name n u Hc Hr Hxu Hdu Hname) as [(k & t & Hk & Hn & Hb & Hl & Hm)|[Hall _]].
  - assert (k = j) as ->.
    { rewrite He in Hn by lia. case_decide; [done|]. by destruct (Hno k ltac:(lia)). }
    exists t. split; [done|]. rewrite He, decide_True, Hin in Hm by done. exact Hm.
  - by destruct (Hall j ltac:(lia)).
Qed.

(** ** An empty directory of two entries *)

Definition root_dir : inode :=
  inode0 <| idev := 1 |> <| inum := 1 |> <| iref := 1 |> <| ivalid := true |> <| itype := T_DIR |>
         <| isize := 32 |> <| iaddrs := [60; 0; 0; 0; 0; 0; 0; 0] |>.

Definition dir_world : kstate := open_txn <| k_inode := root_dir :: replicate 49 inode0 |>.

Lemma dir_world_txn : txn 1 2 5 dir_world.
Proof. exists []. split; [apply pending_inode, open_txn_pending|split_and!; vm_compute; done]. Qed.

Lemma root_dir_mapped bn : mapped dir_world root_dir bn <-> bn = 0.
Proof.
  split.
  - intros (Hbn & Ha & _ & Hi). unfold NDIRECT in Hi. destruct (decide (7 <= bn)) as [H7|H7].
    { destruct (Hi H7) as [Hz _]. by unfold indirect in Hz. }
    unfold addr_of, NDIRECT in Ha. rewrite (proj2 (Z.ltb_lt bn 7)) in Ha by lia.
    assert (bn = 0 \/ bn = 1 \/ bn = 2 \/ bn = 3 \/ bn = 4 \/ bn = 5 \/ bn = 6) as Hc by lia.
    destruct Hc as [-> | [-> | [-> | [-> | [-> | [-> | -> ]]]]]]; try done; by exfalso; apply Ha.
  - intros ->. split_and!; [vm_compute; done|vm_compute; done|done| |unfold NDIRECT; lia].
    change (k_disk dir_world) with small_disk. apply small_disk_some. vm_compute. done.
Qed.

Lemma root_dir_file : file_ok 2 dir_world root_dir.
Proof.
  split.
  - intros j [Hj0 Hj]. change (isize root_dir) with 32 in Hj. apply root_dir_mapped. apply Z.div_small. unfold BSIZE. lia.
  - intros bn ->%root_dir_mapped. split; [right; vm_compute; done|vm_compute; done].
  - by intros b1 b2 ->%root_dir_mapped ->%root_dir_mapped.
  - by intros bn ->%root_dir_mapped.
Qed.

Lemma root_dir_ok : dir_ok dir_world root_dir 2.
Proof. split; [done|done|done|vm_compute; done|apply (fo_mapped _ _ _ root_dir_file)]. Qed.

Lemma root_dir_free k : (k < 2)%nat -> de_inum (dir_entry dir_world root_dir k) = 0.
Proof. intros Hk. destruct k as [|[|k]]; [vm_compute; done|vm_compute; done|lia]. Qed.

Lemma dirlookup_finds_witness : exists u, dirlookup 0 (chars "cat" ++ [0]) dir_world = Done (Ok None) u.
Proof.
  destruct (txn_cache _ _ _ _ dir_world_txn) as [Hc Hr].
  destruct (dirlookup_finds 1 0 root_dir (chars "cat" ++ [0]) 2 dir_world Hc Hr eq_refl root_dir_ok) as [(j & t & Hj & [Hn _] & _)|[_ (u & Hu & _)]].
  - right. by eexists.
  - exfalso. apply Hn, root_dir_free. lia.
  - exists u. exact Hu.
Defined.

Lemma dirlink_dirlookup_witness : exists u, dirlink 0 (chars "cat" ++ [0]) 7 dir_world = Done (Ok 0) u /\
  dir_entry u root_dir 0 = [7; 0] ++ chars "cat" ++ replicate 11 0.
Proof.
  destruct (dirlink_dirlookup 1 2 0 root_dir (chars "cat" ++ [0]) 7 2 0 4 dir_world dir_world_txn eq_refl root_dir_ok root_dir_file)
    as (u & Hu & He & _); [vm_compute; congruence|right; by eexists|lia| | |].
  - intros k Hk [Hn _]. by apply Hn, root_dir_free.
  - split; [lia|]. split; [apply root_dir_free; lia|]. intros i Hi. lia.
  - exists u. split; [exact Hu|]. rewrite (He 0%nat) by lia. reflexivity.
Defined.
