(* ===== verification/Pipe.v ===== *)
(** * Pipes (pipe.c)

    A pipe lives in a page of its own; [k_pipe] maps the page to the fields. *)

From S2P Require Import Prelude Ring Kernel Spinlock ProcCore Vm.

Definition PIPESIZE : Z := 512.

Definition getpipe {A} (p : Z) (f : pipe -> A) : K A :=
  x <- gets (fun s => k_pipe s !! p) ;;
  match x with
  | Some x => ret (f x)
  | None => halt (UB "pipe")
  end.

Definition setpipe (p : Z) (f : pipe -> pipe) : K unit :=
  modify (fun s => s <| k_pipe ::= alter f p |>).

Definition pipeclose (p : Z) (writable : bool) : K unit :=
  acquire (lk_pipe p) ;;;
  (if writable then
     setpipe p (fun x => x <| writeopen := false |>) ;;; wakeup (Some (ch_nread p))
   else
     setpipe p (fun x => x <| readopen := false |>) ;;; wakeup (Some (ch_nwrite p))) ;;;
  x <- getpipe p id ;;
  if negb (readopen x) && negb (writeopen x) then
    release (lk_pipe p) ;;;
    modify (fun s => s <| k_pipe ::= delete p |>) ;;;
    kfree p
  else release (lk_pipe p).

(** myproc()->killed *)
Definition my_killed : K bool := p <- curproc ;; getproc p killed.

(** p->nwrite == p->nread + PIPESIZE *)
Definition pipe_full (x : pipe) : bool := nwrite x =? u32 (nread x + PIPESIZE).

Definition pipe_empty (x : pipe) : bool := nread x =? nwrite x.

(** The loop while the pipe is full: [true] when the write gives up. *)
Fixpoint wait_room (n : nat) (p : Z) : K bool :=
  x <- getpipe p id ;;
  if pipe_full x then
    stop <- (if negb (readopen x) then ret true else my_killed) ;;
    if (stop : bool) then ret true
    else
      match n with
      | O => halt (Hang "pipewrite")
      | S n' =>
          wakeup (Some (ch_nread p)) ;;;
          sleep (Some (ch_nwrite p)) (lk_pipe p) ;;;
          wait_room n' p
      end
  else ret false.

(** p->data[p->nwrite++ % PIPESIZE] = c; *)
Definition pipe_put (c : Z) (x : pipe) : pipe :=
  x <| pdata ::= <[idx (nwrite x mod PIPESIZE) := c]> |> <| nwrite := u32 (nwrite x + 1) |>.

(** The loop over the bytes: [true] when all are written. *)
Fixpoint write_loop (p : Z) (l : list Z) : K bool :=
  match l with
  | [] => ret true
  | c :: l' =>
      n <- gets k_fuel ;;
      stop <- wait_room n p ;;
      if (stop : bool) then ret false
      else setpipe p (pipe_put c) ;;; write_loop p l'
  end.

Definition pipewrite (p : Z) (addr : list Z) (n : Z) : K Z :=
  acquire (lk_pipe p) ;;;
  ok <- write_loop p (take (idx n) addr) ;;
  if (ok : bool) then
    wakeup (Some (ch_nread p)) ;;;
    release (lk_pipe p) ;;;
    ret n
  else
    release (lk_pipe p) ;;;
    ret (-1).

(** The loop while the pipe is empty and can be written: [true] when killed. *)
Fixpoint wait_data (n : nat) (p : Z) : K bool :=
  x <- getpipe p id ;;
  if pipe_empty x && writeopen x then
    k <- my_killed ;;
    if (k : bool) then ret true
    else
      match n with
      | O => halt (Hang "piperead")
      | S n' => sleep (Some (ch_nread p)) (lk_pipe p) ;;; wait_data n' p
      end
  else ret false.

(** addr[i] = p->data[p->nread++ % PIPESIZE]; *)
Definition pipe_next (x : pipe) : Z := aget (pdata x) (idx (nread x mod PIPESIZE)).

Definition pipe_advance (x : pipe) : pipe := x <| nread := u32 (nread x + 1) |>.

(** The copying loop: the bytes read. *)
Fixpoint read_loop (p : Z) (n : nat) : K (list Z) :=
  match n with
  | O => ret []
  | S n' =>
      x <- getpipe p id ;;
      if pipe_empty x then ret []
      else
        setpipe p pipe_advance ;;;
        l <- read_loop p n' ;;
        ret (pipe_next x :: l)
  end.

Definition piperead (p : Z) (n : Z) : K (Z * list Z) :=
  acquire (lk_pipe p) ;;;
  f <- gets k_fuel ;;
  k <- wait_data f p ;;
  if (k : bool) then
    release (lk_pipe p) ;;;
    ret (-1, [])
  else
    l <- read_loop p (idx n) ;;
    wakeup (Some (ch_nwrite p)) ;;;
    release (lk_pipe p) ;;;
    ret (Z.of_nat (length l), l).

(** ** The ring buffer as a queue *)

Local Arguments u32 : simpl never.

(** The bytes written and not yet read. *)
Definition queue (x : pipe) : list Z := ring PIPESIZE (pdata x) (nread x) (nwrite x).

Definition pipe_wf (x : pipe) : Prop :=
  length (pdata x) = 512%nat /\ 0 <= nread x < 2 ^ 32 /\ 0 <= nwrite x < 2 ^ 32 /\
  u32 (nwrite x - nread x) <= PIPESIZE.

Lemma PIPESIZE_range : 0 < PIPESIZE < 2 ^ 32.
Proof. unfold PIPESIZE. lia. Qed.

Lemma PIPESIZE_div : (PIPESIZE | 2 ^ 32).
Proof. by exists 8388608. Qed.

Lemma pipe_full_spec x : pipe_wf x -> pipe_full x = (length (queue x) =? 512)%nat.
Proof.
  intros (_ & Hr & Hw & Hn). unfold queue, pipe_full, PIPESIZE. rewrite length_ring, u32_ahead by lia.
  pose proof (u32_range (nwrite x - nread x)). unfold idx.
  apply eq_iff_eq_true. rewrite Z.eqb_eq, Nat.eqb_eq. lia.
Qed.

Lemma pipe_empty_spec x : pipe_wf x -> pipe_empty x = true <-> queue x = [].
Proof.
  intros (_ & Hr & Hw & _). unfold pipe_empty, queue. rewrite Z.eqb_eq. split.
  - intros ->. apply ring_nil.
  - by apply ring_nil_inv.
Qed.

(** Writing a byte appends it; reading takes the first one. *)
Lemma pipe_put_spec c x :
  pipe_wf x -> (length (queue x) < 512)%nat ->
  pipe_wf (pipe_put c x) /\ queue (pipe_put c x) = queue x ++ [c].
Proof.
  intros (Hl & Hr & Hw & Hn) Hlen. unfold queue in Hlen. rewrite length_ring in Hlen.
  pose proof (u32_range (nwrite x - nread x)) as Hrg. unfold idx in Hlen.
  split; [|apply ring_push; [apply PIPESIZE_range|apply PIPESIZE_div|done|]].
  2:{ change (nread (pipe_put c x)) with (nread x). unfold PIPESIZE. lia. }
  split; [simpl; by rewrite length_insert|]. split; [done|]. split; [apply u32_range|].
  simpl. rewrite u32_succ_l, u32_step; unfold PIPESIZE; lia.
Qed.

Lemma pipe_get_spec x :
  pipe_wf x -> queue x <> [] ->
  pipe_wf (pipe_advance x) /\ queue x = pipe_next x :: queue (pipe_advance x).
Proof.
  intros (Hl & Hr & Hw & Hn) Hne. pose proof (u32_range (nwrite x - nread x)) as Hrg.
  assert (0 < u32 (nwrite x - nread x)) as Hpos.
  { destruct (decide (u32 (nwrite x - nread x) = 0)) as [He|]; [|lia].
    exfalso. apply Hne. unfold queue. apply u32_eq in He; [|done..]. rewrite He. apply ring_nil. }
  split; [|apply ring_pop; [apply PIPESIZE_range|apply PIPESIZE_div|done]].
  split; [done|]. split; [apply u32_range|]. split; [done|].
  simpl. rewrite u32_succ_r, u32_back by done. lia.
Qed.

(** ** Interleaving with the other end *)

(** No process sleeps on the channel. *)
Definition no_sleeper (ch : chan) (s : kstate) : Prop :=
  Forall (fun q => ~ (state q = SLEEPING /\ pchan q = Some ch)) (k_proc s).

(** Where a writer gives up the processor: the pipe is full and has a reader,
    and no reader is asleep. *)
Definition writer_waits (a : Z) (s : kstate) : Prop :=
  exists x, k_pipe s !! a = Some x /\ pipe_wf x /\ length (queue x) = 512%nat /\
    readopen x = true /\ no_sleeper (ch_nread a) s.

(** Where a reader gives up the processor: the pipe is empty and has a writer. *)
Definition reader_waits (a : Z) (s : kstate) : Prop :=
  exists x, k_pipe s !! a = Some x /\ pipe_wf x /\ queue x = [] /\ writeopen x = true.

(** The process is scheduled again, the lock of the pipe is free, and the other
    processes moved the bytes [l] as [P] says, which are added to the ghost
    record of what they moved while the process slept. *)
Definition resumed_with (P : list Z -> list Z -> list Z -> Prop) (p : nat) (a : Z)
    (s : kstate) (w : list Z) (s' : kstate) (w' : list Z) : Prop :=
  in_sched s' /\ lock_free s' (lk_pipe a) /\ cproc (thiscpu s') = Some p /\
  forall x, k_pipe s !! a = Some x -> exists x' l, k_pipe s' !! a = Some x' /\ pipe_wf x' /\
    P (queue x) l (queue x') /\ w' = w ++ l.

(** Readers took [l] from the front; writers added [l] at the end. *)
Definition readers_took : nat -> Z -> kstate -> list Z -> kstate -> list Z -> Prop :=
  resumed_with (fun q l q' => q = l ++ q').

Definition writers_put : nat -> Z -> kstate -> list Z -> kstate -> list Z -> Prop :=
  resumed_with (fun q l q' => q' = q ++ l).

Lemma getpipe_ok {A} a (f : pipe -> A) s x :
  k_pipe s !! a = Some x -> getpipe a f s = Done (Ok (f x)) s.
Proof. intros Hx. unfold getpipe. by rewrite bind_gets, Hx. Qed.

Lemma my_killed_ok s p lk : in_section p lk s -> my_killed s = Done (Ok (killed (pget s p))) s.
Proof.
  intros (Hc & _ & _ & _ & _ & Hp). unfold my_killed. by rewrite (bind_Done _ _ _ _ _ (curproc_ok s p Hc Hp)).
Qed.

Lemma wakeup_section s p lk ch :
  in_section p lk s ->
  wakeup ch s = Done (Ok tt) (s <| k_proc ::= fmap (wake ch) |>) /\
  in_section p lk (s <| k_proc ::= fmap (wake ch) |>).
Proof.
  intros (Hc & Hn & Hh & Hf & Hlen & Hp). split; [by apply wakeup_ok|].
  split_and!; try done. unfold ptable_len. simpl. by rewrite length_fmap.
Qed.

Lemma release_section s p lk :
  in_section p lk s -> release lk s = Done (Ok tt) (released lk s) /\ lock_free (released lk s) lk.
Proof.
  intros (Hc & Hn & Hh & _). split; [|unfold lock_free; simpl; by rewrite lookup_insert_eq].
  apply release_ok; [apply Hc|apply Hc; lia|lia|done].
Qed.

Lemma acquire_section s p lk :
  calm s -> ncli (thiscpu s) = 0 -> lk <> lk_ptable -> lock_free s lk -> lock_free s lk_ptable ->
  ptable_len s -> cproc (thiscpu s) = Some p ->
  acquire lk s = Done (Ok tt) (acquired lk s) /\ in_section p lk (acquired lk s).
Proof.
  intros Hc Hn Hne Hl Hf Hlen Hp. split; [by apply acquire_calm|].
  assert (thiscpu (acquired lk s) = cpu_push (thiscpu s)) as Hct by (apply (thiscpu_updcpu cpu_push s), Hc).
  split_and!; [by apply calm_acquired|rewrite Hct; simpl; lia|apply acquired_held| |done|by rewrite Hct].
  unfold lock_free. simpl. by rewrite lookup_insert_ne.
Qed.

(** After a wakeup nobody sleeps on the channel, and going to sleep on another
    one does not change that. *)
Lemma no_sleeper_asleep p ch ch' lk s :
  ch <> ch' -> no_sleeper ch (asleep p (Some ch') lk (s <| k_proc ::= fmap (wake (Some ch)) |>)).
Proof.
  intros Hne. unfold no_sleeper, asleep. simpl. apply Forall_lookup_2. intros i q.
  destruct (decide (p = i)) as [<-|].
  - rewrite !list_lookup_alter_eq, list_lookup_fmap. destruct (k_proc s !! p) as [y|]; simpl; [|done].
    intros [= <-]. simpl. naive_solver.
  - rewrite !list_lookup_alter_ne, list_lookup_fmap by done. destruct (k_proc s !! i) as [y|]; simpl; [|done].
    intros [= <-]. unfold wake. case_decide; simpl; [naive_solver|naive_solver].
Qed.

Lemma no_sleeper_woken ch lk s : no_sleeper ch (released lk (s <| k_proc ::= fmap (wake (Some ch)) |>)).
Proof.
  apply Forall_forall. intros q (y & -> & _)%list_elem_of_fmap. unfold wake. case_decide; simpl; naive_solver.
Qed.

Section transfer.
Context (p : nat) (a : Z).
Hypothesis Hp : (p < NPROC)%nat.

(** What is known of the pipe while its lock is held. *)
Definition holds_pipe (x : pipe) (s : kstate) : Prop :=
  in_section p (lk_pipe a) s /\ k_pipe s !! a = Some x /\ pipe_wf x.

(** Why a write gives up. *)
Definition write_cut (x : pipe) (s : kstate) : Prop :=
  length (queue x) = 512%nat /\ (readopen x = false \/ killed (pget s p) = true).

Lemma wait_room_safe n x w s :
  holds_pipe x s ->
  gsafe (fun _ => writer_waits a) (readers_took p a)
    (fun w' r t => match r with
                   | Ok b => exists x', holds_pipe x' t /\ w' ++ queue x' = w ++ queue x /\
                       if (b : bool) then write_cut x' t else (length (queue x') < 512)%nat
                   | Stop why => why = Hang "pipewrite"
                   end) w (wait_room n a s).
Proof.
  revert x w s. induction n as [|n IH]; intros x w s (Hs & Hx & Hwf); cbn [wait_room].
  all: rewrite (bind_Done _ _ _ _ _ (getpipe_ok a id s x Hx)); change (id x) with x.
  all: rewrite pipe_full_spec by done.
  all: assert (length (queue x) <= 512)%nat as Hle
    by (unfold queue; rewrite length_ring; destruct Hwf as (_ & _ & _ & Hb); unfold PIPESIZE, idx in *; lia).
  all: destruct (Nat.eqb_spec (length (queue x)) 512) as [Hfull|Hfull];
    [|cbn [gsafe ret]; exists x; split_and!; [done|done|lia]].
  all: assert ((if negb (readopen x) then ret true else my_killed) s =
      Done (Ok (negb (readopen x) || killed (pget s p))) s) as Hstop
    by (destruct (readopen x); [by apply my_killed_ok with (lk_pipe a)|done]).
  all: rewrite (bind_Done _ _ _ _ _ Hstop).
  all: destruct (negb (readopen x) || killed (pget s p)) eqn:Hst;
    [cbn [gsafe ret]; exists x; split_and!; [done|done|split; [done|]];
     destruct (readopen x); [by right|by left]|].
  - done.
  - apply orb_false_iff in Hst as [Hro Hk]. apply negb_false_iff in Hro.
    destruct (wakeup_section s p (lk_pipe a) (Some (ch_nread a)) Hs) as [Hw Hs1].
    rewrite (bind_Done _ _ _ _ _ Hw). apply gsafe_bind. eapply gsafe_sleep; [done|done|done|..].
    + exists x. split_and!; try done. by apply no_sleeper_asleep.
    + intros s' w' (? & ? & ? & _). done.
    + intros s' w' ie (_ & _ & _ & Hr) Hin. destruct (Hr x Hx) as (x' & l & Hx' & Hwf' & Hl & ->).
      eapply gsafe_mono; [|by apply (IH x')].
      intros w2 [b|why] t; [|done]. intros (x2 & H2 & Hs2 & Hb). exists x2. split_and!; try done.
      by rewrite Hs2, Hl, app_assoc.
Qed.

Lemma write_loop_safe l x w s :
  holds_pipe x s ->
  gsafe (fun _ => writer_waits a) (readers_took p a)
    (fun w' r t => match r with
                   | Ok b => exists x' j, holds_pipe x' t /\ w' ++ queue x' = w ++ queue x ++ take j l /\
                       if (b : bool) then j = length l else (j < length l)%nat /\ write_cut x' t
                   | Stop why => why = Hang "pipewrite"
                   end) w (write_loop a l s).
Proof.
  revert x w s. induction l as [|c l IH]; intros x w s Hx; cbn [write_loop].
  - exists x, 0%nat. rewrite app_nil_r. by split_and!.
  - rewrite bind_gets. apply gsafe_bind. eapply gsafe_mono; [|by apply (wait_room_safe _ x)].
    intros w1 [b|why] t; [|done]. intros (x1 & Hx1 & Hq1 & Hb). destruct b.
    + exists x1, 0%nat. simpl. rewrite app_nil_r. split_and!; [done|done|lia|done].
    + destruct Hx1 as (Hs1 & Hl1 & Hwf1). destruct (pipe_put_spec c x1 Hwf1 Hb) as [Hwf2 Hq2].
      unfold setpipe. rewrite bind_modify.
      eapply gsafe_mono; [|apply (IH (pipe_put c x1))].
      2:{ split_and!; [done| |done]. simpl. by rewrite lookup_alter_eq, Hl1. }
      intros w2 [b|why] u; [|done]. intros (x3 & j & H3 & Hs3 & Hb3). exists x3, (S j). split_and!; [done| |].
      * rewrite Hs3, Hq2. cbn [take]. by rewrite !app_assoc, Hq1, <- !app_assoc.
      * destruct b; simpl; [by f_equal|]. destruct Hb3 as [? ?]. split; [lia|done].
Qed.

Lemma wait_data_safe n x w s :
  holds_pipe x s ->
  gsafe (fun _ => reader_waits a) (writers_put p a)
    (fun w' r t => match r with
                   | Ok b => exists x' l, holds_pipe x' t /\ queue x' = queue x ++ l /\ w' = w ++ l /\
                       if (b : bool) then queue x' = [] /\ writeopen x' = true /\ killed (pget t p) = true
                       else queue x' <> [] \/ writeopen x' = false
                   | Stop why => why = Hang "piperead"
                   end) w (wait_data n a s).
Proof.
  revert x w s. induction n as [|n IH]; intros x w s (Hs & Hx & Hwf); cbn [wait_data].
  all: rewrite (bind_Done _ _ _ _ _ (getpipe_ok a id s x Hx)); change (id x) with x.
  all: pose proof (pipe_empty_spec x Hwf) as Hemp.
  all: destruct (pipe_empty x && writeopen x) eqn:Hwait;
    [apply andb_true_iff in Hwait as [He%Hemp Hwo]|
     cbn [gsafe ret]; exists x, []; rewrite !app_nil_r; split_and!; [done|done|done|];
     apply andb_false_iff in Hwait as [He|?]; [left; intros H%Hemp; congruence|by right]].
  all: rewrite (bind_Done _ _ _ _ _ (my_killed_ok s p (lk_pipe a) Hs)).
  all: destruct (killed (pget s p)) eqn:Hk; [cbn [gsafe ret]; exists x, []; rewrite !app_nil_r; by split_and!|].
  - done.
  - apply gsafe_bind. eapply gsafe_sleep; [done|done|done|..].
    + exists x. by split_and!.
    + intros s' w' (? & ? & ? & _). done.
    + intros s' w' ie (_ & _ & _ & Hr) Hin. destruct (Hr x Hx) as (x' & l & Hx' & Hwf' & Hl & ->).
      eapply gsafe_mono; [|by apply (IH x')].
      intros w2 [b|why] t; [|done]. intros (x2 & l2 & H2 & Hs2 & -> & Hb). exists x2, (l ++ l2).
      split_and!; [done|by rewrite Hs2, Hl, app_assoc|by rewrite app_assoc|done].
Qed.

Lemma read_loop_ok n x s :
  holds_pipe x s ->
  exists x' t, read_loop a n s = Done (Ok (take n (queue x))) t /\ holds_pipe x' t /\
    queue x' = drop n (queue x) /\ writeopen x' = writeopen x.
Proof.
  revert x s. induction n as [|n IH]; intros x s (Hs & Hx & Hwf); cbn [read_loop].
  - exists x, s. by split_and!.
  - rewrite (bind_Done _ _ _ _ _ (getpipe_ok a id s x Hx)). change (id x) with x.
    destruct (pipe_empty x) eqn:He.
    + apply pipe_empty_spec in He; [|done]. exists x, s. rewrite He. by split_and!.
    + destruct (pipe_get_spec x Hwf) as [Hwf1 Hq]; [intros H%pipe_empty_spec; congruence|].
      unfold setpipe. rewrite bind_modify.
      destruct (IH (pipe_advance x) (s <| k_pipe ::= alter pipe_advance a |>)) as (x' & t & Ht & Hx' & Hq' & Hwo).
      { split_and!; [done| |done]. simpl. by rewrite lookup_alter_eq, Hx. }
      exists x', t. rewrite (bind_Done _ _ _ _ _ Ht), Hq. by split_and!.
Qed.
End transfer.

(** A process about to use the pipe [x]. *)
Definition ready (p : nat) (a : Z) (x : pipe) (s : kstate) : Prop :=
  calm s /\ ncli (thiscpu s) = 0 /\ lock_free s (lk_pipe a) /\ lock_free s lk_ptable /\ ptable_len s /\
  cproc (thiscpu s) = Some p /\ k_pipe s !! a = Some x /\ pipe_wf x.

Lemma ready_acquire p a x s :
  ready p a x s ->
  acquire (lk_pipe a) s = Done (Ok tt) (acquired (lk_pipe a) s) /\
  holds_pipe p a x (acquired (lk_pipe a) s).
Proof.
  intros (Hc & Hn & Hl & Hf & Hlen & Hp & Hx & Hwf).
  destruct (acquire_section s p (lk_pipe a)) as [H1 H2]; try done.
Qed.

(** C18: pipewrite() of n bytes, interleaved at its sleeps with any reads by
    other processes.  It gives up the processor only while the pipe is full and
    its read end open, after waking every reader that sleeps on it.  When it
    returns n, the bytes that the readers took while it slept, followed by what
    is left to read, are the old contents followed by the n bytes: no byte was
    lost, overwritten or reordered; and no reader is left asleep.  When it
    returns -1 the same holds of a strict prefix of the bytes, the pipe is full,
    and its read end is closed or the caller killed.  The lock of the pipe is
    released either way. *)
Theorem pipewrite_fifo p a x addr n s :
  ready p a x s -> (p < NPROC)%nat -> 0 <= n <= Z.of_nat (length addr) ->
  gsafe (fun _ => writer_waits a) (readers_took p a)
    (fun took r t =>
       match r with
       | Ok v => exists x' j, k_pipe t !! a = Some x' /\ pipe_wf x' /\
           lock_free t (lk_pipe a) /\ took ++ queue x' = queue x ++ take j addr /\
           (v = n /\ j = idx n /\ no_sleeper (ch_nread a) t \/ v = -1 /\ (j < idx n)%nat /\ write_cut p x' t)
       | Stop w => w = Hang "pipewrite"
       end) [] (pipewrite a addr n s).
Proof.
  intros Hr Hp Hn. destruct (ready_acquire p a x s Hr) as [Hacq Hx].
  assert (length (take (idx n) addr) = idx n) as Hlen by (rewrite length_take; unfold idx; lia).
  unfold pipewrite. rewrite (bind_Done _ _ _ _ _ Hacq). apply gsafe_bind.
  eapply gsafe_mono; [|by apply (write_loop_safe p a Hp _ x)].
  intros took [b|w] t; [|done]. intros (x' & j & (Hs & Hx' & Hwf) & Hq & Hb). rewrite Hlen, take_take in *.
  destruct b.
  - destruct (wakeup_section t p (lk_pipe a) (Some (ch_nread a)) Hs) as [Hw Hs1].
    destruct (release_section _ p _ Hs1) as [Hrel Hfree].
    rewrite (bind_Done _ _ _ _ _ Hw), (bind_Done _ _ _ _ _ Hrel). cbn [gsafe ret].
    exists x', j. subst j. rewrite Nat.min_id in Hq. split_and!; try done. left. split_and!; [done|done|].
    apply no_sleeper_woken.
  - destruct (release_section _ p _ Hs) as [Hrel Hfree]. rewrite (bind_Done _ _ _ _ _ Hrel). cbn [gsafe ret].
    destruct Hb as [Hj Hcut]. exists x', j. rewrite Nat.min_l in Hq by lia. split_and!; try done.
    right. by split_and!.
Qed.

(** C19: piperead() of n bytes, interleaved at its sleeps with any writes by
    other processes.  It gives up the processor only while the pipe is empty
    and its write end open.  The bytes it returns followed by what is left are
    the old contents followed by what was written while it slept; it returns
    as many as there are, up to n, and none only if the pipe is empty and closed
    for writing (or n is 0); and no writer is left asleep.  It returns -1 only
    if the caller was killed, with the pipe empty and open for writing. *)
Theorem piperead_fifo p a x n s :
  ready p a x s -> (p < NPROC)%nat ->
  gsafe (fun _ => reader_waits a) (writers_put p a)
    (fun put r t =>
       match r with
       | Ok (v, l) => exists x', k_pipe t !! a = Some x' /\ pipe_wf x' /\
           lock_free t (lk_pipe a) /\ queue x ++ put = l ++ queue x' /\
           (v = -1 /\ l = [] /\ queue x' = [] /\ writeopen x' = true /\ killed (pget t p) = true \/
            v = Z.of_nat (length l) /\ length l = min (idx n) (length (queue x ++ put)) /\
            (queue x ++ put = [] -> writeopen x' = false) /\ no_sleeper (ch_nwrite a) t)
       | Stop w => w = Hang "piperead"
       end) [] (piperead a n s).
Proof.
  intros Hr Hp. destruct (ready_acquire p a x s Hr) as [Hacq Hx].
  unfold piperead. rewrite (bind_Done _ _ _ _ _ Hacq), bind_gets. apply gsafe_bind.
  eapply gsafe_mono; [|by apply (wait_data_safe p a Hp _ x)].
  intros put [b|w] t; [|done]. intros (x' & l & (Hs & Hx' & Hwf) & Hw & -> & Hb). cbn [app]. destruct b.
  - destruct Hb as (He & Hwo & Hk). destruct (release_section _ p _ Hs) as [Hrel Hfree].
    rewrite (bind_Done _ _ _ _ _ Hrel). cbn [gsafe ret]. exists x'. rewrite <- Hw, He.
    split_and!; try done. left. by split_and!.
  - destruct (read_loop_ok p a (idx n) x' t) as (x2 & t2 & Hrd & (Hs2 & Hx2 & Hwf2) & Hq2 & Hwo2); [done|].
    rewrite (bind_Done _ _ _ _ _ Hrd).
    destruct (wakeup_section t2 p (lk_pipe a) (Some (ch_nwrite a)) Hs2) as [Hwk Hs3].
    destruct (release_section _ p _ Hs3) as [Hrel Hfree].
    rewrite (bind_Done _ _ _ _ _ Hwk), (bind_Done _ _ _ _ _ Hrel). cbn [gsafe ret].
    exists x2. rewrite <- Hw, Hq2, take_drop, length_take. split_and!; try done. right.
    split_and!; [done|done| |apply no_sleeper_woken]. intros Hnil. destruct Hb as [|Hwo]; [done|congruence].
Qed.

(** ** Transfers that need not wait *)

Lemma write_loop_room p a l x s :
  holds_pipe p a x s -> (length (queue x) + length l <= 512)%nat ->
  exists x' t, write_loop a l s = Done (Ok true) t /\ holds_pipe p a x' t /\ queue x' = queue x ++ l.
Proof.
  revert x s. induction l as [|c l IH]; intros x s (Hs & Hx & Hwf) Hlen; cbn [write_loop].
  - exists x, s. rewrite app_nil_r. by split_and!.
  - simpl in Hlen. rewrite bind_gets.
    assert (forall n, wait_room n a s = Done (Ok false) s) as Hwait.
    { intros n. destruct n; cbn [wait_room]; rewrite (bind_Done _ _ _ _ _ (getpipe_ok a id s x Hx));
        change (id x) with x; rewrite pipe_full_spec by done;
        destruct (Nat.eqb_spec (length (queue x)) 512); [lia|done|lia|done]. }
    rewrite (bind_Done _ _ _ _ _ (Hwait _)). unfold setpipe. rewrite bind_modify.
    destruct (pipe_put_spec c x Hwf) as [Hwf1 Hq1]; [lia|].
    destruct (IH (pipe_put c x) (s <| k_pipe ::= alter (pipe_put c) a |>)) as (x' & t & Ht & Hx' & Hq').
    { split_and!; [done| |done]. simpl. by rewrite lookup_alter_eq, Hx. }
    { rewrite Hq1, length_app. simpl. lia. }
    exists x', t. rewrite Hq', Hq1, <- app_assoc. by split_and!.
Qed.

Lemma wait_data_ready p a n x s :
  holds_pipe p a x s -> queue x <> [] -> wait_data n a s = Done (Ok false) s.
Proof.
  intros (Hs & Hx & Hwf) Hne.
  destruct n; cbn [wait_data]; rewrite (bind_Done _ _ _ _ _ (getpipe_ok a id s x Hx));
    change (id x) with x; (destruct (pipe_empty x) eqn:He; [|done]); by apply pipe_empty_spec in He.
Qed.

(** Leaving the critical section. *)
Lemma released_ready p a x t :
  holds_pipe p a x t ->
  release (lk_pipe a) t = Done (Ok tt) (released (lk_pipe a) t) /\ ready p a x (released (lk_pipe a) t).
Proof.
  intros (Hs & Hx & Hwf). destruct (release_section t p (lk_pipe a) Hs) as [Hrel Hfree].
  split; [done|]. destruct Hs as (Hc & Hn & _ & Hf & Hlen & Hp). pose proof Hc as (Hcw & _ & Hie & Hif).
  assert (thiscpu (released (lk_pipe a) t) = cpu_pop (thiscpu t)) as Hct by (by apply (thiscpu_updcpu cpu_pop t)).
  unfold ready, calm. rewrite Hct. simpl. split_and!; try done; try lia.
  - by apply (cpus_wf_updcpu cpu_pop t).
  - intros ->. rewrite Hif by lia. by destruct (intena (thiscpu t)).
  - unfold lock_free. simpl. by rewrite lookup_insert_ne.
Qed.

Lemma pipewrite_room p a x addr n s :
  ready p a x s -> 0 <= n <= Z.of_nat (length addr) -> (length (queue x) + idx n <= 512)%nat ->
  exists x' t, pipewrite a addr n s = Done (Ok n) t /\ ready p a x' t /\
    queue x' = queue x ++ take (idx n) addr.
Proof.
  intros Hr Hn Hroom. destruct (ready_acquire p a x s Hr) as [Hacq Hx].
  destruct (write_loop_room p a (take (idx n) addr) x _ Hx) as (x' & t & Ht & (Hs & Hx' & Hwf) & Hq);
    [rewrite length_take; lia|].
  destruct (wakeup_section t p (lk_pipe a) (Some (ch_nread a)) Hs) as [Hw Hs1].
  destruct (released_ready p a x' _ (conj Hs1 (conj Hx' Hwf))) as [Hrel Hrd].
  exists x', (released (lk_pipe a) (t <| k_proc ::= fmap (wake (Some (ch_nread a))) |>)).
  split; [|done]. unfold pipewrite. rewrite (bind_Done _ _ _ _ _ Hacq), (bind_Done _ _ _ _ _ Ht).
  by rewrite (bind_Done _ _ _ _ _ Hw), (bind_Done _ _ _ _ _ Hrel).
Qed.

Lemma piperead_avail p a x n s :
  ready p a x s -> queue x <> [] ->
  exists x' t, piperead a n s = Done (Ok (Z.of_nat (min (idx n) (length (queue x))), take (idx n) (queue x))) t /\
    ready p a x' t /\ queue x' = drop (idx n) (queue x).
Proof.
  intros Hr Hne. destruct (ready_acquire p a x s Hr) as [Hacq Hx].
  destruct (read_loop_ok p a (idx n) x _ Hx) as (x' & t & Ht & (Hs & Hx' & Hwf) & Hq & _).
  destruct (wakeup_section t p (lk_pipe a) (Some (ch_nwrite a)) Hs) as [Hw Hs1].
  destruct (released_ready p a x' _ (conj Hs1 (conj Hx' Hwf))) as [Hrel Hrd].
  exists x', (released (lk_pipe a) (t <| k_proc ::= fmap (wake (Some (ch_nwrite a))) |>)).
  split; [|done]. unfold piperead. rewrite (bind_Done _ _ _ _ _ Hacq), bind_gets.
  rewrite (bind_Done _ _ _ _ _ (wait_data_ready p a _ x _ Hx Hne)), (bind_Done _ _ _ _ _ Ht).
  rewrite (bind_Done _ _ _ _ _ Hw), (bind_Done _ _ _ _ _ Hrel). by rewrite length_take.
Qed.

(** What fits is written and read back without waiting: a write of n bytes
    into an empty pipe, n at most PIPESIZE, returns n, and a read of m bytes
    after it returns the first min(m, n) of them, whatever the position of the
    counters, their wrap-around at 2^32 included. *)
Theorem pipe_roundtrip p a x addr n m s :
  ready p a x s -> queue x = [] -> 0 < n <= Z.of_nat (length addr) -> n <= PIPESIZE ->
  exists t u, pipewrite a addr n s = Done (Ok n) t /\
    piperead a m t = Done (Ok (Z.of_nat (min (idx m) (idx n)), take (idx m) (take (idx n) addr))) u.
Proof.
  intros Hr Hq Hn Hsz. unfold PIPESIZE in Hsz.
  destruct (pipewrite_room p a x addr n s Hr) as (x1 & t & Ht & Hr1 & Hq1); [lia|rewrite Hq; unfold idx; simpl; lia|].
  rewrite Hq in Hq1. simpl in Hq1. assert (length (queue x1) = idx n) as Hlen.
  { rewrite Hq1, length_take. unfold idx. lia. }
  destruct (piperead_avail p a x1 m t Hr1) as (x2 & u & Hu & _).
  { intros H0. rewrite H0 in Hlen. unfold idx in Hlen. simpl in Hlen. lia. }
  exists t, u. split; [done|]. by rewrite Hu, Hlen, Hq1.
Qed.

(** One CPU, running process 1, and the pipe [x] at [a]. *)
Definition pipe_world (a : Z) (x : pipe) : kstate :=
  kstate0
    <| k_cpus := [mk_cpu 0 0 true (Some 1%nat) true 0] |>
    <| k_locks := {[ lk_pipe a := mk_spinlock false None; lk_ptable := mk_spinlock false None ]} |>
    <| k_proc ::= alter (fun p => p <| state := RUNNING |> <| pid := 2 |>) 1%nat |>
    <| k_pipe := {[ a := x ]} |>.

Lemma pipe_world_ready a x : pipe_wf x -> ready 1 a x (pipe_world a x).
Proof.
  intros Hwf. split_and!; try done.
  - split_and!; [split|done|done|done]; [vm_compute; lia|apply NoDup_singleton].
  - unfold lock_free. simpl. by rewrite lookup_insert_eq.
  - unfold lock_free. simpl. rewrite lookup_insert_ne, lookup_singleton_eq by done. done.
  - simpl. by rewrite lookup_singleton_eq.
Qed.

(** A full pipe whose counters are about to wrap. *)
Definition brimful : pipe := mk_pipe (replicate 512 7) (2 ^ 32 - 256) 256 true true.
Definition drained : pipe := mk_pipe (replicate 512 7) (2 ^ 32 - 1) (2 ^ 32 - 1) true true.

Lemma brimful_wf : pipe_wf brimful.
Proof. split_and!; vm_compute; done. Qed.

Lemma drained_wf : pipe_wf drained.
Proof. split_and!; vm_compute; done. Qed.

Lemma pipewrite_fifo_witness :
  length (queue brimful) = 512%nat /\
  gsafe (fun _ => writer_waits 4096) (readers_took 1 4096)
    (fun took r t =>
       match r with
       | Ok v => exists x' j, k_pipe t !! 4096 = Some x' /\
           took ++ queue x' = queue brimful ++ take j [1; 2; 3] /\ (v = 3 /\ j = 3%nat \/ v = -1)
       | Stop w => w = Hang "pipewrite"
       end) [] (pipewrite 4096 [1; 2; 3] 3 (pipe_world 4096 brimful)).
Proof.
  split; [done|].
  eapply gsafe_mono; [|apply (pipewrite_fifo 1 4096 brimful [1; 2; 3] 3);
    [apply pipe_world_ready, brimful_wf|vm_compute; lia|simpl; lia]].
  intros took [v|w] t; [|done]. intros (x' & j & ? & _ & _ & ? & Hv). exists x', j. split_and!; [done|done|].
  destruct Hv as [(? & ? & _)|[? _]]; [by left|by right].
Defined.

Lemma piperead_fifo_witness :
  queue drained = [] /\
  gsafe (fun _ => reader_waits 4096) (writers_put 1 4096)
    (fun put r t =>
       match r with
       | Ok (v, l) => exists x', k_pipe t !! 4096 = Some x' /\ put = l ++ queue x' /\
           (v = -1 \/ v = Z.of_nat (length l) /\ (put = [] -> writeopen x' = false))
       | Stop w => w = Hang "piperead"
       end) [] (piperead 4096 2 (pipe_world 4096 drained)).
Proof.
  split; [done|].
  eapply gsafe_mono; [|apply (piperead_fifo 1 4096 drained 2);
    [apply pipe_world_ready, drained_wf|vm_compute; lia]].
  intros put [[v l]|w] t; [|done]. intros (x' & ? & _ & _ & ? & Hv). exists x'. split_and!; [done|done|].
  destruct Hv as [[? _]|(? & _ & ? & _)]; [by left|by right].
Defined.

Lemma pipe_roundtrip_witness :
  exists t u, pipewrite 4096 [1; 2; 3] 3 (pipe_world 4096 drained) = Done (Ok 3) t /\
    piperead 4096 2 t = Done (Ok (2, [1; 2])) u.
Proof.
  apply (pipe_roundtrip 1 4096 drained [1; 2; 3] 3 2);
    [apply pipe_world_ready, drained_wf|done|simpl; lia|unfold PIPESIZE; lia].
Defined.
