(* ===== verification/File.v ===== *)
(** * Open files (file.c) and the creation of pipes (pipealloc of pipe.c) *)

From S2P Require Import Prelude Kernel Spinlock ProcCore Vm Bio Log Inode Fs Pipe.

Definition getfile {A} (f : nat) (g : file -> A) : K A := gets (fun s => g (aget (k_file s) f)).

Definition setfile (f : nat) (g : file -> file) : K unit :=
  modify (fun s => s <| k_file ::= alter g f |>).

Definition fileinit : K unit := initlock lk_ftable.

Definition filealloc : K (option nat) :=
  acquire lk_ftable ;;;
  r <- gets (fun s => fst <$> list_find (fun x => fref x = 0) (k_file s)) ;;
  match r with
  | Some f => setfile f (fun x => x <| fref := 1 |>)
  | None => ret tt
  end ;;;
  release lk_ftable ;;;
  ret r.

Definition filedup (f : nat) : K nat :=
  acquire lk_ftable ;;;
  r <- getfile f fref ;;
  if r <? 1 then panic "filedup"
  else
    setfile f (fun x => x <| fref := i32 (fref x + 1) |>) ;;;
    release lk_ftable ;;;
    ret f.

Definition fileclose (f : nat) : K unit :=
  acquire lk_ftable ;;;
  r <- getfile f fref ;;
  if r <? 1 then panic "fileclose"
  else
    setfile f (fun x => x <| fref := fref x - 1 |>) ;;;
    r <- getfile f fref ;;
    if 0 <? r then release lk_ftable
    else
      ff <- getfile f id ;;
      setfile f (fun x => x <| fref := 0 |> <| ftype := FD_NONE |>) ;;;
      release lk_ftable ;;;
      match ftype ff with
      | FD_PIPE =>
          match fpipe ff with
          | Some p => pipeclose p (writable ff)
          | None => halt (UB "pipe")
          end
      | FD_INODE =>
          begin_op ;;;
          match fip ff with
          | Some ip => iput ip
          | None => halt (UB "inode")
          end ;;;
          end_op
      | FD_NONE => ret tt
      end.

(** The inode of a file of type FD_INODE. *)
Definition file_inode (f : nat) : K nat :=
  i <- getfile f fip ;;
  match i with Some ip => ret ip | None => halt (UB "inode") end.

Definition filestat (f : nat) : K (Z * option stat) :=
  t <- getfile f ftype ;;
  if decide (t = FD_INODE) then
    ip <- file_inode f ;;
    ilock ip ;;;
    st <- stati ip ;;
    iunlock ip ;;;
    ret (0, Some st)
  else ret (-1, None).

Definition fileread (f : nat) (n : Z) : K (Z * list Z) :=
  ff <- getfile f id ;;
  if negb (readable ff) then ret (-1, [])
  else
    match ftype ff with
    | FD_PIPE =>
        match fpipe ff with
        | Some p => piperead p n
        | None => halt (UB "pipe")
        end
    | FD_INODE =>
        ip <- file_inode f ;;
        ilock ip ;;;
        off <- getfile f foff ;;
        r <- readi ip off (u32 n) ;;
        when (0 <? fst r) (setfile f (fun x => x <| foff := u32 (foff x + fst r) |>)) ;;;
        iunlock ip ;;;
        ret r
    | FD_NONE => panic "fileread"
    end.

(** int max = ((MAXOPBLOCKS-1-1-2) / 2) * 512; *)
Definition write_max : Z := (MAXOPBLOCKS - 1 - 1 - 2) / 2 * 512.

(** while(i < n), at most n turns; the final i. *)
Fixpoint filewrite_loop (fuel : nat) (f ip : nat) (addr : list Z) (i n : Z) : K Z :=
  if negb (i <? n) then ret i
  else
    match fuel with
    | O => halt (Hang "filewrite")
    | S fuel' =>
        let n1 := Z.min (n - i) write_max in
        begin_op ;;;
        ilock ip ;;;
        off <- getfile f foff ;;
        r <- writei ip (drop (idx i) addr) off n1 ;;
        when (0 <? r) (setfile f (fun x => x <| foff := u32 (foff x + r) |>)) ;;;
        iunlock ip ;;;
        end_op ;;;
        if r <? 0 then ret i
        else if negb (r =? n1) then panic "short filewrite"
        else filewrite_loop fuel' f ip addr (i + r) n
    end.

Definition filewrite (f : nat) (addr : list Z) (n : Z) : K Z :=
  ff <- getfile f id ;;
  if negb (writable ff) then ret (-1)
  else
    match ftype ff with
    | FD_PIPE =>
        match fpipe ff with
        | Some p => pipewrite p addr n
        | None => halt (UB "pipe")
        end
    | FD_INODE =>
        ip <- file_inode f ;;
        i <- filewrite_loop (S (idx (n / write_max))) f ip addr 0 n ;;
        ret (if i =? n then n else -1)
    | FD_NONE => panic "filewrite"
    end.

(** ** pipealloc *)

(** The label bad with no page allocated. *)
Definition pipe_bad (f0 f1 : option nat) : K (option (nat * nat)) :=
  match f0 with Some f => fileclose f | None => ret tt end ;;;
  match f1 with Some f => fileclose f | None => ret tt end ;;;
  ret None.

(** pipealloc: the two files, [None] for -1.  data[] keeps what the page held. *)
Definition pipealloc : K (option (nat * nat)) :=
  f0 <- filealloc ;;
  match f0 with
  | None => pipe_bad None None
  | Some f0 =>
      f1 <- filealloc ;;
      match f1 with
      | None => pipe_bad (Some f0) None
      | Some f1 =>
          p <- kalloc ;;
          match p with
          | None => pipe_bad (Some f0) (Some f1)
          | Some p =>
              pg <- gets (fun s => default [] (k_mem s !! p)) ;;
              modify (fun s => s <| k_pipe ::= <[p := mk_pipe (take 512 (drop 52 pg)) 0 0 true true]> |>) ;;;
              initlock (lk_pipe p) ;;;
              setfile f0 (fun x => x <| ftype := FD_PIPE |> <| readable := true |>
                                     <| writable := false |> <| fpipe := Some p |>) ;;;
              setfile f1 (fun x => x <| ftype := FD_PIPE |> <| readable := false |>
                                     <| writable := true |> <| fpipe := Some p |>) ;;;
              ret (Some (f0, f1))
          end
      end
  end.
