(* ===== verification/Atomic.v ===== *)
(** * Writes are atomic and durable (theorem on filewrite of file.c)

    The composition of the file system from the descriptor to the disk: a
    write() through an open file runs its transactions by begin_op, ilock,
    writei, iunlock and end_op, and a crash at any disk write in between leaves
    a disk that recovers to a whole number of them. *)

From S2P Require Import Prelude Cstring Kernel Spinlock ProcCore Console Vm Bio Quiet Cache Log Crash Txn Inode Fs Files Pipe File.

(** No operation is under way: nothing is dirty or listed, and the header on
    disk lists nothing. *)
Record log_idle (p : nat) (start : Z) (s : kstate) : Prop := {
  li_pending : pending p start [] s;
  li_out : outstanding (k_log s) = 0;
  li_com : committing (k_log s) = false;
  li_size : lsize (k_log s) = LOGSIZE;
  li_head : exists h, k_disk s !! start = Some h /\ head_blocks h = []
}.

Lemma idle_clean p start s b : log_idle p start s -> bview s b = k_disk s !! b.
Proof.
  intros Hi. pose proof (li_pending _ _ _ Hi) as Hp. apply (bview_clean p); [apply (pe_ok _ _ _ _ Hp)|].
  intros Hb%(pe_dirty _ _ _ _ Hp). by apply elem_of_nil in Hb.
Qed.

(** ** The file after a change of state that keeps its blocks *)

Section agree.
Context (start : Z) (x : inode) (s t : kstate).
Hypothesis Hind : outside start (indirect x).
Hypothesis Hview : forall b, outside start b -> bview t b = bview s b.
Hypothesis Hdom : forall b, is_Some (k_disk t !! b) <-> is_Some (k_disk s !! b).

Lemma agree_addr bn : addr_of t x bn = addr_of s x bn.
Proof. unfold addr_of. by rewrite Hview. Qed.

Lemma agree_mapped bn : mapped t x bn <-> mapped s x bn.
Proof. unfold mapped. by rewrite agree_addr, !Hdom. Qed.

Lemma agree_file : file_ok start s x -> file_ok start t x.
Proof.
  intros Hf. split.
  - intros j Hj. apply agree_mapped. by apply (fo_mapped _ _ _ Hf).
  - intros bn Hbn%agree_mapped. rewrite agree_addr. by apply (fo_out _ _ _ Hf).
  - intros b1 b2 H1%agree_mapped H2%agree_mapped. rewrite !agree_addr. by apply (fo_inj _ _ _ Hf).
  - intros bn Hbn%agree_mapped. rewrite agree_addr. by apply (fo_ind _ _ _ Hf).
Qed.

Lemma agree_fbyte j : file_ok start s x -> 0 <= j < isize x -> fbyte t x j = fbyte s x j.
Proof.
  intros Hf Hj. unfold fbyte, block_of. rewrite agree_addr, Hview; [done|].
  apply (fo_out _ _ _ Hf), (fo_mapped _ _ _ Hf). lia.
Qed.
End agree.

(** The blocks of the disk, before and after a commit. *)
Lemma log_dom p start s t b :
  log_at start s -> log_at start t -> cache_ok p [] s ->
  (outside start b -> k_disk t !! b = bview s b) -> is_Some (k_disk t !! b) <-> is_Some (k_disk s !! b).
Proof.
  intros (_ & _ & Hs & _) (_ & _ & Ht & _) Hc Hv. destruct (decide (start <= b < start + LOGSIZE)) as [Hin|Hout].
  - specialize (Hs (b - start) ltac:(lia)). specialize (Ht (b - start) ltac:(lia)).
    by replace (start + (b - start)) with b in * by lia.
  - rewrite Hv by (unfold outside; lia). split; [by eapply view_on_disk|by eapply view_some].
Qed.

(** ** One transaction of a write *)

Section durable.
Context (p : nat) (start : Z) (f ip : nat) (x : inode).
Hypothesis Hip : (ip < NINODE)%nat.
Hypothesis Href : 1 <= iref x.
Hypothesis Hval : ivalid x = true.
Hypothesis Hdev : idev x = 1.
Hypothesis Hty : itype x <> T_DEV.
Hypothesis Hmax : isize x <= MAXFILE * BSIZE.
Hypothesis Hind : outside start (indirect x).

(** The open file [f] on inode [x] at offset [off], with nobody using either. *)
Record writer (off : Z) (s : kstate) : Prop := {
  wr_idle : log_idle p start s;
  wr_file : exists ff, k_file s !! f = Some ff /\ writable ff = true /\ ftype ff = FD_INODE /\
    fip ff = Some ip /\ foff ff = off;
  wr_inode : exists v, k_inode s !! ip = Some (x <| ilk := v |>) /\ slocked v = false;
  wr_ok : file_ok start s x
}.

(** The bytes of the file in [t] are those in [s] with [src] at [off]. *)
Definition patched (s t : kstate) (off n : Z) (src : list Z) : Prop :=
  forall j, 0 <= j < isize x ->
    fbyte t x j = if decide (off <= j < off + n) then aget src (idx (j - off)) else fbyte s x j.

(** begin_op and ilock: the transaction is open and the inode locked. *)
Lemma enter_ok off s :
  writer off s -> let v := mk_sleeplock true (pid (pget s p)) in
  exists u, (forall A (rest : K A), (begin_op ;;; ilock ip ;;; rest) s = rest u) /\
    txn p start 4 u /\ same_io s u /\ k_file u = k_file s /\ pid (pget u p) = pid (pget s p) /\
    k_inode u !! ip = Some (x <| ilk := v |>) /\ outstanding (k_log u) = 1 /\ committing (k_log u) = false /\
    lsize (k_log u) = LOGSIZE.
Proof.
  intros [[Hp Ho Hc Hs _] _ (v0 & Hx & Hv0) _] v. pose proof (co_quiet _ _ _ (pe_ok _ _ _ _ Hp)) as Hq.
  pose (s1 := s <| k_log ::= (fun g => g <| outstanding := i32 (outstanding g + 1) |>) |>).
  assert (quiet p s1) as Hq1 by exact Hq.
  pose (u := s1 <| k_inode ::= alter (fun y => y <| ilk := v |>) ip |>).
  assert (iget_ s1 ip = x <| ilk := v0 |>) as Hx1 by (apply (aget_lookup (k_inode s)); done).
  assert (k_inode u !! ip = Some (x <| ilk := v |>)) as Hxu.
  { unfold u. simpl. rewrite list_lookup_alter_eq, Hx. done. }
  exists u. split; [|split; [|split_and!; try done]].
  - intros A rest. rewrite (bind_Done _ _ _ _ _ (begin_op_ok p s Hq ltac:(unfold op_admitted; by rewrite Hc, Ho, (pe_n _ _ _ _ Hp)))).
    fold s1. unfold ilock, getinode. rewrite (bind_Done _ _ _ tt u); [done|]. rewrite bind_gets, Hx1. simpl.
    rewrite (proj2 (Z.ltb_ge (iref x) 1)) by lia.
    rewrite (bind_Done _ _ _ _ _ (acquiresleep_ok p s1 (sl_inode ip) Hq1 (static_inode ip Hip)
      ltac:(change (slocked (ilk (iget_ s1 ip)) = false); by rewrite Hx1))).
    rewrite bind_gets. change (iget_ (set_sl _ _ s1) ip) with (iget_ u ip).
    replace (iget_ u ip) with (x <| ilk := v |>) by (symmetry; by apply aget_lookup). simpl. by rewrite Hval.
  - exists []. split; [apply (io_pending p start [] s); [done|done|done]|].
    unfold u, s1. simpl. rewrite Ho, Hs. split_and!; [done|done|]. by vm_compute.
  - unfold u, s1. simpl. by rewrite Ho.
Qed.

Lemma file_ok_ilk s v : file_ok start s (x <| ilk := v |>) <-> file_ok start s x.
Proof. split; intros [H1 H2 H3 H4]; split; assumption. Qed.

(** iunlock and end_op: the inode is free again and the transaction is on disk. *)
Lemma leave_ok off s bs h ff :
  pending p start bs s -> k_disk s !! start = Some h -> head_blocks h = [] -> lsize (k_log s) = LOGSIZE ->
  outstanding (k_log s) = 1 -> committing (k_log s) = false -> file_ok start s x ->
  k_inode s !! ip = Some (x <| ilk := mk_sleeplock true (pid (pget s p)) |>) ->
  k_file s !! f = Some ff -> writable ff = true -> ftype ff = FD_INODE -> fip ff = Some ip -> foff ff = off ->
  exists t ws, (forall A (rest : K A), (iunlock ip ;;; end_op ;;; rest) s = rest t) /\ writer off t /\
    k_hist t = k_hist s ++ ws /\ k_disk t = apply_writes (k_disk s) ws /\
    (forall b, outside start b -> k_disk t !! b = bview s b) /\
    (forall j, 0 <= j < isize x -> fbyte t x j = fbyte s x j) /\
    forall k b, outside start b ->
      recover_disk start (apply_writes (k_disk s) (take k ws)) !! b =
        if (k <=? length bs)%nat then k_disk s !! b else bview s b.
Proof.
  intros Hp Hh He Hls Ho Hc Hf Hx Hff Hw Hft Hfi Hoff. pose proof (co_quiet _ _ _ (pe_ok _ _ _ _ Hp)) as Hq.
  assert (iget_ s ip = x <| ilk := mk_sleeplock true (pid (pget s p)) |>) as Hxs by (by apply aget_lookup).
  pose (s0 := s <| k_inode ::= alter (fun y => y <| ilk := mk_sleeplock false 0 |>) ip |>).
  pose (s1 := s0 <| k_proc ::= fmap (wake (Some (ch_sleep (sl_inode ip)))) |>).
  assert (same_io s s1) as Hio by exact (same_io_wake _ s0).
  destruct (end_op_commit p start bs s1 h) as (t & ws & h' & Hr & Hhist & Hpt & Hst & Hh' & He' & Hd & Hv & Hk); try done.
  { apply (io_pending p start bs s); done. }
  { apply Forall_forall. intros b Hb%(pe_dirty _ _ _ _ Hp). change (is_Some (k_disk s !! b)).
    eapply dirty_on_disk; [apply (pe_ok _ _ _ _ Hp)|done]. }
  assert (k_inode t = k_inode s0 /\ k_file t = k_file s /\ lsize (k_log t) = LOGSIZE /\ outstanding (k_log t) = 0 /\
    committing (k_log t) = false) as (Hti & Htf & Htl & Hto & Htc) by (destruct Hst as [-> _]; done).
  assert (log_idle p start t) as Hidle by (split; [done..|by exists h']).
  assert (forall b, outside start b -> bview t b = bview s b) as Hvt.
  { intros b Hb. rewrite (idle_clean p start) by done. rewrite Hv by done. by apply io_bview. }
  assert (forall b, is_Some (k_disk t !! b) <-> is_Some (k_disk s !! b)) as Hdom.
  { intros b. eapply log_dom; [apply (pe_log _ _ _ _ Hp)|apply (pe_log _ _ _ _ Hpt)|apply (pe_ok _ _ _ _ Hp)|].
    intros Hb. rewrite Hv by done. by apply io_bview. }
  exists t, ws. split; [|split; [|split_and!; try done]].
  - intros A rest. unfold iunlock. rewrite (bind_Done _ _ _ tt s1).
    { by rewrite (bind_Done _ _ _ _ _ Hr). }
    rewrite (bind_Done _ _ _ _ _ (holdingsleep_ok p s (sl_inode ip) Hq (static_inode ip Hip))).
    change (sllock s (sl_inode ip)) with (ilk (iget_ s ip)). unfold getinode. rewrite bind_gets, Hxs. simpl.
    rewrite Z.eqb_refl, (proj2 (Z.ltb_ge (iref x) 1)) by lia. simpl.
    exact (releasesleep_ok p s (sl_inode ip) Hq (static_inode ip Hip)).
  - split; [done| | |by apply (agree_file start x s)].
    + exists ff. by rewrite Htf.
    + exists (mk_sleeplock false 0). rewrite Hti. unfold s0. simpl. by rewrite list_lookup_alter_eq, Hx.
  - intros j Hj. by apply (agree_fbyte start x s).
Qed.

(** One turn of the loop of filewrite. *)
Lemma turn_ok off n src s :
  writer off s -> 0 <= off -> 0 < n <= write_max -> off + n <= isize x -> n <= Z.of_nat (length src) ->
  exists t ws, (forall A (rest : Z -> K A),
      (begin_op ;;; ilock ip ;;; o <- getfile f foff ;; r <- writei ip src o n ;;
       when (0 <? r) (setfile f (fun y => y <| foff := u32 (foff y + r) |>)) ;;;
       iunlock ip ;;; end_op ;;; rest r) s = rest n t) /\
    writer (off + n) t /\ k_hist t = k_hist s ++ ws /\ k_disk t = apply_writes (k_disk s) ws /\
    patched s t off n src /\
    forall k, (forall b, outside start b -> recover_disk start (apply_writes (k_disk s) (take k ws)) !! b = k_disk s !! b) \/
              (forall b, outside start b -> recover_disk start (apply_writes (k_disk s) (take k ws)) !! b = k_disk t !! b).
Proof.
  intros Hwr Hoff Hn Hsz Hsrc. pose proof Hwr as [Hidle (ff & Hff & Hw & Hft & Hfi & Hfo) _ Hok].
  destruct (enter_ok off s Hwr) as (u & Henter & Htxn & Hio & Hfu & Hpid & Hxu & Ho & Hc & Hls).
  assert (file_ok start u x) as Hoku.
  { apply (agree_file start x s); [done|intros b _; by apply io_bview| |done].
    intros b. by destruct Hio as (_ & _ & _ & -> & _). }
  destruct (writei_ok p start ip (x <| ilk := mk_sleeplock true (pid (pget s p)) |>) src off n u 4)
    as (w & Hrun & (bs & Hpw & How & Hlw & _) & Hxw & Hst & Hokw%file_ok_ilk & Hbw); try done; try lia.
  { by apply aget_lookup. }
  { by apply file_ok_ilk. }
  { right. change write_max with 1536 in Hn. unfold BSIZE. pose proof (Z.mod_pos_bound off 512 ltac:(lia)). lia. }
  assert (k_inode w = k_inode u /\ k_file w = k_file s /\ k_disk w = k_disk s /\ k_hist w = k_hist s /\
    lsize (k_log w) = LOGSIZE /\ outstanding (k_log w) = 1 /\ committing (k_log w) = false /\
    pid (pget w p) = pid (pget s p)) as (Hwi & Hwf & Hwd & Hwh & Hwl & Hwo & Hwc & Hwp).
  { pose proof (pid_env _ _ p (bio_step_env _ _ (ts_step _ _ Hst))) as Hpe.
    pose proof Hst as [[Hfr _] -> -> -> -> ->]. destruct Hio as (_ & _ & _ & -> & ->).
    split_and!; try done; [by rewrite Hfr|by rewrite Hfr|]. rewrite <- Hpid. by symmetry. }
  pose (w1 := w <| k_file ::= alter (fun y => y <| foff := u32 (foff y + n) |>) f |>).
  destruct (li_head _ _ _ Hidle) as (h & Hh & Hhe).
  assert (u32 (off + n) = off + n) as Hu.
  { apply u32_id. unfold MAXFILE, NINDIRECT, NDIRECT, BSIZE in Hmax. change (512 / 4) with 128 in Hmax. lia. }
  destruct (leave_ok (off + n) w1 bs h (ff <| foff := off + n |>)) as (t & ws & Hleave & Hwt & Hhist & Hdk & Hvt & Hbt & Hk);
    try done.
  { apply (io_pending p start bs w); done. }
  { change (k_disk w !! start = Some h). by rewrite Hwd. }
  { apply (agree_file start x w); done. }
  { change (k_inode w !! ip = Some (x <| ilk := mk_sleeplock true (pid (pget w p)) |>)). by rewrite Hwi, Hwp. }
  { unfold w1. simpl. rewrite list_lookup_alter_eq, Hwf, Hff. simpl. by rewrite Hfo, Hu. }
  change (k_hist w1) with (k_hist w) in Hhist. change (k_disk w1) with (k_disk w) in Hdk, Hk. rewrite Hwd in Hdk, Hk.
  exists t, ws. split; [|split; [done|split; [by rewrite Hhist, Hwh|split; [done|split]]]].
  - intros A rest. rewrite Henter. unfold getfile. rewrite bind_gets.
    rewrite (aget_lookup (k_file u) f ff) by (by rewrite Hfu). rewrite Hfo, (bind_Done _ _ _ _ _ Hrun).
    rewrite (proj2 (Z.ltb_lt 0 n)) by lia. unfold setfile. cbn [when]. rewrite bind_modify. apply Hleave.
  - intros j Hj. rewrite Hbt by done. change (fbyte w1 x j) with (fbyte w x j).
    transitivity (if decide (off <= j < off + n) then aget src (idx (j - off)) else fbyte u x j); [by apply Hbw|].
    case_decide; [done|]. apply (agree_fbyte start x s u); try done. intros b _. by apply io_bview.
  - intros k. destruct (decide (k <= length bs)%nat) as [Hle|Hgt]; [left|right]; intros b Hb; rewrite Hk by done.
    + by rewrite (proj2 (Nat.leb_le _ _) Hle).
    + rewrite (proj2 (Nat.leb_gt _ _)) by lia. symmetry. by apply Hvt.
Qed.

(** ** The whole write *)

(** Every crash after some of the writes [ws] recovers to the disk of an idle
    state in which a prefix of [src] has been written. *)
Definition crash_prefix (s : kstate) (ws : list (Z * list Z)) (off n : Z) (src : list Z) : Prop :=
  forall k, exists u m, 0 <= m <= n /\ writer (off + m) u /\ patched s u off m src /\
    forall b, outside start b -> recover_disk start (apply_writes (k_disk s) (take k ws)) !! b = k_disk u !! b.

Lemma patched_nil s off src : patched s s off 0 src.
Proof. intros j _. by rewrite decide_False by lia. Qed.

Lemma patched_trans s u t off m n src :
  0 <= m -> 0 <= n -> patched s u off m src -> patched u t (off + m) n (drop (idx m) src) ->
  patched s t off (m + n) src.
Proof.
  intros Hm Hn H1 H2 j Hj. rewrite H2, H1 by done. repeat case_decide; try lia; try done.
  rewrite aget_drop. f_equal. unfold idx. lia.
Qed.

(** A crash in the first transaction or in the rest. *)
Lemma crash_prefix_app s t ws ws' off m n src :
  0 <= m -> 0 <= n -> writer off s -> writer (off + m) t -> patched s t off m src ->
  k_disk t = apply_writes (k_disk s) ws ->
  (forall k, (forall b, outside start b -> recover_disk start (apply_writes (k_disk s) (take k ws)) !! b = k_disk s !! b) \/
             (forall b, outside start b -> recover_disk start (apply_writes (k_disk s) (take k ws)) !! b = k_disk t !! b)) ->
  crash_prefix t ws' (off + m) n (drop (idx m) src) -> crash_prefix s (ws ++ ws') off (m + n) src.
Proof.
  intros Hm Hn Hs Ht Hpt Hdk Hk Hrest k. destruct (decide (k <= length ws)%nat) as [Hle|Hgt].
  - rewrite take_app_le by done. destruct (Hk k) as [Hb|Hb].
    + exists s, 0. rewrite Z.add_0_r. split; [lia|]. split; [done|]. split; [apply patched_nil|done].
    + exists t, m. split; [lia|]. done.
  - rewrite take_app_ge, apply_writes_app, <- Hdk by lia.
    destruct (Hrest (k - length ws)%nat) as (u & m' & Hm' & Hu & Hpu & Hb).
    exists u, (m + m'). split; [lia|]. split; [by rewrite Z.add_assoc|]. split; [|done].
    apply (patched_trans s t); [lia|lia|done|done].
Qed.

Lemma crash_prefix_nil s off src : writer off s -> crash_prefix s [] off 0 src.
Proof.
  intros Hs k. exists s, 0. rewrite Z.add_0_r, take_nil. split; [lia|]. split; [done|]. split; [apply patched_nil|].
  intros b Hb. destruct (li_head _ _ _ (wr_idle _ _ Hs)) as (h & Hh & He). simpl. unfold recover_disk.
  rewrite Hh, He. cbn [install_disk]. apply lookup_insert_ne. unfold outside, LOGSIZE, MAXOPBLOCKS in Hb. lia.
Qed.

(** The loop of filewrite: as many transactions as it takes. *)
Lemma filewrite_loop_ok fuel addr i n off s :
  writer off s -> 0 <= off -> 0 <= i <= n -> off + (n - i) <= isize x -> n <= Z.of_nat (length addr) ->
  n - i <= Z.of_nat fuel * write_max ->
  exists t ws, filewrite_loop fuel f ip addr i n s = Done (Ok n) t /\ writer (off + (n - i)) t /\
    k_hist t = k_hist s ++ ws /\ patched s t off (n - i) (drop (idx i) addr) /\
    crash_prefix s ws off (n - i) (drop (idx i) addr).
Proof.
  change write_max with 1536.
  revert i off s. induction fuel as [|fuel IH]; intros i off s Hwr Hoff Hi Hsz Hlen Hfuel; cbn [filewrite_loop].
  all: destruct (Z.ltb_spec i n) as [Hlt|Hge]; cbn [negb].
  2, 4: assert (i = n) as -> by lia; rewrite Z.sub_diag, Z.add_0_r in *; exists s, [];
    split; [done|]; split; [done|]; split; [by rewrite app_nil_r|]; split; [apply patched_nil|by apply crash_prefix_nil].
  { lia. }
  change write_max with 1536. set (n1 := Z.min (n - i) 1536).
  destruct (turn_ok off n1 (drop (idx i) addr) s) as (t & ws & Hrun & Hwt & Hh & Hdk & Hpt & Hk); try done.
  { change write_max with 1536. lia. }
  { lia. }
  { rewrite length_drop. unfold idx. lia. }
  destruct (IH (i + n1) (off + n1) t) as (u & ws' & Hrun' & Hwu & Hh' & Hpu & Hc); [done|lia..|].
  replace (n - i) with (n1 + (n - (i + n1))) by lia.
  assert (drop (idx (i + n1)) addr = drop (idx n1) (drop (idx i) addr)) as Hdrop.
  { rewrite drop_drop. f_equal. unfold idx. lia. }
  rewrite Hdrop in *. exists u, (ws ++ ws'). split; [|split; [|split; [|split]]].
  - rewrite Hrun, (proj2 (Z.ltb_ge n1 0)), Z.eqb_refl by lia. done.
  - by rewrite Z.add_assoc.
  - by rewrite Hh', Hh, app_assoc.
  - apply (patched_trans s t); [lia|lia|done|done].
  - apply (crash_prefix_app s t); try done; lia.
Qed.
End durable.

(** C2: write() of [n] bytes through an open file, inside the file's current
    size and with the log idle, returns [n] after as many transactions as the
    log's size makes necessary, advances the offset by [n], changes the bytes
    [off..off+n) of the file to those given and no other, and leaves the log
    idle.  A crash after any number of the disk writes it issued, followed by
    recovery, gives (outside the log) the disk of an idle state in which the
    file holds some prefix of the new bytes and the old bytes after it: never a
    torn transaction, never bytes out of order. *)
Theorem filewrite_atomic p start f ip x addr n off s :
  (ip < NINODE)%nat -> 1 <= iref x -> ivalid x = true -> idev x = 1 -> itype x <> T_DEV ->
  isize x <= MAXFILE * BSIZE -> outside start (indirect x) ->
  writer p start f ip x off s -> 0 <= off -> 0 <= n -> off + n <= isize x -> n <= Z.of_nat (length addr) ->
  exists t ws, filewrite f addr n s = Done (Ok n) t /\ writer p start f ip x (off + n) t /\
    patched x s t off n addr /\ k_hist t = k_hist s ++ ws /\
    forall k, exists u m, 0 <= m <= n /\ writer p start f ip x (off + m) u /\ patched x s u off m addr /\
      forall b, outside start b ->
        recover_disk start (apply_writes (k_disk s) (take k ws)) !! b = k_disk u !! b.
Proof.
  intros Hip Href Hval Hdev Hty Hmax Hind Hwr Hoff Hn Hsz Hlen.
  destruct (filewrite_loop_ok p start f ip x Hip Href Hval Hdev Hty Hmax Hind (S (idx (n / write_max))) addr 0 n off s)
    as (t & ws & Hrun & Hwt & Hh & Hpt & Hc); try done; try lia.
  { change write_max with 1536. unfold idx. rewrite Nat2Z.inj_succ, Z2Nat.id by (apply Z.div_pos; lia).
    pose proof (Z.div_mod n 1536 ltac:(lia)). pose proof (Z.mod_pos_bound n 1536 ltac:(lia)). lia. }
  rewrite Z.sub_0_r in *. rewrite drop_0 in *. exists t, ws. split; [|done].
  pose proof Hwr as [_ (ff & Hff & Hw & Hft & Hfi & _) _ _].
  assert (aget (k_file s) f = ff) as Hag by (by apply aget_lookup).
  unfold filewrite, getfile. rewrite bind_gets. change (id (aget (k_file s) f)) with (aget (k_file s) f).
  rewrite Hag, Hw, Hft. cbn [negb].
  assert (file_inode f s = Done (Ok ip) s) as Hino.
  { unfold file_inode, getfile. by rewrite bind_gets, Hag, Hfi. }
  rewrite (bind_Done _ _ _ _ _ Hino).
  rewrite (bind_Done _ _ _ _ _ Hrun). by rewrite Z.eqb_refl.
Qed.

(** ** A file open for writing on an idle log *)

Definition open_fd : file := file0 <| ftype := FD_INODE |> <| fref := 1 |> <| writable := true |> <| fip := Some 0%nat |>
  <| foff := 500 |>.

Definition idle_writer : kstate :=
  open_file <| k_log ::= (fun g => g <| outstanding := 0 |>) |> <| k_file := [open_fd] |>.

Lemma idle_writer_ok : writer 1 2 0 0 two_blocks 500 idle_writer.
Proof.
  assert (pending 1 2 [] idle_writer) as Hp.
  { pose proof (pending_inode _ _ _ _ (two_blocks :: replicate 49 inode0) open_txn_pending) as Hp.
    apply (io_pending 1 2 [] open_file); try done. }
  split.
  - split; try done. exists (replicate 512 0). by split; vm_compute.
  - by exists open_fd.
  - by exists (ilk two_blocks).
  - by apply (agree_file 2 two_blocks open_file); [left| | |apply two_blocks_ok].
Qed.

Lemma filewrite_atomic_witness :
  exists t, filewrite 0 [1; 2; 3] 3 idle_writer = Done (Ok 3) t /\ patched two_blocks idle_writer t 500 3 [1; 2; 3].
Proof.
  refine (match filewrite_atomic 1 2 0 0 two_blocks [1; 2; 3] 3 500 idle_writer _ _ _ _ _ _ _ idle_writer_ok _ _ _ _
    with ex_intro _ t (ex_intro _ _ (conj Hr (conj _ (conj Hpt _)))) => ex_intro _ t (conj Hr Hpt) end);
    [unfold NINODE; lia|done|done|done|done|done|by left|lia|lia|done|simpl; lia].
Defined.
