(* ===== verification/Proc.v ===== *)
(** * Processes (proc.c)

    Creation, growth, exit, wait and kill, and the system calls that the three
    course projects add: scheduling priorities, administrator mode and memory
    limits.  A pointer to a process is its index in ptable; dereferencing a
    null one is undefined. *)

From S2P Require Import Prelude Cstring Kernel Spinlock ProcCore Console Vm Bio Log Inode Fs File.

(** ** The open files of a process *)

(** p->ofile[fd], which C leaves undefined for fd outside the array *)
Definition get_ofile (p fd : nat) : K (option nat) :=
  l <- getproc p ofile ;;
  match l !! fd with
  | Some f => ret f
  | None => halt (UB "ofile")
  end.

(** p->ofile[fd] = f; *)
Definition set_ofile (p fd : nat) (f : option nat) : K unit :=
  l <- getproc p ofile ;;
  if (fd <? length l)%nat then setproc p (fun x => x <| ofile ::= <[fd := f]> |>)
  else halt (UB "ofile").

(** ** Creation *)

(** strcpy to userid, the last field of struct proc. *)
Definition copy_userid (p : nat) (src : list Z) : K unit :=
  u <- getproc p userid ;;
  match strcpy u src with
  | Some u' => setproc p (fun x => x <| userid := u' |>)
  | None => halt (UB "strcpy")
  end.

Definition pinit : K unit := initlock lk_ptable.

(** The assignments at found: up to the copy of userid. *)
Definition embryo (np t : Z) (mlfq : bool) (x : proc) : proc :=
  let x := x <| state := EMBRYO |> <| pid := np |> <| time_c := t |> in
  let x := if mlfq then x <| priority := 0 |> <| level := 0 |> <| hold := aget TIME_QUANTUM 0 |>
           else x in
  x <| mode := USER |> <| limit := 0 |>.

Definition find_unused_proc (s : kstate) : option nat :=
  fst <$> list_find (fun x => state x = UNUSED) (k_proc s).

(** allocproc: [None] for 0.  The trap frame is left as it was. *)
Definition allocproc : K (option nat) :=
  acquire lk_ptable ;;;
  f <- gets find_unused_proc ;;
  match f with
  | None => release lk_ptable ;;; ret None
  | Some p =>
      n <- gets k_nextpid ;;
      t <- gets k_ticks ;;
      mlfq <- gets k_mlfq ;;
      setproc p (embryo n t mlfq) ;;;
      modify (fun s => s <| k_nextpid := i32 (n + 1) |>) ;;;
      copy_userid p root_name ;;;
      release lk_ptable ;;;
      ks <- kalloc ;;
      setproc p (fun x => x <| kstack := ks |>) ;;;
      match ks with
      | None => setproc p (fun x => x <| state := UNUSED |>) ;;; ret None
      | Some _ =>
          setproc p (fun x => x <| pcontext := mk_context 0 0 0 0 cp_forkret |>) ;;;
          ret (Some p)
      end
  end.

(** (SEG_UCODE << 3) | DPL_USER, (SEG_UDATA << 3) | DPL_USER, FL_IF *)
Definition USER_CS : Z := 27.

Definition USER_DS : Z := 35.

Definition FL_IF : Z := 512.

(** The name of a process, sizeof(p->name) bytes. *)
Definition copy_name (p : nat) (src : list Z) : K unit :=
  nm <- getproc p name ;;
  match safestrcpy nm src 16 with
  | Some nm' => setproc p (fun x => x <| name := nm' |>)
  | None => halt (UB "safestrcpy")
  end.

(** userinit, with the bytes of initcode. *)
Definition userinit (initcode : list Z) : K unit :=
  op <- allocproc ;;
  modify (fun s => s <| k_initproc := op |>) ;;;
  match op with
  | None => halt (UB "userinit")
  | Some p =>
      pd <- setupkvm ;;
      setproc p (fun x => x <| pgdir := pd |>) ;;;
      match pd with
      | None => panic "userinit: out of memory?"
      | Some pd =>
          inituvm pd initcode ;;;
          setproc p (fun x => x <| sz := PGSIZE |>
            <| tf := tf0 <| tf_cs := USER_CS |> <| tf_ds := USER_DS |> <| tf_es := USER_DS |>
                         <| tf_ss := USER_DS |> <| tf_eflags := FL_IF |> <| tf_esp := PGSIZE |>
                         <| tf_eip := 0 |> |>) ;;;
          copy_name p (chars "initcode" ++ [0]) ;;;
          c <- namei (chars "/" ++ [0]) ;;
          setproc p (fun x => x <| cwd := c |>) ;;;
          acquire lk_ptable ;;;
          setproc p (fun x => x <| state := RUNNABLE |>) ;;;
          release lk_ptable
      end
  end.

(** The page table of the running process. *)
Definition my_pgdir (p : nat) : K Z :=
  pd <- getproc p pgdir ;;
  match pd with Some pd => ret pd | None => halt (UB "pgdir") end.

Definition growproc (n : Z) : K Z :=
  p <- curproc ;;
  x <- getproc p id ;;
  pd <- my_pgdir p ;;
  let grown := fun v => setproc p (fun x => x <| sz := v |>) ;;; switchuvm p ;;; ret 0 in
  if 0 <? n then
    if (u32 (sz x + n) <=? limit x) || (limit x =? 0) then
      r <- allocuvm pd (sz x) (u32 (sz x + n)) ;;
      if r =? 0 then ret (-1) else grown r
    else ret (-1)
  else if n <? 0 then
    r <- deallocuvm pd (sz x) (u32 (sz x + n)) ;;
    if r =? 0 then ret (-1) else grown r
  else grown (sz x).

(** fork and fork2, which differ in the user the child gets. *)
Definition fork_as (user : nat -> K (list Z)) : K Z :=
  p <- curproc ;;
  onp <- allocproc ;;
  match onp with
  | None => ret (-1)
  | Some np =>
      pd <- my_pgdir p ;;
      size <- getproc p sz ;;
      d <- copyuvm pd size ;;
      setproc np (fun y => y <| pgdir := d |>) ;;;
      match d with
      | None =>
          ks <- getproc np kstack ;;
          match ks with Some v => kfree v | None => halt (UB "kfree") end ;;;
          setproc np (fun y => y <| kstack := None |> <| state := UNUSED |>) ;;;
          ret (-1)
      | Some _ =>
          x <- getproc p id ;;
          setproc np (fun y => y <| sz := sz x |> <| parent := Some p |> <| tf := tf x |>
                                 <| mode := mode x |> <| limit := limit x |>) ;;;
          u <- user p ;;
          copy_userid np u ;;;
          setproc np (fun y => y <| tf := (tf y) <| tf_eax := 0 |> |>) ;;;
          mfor (seq 0 NOFILE) (fun i =>
            f <- get_ofile p i ;;
            match f with
            | Some f => f' <- filedup f ;; set_ofile np i (Some f')
            | None => ret tt
            end) ;;;
          c <- getproc p cwd ;;
          match c with
          | Some c => c' <- idup c ;; setproc np (fun y => y <| cwd := Some c' |>)
          | None => halt (UB "idup")
          end ;;;
          nm <- getproc p name ;;
          copy_name np nm ;;;
          child <- getproc np pid ;;
          acquire lk_ptable ;;;
          setproc np (fun y => y <| state := RUNNABLE |>) ;;;
          release lk_ptable ;;;
          ret child
      end
  end.

Definition fork : K Z := fork_as (fun p => getproc p userid).

Definition fork2 (username : list Z) : K Z := fork_as (fun _ => ret username).

(** ** exit and wait *)

(** The adoption loop of exit. *)
Definition adopt (cur : nat) (init : option nat) (q : nat) : K unit :=
  x <- getproc q id ;;
  when (bool_decide (parent x = Some cur))
    (setproc q (fun y => y <| parent := init |>) ;;;
     when (bool_decide (state x = ZOMBIE)) (wakeup1 (ch_proc <$> init))).

Definition exit : K unit :=
  p <- curproc ;;
  init <- gets k_initproc ;;
  if decide (init = Some p) then panic "init exiting"
  else
    mfor (seq 0 NOFILE) (fun fd =>
      f <- get_ofile p fd ;;
      match f with
      | Some f => fileclose f ;;; set_ofile p fd None
      | None => ret tt
      end) ;;;
    begin_op ;;;
    c <- getproc p cwd ;;
    match c with Some c => iput c | None => halt (UB "iput") end ;;;
    end_op ;;;
    setproc p (fun x => x <| cwd := None |>) ;;;
    acquire lk_ptable ;;;
    par <- getproc p parent ;;
    wakeup1 (ch_proc <$> par) ;;;
    mfor (seq 0 NPROC) (adopt p init) ;;;
    setproc p (fun x => x <| state := ZOMBIE |>) ;;;
    sched ;;;
    panic "zombie exit".

(** Reclaiming the zombie [q]: its pid. *)
Definition reap (q : nat) : K Z :=
  n <- getproc q pid ;;
  ks <- getproc q kstack ;;
  match ks with Some v => kfree v | None => panic "kfree" end ;;;
  setproc q (fun x => x <| kstack := None |>) ;;;
  pd <- getproc q pgdir ;;
  match pd with Some pd => freevm pd | None => panic "freevm: no pgdir" end ;;;
  setproc q (fun x => x <| pid := 0 |> <| parent := None |> <| name ::= <[0%nat := 0]> |>
                        <| killed := false |> <| state := UNUSED |>) ;;;
  ret n.

Definition is_child (p : nat) (x : proc) : bool := bool_decide (parent x = Some p).

(** The first exited child in the table. *)
Definition zombie_child (s : kstate) (p : nat) : option nat :=
  fst <$> list_find (fun x => parent x = Some p /\ state x = ZOMBIE) (k_proc s).

Fixpoint wait_loop (n : nat) (p : nat) : K Z :=
  z <- gets (fun s => zombie_child s p) ;;
  match z with
  | Some q => c <- reap q ;; release lk_ptable ;;; ret c
  | None =>
      kids <- gets (fun s => existsb (is_child p) (k_proc s)) ;;
      k <- getproc p killed ;;
      if negb kids || k then release lk_ptable ;;; ret (-1)
      else
        match n with
        | O => halt (Hang "wait")
        | S n' => sleep (Some (ch_proc p)) lk_ptable ;;; wait_loop n' p
        end
  end.

Definition wait : K Z :=
  p <- curproc ;;
  acquire lk_ptable ;;;
  n <- gets k_fuel ;;
  wait_loop n p.

(** ** kill *)

Definition pid_slot (s : kstate) (n : Z) : option nat :=
  fst <$> list_find (fun x => pid x = n) (k_proc s).

Definition kill (n : Z) : K Z :=
  acquire lk_ptable ;;;
  q <- gets (fun s => pid_slot s n) ;;
  match q with
  | Some q =>
      setproc q (fun x => (x <| killed := true |>)
                            <| state := if decide (state x = SLEEPING) then RUNNABLE else state x |>) ;;;
      release lk_ptable ;;;
      ret 0
  | None => release lk_ptable ;;; ret (-1)
  end.

(** forkret: the first process initialises the file system. *)
Definition forkret : K unit :=
  release lk_ptable ;;;
  first <- gets k_first ;;
  when first
    (modify (fun s => s <| k_first := false |>) ;;;
     iinit ROOTDEV ;;;
     initlog ROOTDEV).

(** ** Project 1: levels and priorities *)

Definition MIN_PRIORITY : Z := 0.

Definition MAX_PRIORITY : Z := 10.

Definition getlev : K Z := p <- curproc ;; getproc p level.

(** The loop over the table: whether a priority was set. *)
Fixpoint setpriority_loop (qs : list nat) (n prio me : Z) (flag : bool) : K bool :=
  match qs with
  | [] => ret flag
  | q :: qs' =>
      x <- getproc q id ;;
      if pid x =? n then
        match parent x with
        | None => halt (UB "setpriority: null parent")
        | Some pp =>
            ppid <- getproc pp pid ;;
            if ppid =? me then
              setproc q (fun x => x <| priority := prio |>) ;;;
              setpriority_loop qs' n prio me true
            else setpriority_loop qs' n prio me flag
        end
      else setpriority_loop qs' n prio me flag
  end.

Definition setpriority (n prio : Z) : K Z :=
  p <- curproc ;;
  acquire lk_ptable ;;;
  r <- (if (prio <? MIN_PRIORITY) || (MAX_PRIORITY <? prio) then ret (-2)
        else
          me <- getproc p pid ;;
          f <- setpriority_loop (seq 0 NPROC) n prio me false ;;
          ret (if (f : bool) then 0 else -1)) ;;
  release lk_ptable ;;;
  ret r.

(** ** Project 2: administrator mode and memory limits *)

Definition admin_password : list Z := chars "2016024875" ++ [0].

Definition getadmin (password : list Z) : K Z :=
  acquire lk_ptable ;;;
  r <- match strcmp password admin_password with
       | None => halt (UB "strcmp")
       | Some c =>
           if c =? 0 then p <- curproc ;; setproc p (fun x => x <| mode := ADMINISTRATOR |>) ;;; ret 0
           else ret (-1)
       end ;;
  release lk_ptable ;;;
  ret r.

Definition limit_slot (s : kstate) (n : Z) : option nat :=
  fst <$> list_find (fun x => pid x = n /\ state x <> UNUSED) (k_proc s).

Definition setmemorylimit (n lim : Z) : K Z :=
  p <- curproc ;;
  m <- getproc p mode ;;
  if (lim <? 0) || negb (bool_decide (m = ADMINISTRATOR)) then
    cprintf "setmemorylimit: fail (limit < 0 or privilege error)
" [] ;;;
    ret (-1)
  else
    q <- gets (fun s => limit_slot s n) ;;
    match q with
    | None =>
        cprintf "setmemorylimit: fail (no such pid)
" [] ;;;
        ret (-1)
    | Some q =>
        acquire lk_ptable ;;;
        x <- getproc q id ;;
        if (lim <? sz x) && negb (lim =? 0) then
          release lk_ptable ;;;
          cprintf "setmemorylimit: fail (designated limit is smaller than current sz)
" [] ;;;
          ret (-1)
        else
          setproc q (fun x => x <| limit := lim |>) ;;;
          release lk_ptable ;;;
          ret 0
    end.

Definition getprocstate (st : procstate) : string :=
  match st with
  | EMBRYO => "EMBRYO"
  | SLEEPING => "SLEEPING"
  | RUNNABLE => "RUNNABLE"
  | RUNNING => "RUNNING"
  | ZOMBIE => "ZOMBIE"
  | UNUSED => "NULL"
  end.

(** A terminated array as an argument of cprintf. *)
Definition astr (l : list Z) : carg := AStr (Some (default l (cstr l))).

Definition printproclist : K unit :=
  acquire lk_ptable ;;;
  cprintf "NAME | PID | UID | State | Elapsed Time (ticks) | Memory Size (bytes) | Limit (bytes)
" [] ;;;
  mfor (seq 0 NPROC) (fun q =>
    x <- getproc q id ;;
    t <- gets k_ticks ;;
    when (negb (bool_decide (state x = UNUSED)))
      (cprintf "%s | %d | %s | %s | %d | %d | %d
" [astr (name x); AInt (pid x); astr (userid x); AStr (Some (chars (getprocstate (state x))));
   AInt (i32 (t - time_c x)); AInt (i32 (sz x)); AInt (i32 (limit x))])) ;;;
  cprintf "
" [] ;;;
  release lk_ptable.

(** isalive, which keeps ptable.lock when it finds the process. *)
Definition isalive (n : Z) : K Z :=
  acquire lk_ptable ;;;
  f <- gets (fun s => existsb (fun x => negb (killed x) && (pid x =? n)) (k_proc s)) ;;
  if (f : bool) then ret 1
  else release lk_ptable ;;; ret 0.

(** procdump, with the return addresses found on each kernel stack. *)
Definition state_name (st : procstate) : string :=
  match st with
  | UNUSED => "unused"
  | EMBRYO => "embryo"
  | SLEEPING => "sleep "
  | RUNNABLE => "runble"
  | RUNNING => "run   "
  | ZOMBIE => "zombie"
  end.

Definition procdump (pcs : nat -> list Z) : K unit :=
  mfor (seq 0 NPROC) (fun q =>
    x <- getproc q id ;;
    when (negb (bool_decide (state x = UNUSED)))
      (cprintf "%d %s %s" [AInt (pid x); AStr (Some (chars (state_name (state x)))); astr (name x)] ;;;
       when (bool_decide (state x = SLEEPING))
         (mfor (cprefix 10 (pcs q)) (fun pc => cprintf " %p" [AInt pc])) ;;;
       cprintf "
" [])).
