(* ===== verification/Limits.v ===== *)
(** * Memory limits and kill (theorems on proc.c)

    Which kernel paths keep a fact of the process table, and the invariant
    behind setmemorylimit: no process is larger than the limit an administrator
    set for it.  The paths take spinlocks, so that other CPUs run between their
    steps; the invariant is shown with those steps included.  kill marks one
    process, and kill(0) marks an entry that is not in use. *)

From S2P Require Import Prelude Cstring Kernel Spinlock ProcCore Console Vm Bio Log Inode Fs File Proc Quiet.

(** ** Paths that keep a fact of the process table *)

(** The ways a path may stop. *)
Class Stops := stops_ok : stop -> Prop.

(** Any stop but an access outside the array of open files. *)
Class Tolerant (E : Stops) : Prop := tolerant w : w <> UB "ofile" -> stops_ok w.

Section keeps.
Context (F : list proc -> Prop) {E : Stops}.

(** [F] holds of the process table whenever the path gives up the processor,
    provided that it holds again when the path is resumed, and [F] holds when
    the path ends; a value it returns satisfies [Q], and it stops only as [E]
    allows. *)
Definition keeps {A} (m : K A) (Q : A -> Prop) : Prop :=
  forall s, F (k_proc s) ->
  safe (fun t => F (k_proc t)) (fun _ t => F (k_proc t))
       (fun r t => F (k_proc t) /\ match r with Ok a => Q a | Stop w => stops_ok w end) (m s).

Lemma keeps_mono {A} (m : K A) (P Q : A -> Prop) :
  keeps m P -> (forall a, P a -> Q a) -> keeps m Q.
Proof.
  intros Hm HPQ s Hs. eapply safe_mono; [|by apply Hm]. intros [a|w] t [Ht Ha]; auto.
Qed.

Lemma keeps_bind {A B} (m : K A) (f : A -> K B) P Q :
  keeps m P -> (forall a, P a -> keeps (f a) Q) -> keeps (bind m f) Q.
Proof.
  intros Hm Hf s Hs. apply safe_bind. eapply safe_mono; [|by apply Hm].
  intros [a|w] t [Ht Ha]; [by apply Hf|done].
Qed.

Lemma keeps_ret {A} (a : A) (Q : A -> Prop) : Q a -> keeps (ret a) Q.
Proof. by intros Ha s Hs. Qed.

Lemma keeps_halt {A} w (Q : A -> Prop) : stops_ok w -> keeps (halt w) Q.
Proof. by intros Hw s Hs. Qed.

Lemma keeps_gets {A} (f : kstate -> A) : keeps (gets f) (fun _ => True).
Proof. by intros s Hs. Qed.

(** A read of the state: what [F] says of it is known of the value. *)
Lemma keeps_read {A} (f : kstate -> A) (P : A -> Prop) :
  (forall s, F (k_proc s) -> P (f s)) -> keeps (gets f) P.
Proof. intros HP s Hs. split; [done|by apply HP]. Qed.

Lemma keeps_modify (f : kstate -> kstate) :
  (forall s, k_proc (f s) = k_proc s) -> keeps (modify f) (fun _ => True).
Proof. intros Hf s Hs. unfold modify; cbn [safe]. by rewrite Hf. Qed.

Lemma keeps_setproc p f :
  (forall l, F l -> F (alter f p l)) -> keeps (setproc p f) (fun _ => True).
Proof. intros Hf s Hs. split; [by apply Hf|done]. Qed.

Lemma keeps_swtch : keeps swtch (fun _ => True).
Proof. intros s Hs. split; [done|]. by intros t Ht. Qed.

Lemma keeps_when b m : keeps m (fun _ => True) -> keeps (when b m) (fun _ => True).
Proof. destruct b; [done|]. by intros _ s Hs. Qed.

Lemma keeps_mfor {X} (l : list X) f :
  (forall x, keeps (f x) (fun _ => True)) -> keeps (mfor l f) (fun _ => True).
Proof.
  intros Hf. induction l as [|x l IH]; cbn [mfor]; [by intros s Hs|].
  eapply keeps_bind; [apply Hf|done].
Qed.

Lemma keeps_mfor_ret {X R} (l : list X) (f : X -> K (option R)) :
  (forall x, keeps (f x) (fun _ => True)) -> keeps (mfor_ret l f) (fun _ => True).
Proof.
  intros Hf. induction l as [|x l IH]; cbn [mfor_ret]; [by intros s Hs|].
  eapply keeps_bind; [apply Hf|]. intros [r|] _; [by intros s Hs|done].
Qed.

Lemma keeps_mwhile `{!Tolerant E} n c b :
  keeps c (fun _ => True) -> keeps b (fun _ => True) -> keeps (mwhile n c b) (fun _ => True).
Proof.
  intros Hc Hb. induction n as [|n IH]; cbn [mwhile];
    (eapply keeps_bind; [done|]; intros [] _; [|by intros s Hs]).
  - by apply keeps_halt, tolerant.
  - by eapply keeps_bind.
Qed.
End keeps.

Create HintDb keeps discriminated.

(** One step of a path: a sequence, a branch or a known call. *)
Ltac keep_step :=
  match goal with
  | |- Tolerant _ => typeclasses eauto
  | |- forall _, _ => intros
  | |- keeps _ (bind _ _) _ =>
      first [eapply keeps_bind; [solve [eauto 2 with keeps nocore]|]
            |apply (keeps_bind _ _ _ (fun _ => True))]
  | |- keeps _ (match ?x with _ => _ end) _ => destruct x
  | |- keeps _ (halt _) _ => apply keeps_halt; solve [exact I | apply tolerant; discriminate]
  | |- keeps _ (panic _) _ => apply keeps_halt; solve [exact I | apply tolerant; discriminate]
  | |- keeps _ (when _ _) _ => apply keeps_when
  | |- keeps _ (mfor _ _) _ => apply keeps_mfor
  | |- keeps _ (mfor_ret _ _) _ => apply keeps_mfor_ret
  | |- keeps _ (mwhile _ _ _) _ => apply keeps_mwhile
  | |- keeps _ swtch _ => apply keeps_swtch
  | |- keeps _ (ret _) _ => apply keeps_ret; try done
  | |- keeps _ (gets _) _ => apply keeps_gets
  | |- keeps _ (getproc _ _) _ => apply keeps_gets
  | |- keeps _ (modify _) _ => apply keeps_modify; done
  | |- keeps _ _ _ => solve [eauto 2 with keeps nocore]
  | |- keeps _ _ (fun _ => True) => eapply keeps_mono; [solve [eauto 2 with keeps nocore]|done]
  end.

Ltac keep := repeat keep_step.

(** ** The paths under growproc, setmemorylimit and fork *)

#[export] Hint Extern 0 (Tolerant _) => typeclasses eauto : keeps.

Section frame.
Context (F : list proc -> Prop) {E : Stops} {HE : Tolerant E}.

Lemma keeps_mycpu : keeps F mycpu (fun _ => True).
Proof. unfold mycpu, read_if, lapicid. keep. Qed.
#[local] Hint Resolve keeps_mycpu : keeps.

Lemma keeps_pushcli : keeps F pushcli (fun _ => True).
Proof. unfold pushcli, read_if, cli. keep. Qed.

Lemma keeps_popcli : keeps F popcli (fun _ => True).
Proof. unfold popcli, read_if, sti. keep. Qed.
#[local] Hint Resolve keeps_pushcli keeps_popcli : keeps.

Lemma keeps_holding lk : keeps F (holding lk) (fun _ => True).
Proof. unfold holding. keep. Qed.
#[local] Hint Resolve keeps_holding : keeps.

Lemma keeps_acquire lk : keeps F (acquire lk) (fun _ => True).
Proof. unfold acquire, xchg_locked, setlock. keep. Qed.

Lemma keeps_release lk : keeps F (release lk) (fun _ => True).
Proof. unfold release, setlock. keep. Qed.

Lemma keeps_curproc : keeps F curproc (fun _ => True).
Proof. unfold curproc, myproc. keep. Qed.
#[local] Hint Resolve keeps_acquire keeps_release keeps_curproc : keeps.

Lemma keeps_consputc c : keeps F (consputc c) (fun _ => True).
Proof. unfold consputc, uartputc. keep. Qed.
#[local] Hint Resolve keeps_consputc : keeps.

Lemma keeps_cprintf_loop n l args : (length l <= n)%nat -> keeps F (cprintf_loop l args) (fun _ => True).
Proof.
  revert l args. induction n as [|n IH]; intros [|c [|d l]] args Hl; simpl in Hl; try lia;
    cbn [cprintf_loop]; unfold printint, puts; keep; apply IH; simpl in *; lia.
Qed.

Lemma keeps_cprintf fmt args : keeps F (cprintf fmt args) (fun _ => True).
Proof. unfold cprintf. keep. by eapply keeps_cprintf_loop. Qed.
#[local] Hint Resolve keeps_cprintf : keeps.

Lemma keeps_mload a : keeps F (mload a) (fun _ => True).
Proof. unfold mload. keep. Qed.

Lemma keeps_mstore a v : keeps F (mstore a v) (fun _ => True).
Proof. unfold mstore. keep. Qed.

Lemma keeps_memset_page a c : keeps F (memset_page a c) (fun _ => True).
Proof. unfold memset_page. keep. Qed.

Lemma keeps_mwrite a l : keeps F (mwrite a l) (fun _ => True).
Proof. unfold mwrite. keep. Qed.
#[local] Hint Resolve keeps_mload keeps_mstore keeps_memset_page keeps_mwrite : keeps.

Lemma keeps_kfree v : keeps F (kfree v) (fun _ => True).
Proof. unfold kfree. keep. Qed.

Lemma keeps_kalloc : keeps F kalloc (fun _ => True).
Proof. unfold kalloc. keep. Qed.
#[local] Hint Resolve keeps_kfree keeps_kalloc : keeps.

Lemma keeps_walkpgdir pd va al : keeps F (walkpgdir pd va al) (fun _ => True).
Proof. unfold walkpgdir. keep. Qed.
#[local] Hint Resolve keeps_walkpgdir : keeps.

Lemma keeps_mappages_loop n pd a last pa perm :
  keeps F (mappages_loop n pd a last pa perm) (fun _ => True).
Proof. revert a pa. induction n as [|n IH]; intros a pa; cbn [mappages_loop]; keep; apply IH. Qed.

Lemma keeps_mappages pd va size pa perm : keeps F (mappages pd va size pa perm) (fun _ => True).
Proof. apply keeps_mappages_loop. Qed.
#[local] Hint Resolve keeps_mappages : keeps.

Lemma keeps_deallocuvm pd o n : keeps F (deallocuvm pd o n) (fun r => r <= o /\ (r = o \/ r = n)).
Proof.
  unfold deallocuvm. destruct (Z.leb_spec o n); [apply keeps_ret; lia|].
  eapply (keeps_bind _ _ _ (fun _ => True)); [|intros; apply keeps_ret; lia].
  generalize (S (idx (o / PGSIZE))), (PGROUNDUP n). intros k.
  induction k as [|k IH]; intros a; cbn [dealloc_loop]; keep; apply IH.
Qed.
#[local] Hint Resolve keeps_deallocuvm : keeps.

Lemma keeps_allocuvm pd o n : keeps F (allocuvm pd o n) (fun r => r = 0 \/ r = n /\ n < KERNBASE \/ r = o).
Proof.
  unfold allocuvm. destruct (Z.leb_spec KERNBASE n); [apply keeps_ret; auto|].
  destruct (n <? o); [apply keeps_ret; auto|].
  generalize (S (idx (n / PGSIZE))), (PGROUNDUP o). intros k.
  induction k as [|k IH]; intros a; cbn [alloc_loop]; keep; auto.
Qed.
#[local] Hint Resolve keeps_allocuvm : keeps.

Lemma keeps_freevm pd : keeps F (freevm pd) (fun _ => True).
Proof. unfold freevm. keep. Qed.
#[local] Hint Resolve keeps_freevm : keeps.

Lemma keeps_setupkvm : keeps F setupkvm (fun _ => True).
Proof. unfold setupkvm. keep. Qed.
#[local] Hint Resolve keeps_setupkvm : keeps.

Lemma keeps_copyuvm pd size : keeps F (copyuvm pd size) (fun _ => True).
Proof.
  unfold copyuvm. keep. match goal with |- keeps _ (copy_loop _ _ ?d _ _) _ => generalize d end. intros d.
  generalize (S (idx (size / PGSIZE))), 0. intros k.
  induction k as [|k IH]; intros i; cbn [copy_loop]; keep; apply IH.
Qed.

Lemma keeps_switchuvm p : keeps F (switchuvm p) (fun _ => True).
Proof. unfold switchuvm. keep. Qed.

Lemma keeps_filedup f : keeps F (filedup f) (fun _ => True).
Proof. unfold filedup, getfile, setfile. keep. Qed.

Lemma keeps_idup i : keeps F (idup i) (fun _ => True).
Proof. unfold idup, setinode. keep. Qed.
End frame.

#[export] Hint Resolve keeps_acquire keeps_release keeps_curproc keeps_cprintf keeps_kfree keeps_kalloc
  keeps_deallocuvm keeps_allocuvm keeps_copyuvm keeps_switchuvm keeps_filedup keeps_idup : keeps.

(** ** The invariant *)

(** The limits do not depend on how a path stops. *)
#[local] Instance any_stop : Stops := fun _ => True.

#[local] Instance any_stop_tolerant : Tolerant any_stop.
Proof. done. Qed.

(** A process is not larger than its limit; 0 is no limit. *)
Definition limit_ok (x : proc) : Prop := limit x = 0 \/ sz x <= limit x.

Definition quota (l : list proc) : Prop := Forall limit_ok l.

(** [quota], while no limit is changed. *)
Definition quota_with (L : list Z) (l : list proc) : Prop := quota l /\ limit <$> l = L.

Lemma quota_get l p : quota l -> limit_ok (aget l p).
Proof.
  intros Hl. unfold aget. destruct (l !! p) as [x|] eqn:Hx; [by eapply Forall_lookup_1|by left].
Qed.

Lemma quota_alter l p f :
  quota l -> (forall x, limit_ok x -> limit_ok (f x)) -> quota (alter f p l).
Proof. intros Hl Hf. apply Forall_alter; [done|]. intros x _ Hx. by apply Hf. Qed.

Lemma limits_get l L p : limit <$> l = L -> limit (aget l p) = default 0 (L !! p).
Proof. intros <-. unfold aget. rewrite list_lookup_fmap. by destruct (l !! p). Qed.

(** A write of a size within the limit of the process. *)
Lemma quota_set_sz L l p v :
  (default 0 (L !! p) = 0 \/ v <= default 0 (L !! p)) ->
  quota_with L l -> quota_with L (alter (fun x => x <| sz := v |>) p l).
Proof.
  intros Hv [Hq HL]. split.
  - apply Forall_lookup_2. intros q x. rewrite list_lookup_alter.
    destruct (decide (p = q)) as [->|Hne]; [|by eapply Forall_lookup_1].
    destruct (l !! q) as [y|] eqn:Hy; simpl; [|done]. intros [= <-].
    assert (default 0 (L !! q) = limit y) as Hl by (rewrite <- HL, list_lookup_fmap, Hy; done).
    unfold limit_ok. simpl. by rewrite Hl in Hv.
  - by rewrite fmap_alter_same.
Qed.

Lemma growproc_keeps L n : keeps (quota_with L) (growproc n) (fun _ => True).
Proof.
  unfold growproc, my_pgdir. eapply keeps_bind; [apply keeps_curproc; exact _|]. intros p _.
  eapply (keeps_bind _ _ _ (fun x => limit_ok x /\ limit x = default 0 (L !! p))).
  { apply keeps_read. intros s [Hq HL]. split; [by apply quota_get|by apply limits_get]. }
  intros x [Hx HL]. cbv zeta. eapply (keeps_bind _ _ _ (fun _ => True)); [keep|]. intros pd _.
  assert (forall v, (limit x = 0 \/ v <= limit x) ->
    keeps (quota_with L) (setproc p (fun x => x <| sz := v |>) ;;; switchuvm p ;;; ret 0) (fun _ => True))
    as Hgrown.
  { intros v Hv. eapply keeps_bind; [apply keeps_setproc|keep]. intros l. apply quota_set_sz. by rewrite <- HL. }
  assert (limit x = 0 \/ sz x <= limit x) as Hsz by exact Hx.
  destruct (0 <? n); [|destruct (n <? 0); [|by apply Hgrown]].
  - destruct ((u32 (sz x + n) <=? limit x) || (limit x =? 0)) eqn:Hc; [|keep].
    eapply keeps_bind; [apply keeps_allocuvm; exact _|]. intros r Hr. cbv beta in Hr.
    destruct (Z.eqb_spec r 0); [keep|]. apply Hgrown. lia.
  - eapply keeps_bind; [apply keeps_deallocuvm; exact _|]. intros r Hr. cbv beta in Hr.
    destruct (Z.eqb_spec r 0); [keep|]. apply Hgrown. lia.
Qed.

(** The size tested and the limit written are of one state: ptable.lock is held
    and nothing is called in between. *)
Lemma quota_set_limit s q lim :
  quota (k_proc s) -> lim = 0 \/ sz (pget s q) <= lim ->
  quota (k_proc (pupd q (fun x => x <| limit := lim |>) s)).
Proof.
  intros Hq Hl. apply Forall_lookup_2. intros i x. unfold pupd. simpl. rewrite list_lookup_alter.
  destruct (decide (q = i)) as [->|Hne]; [|by eapply Forall_lookup_1].
  unfold pget, aget in Hl. destruct (k_proc s !! i) as [y|]; simpl in *; [|done]. intros [= <-].
  unfold limit_ok. simpl. exact Hl.
Qed.

Lemma setmemorylimit_keeps n lim : keeps quota (setmemorylimit n lim) (fun _ => True).
Proof.
  unfold setmemorylimit. eapply keeps_bind; [apply keeps_curproc; exact _|]. intros p _.
  apply (keeps_bind _ _ _ (fun _ => True)); [keep|]. intros m _.
  destruct ((lim <? 0) || _); [keep|].
  apply (keeps_bind _ _ _ (fun _ => True)); [keep|]. intros [q|] _; [|keep].
  eapply keeps_bind; [apply keeps_acquire; exact _|]. intros _ _ s Hs.
  unfold getproc at 1, bind at 1, gets at 1. cbn [xbind].
  destruct ((lim <? sz (id (pget s q))) && negb (lim =? 0)) eqn:Hc.
  - by apply (keeps_bind quota _ _ (fun _ => True)); [keep|keep|].
  - unfold setproc, bind at 1, modify at 1. cbn [xbind].
    apply (keeps_bind quota _ _ (fun _ => True)); [keep|keep|]. apply quota_set_limit; [done|]. unfold id in Hc. lia.
Qed.

(** A write to other fields of a process. *)
Ltac keep_fields :=
  let l := fresh in let Hl := fresh in let x := fresh in let Hx := fresh in
  apply keeps_setproc; intros l Hl; apply quota_alter; [exact Hl|]; intros x Hx; exact Hx.

(** A read of a whole process: it is within its limit. *)
Lemma quota_read p : keeps quota (getproc p id) limit_ok.
Proof. apply keeps_read. intros s Hs. by apply quota_get. Qed.
#[local] Hint Resolve quota_read : keeps.

Lemma copy_userid_keeps p l : keeps quota (copy_userid p l) (fun _ => True).
Proof. unfold copy_userid. keep. keep_fields. Qed.

Lemma copy_name_keeps p l : keeps quota (copy_name p l) (fun _ => True).
Proof. unfold copy_name. keep. keep_fields. Qed.
#[local] Hint Resolve copy_userid_keeps copy_name_keeps : keeps.

Lemma allocproc_keeps : keeps quota allocproc (fun _ => True).
Proof.
  unfold allocproc. keep; try keep_fields. apply keeps_setproc. intros l Hl. apply quota_alter; [done|].
  intros x _. by left.
Qed.
#[local] Hint Resolve allocproc_keeps : keeps.

Lemma fork_as_keeps user :
  (forall p, keeps quota (user p) (fun _ => True)) -> keeps quota (fork_as user) (fun _ => True).
Proof.
  intros Huser. unfold fork_as, my_pgdir, get_ofile, set_ofile. keep; try keep_fields; try apply Huser.
  apply keeps_setproc. intros l Hl. by apply quota_alter.
Qed.

(** C28: no process is larger than the memory limit set for it, with 0 for no
    limit.  growproc, setmemorylimit, fork and fork2 keep this invariant of
    the process table: it holds whenever they give up the processor and when
    they end, whether they succeed, fail or stop.  The other CPUs may do
    anything that keeps the invariant while setmemorylimit and fork run; while
    growproc runs they must not change a limit, since growproc reads the limit
    without ptable.lock. *)
Theorem memory_limits_kept s n k lim user :
  quota (k_proc s) ->
  safe (fun t => quota_with (limit <$> k_proc s) (k_proc t))
       (fun _ t => quota_with (limit <$> k_proc s) (k_proc t))
       (fun _ t => quota_with (limit <$> k_proc s) (k_proc t)) (growproc n s) /\
  safe (fun t => quota (k_proc t)) (fun _ t => quota (k_proc t)) (fun _ t => quota (k_proc t))
       (setmemorylimit k lim s) /\
  safe (fun t => quota (k_proc t)) (fun _ t => quota (k_proc t)) (fun _ t => quota (k_proc t)) (fork s) /\
  safe (fun t => quota (k_proc t)) (fun _ t => quota (k_proc t)) (fun _ t => quota (k_proc t))
       (fork2 user s).
Proof.
  intros Hq. split; [|split; [|split]].
  - eapply safe_mono; [|exact (growproc_keeps _ n s (conj Hq eq_refl))]. by intros r t [Ht _].
  - eapply safe_mono; [|exact (setmemorylimit_keeps k lim s Hq)]. by intros r t [Ht _].
  - eapply safe_mono; [|refine (fork_as_keeps _ _ s Hq); intros p; keep]. by intros r t [Ht _].
  - eapply safe_mono; [|refine (fork_as_keeps _ _ s Hq); intros p; keep]. by intros r t [Ht _].
Qed.

(** Process 1 is an administrator with a limit of two pages. *)
Definition admin_shell : kstate :=
  (idle ∅) <| k_proc ::= alter (fun p => p <| mode := ADMINISTRATOR |> <| sz := 4096 |> <| limit := 8192 |>) 1%nat |>.

Lemma admin_shell_quota : quota (k_proc admin_shell).
Proof.
  assert (forallb (fun x => (limit x =? 0) || (sz x <=? limit x)) (k_proc admin_shell) = true) as H by by vm_compute.
  apply Forall_forall. intros x Hx. rewrite forallb_forall in H. specialize (H x).
  rewrite <- list_elem_of_In in H. specialize (H Hx). unfold limit_ok. lia.
Qed.

Lemma memory_limits_kept_witness :
  safe (fun t => quota (k_proc t)) (fun _ t => quota (k_proc t)) (fun _ t => quota (k_proc t))
       (setmemorylimit 2 4096 admin_shell).
Proof. exact (proj1 (proj2 (memory_limits_kept admin_shell 4096 2 4096 [] admin_shell_quota))). Defined.

(** ** Privilege *)

(** A critical section that writes one process. *)
Lemma locked_setproc s lk q f (a : Z) :
  calm s -> lock_free s lk ->
  (setproc q f ;;; release lk ;;; ret a) (acquired lk s) = Done (Ok a) (pupd q f s).
Proof.
  intros Hc Hl. rewrite (bind_Done _ _ _ tt (acquired lk (pupd q f s))) by done.
  rewrite (bind_Done _ _ _ tt (pupd q f s)); [done|]. by apply release_acquired.
Qed.

(** Setmemorylimit is for administrators.  Called by a process that is not
    one, or with a negative limit, it returns -1 if it returns and leaves the
    process table as it was, whatever other CPUs print in the meantime.
    Called by an administrator with a limit of 0 or of at least the size of
    the process, on a CPU of its own, it returns 0 and changes the limit of
    the live process with that pid, and nothing else. *)
Theorem setmemorylimit_privileged p s n lim :
  quiet p s ->
  (mode (pget s p) <> ADMINISTRATOR \/ lim < 0 ->
   safe (fun t => k_proc t = k_proc s) (fun _ t => k_proc t = k_proc s)
        (fun r t => k_proc t = k_proc s /\ forall v, r = Ok v -> v = -1) (setmemorylimit n lim s)) /\
  (forall q, mode (pget s p) = ADMINISTRATOR -> 0 <= lim ->
   limit_slot s n = Some q -> lim = 0 \/ sz (pget s q) <= lim ->
   setmemorylimit n lim s = Done (Ok 0) (pupd q (fun x => x <| limit := lim |>) s)).
Proof.
  intros Hq. unfold setmemorylimit. rewrite (bind_Done _ _ _ _ _ (quiet_curproc _ _ Hq)).
  rewrite (bind_Done _ _ _ (mode (pget s p)) s) by done. split.
  - intros Hbad. replace ((lim <? 0) || _) with true
      by (destruct Hbad as [Hm|Hl]; [by rewrite (bool_decide_eq_false_2 _ Hm), orb_true_r|
          by rewrite (proj2 (Z.ltb_lt lim 0) Hl)]).
    eapply safe_mono; [|apply (keeps_bind (fun l => l = k_proc s) _ _ (fun _ => True) (fun v => v = -1));
      [keep|keep|done]].
    intros [v|w] t [Ht Hv]; (split; [done|]); [by intros ? [= <-]|done].
  - intros q Hm Hl Hs Hsz. rewrite (proj2 (Z.ltb_ge lim 0) Hl), bool_decide_eq_true_2 by done. cbn [orb negb].
    rewrite (bind_Done _ _ _ (Some q) s) by (unfold gets; by rewrite Hs).
    pose proof (quiet_calm _ _ Hq) as Hc.
    assert (lock_free s lk_ptable) as Hf by (apply (quiet_free p); [done|apply static_fixed; set_solver]).
    rewrite (bind_Done _ _ _ _ _ (acquire_calm s lk_ptable Hc Hf)).
    rewrite (bind_Done _ _ _ (pget s q) (acquired lk_ptable s)) by done.
    replace ((lim <? sz (pget s q)) && negb (lim =? 0)) with false by lia.
    by apply locked_setproc.
Qed.

Lemma setmemorylimit_privileged_witness :
  setmemorylimit 2 4096 admin_shell =
  Done (Ok 0) (pupd 1 (fun x => x <| limit := 4096 |>) admin_shell).
Proof.
  refine (proj2 (setmemorylimit_privileged 1 admin_shell 2 4096 _) 1%nat _ _ _ _).
  - apply quiet_check_ok. vm_compute. reflexivity.
  - vm_compute. reflexivity.
  - lia.
  - vm_compute. reflexivity.
  - right. vm_compute. discriminate.
Defined.

(** ** kill *)

Lemma kill_slot_ok p s n q :
  quiet p s -> pid_slot s n = Some q ->
  kill n s = Done (Ok 0) (pupd q (fun x => (x <| killed := true |>)
    <| state := if decide (state x = SLEEPING) then RUNNABLE else state x |>) s).
Proof.
  intros Hq Hs. pose proof (quiet_calm _ _ Hq) as Hc.
  assert (lock_free s lk_ptable) as Hf by (apply (quiet_free p); [done|apply static_fixed; set_solver]).
  unfold kill. rewrite (bind_Done _ _ _ _ _ (acquire_calm s lk_ptable Hc Hf)).
  rewrite (bind_Done _ _ _ (Some q) (acquired lk_ptable s)) by (unfold gets; by rewrite <- Hs).
  by apply locked_setproc.
Qed.

Lemma pid_slot_Some s n q :
  pid_slot s n = Some q -> (q < length (k_proc s))%nat /\ pid (pget s q) = n.
Proof.
  unfold pid_slot. destruct (list_find _ _) as [[i x]|] eqn:Hf; simpl; [|done]. intros [= ->].
  apply list_find_Some in Hf as (Hx & Hn & _). split; [by eapply lookup_lt_Some|].
  unfold pget, aget. by rewrite Hx.
Qed.

(** Kill finds a process by its pid.  If no entry of the table has the pid
    it returns -1 and changes nothing.  Otherwise it returns 0; some entry
    with that pid is marked killed and does not sleep any more, so that it
    will run and see the mark, and every other entry is as it was. *)
Theorem kill_marks p s n :
  quiet p s ->
  (Forall (fun x => pid x <> n) (k_proc s) -> kill n s = Done (Ok (-1)) s) /\
  (Exists (fun x => pid x = n) (k_proc s) ->
   exists t q, kill n s = Done (Ok 0) t /\ pid (pget s q) = n /\
     killed (pget t q) = true /\ pid (pget t q) = n /\
     state (pget t q) = (match state (pget s q) with SLEEPING => RUNNABLE | st => st end) /\
     forall r, r <> q -> pget t r = pget s r).
Proof.
  intros Hq. pose proof (quiet_calm _ _ Hq) as Hc. split.
  - intros Hn. assert (pid_slot s n = None) as Hs.
    { unfold pid_slot. rewrite (proj2 (list_find_None _ _)); [done|exact Hn]. }
    assert (lock_free s lk_ptable) as Hf by (apply (quiet_free p); [done|apply static_fixed; set_solver]).
    unfold kill. rewrite (bind_Done _ _ _ _ _ (acquire_calm s lk_ptable Hc Hf)).
    rewrite (bind_Done _ _ _ None (acquired lk_ptable s)) by (unfold gets; by rewrite <- Hs).
    by rewrite (bind_Done _ _ _ tt s) by (by apply release_acquired).
  - intros Hex. destruct (pid_slot s n) as [q|] eqn:Hs.
    + destruct (pid_slot_Some _ _ _ Hs) as [Hl Hp].
      eexists _, q. split; [by eapply kill_slot_ok|]. rewrite pget_pupd_eq by done.
      split; [done|]. split; [done|]. split; [done|]. split; [simpl; by destruct (state (pget s q))|].
      intros r Hr. by apply pget_pupd_ne.
    + exfalso. unfold pid_slot in Hs. destruct (list_find _ _) eqn:Hf; [done|].
      apply list_find_None in Hf. apply Exists_exists in Hex as (x & Hx & Hn).
      eapply Forall_forall in Hf; eauto.
Qed.

Lemma kill_marks_witness :
  exists t q, kill 2 admin_shell = Done (Ok 0) t /\ pid (pget admin_shell q) = 2 /\
    killed (pget t q) = true /\ pid (pget t q) = 2 /\
    state (pget t q) = (match state (pget admin_shell q) with SLEEPING => RUNNABLE | st => st end) /\
    forall r, r <> q -> pget t r = pget admin_shell r.
Proof.
  refine (proj2 (kill_marks 1 admin_shell 2 _) _).
  - apply quiet_check_ok. vm_compute. reflexivity.
  - apply Exists_cons_tl, Exists_cons_hd. vm_compute. reflexivity.
Defined.

Lemma killed_alter (l : list proc) p q f :
  (forall x, killed (f x) = killed x) -> killed (aget (alter f p l) q) = killed (aget l q).
Proof.
  intros Hf. unfold aget. rewrite list_lookup_alter. destruct (decide (p = q)) as [->|]; [|done].
  destruct (l !! q); simpl; [apply Hf|done].
Qed.

Lemma find_unused_alter s q f :
  find_unused_proc s = Some q -> (forall x, state x = UNUSED -> state (f x) = UNUSED) ->
  find_unused_proc (pupd q f s) = Some q.
Proof.
  unfold find_unused_proc. intros Hf Hst. destruct (list_find _ (k_proc s)) as [[i x]|] eqn:Hl; [|done].
  simpl in Hf. injection Hf as ->. apply list_find_Some in Hl as (Hx & Hu & Hlt).
  rewrite (proj2 (list_find_Some _ _ q (f x))); [done|]. unfold pupd; simpl. split; [|split].
  - by rewrite list_lookup_alter, decide_True, Hx.
  - by apply Hst.
  - intros j y Hj Hjq. rewrite list_lookup_alter_ne in Hj by lia. by eapply Hlt.
Qed.

(** allocproc from a state in which [q] is the first entry not in use. *)
Lemma allocproc_slot F p s q :
  quiet p s -> find_unused_proc s = Some q -> F (k_proc s) ->
  (forall f l, (forall x, killed (f x) = killed x) -> F l -> F (alter f q l)) ->
  safe (fun u => F (k_proc u)) (fun _ u => F (k_proc u))
       (fun r u => F (k_proc u) /\ match r with Ok v => v = Some q \/ v = None | Stop _ => True end)
       (allocproc s).
Proof.
  intros Hq Hu HF Hk. unfold allocproc. pose proof (quiet_calm _ _ Hq) as Hc.
  assert (lock_free s lk_ptable) as Hf by (apply (quiet_free p); [done|apply static_fixed; set_solver]).
  rewrite (bind_Done _ _ _ _ _ (acquire_calm s lk_ptable Hc Hf)).
  rewrite (bind_Done _ _ _ (Some q) (acquired lk_ptable s)) by (unfold gets; by rewrite <- Hu).
  match goal with |- safe _ _ _ (?m _) => enough (keeps F m (fun v => v = Some q \/ v = None)) as Hm by (by apply Hm) end.
  unfold copy_userid. keep; auto; apply keeps_setproc; intros; apply Hk; try done.
  intros x. unfold embryo. by case_match.
Qed.

(** Kill(0) dooms a process that does not exist yet.  The entries that
    are not in use have pid 0, so that kill(0) finds the first of them, marks
    it killed and returns 0.  allocproc does not reset the mark: the next
    process, created in this entry, is killed from the start, and other
    processes that run in the meantime without touching the mark do not
    help. *)
Theorem kill_zero_dooms_next p s q :
  quiet p s -> pid_slot s 0 = Some q -> find_unused_proc s = Some q ->
  exists t, kill 0 s = Done (Ok 0) t /\
    safe (fun u => killed (pget u q) = true) (fun _ u => killed (pget u q) = true)
         (fun r u => killed (pget u q) = true /\ forall v, r = Ok v -> v = Some q \/ v = None)
         (allocproc t).
Proof.
  intros Hq Hs Hu. destruct (pid_slot_Some _ _ _ Hs) as [Hl Hp].
  eexists. split; [by eapply kill_slot_ok|].
  eapply safe_mono; [|eapply (allocproc_slot (fun l => killed (aget l q) = true) p)].
  - intros [v|w] u [Hu' Hv]; (split; [exact Hu'|]); [by intros ? [= <-]|done].
  - eapply quiet_env; [|done]. split; [done|split; [done|split; [done|]]].
    unfold pupd; simpl. by rewrite fmap_alter_same.
  - apply find_unused_alter; [done|]. intros x Hx. simpl. by rewrite Hx.
  - change (killed (pget (pupd q (fun x => (x <| killed := true |>)
      <| state := if decide (state x = SLEEPING) then RUNNABLE else state x |>) s) q) = true).
    by rewrite pget_pupd_eq.
  - intros f l Hf Hl'. by rewrite killed_alter.
Qed.

Lemma kill_zero_dooms_next_witness :
  exists t, kill 0 admin_shell = Done (Ok 0) t /\
    safe (fun u => killed (pget u 0) = true) (fun _ u => killed (pget u 0) = true)
         (fun r u => killed (pget u 0) = true /\ forall v, r = Ok v -> v = Some 0%nat \/ v = None)
         (allocproc t).
Proof.
  refine (kill_zero_dooms_next 1 admin_shell 0 _ _ _).
  - apply quiet_check_ok. vm_compute. reflexivity.
  - vm_compute. reflexivity.
  - vm_compute. reflexivity.
Defined.
