(* ===== verification/Typed.v ===== *)
(** * The entries of the process table stay well formed (theorem on proc.c)

    A process is smaller than the user half of the address space, its name and
    its user are terminated strings in their arrays, its priority and its place
    in the feedback queues are ones the scheduler knows, and it has its NOFILE
    descriptors.  The process calls of proc.c and the turns of its MLFQ scheduler
    keep this, and none of them reaches outside the array of descriptors. *)

From S2P Require Import Prelude Cstring Kernel Spinlock ProcCore Sched Console Vm Bio Log Inode Fs Pipe File Proc Quiet Limits.

(** A string in an array of 16 bytes, with its NUL. *)
Definition terminated (l : list Z) : Prop := length l = 16%nat /\ 0 ∈ l.

Section typed.
(** The build constant MLFQ_K, the number of queues. *)
Context (MLFQ_K : Z).

Record proc_typed (x : proc) : Prop := {
  pt_sz : 0 <= sz x < KERNBASE;
  pt_priority : MIN_PRIORITY <= priority x <= MAX_PRIORITY;
  pt_level : 0 <= level x < MLFQ_K;
  pt_hold : 0 <= hold x <= 12;
  pt_ofile : length (ofile x) = NOFILE;
  pt_name : terminated (name x);
  pt_userid : terminated (userid x)
}.

Definition table_typed (l : list proc) : Prop := length l = NPROC /\ Forall proc_typed l.

(** A path may stop, but not by an access outside the array of descriptors. *)
#[local] Instance in_bounds : Stops := fun w => w <> UB "ofile".

#[local] Instance in_bounds_tolerant : Tolerant in_bounds.
Proof. by intros w Hw. Qed.

Hypothesis HK : 1 <= MLFQ_K <= 5.

(** ** The copies of strings *)

Lemma strcpy_terminates s t s' : strcpy s t = Some s' -> length s' = length s /\ 0 ∈ s'.
Proof.
  revert t s'. induction s as [|a s IH]; intros [|c t] s' H; try done. cbn [strcpy] in H.
  destruct (Z.eqb_spec c 0) as [->|_]; [injection H as <-; by split; [|left]|].
  destruct (strcpy s t) as [u|] eqn:Hu; [|done]. injection H as <-. destruct (IH t u Hu) as [Hl H0].
  split; [by cbn; f_equal|by right].
Qed.

Lemma safecpy_terminates n s t s' : safecpy_loop s t n = Some s' -> length s' = length s /\ 0 ∈ s'.
Proof.
  revert s t s'. induction n as [|n IH]; intros [|a s] t s' H; try done; cbn [safecpy_loop] in H.
  { injection H as <-. by split; [|left]. }
  destruct t as [|c t]; [done|]. destruct (Z.eqb_spec c 0) as [->|_].
  { destruct s; [done|]. injection H as <-. by split; [|left]. }
  destruct (safecpy_loop s t n) as [u|] eqn:Hu; [|done]. injection H as <-. destruct (IH s t u Hu) as [Hl H0].
  split; [by cbn; f_equal|by right].
Qed.

Lemma strcpy_terminated s t s' : terminated s -> strcpy s t = Some s' -> terminated s'.
Proof. intros [Hl _] [Hl' H0]%strcpy_terminates. by rewrite Hl in Hl'. Qed.

Lemma safestrcpy_terminated s t s' : terminated s -> safestrcpy s t 16 = Some s' -> terminated s'.
Proof. intros [Hl _] [Hl' H0]%safecpy_terminates. by rewrite Hl in Hl'. Qed.

(** ** Reads and writes of the table *)

Lemma proc0_typed : proc_typed proc0.
Proof.
  split; try done; try (split; [reflexivity|by left]). change (0 <= 0 < MLFQ_K). lia.
Qed.

Lemma typed_get l p : table_typed l -> proc_typed (aget l p).
Proof.
  intros [_ Hl]. unfold aget. destruct (l !! p) as [x|] eqn:Hx; [by eapply Forall_lookup_1|apply proc0_typed].
Qed.

Lemma typed_alter l p f : table_typed l -> (forall x, proc_typed x -> proc_typed (f x)) -> table_typed (alter f p l).
Proof.
  intros [Hn Hl] Hf. split; [by rewrite length_alter|]. apply Forall_alter; [done|]. intros x _. apply Hf.
Qed.

Lemma typed_read {A} p (f : proc -> A) (P : A -> Prop) : (forall x, proc_typed x -> P (f x)) -> keeps table_typed (getproc p f) P.
Proof. intros HP. apply keeps_read. intros s Hs. apply HP. by apply typed_get. Qed.

Lemma typed_write p f : (forall x, proc_typed x -> proc_typed (f x)) -> keeps table_typed (setproc p f) (fun _ => True).
Proof. intros Hf. apply keeps_setproc. intros l Hl. by apply typed_alter. Qed.

(** A write to fields that the type says nothing about. *)
Ltac typed_fields :=
  let x := fresh "x" in let H := fresh in apply typed_write; intros x H; destruct H; split; try done.

Lemma typed_whole p : keeps table_typed (getproc p id) proc_typed.
Proof. by apply typed_read. Qed.
#[local] Hint Resolve typed_whole : keeps.

Lemma copy_userid_typed p l : keeps table_typed (copy_userid p l) (fun _ => True).
Proof.
  unfold copy_userid. eapply keeps_bind; [apply (typed_read _ _ terminated); apply pt_userid|].
  intros u Hu. destruct (strcpy u l) as [u'|] eqn:Hc; [|keep]. typed_fields. exact (strcpy_terminated _ _ _ Hu Hc).
Qed.

Lemma copy_name_typed p l : keeps table_typed (copy_name p l) (fun _ => True).
Proof.
  unfold copy_name. eapply keeps_bind; [apply (typed_read _ _ terminated); apply pt_name|].
  intros u Hu. destruct (safestrcpy u l 16) as [u'|] eqn:Hc; [|keep]. typed_fields. exact (safestrcpy_terminated _ _ _ Hu Hc).
Qed.

Lemma get_ofile_typed p fd : (fd < NOFILE)%nat -> keeps table_typed (get_ofile p fd) (fun _ => True).
Proof.
  intros Hfd. unfold get_ofile. eapply keeps_bind; [apply (typed_read _ _ (fun l => length l = NOFILE)); apply pt_ofile|].
  intros l Hl. cbv beta in Hl. destruct (lookup_lt_is_Some_2 l fd ltac:(lia)) as [f ->]. keep.
Qed.

Lemma set_ofile_typed p fd f : (fd < NOFILE)%nat -> keeps table_typed (set_ofile p fd f) (fun _ => True).
Proof.
  intros Hfd. unfold set_ofile. eapply keeps_bind; [apply (typed_read _ _ (fun l => length l = NOFILE)); apply pt_ofile|].
  intros l Hl. cbv beta in Hl. rewrite (proj2 (Nat.ltb_lt _ _)) by lia. typed_fields. cbn. by rewrite length_insert.
Qed.

(** A loop over the descriptors. *)
Lemma keeps_mfor_fds n (f : nat -> K unit) :
  (forall fd, (fd < n)%nat -> keeps table_typed (f fd) (fun _ => True)) ->
  keeps table_typed (mfor (seq 0 n) f) (fun _ => True).
Proof.
  intros Hf. assert (Forall (fun fd => fd < n)%nat (seq 0 n)) as Hs by (apply Forall_seq; lia).
  induction Hs as [|fd l Hfd Hl IH]; cbn [mfor]; [by apply keeps_ret|]. eapply keeps_bind; [by apply Hf|done].
Qed.
#[local] Hint Resolve copy_userid_typed copy_name_typed : keeps.

(** ** Creation and growth *)

Lemma embryo_typed n t b x : proc_typed x -> proc_typed (embryo n t b x).
Proof.
  intros []. unfold embryo. destruct b; split; try done. change (0 <= 0 < MLFQ_K). lia.
Qed.

Lemma allocproc_typed : keeps table_typed allocproc (fun _ => True).
Proof. unfold allocproc. keep; try (apply typed_write; intros x; apply embryo_typed); typed_fields. Qed.
#[local] Hint Resolve allocproc_typed : keeps.

Lemma growproc_typed n : keeps table_typed (growproc n) (fun _ => True).
Proof.
  unfold growproc, my_pgdir. eapply keeps_bind; [apply keeps_curproc; exact _|]. intros p _.
  eapply keeps_bind; [apply typed_whole|]. intros x Hx. cbv zeta. eapply (keeps_bind _ _ _ (fun _ => True)); [keep|]. intros pd _.
  assert (forall v, 0 <= v < KERNBASE ->
    keeps table_typed (setproc p (fun x => x <| sz := v |>) ;;; switchuvm p ;;; ret 0) (fun _ => True)) as Hgrown.
  { intros v Hv. eapply keeps_bind; [typed_fields|keep]. }
  pose proof (pt_sz _ Hx) as Hsz. pose proof (u32_range (sz x + n)) as Hn.
  destruct (0 <? n); [|destruct (n <? 0); [|by apply Hgrown]].
  - destruct ((u32 (sz x + n) <=? limit x) || (limit x =? 0)); [|keep].
    eapply keeps_bind; [apply keeps_allocuvm; exact _|]. intros r Hr. cbv beta in Hr. destruct (Z.eqb_spec r 0); [keep|]. apply Hgrown. lia.
  - eapply keeps_bind; [apply keeps_deallocuvm; exact _|]. intros r Hr. cbv beta in Hr. destruct (Z.eqb_spec r 0); [keep|]. apply Hgrown. lia.
Qed.

(** The copy of the descriptors of [p] to [np]. *)
Lemma fork_files_typed p np :
  keeps table_typed (mfor (seq 0 NOFILE) (fun i =>
    f <- get_ofile p i ;;
    match f with
    | Some f => f' <- filedup f ;; set_ofile np i (Some f')
    | None => ret tt
    end)) (fun _ => True).
Proof.
  apply keeps_mfor_fds. intros fd Hfd. eapply keeps_bind; [by apply get_ofile_typed|]. intros [f|] _; [|keep].
  apply (keeps_bind _ _ _ (fun _ => True)); [keep|]. intros f' _. by apply set_ofile_typed.
Qed.
#[local] Hint Resolve fork_files_typed : keeps.

Lemma fork_as_typed user : (forall p, keeps table_typed (user p) (fun _ => True)) -> keeps table_typed (fork_as user) (fun _ => True).
Proof.
  intros Huser. unfold fork_as, my_pgdir. keep; try typed_fields; try apply Huser; try apply fork_files_typed.
  all: match goal with H : proc_typed _ |- _ => by destruct H end.
Qed.

(** ** Projects 1 and 2 *)

Lemma setpriority_loop_typed qs n prio me flag : MIN_PRIORITY <= prio <= MAX_PRIORITY ->
  keeps table_typed (setpriority_loop qs n prio me flag) (fun _ => True).
Proof.
  intros Hp. revert flag. induction qs as [|q qs IH]; intros flag; cbn [setpriority_loop]; keep; try typed_fields; apply IH.
Qed.

Lemma setpriority_typed n prio : keeps table_typed (setpriority n prio) (fun _ => True).
Proof.
  unfold setpriority. eapply keeps_bind; [apply keeps_curproc; exact _|]. intros p _. eapply keeps_bind; [apply keeps_acquire; exact _|]. intros _ _.
  apply (keeps_bind _ _ _ (fun _ => True)); [|intros; keep]. destruct (_ || _) eqn:Hc; [keep|].
  apply (keeps_bind _ _ _ (fun _ => True)); [keep|]. intros me _.
  apply (keeps_bind _ _ _ (fun _ => True)); [apply setpriority_loop_typed; lia|]. intros; keep.
Qed.

Lemma getadmin_typed password : keeps table_typed (getadmin password) (fun _ => True).
Proof. unfold getadmin. keep. typed_fields. Qed.

Lemma setmemorylimit_typed n lim : keeps table_typed (setmemorylimit n lim) (fun _ => True).
Proof. unfold setmemorylimit. keep. typed_fields. Qed.

(** ** Waiting and waking *)

#[local] Hint Resolve keeps_pushcli keeps_popcli keeps_mycpu keeps_holding keeps_freevm : keeps.

Lemma sched_typed : keeps table_typed sched (fun _ => True).
Proof. unfold sched, read_if. keep. Qed.
#[local] Hint Resolve sched_typed : keeps.

Lemma sleep_typed ch lk : keeps table_typed (sleep ch lk) (fun _ => True).
Proof. unfold sleep, myproc. keep; typed_fields. Qed.

Lemma wakeup1_typed ch : keeps table_typed (wakeup1 ch) (fun _ => True).
Proof. unfold wakeup1. keep. apply typed_write. intros y Hy. unfold wake. case_decide; [destruct Hy; by split|done]. Qed.
#[local] Hint Resolve sleep_typed wakeup1_typed : keeps.

Lemma wakeup_typed ch : keeps table_typed (wakeup ch) (fun _ => True).
Proof. unfold wakeup. keep. Qed.
#[local] Hint Resolve wakeup_typed : keeps.

Lemma yield_typed : keeps table_typed yield (fun _ => True).
Proof. unfold yield. keep; typed_fields. Qed.

Lemma yield2_typed : keeps table_typed yield2 (fun _ => True).
Proof. unfold yield2. keep; typed_fields. change (0 <= 0 < MLFQ_K). lia. Qed.

Lemma reap_typed q : keeps table_typed (reap q) (fun _ => True).
Proof.
  unfold reap. keep; typed_fields. destruct pt_name0 as [Hl _].
  match goal with |- terminated (name _) => change (terminated (<[0%nat := 0]> (name x))) end.
  split; [by rewrite length_insert|]. apply (list_elem_of_lookup_2 _ 0%nat), list_lookup_insert_eq. lia.
Qed.
#[local] Hint Resolve reap_typed : keeps.

Lemma wait_loop_typed n p : keeps table_typed (wait_loop n p) (fun _ => True).
Proof. induction n as [|n IH]; cbn [wait_loop]; keep; apply IH. Qed.
#[local] Hint Resolve wait_loop_typed : keeps.

Lemma wait_typed : keeps table_typed wait (fun _ => True).
Proof. unfold wait. keep. Qed.

Lemma kill_typed n : keeps table_typed (kill n) (fun _ => True).
Proof. unfold kill. keep; typed_fields. Qed.

(** ** The steps of the MLFQ scheduler *)

Lemma boost_typed x : proc_typed x -> proc_typed (boost x).
Proof. intros []. split; try done. change (0 <= 0 < MLFQ_K). lia. Qed.

Lemma age_typed x : proc_typed x -> proc_typed (age MLFQ_K x).
Proof.
  intros Hx. unfold age. set (p1 := if _ && _ then _ else x).
  assert (proc_typed p1) as Hp1; [|case_decide; [destruct Hp1; split; try done; change (0 <= 0 < MLFQ_K); lia|done]].
  unfold p1. destruct ((level x <? MLFQ_K - 1) && (hold x <=? 0)) eqn:Hc; [|done]. apply andb_true_iff in Hc as [Hc _].
  destruct Hx. split; try done; [change (0 <= level x + 1 < MLFQ_K); lia|].
  change (0 <= aget TIME_QUANTUM (idx (level x + 1)) <= 12). rewrite quantum_spec; lia.
Qed.

Lemma setcproc_typed c v : keeps table_typed (setcproc c v) (fun _ => True).
Proof. unfold setcproc. keep. Qed.
#[local] Hint Resolve setcproc_typed : keeps.

Lemma run_proc_typed c p : keeps table_typed (run_proc c p) (fun _ => True).
Proof. unfold run_proc, switchkvm. keep. typed_fields. Qed.
#[local] Hint Resolve run_proc_typed : keeps.

(** Charging the process for its turn; nothing runs between the read and the
    write. *)
Lemma account_typed p (m : K unit) :
  keeps table_typed m (fun _ => True) ->
  keeps table_typed (h <- getproc p hold ;; when (0 <? h) (setproc p (fun y => y <| hold := h - 1 |>)) ;;; m) (fun _ => True).
Proof.
  intros Hm s Hs. unfold getproc at 1, bind at 1, gets at 1. cbn [xbind].
  pose proof (pt_hold _ (typed_get _ p Hs)) as Hh. change (aget (k_proc s) p) with (pget s p) in Hh.
  unfold when. destruct (Z.ltb_spec 0 (hold (pget s p))).
  - unfold setproc, bind at 1, modify at 1. cbn [xbind]. apply Hm. apply typed_alter; [done|].
    intros x Hx. destruct Hx. split; try done. change (0 <= hold (pget s p) - 1 <= 12). lia.
  - by apply Hm.
Qed.

Lemma mlfq_pass_typed n c now p : keeps table_typed (mlfq_pass n c now p) (fun _ => True).
Proof.
  revert p. induction n as [|n IH]; intros p; cbn [mlfq_pass]; destruct (NPROC <=? p)%nat; try solve [keep].
  apply (keeps_bind _ _ _ (fun _ => True)); [keep|]. intros x _. destruct (negb _); [apply IH|].
  apply (keeps_bind _ _ _ (fun _ => True)); [keep|]. intros q _.
  apply (keeps_bind _ _ _ (fun _ => True)); [keep|]. intros _ _. apply account_typed.
  apply (keeps_bind _ _ _ (fun _ => True)); [keep|]. intros _ _. apply IH.
Qed.
#[local] Hint Resolve mlfq_pass_typed : keeps.

Lemma mlfq_iter_typed c flag : keeps table_typed (mlfq_iter MLFQ_K c flag) (fun _ => True).
Proof.
  unfold mlfq_iter, sti. keep; apply typed_write; intros ?; first [apply boost_typed|apply age_typed].
Qed.

(** ** exit, with the file system below it *)

Lemma acquiresleep_typed l : keeps table_typed (acquiresleep l) (fun _ => True).
Proof. unfold acquiresleep, setsllock. keep; by destruct l. Qed.

Lemma releasesleep_typed l : keeps table_typed (releasesleep l) (fun _ => True).
Proof. unfold releasesleep, setsllock. keep; by destruct l. Qed.

Lemma holdingsleep_typed l : keeps table_typed (holdingsleep l) (fun _ => True).
Proof. unfold holdingsleep. keep. Qed.
#[local] Hint Resolve acquiresleep_typed releasesleep_typed holdingsleep_typed : keeps.

Lemma getbuf_typed {A} b (f : buf -> A) : keeps table_typed (getbuf b f) (fun _ => True).
Proof. unfold getbuf. keep. Qed.

Lemma setbuf_typed b f : keeps table_typed (setbuf b f) (fun _ => True).
Proof. unfold setbuf. keep. Qed.
#[local] Hint Resolve getbuf_typed setbuf_typed : keeps.

Lemma iderw_typed b : keeps table_typed (iderw b) (fun _ => True).
Proof. unfold iderw. keep. Qed.
#[local] Hint Resolve iderw_typed : keeps.

Lemma bread_typed dev b : keeps table_typed (bread dev b) (fun _ => True).
Proof. unfold bread, bget. keep. Qed.

Lemma bwrite_typed b : keeps table_typed (bwrite b) (fun _ => True).
Proof. unfold bwrite. keep. Qed.

Lemma brelse_typed b : keeps table_typed (brelse b) (fun _ => True).
Proof. unfold brelse. keep. Qed.

Lemma log_write_typed b : keeps table_typed (log_write b) (fun _ => True).
Proof. unfold log_write, getlog, setlog. keep. Qed.
#[local] Hint Resolve bread_typed bwrite_typed brelse_typed log_write_typed : keeps.

Lemma begin_op_typed : keeps table_typed begin_op (fun _ => True).
Proof. unfold begin_op, getlog, setlog. keep. Qed.

Lemma commit_typed : keeps table_typed commit (fun _ => True).
Proof. unfold commit, write_log, write_head, install_trans, copy_buf, getlog, setlog. keep. Qed.
#[local] Hint Resolve begin_op_typed commit_typed : keeps.

Lemma end_op_typed : keeps table_typed end_op (fun _ => True).
Proof. unfold end_op, getlog, setlog. keep. Qed.

Lemma bfree_typed dev b : keeps table_typed (bfree dev b) (fun _ => True).
Proof. unfold bfree. keep. Qed.

Lemma iupdate_typed i : keeps table_typed (iupdate i) (fun _ => True).
Proof. unfold iupdate, getinode. keep. Qed.
#[local] Hint Resolve end_op_typed bfree_typed iupdate_typed : keeps.

Lemma itrunc_typed i : keeps table_typed (itrunc i) (fun _ => True).
Proof. unfold itrunc, getinode, setaddr, setinode. keep. Qed.
#[local] Hint Resolve itrunc_typed : keeps.

Lemma iput_typed i : keeps table_typed (iput i) (fun _ => True).
Proof. unfold iput, getinode, setinode. keep. Qed.
#[local] Hint Resolve iput_typed : keeps.

Lemma pipeclose_typed p w : keeps table_typed (pipeclose p w) (fun _ => True).
Proof. unfold pipeclose, getpipe, setpipe. keep. Qed.
#[local] Hint Resolve pipeclose_typed : keeps.

Lemma fileclose_typed f : keeps table_typed (fileclose f) (fun _ => True).
Proof. unfold fileclose, getfile, setfile. keep. Qed.
#[local] Hint Resolve fileclose_typed : keeps.

Lemma adopt_typed p init q : keeps table_typed (adopt p init q) (fun _ => True).
Proof. unfold adopt. keep. typed_fields. Qed.
#[local] Hint Resolve adopt_typed : keeps.

Lemma exit_files_typed p :
  keeps table_typed (mfor (seq 0 NOFILE) (fun fd =>
    f <- get_ofile p fd ;;
    match f with
    | Some f => fileclose f ;;; set_ofile p fd None
    | None => ret tt
    end)) (fun _ => True).
Proof.
  apply keeps_mfor_fds. intros fd Hfd. eapply keeps_bind; [by apply get_ofile_typed|]. intros [f|] _; [|keep].
  apply (keeps_bind _ _ _ (fun _ => True)); [keep|]. intros _ _. by apply set_ofile_typed.
Qed.
#[local] Hint Resolve exit_files_typed : keeps.

Lemma exit_typed : keeps table_typed exit (fun _ => True).
Proof. unfold exit. keep; typed_fields. Qed.

(** ** The calls *)

(** The paths of proc.c that other parts of the kernel call, and a turn of the
    MLFQ scheduler of CPU [c]. *)
Inductive pcall :=
| Cgrowproc (n : Z)
| Cfork
| Cfork2 (username : list Z)
| Cexit
| Cwait
| Ckill (n : Z)
| Csetpriority (n prio : Z)
| Cgetadmin (password : list Z)
| Csetmemorylimit (n lim : Z)
| Cyield
| Cyield2
| Csleep (ch : option chan) (lk : lockid)
| Cwakeup (ch : option chan)
| Cschedule (c : nat) (flag : bool).

Definition run_pcall (c : pcall) : K unit :=
  match c with
  | Cgrowproc n => growproc n ;;; ret tt
  | Cfork => fork ;;; ret tt
  | Cfork2 u => fork2 u ;;; ret tt
  | Cexit => exit
  | Cwait => wait ;;; ret tt
  | Ckill n => kill n ;;; ret tt
  | Csetpriority n prio => setpriority n prio ;;; ret tt
  | Cgetadmin pw => getadmin pw ;;; ret tt
  | Csetmemorylimit n lim => setmemorylimit n lim ;;; ret tt
  | Cyield => yield
  | Cyield2 => yield2
  | Csleep ch lk => sleep ch lk
  | Cwakeup ch => wakeup ch
  | Cschedule c flag => mlfq_iter MLFQ_K c flag ;;; ret tt
  end.

Lemma run_pcall_typed c : keeps table_typed (run_pcall c) (fun _ => True).
Proof.
  destruct c; cbn [run_pcall];
    try solve [apply exit_typed|apply yield_typed|apply yield2_typed|apply sleep_typed|apply wakeup_typed];
    (eapply (keeps_bind _ _ _ (fun _ => True)); [|intros; keep]).
  - apply growproc_typed.
  - apply fork_as_typed. intros p. by apply typed_read.
  - apply fork_as_typed. intros p. by apply keeps_ret.
  - apply wait_typed.
  - apply kill_typed.
  - apply setpriority_typed.
  - apply getadmin_typed.
  - apply setmemorylimit_typed.
  - apply mlfq_iter_typed.
Qed.

Lemma run_pcalls_typed cs : keeps table_typed (mfor cs run_pcall) (fun _ => True).
Proof. apply keeps_mfor, run_pcall_typed. Qed.
End typed.


Lemma admin_shell_typed : table_typed 3 (k_proc admin_shell).
Proof.
  split; [reflexivity|]. apply Forall_forall. intros x Hx.
  assert (forallb (fun x => bool_decide (0 <= sz x < KERNBASE /\ 0 <= priority x <= 10 /\ 0 <= level x < 3 /\ 0 <= hold x <= 12 /\
    length (ofile x) = NOFILE /\ (length (name x) = 16%nat /\ 0 ∈ name x) /\ length (userid x) = 16%nat /\ 0 ∈ userid x))
    (k_proc admin_shell) = true) as H by (by vm_compute).
  rewrite forallb_forall in H. apply list_elem_of_In, H, bool_decide_eq_true in Hx as (? & ? & ? & ? & ? & ? & ?). by split.
Qed.

