(* ===== verification/Kbd.v ===== *)
(** * Keyboard and console input (kbd.c, kbd.h, the input half of console.c)

    A device read is an argument: the scan codes that the keyboard controller
    holds, the characters of the serial port. *)

From S2P Require Import Prelude Kernel Spinlock ProcCore Console Proc.

(** ** The key maps *)

Definition SHIFT : Z := 1.

Definition CTL : Z := 2.

Definition ALT : Z := 4.

Definition CAPSLOCK : Z := 8.

Definition NUMLOCK : Z := 16.

Definition SCROLLLOCK : Z := 32.

Definition E0ESC : Z := 64.

(** A 256 byte table from its leading entries and its designated ones. *)
Definition keymap (dense : list Z) (sparse : list (nat * Z)) : list Z :=
  foldl (fun l e => <[fst e := u8 (snd e)]> l)
    (map u8 dense ++ replicate (256 - length dense) 0) sparse.

Definition shiftcode : list Z :=
  keymap [] [(29%nat, CTL); (42%nat, SHIFT); (54%nat, SHIFT); (56%nat, ALT); (157%nat, CTL); (184%nat, ALT)].

Definition togglecode : list Z :=
  keymap [] [(58%nat, CAPSLOCK); (69%nat, NUMLOCK); (70%nat, SCROLLLOCK)].

(** The keys of the keypad and the arrow keys, the same in the three maps but
    for enter and divide. *)
Definition pad_keys (enter div : Z) : list (nat * Z) :=
  [(156%nat, enter); (181%nat, div); (200%nat, 226); (208%nat, 227); (201%nat, 230);
   (209%nat, 231); (203%nat, 228); (205%nat, 229); (151%nat, 224); (207%nat, 225);
   (210%nat, 232); (211%nat, 233)].

Definition normalmap : list Z :=
  keymap
    [0; 27; 49; 50; 51; 52; 53; 54; 55; 56; 57; 48; 45; 61; 8; 9;
     113; 119; 101; 114; 116; 121; 117; 105; 111; 112; 91; 93; 10; 0; 97; 115;
     100; 102; 103; 104; 106; 107; 108; 59; 39; 96; 0; 92; 122; 120; 99; 118;
     98; 110; 109; 44; 46; 47; 0; 42; 0; 32; 0; 0; 0; 0; 0; 0;
     0; 0; 0; 0; 0; 0; 0; 55; 56; 57; 45; 52; 53; 54; 43; 49;
     50; 51; 48; 46; 0; 0; 0; 0]
    (pad_keys 10 47).

Definition shiftmap : list Z :=
  keymap
    [0; 27; 33; 64; 35; 36; 37; 94; 38; 42; 40; 41; 95; 43; 8; 9;
     81; 87; 69; 82; 84; 89; 85; 73; 79; 80; 123; 125; 10; 0; 65; 83;
     68; 70; 71; 72; 74; 75; 76; 58; 34; 126; 0; 124; 90; 88; 67; 86;
     66; 78; 77; 60; 62; 63; 0; 42; 0; 32; 0; 0; 0; 0; 0; 0;
     0; 0; 0; 0; 0; 0; 0; 55; 56; 57; 45; 52; 53; 54; 43; 49;
     50; 51; 48; 46; 0; 0; 0; 0]
    (pad_keys 10 47).

Definition ctlmap : list Z :=
  keymap
    [0; 0; 0; 0; 0; 0; 0; 0; 0; 0; 0; 0; 0; 0; 0; 0;
     17; 23; 5; 18; 20; 25; 21; 9; 15; 16; 0; 0; 13; 0; 1; 19;
     4; 6; 7; 8; 10; 11; 12; 0; 0; 0; 0; 28; 26; 24; 3; 22;
     2; 14; 13; 0; 0; -17; 0; 0]
    (pad_keys 13 (-17)).

(** static uchar *charcode[4] *)
Definition charcode (i : Z) : list Z :=
  if i =? 0 then normalmap else if i =? 1 then shiftmap else ctlmap.

(** ** kbdgetc *)

(** The new shift and the result, for one scan code. *)
Definition kbdgetc (shift data : Z) : Z * Z :=
  if data =? 224 then (Z.lor shift E0ESC, 0)
  else if negb (Z.land data 128 =? 0) then
    let data := if negb (Z.land shift E0ESC =? 0) then data else Z.land data 127 in
    (Z.land shift (Z.lnot (Z.lor (aget shiftcode (idx data)) E0ESC)), 0)
  else
    let esc := negb (Z.land shift E0ESC =? 0) in
    let data := if esc then Z.lor data 128 else data in
    let shift := if esc then Z.land shift (Z.lnot E0ESC) else shift in
    let shift := Z.lor shift (aget shiftcode (idx data)) in
    let shift := Z.lxor shift (aget togglecode (idx data)) in
    let c := aget (charcode (Z.land shift (Z.lor CTL SHIFT))) (idx data) in
    let c :=
      if negb (Z.land shift CAPSLOCK =? 0) then
        if (97 <=? c) && (c <=? 122) then c - 32
        else if (65 <=? c) && (c <=? 90) then c + 32
        else c
      else c in
    (shift, c).

(** kbdgetc until the controller has no more data. *)
Fixpoint kbd_chars (shift : Z) (scan : list Z) : Z * list Z :=
  match scan with
  | [] => (shift, [])
  | d :: scan' =>
      let '(shift, c) := kbdgetc shift d in
      let '(shift, l) := kbd_chars shift scan' in
      (shift, c :: l)
  end.

(** ** consoleintr *)

Definition INPUT_BUF : Z := 128.

Definition getinput {A} (f : inputbuf -> A) : K A := gets (fun s => f (k_input s)).

Definition setinput (f : inputbuf -> inputbuf) : K unit :=
  modify (fun s => s <| k_input ::= f |>).

(** input.e--; consputc(BACKSPACE); *)
Definition erase : K unit :=
  setinput (fun i => i <| in_e := u32 (in_e i - 1) |>) ;;;
  consputc BACKSPACE.

(** The last character typed can be erased by a kill of the line. *)
Definition in_line (i : inputbuf) : bool :=
  negb (in_e i =? in_w i) &&
  negb (aget (in_buf i) (idx (u32 (in_e i - 1) mod INPUT_BUF)) =? 10).

(** input.buf[input.e++ % INPUT_BUF] = c *)
Definition input_put (c : Z) (i : inputbuf) : inputbuf :=
  i <| in_buf := <[idx (in_e i mod INPUT_BUF) := u8 c]> (in_buf i) |>
    <| in_e := u32 (in_e i + 1) |>.

Definition input_char (c : Z) : K unit :=
  room <- getinput (fun i => u32 (in_e i - in_r i) <? INPUT_BUF) ;;
  when (negb (c =? 0) && room)
    (let c := if c =? 13 then 10 else c in
     setinput (input_put c) ;;;
     consputc c ;;;
     full <- getinput (fun i => in_e i =? u32 (in_r i + INPUT_BUF)) ;;
     when ((c =? 10) || (c =? 4) || full)
       (setinput (fun i => i <| in_w := in_e i |>) ;;;
        wakeup (Some ch_input))).

(** One turn of the switch: whether ^P was typed. *)
Definition console_char (c : Z) : K bool :=
  if c =? 16 then ret true
  else if c =? 21 then
    n <- getinput (fun i => idx (u32 (in_e i - in_w i))) ;;
    mwhile (S n) (getinput in_line) erase ;;;
    ret false
  else if (c =? 8) || (c =? 127) then
    e <- getinput (fun i => negb (in_e i =? in_w i)) ;;
    when e erase ;;;
    ret false
  else input_char c ;;; ret false.

Fixpoint console_chars (cs : list Z) (doprocdump : bool) : K bool :=
  match cs with
  | [] => ret doprocdump
  | c :: cs' => d <- console_char c ;; console_chars cs' (doprocdump || d)
  end.

(** consoleintr; [getc] gives the characters up to the first negative value. *)
Definition consoleintr (pcs : nat -> list Z) (getc : K (list Z)) : K unit :=
  acquire lk_cons ;;;
  cs <- getc ;;
  d <- console_chars cs false ;;
  release lk_cons ;;;
  when d (procdump pcs).

Definition kbdintr (pcs : nat -> list Z) (scan : list Z) : K unit :=
  consoleintr pcs (
    sh <- gets k_shift ;;
    let '(sh, cs) := kbd_chars sh scan in
    modify (fun s => s <| k_shift := sh |>) ;;;
    ret cs).

Definition uartintr (pcs : nat -> list Z) (cs : list Z) : K unit := consoleintr pcs (ret cs).

Definition consoleinit : K unit :=
  initlock lk_cons ;;;
  modify (fun s => s <| k_conslock := true |>).
