(* ===== verification/Tty.v ===== *)
(** * The console as a line editor

    consoleintr (Kbd) puts characters in the input buffer and consoleread (Fs)
    takes lines out.  The buffer refines a pair of lists, the characters ready
    to be read and the line being edited, and each character typed is one step
    of a small editor on that pair. *)

From S2P Require Import Prelude Ring Kernel Spinlock ProcCore Console Bio Quiet Log Inode Fs Proc Kbd.

Local Arguments u32 : simpl never.

(** ** The specification *)

(** The effect of a character on (ready, line). *)
Definition edit (st : list Z * list Z) (c : Z) : list Z * list Z :=
  let '(rdy, cur) := st in
  if c =? 16 then st
  else if c =? 21 then (rdy, [])
  else if (c =? 8) || (c =? 127) then (rdy, removelast cur)
  else if negb (c =? 0) && (length rdy + length cur <? 128)%nat then
    let c := if c =? 13 then 10 else c in
    if (c =? 10) || (c =? 4) || (length rdy + length cur + 1 =? 128)%nat then (rdy ++ cur ++ [c], [])
    else (rdy, cur ++ [c])
  else st.

(** ** The buffer *)

Definition rdy_of (i : inputbuf) : list Z := ring INPUT_BUF (in_buf i) (in_r i) (in_w i).
Definition cur_of (i : inputbuf) : list Z := ring INPUT_BUF (in_buf i) (in_w i) (in_e i).

(** r <= w <= e <= r + INPUT_BUF, modulo 2^32. *)
Definition input_bounds (i : inputbuf) : Prop :=
  length (in_buf i) = 128%nat /\ 0 <= in_r i < 2 ^ 32 /\ 0 <= in_w i < 2 ^ 32 /\ 0 <= in_e i < 2 ^ 32 /\
  u32 (in_w i - in_r i) + u32 (in_e i - in_w i) <= INPUT_BUF.

(** And there is no newline in the line being edited. *)
Definition input_wf (i : inputbuf) : Prop := input_bounds i /\ 10 ∉ cur_of i.

Lemma INPUT_range : 0 < INPUT_BUF < 2 ^ 32.
Proof. unfold INPUT_BUF. lia. Qed.

Lemma INPUT_div : (INPUT_BUF | 2 ^ 32).
Proof. by exists 33554432. Qed.

Lemma input_total i : input_bounds i ->
  ring INPUT_BUF (in_buf i) (in_r i) (in_e i) = rdy_of i ++ cur_of i /\
  u32 (in_e i - in_r i) = Z.of_nat (length (rdy_of i) + length (cur_of i)) /\
  (length (rdy_of i) + length (cur_of i) <= 128)%nat.
Proof.
  intros (_ & _ & _ & _ & Hn).
  pose proof (u32_range (in_w i - in_r i)). pose proof (u32_range (in_e i - in_w i)).
  unfold rdy_of, cur_of. rewrite !length_ring. unfold idx, INPUT_BUF in *. split_and!.
  - apply ring_app; [apply INPUT_range|apply INPUT_div|lia].
  - rewrite (u32_split (in_r i) (in_w i)) by lia. lia.
  - lia.
Qed.

Lemma cur_empty i : input_wf i -> (in_e i =? in_w i) = bool_decide (cur_of i = []).
Proof.
  intros ((_ & _ & Hw & He & _) & _). destruct (Z.eqb_spec (in_e i) (in_w i)) as [Heq|Hne]; symmetry.
  - apply bool_decide_eq_true. unfold cur_of. rewrite Heq. apply ring_nil.
  - apply bool_decide_eq_false. intros Hc. apply Hne. symmetry. by eapply ring_nil_inv.
Qed.

Lemma cur_pos i : input_wf i -> cur_of i <> [] -> 0 < u32 (in_e i - in_w i).
Proof.
  intros ((_ & _ & Hw & He & _) & _) Hne. pose proof (u32_range (in_e i - in_w i)).
  destruct (decide (u32 (in_e i - in_w i) = 0)) as [H0|]; [|lia].
  exfalso. apply Hne. apply u32_eq in H0; [|done..]. unfold cur_of. rewrite H0. apply ring_nil.
Qed.

(** input.e-- *)
Lemma input_back i :
  input_wf i -> cur_of i <> [] ->
  let i' := i <| in_e := u32 (in_e i - 1) |> in
  input_wf i' /\ rdy_of i' = rdy_of i /\
  cur_of i = cur_of i' ++ [aget (in_buf i) (idx (u32 (in_e i - 1) mod INPUT_BUF))].
Proof.
  intros Hwf Hne i'. pose proof (cur_pos i Hwf Hne) as Hpos.
  assert (cur_of i = cur_of i' ++ [aget (in_buf i) (idx (u32 (in_e i - 1) mod INPUT_BUF))]) as Hc
    by (apply ring_unpush; [apply INPUT_range|apply INPUT_div|done]).
  split_and!; [|done|done]. destruct Hwf as ((Hl & Hr & Hw & He & Hn) & Hnl).
  split; [do 3 (split; [done|]); split; [apply u32_range|]|].
  - change (in_w i') with (in_w i). change (in_r i') with (in_r i). change (in_e i') with (u32 (in_e i - 1)).
    rewrite u32_pred_l, u32_back by done. lia.
  - rewrite Hc in Hnl. set_solver.
Qed.

(** input.buf[input.e++ % INPUT_BUF] = c *)
Lemma input_put_spec c i :
  input_bounds i -> (length (rdy_of i) + length (cur_of i) < 128)%nat -> 0 <= c < 256 ->
  let i' := input_put c i in
  rdy_of i' = rdy_of i /\ cur_of i' = cur_of i ++ [c] /\ input_bounds i'.
Proof.
  intros Hwf Hlt Hc i'. destruct (input_total i Hwf) as (Ht & Hlen & _).
  destruct Hwf as (Hl & Hr & Hw & He & Hn).
  pose proof (u32_range (in_w i - in_r i)). pose proof (u32_range (in_e i - in_w i)).
  assert (u8 c = c) as Hu by (by apply Z.mod_small).
  unfold rdy_of, cur_of in Hlt. rewrite !length_ring in Hlt. unfold idx in Hlt.
  assert (cur_of i' = cur_of i ++ [c]) as Hcur.
  { rewrite <- Hu. apply ring_push; [apply INPUT_range|apply INPUT_div|done|]. simpl. unfold INPUT_BUF in *. lia. }
  assert (ring INPUT_BUF (in_buf i') (in_r i') (in_e i') = rdy_of i ++ cur_of i ++ [c]) as Hall.
  { rewrite app_assoc, <- Ht, <- Hu. apply ring_push; [apply INPUT_range|apply INPUT_div|done|].
    simpl. rewrite Hlen. unfold rdy_of, cur_of. rewrite !length_ring. unfold INPUT_BUF, idx. lia. }
  assert (u32 (in_e i' - in_w i') = u32 (in_e i - in_w i) + 1) as Hs.
  { simpl. rewrite u32_succ_l, u32_step; unfold INPUT_BUF in *; lia. }
  split; [|split; [done|split; [simpl; by rewrite length_insert|do 2 (split; [done|]); split; [apply u32_range|]]]].
  - assert (u32 (in_w i' - in_r i') + u32 (in_e i' - in_w i') < 2 ^ 32) as Hb
      by (rewrite Hs; simpl; unfold INPUT_BUF in *; lia).
    rewrite (ring_app _ INPUT_range INPUT_div _ _ (in_w i') _ Hb) in Hall. fold (rdy_of i') (cur_of i') in Hall.
    rewrite Hcur in Hall. by apply app_inj_2 in Hall as [? _].
  - rewrite Hs. simpl. unfold INPUT_BUF in *. lia.
Qed.

(** input.w = input.e *)
Lemma input_commit i :
  input_bounds i ->
  let i' := i <| in_w := in_e i |> in
  input_wf i' /\ rdy_of i' = rdy_of i ++ cur_of i /\ cur_of i' = [].
Proof.
  intros Hb i'. destruct (input_total i Hb) as (Ht & Hlen & Hle). destruct Hb as (Hl & Hr & Hw & He & Hn).
  assert (cur_of i' = []) as Hc by apply ring_nil.
  split_and!; [split|done|done]; [|rewrite Hc; set_solver].
  do 4 (split; [done|]). change (in_w i') with (in_e i). change (in_r i') with (in_r i).
  change (in_e i') with (in_e i). rewrite Hlen, Z.sub_diag. change (u32 0) with 0. unfold INPUT_BUF. lia.
Qed.

(** ** The operations *)

(** The console and its buffer, in a critical section or between two. *)
Definition tty (st : list Z * list Z) (s : kstate) : Prop :=
  calm s /\ lock_free s lk_ptable /\ ptable_len s /\ on_screen s /\ input_wf (k_input s) /\
  (rdy_of (k_input s), cur_of (k_input s)) = st.

(** A step of the console that leaves the rest of the kernel alone. *)
Definition tty_step {A} (m : K A) (s : kstate) (a : A) (st : list Z * list Z) : Prop :=
  exists t, m s = Done (Ok a) t /\ same_env s t /\ tty st t.

Lemma tty_env s t st st' :
  tty st s -> same_env s t -> on_screen t -> input_wf (k_input t) ->
  (rdy_of (k_input t), cur_of (k_input t)) = st' -> tty st' t.
Proof.
  intros (Hc & Hf & Hlen & _) (He1 & He2 & He3 & He4) ? ? ?.
  unfold tty, calm, cpus_wf, thiscpu, lock_free, ptable_len in *. rewrite <- He1, <- He2, <- He3.
  apply (f_equal length) in He4. rewrite !length_fmap in He4. rewrite <- He4.
  split; [exact Hc|]. by split_and!.
Qed.

Lemma tty_bind {A B} (m : K A) (f : A -> K B) s a b st st' :
  tty_step m s a st -> (forall t, tty st t -> tty_step (f a) t b st') -> tty_step (bind m f) s b st'.
Proof.
  intros (t & Hm & Hst & Ht) Hf. destruct (Hf t Ht) as (u & Hu & Htu & Hu').
  exists u. rewrite (bind_Done _ _ _ _ _ Hm). split_and!; [done|by etransitivity|done].
Qed.

Lemma tty_ret {A} (a : A) s st : tty st s -> tty_step (ret a) s a st.
Proof. intros H. by exists s. Qed.

Lemma tty_gets {A B} (f : kstate -> A) (k : A -> K B) s b st :
  tty_step (k (f s)) s b st -> tty_step (bind (gets f) k) s b st.
Proof. done. Qed.

Lemma tty_same {A B} (m : K A) (k : A -> K B) s a b st :
  m s = Done (Ok a) s -> tty_step (k a) s b st -> tty_step (bind m k) s b st.
Proof. intros Hm Hk. unfold tty_step. by rewrite (bind_Done _ _ _ _ _ Hm). Qed.

Lemma tty_modify {B} (f : kstate -> kstate) (m : K B) s b st :
  same_env s (f s) -> tty_step m (f s) b st -> tty_step (modify f ;;; m) s b st.
Proof. intros He (t & Hm & Het & Ht). exists t. split_and!; [done|by etransitivity|done]. Qed.

Lemma tty_consputc c s st : tty st s -> tty_step (consputc c) s tt st.
Proof.
  intros H. destruct (consputc_ok c s) as (o & crt & pos & Hc & Ho); [apply H|].
  eexists. split; [exact Hc|]. split; [done|]. destruct H as (?&?&?&?&?&<-). by split_and!.
Qed.

Lemma tty_erase s rdy cur :
  tty (rdy, cur) s -> cur <> [] -> tty_step erase s tt (rdy, removelast cur).
Proof.
  intros Hs Hne. pose proof Hs as (?&?&?&?&Hwf&[= Hr Hc]).
  destruct (input_back (k_input s)) as (Hwf' & Hr' & Hc'); [done|congruence|].
  unfold erase, setinput. eapply tty_bind.
  - eexists. split; [done|]. split; [done|]. eapply (tty_env s); [done..|].
    simpl. by rewrite Hr', Hr.
  - intros t Ht. apply tty_consputc. by rewrite <- Hc, Hc', removelast_last.
Qed.

Lemma tty_kill n s rdy cur :
  tty (rdy, cur) s -> (length cur <= n)%nat -> tty_step (mwhile n (getinput in_line) erase) s tt (rdy, []).
Proof.
  revert s cur. induction n as [|n IH]; intros s cur Hs Hn; cbn [mwhile]; apply tty_gets.
  all: pose proof Hs as (_&_&_&_&Hwf&[= Hr Hc]).
  all: assert (in_line (k_input s) = negb (bool_decide (cur = []))) as ->.
  1,3: unfold in_line; rewrite cur_empty, Hc by done; case_bool_decide as He; [done|]; simpl.
  1,2: destruct (input_back (k_input s)) as (_ & _ & Hc'); [done|congruence|];
    destruct Hwf as (_&Hnl); rewrite Hc' in Hnl;
    apply negb_true_iff, Z.eqb_neq; intros H10; rewrite H10 in Hnl; set_solver.
  all: case_bool_decide as He; simpl.
  - rewrite He in Hs. by apply tty_ret.
  - destruct cur; [done|simpl in Hn; lia].
  - rewrite He in Hs. by apply tty_ret.
  - eapply tty_bind; [by apply tty_erase|]. intros t Ht. apply (IH t (removelast cur)); [done|].
    destruct (exists_last He) as (l & x & ->). rewrite removelast_last. rewrite length_app in Hn. simpl in Hn. lia.
Qed.

Lemma tty_wakeup ch s st : tty st s -> tty_step (wakeup ch) s tt st.
Proof.
  intros Hs. pose proof Hs as (Hc & Hf & Hlen & Ho & Hwf & Hst). eexists. split; [by apply wakeup_ok|].
  split; [apply same_env_wake|]. by apply (tty_env s _ st st Hs (same_env_wake ch s)).
Qed.

(** The default case of the switch. *)
Lemma tty_char c s rdy cur :
  tty (rdy, cur) s -> 0 <= c < 256 ->
  c <> 16 -> c <> 21 -> c <> 8 -> c <> 127 ->
  tty_step (input_char c) s tt (edit (rdy, cur) c).
Proof.
  intros Hs Hc H16 H21 H8 H127. pose proof Hs as (_ & _ & _ & Ho & Hwf & [= Hr Hcu]).
  destruct (input_total (k_input s) (proj1 Hwf)) as (_ & Hlen & Hle). rewrite Hr, Hcu in *.
  unfold edit. rewrite !(proj2 (Z.eqb_neq c _)) by done. cbn [orb].
  unfold input_char. apply tty_gets. rewrite Hlen.
  assert ((Z.of_nat (length rdy + length cur) <? INPUT_BUF) = (length rdy + length cur <? 128)%nat) as ->.
  { unfold INPUT_BUF. destruct (Nat.ltb_spec (length rdy + length cur) 128); [apply Z.ltb_lt|apply Z.ltb_ge]; lia. }
  destruct (negb (c =? 0) && (length rdy + length cur <? 128)%nat) eqn:Hroom; [|by apply tty_ret].
  apply andb_true_iff in Hroom as [_ Hroom%Nat.ltb_lt]. unfold when.
  set (d := if c =? 13 then 10 else c). assert (0 <= d < 256) as Hd by (unfold d; destruct (c =? 13); lia).
  destruct (input_put_spec d (k_input s) (proj1 Hwf)) as (Hr' & Hc' & Hb'); [by rewrite Hr, Hcu|done|].
  set (i := input_put d (k_input s)) in *. rewrite Hr in Hr'. rewrite Hcu in Hc'.
  unfold setinput. pose (s1 := s <| k_input := i |>).
  destruct (consputc_ok d s1 Ho) as (o & crt & pos & Hp & Ho').
  set (t := s1 <| k_out := o |> <| k_crt := crt |> <| k_crtpos := pos |>) in *.
  assert ((in_e i =? u32 (in_r i + INPUT_BUF)) = (length rdy + length cur + 1 =? 128)%nat) as Hfull.
  { rewrite u32_ahead by (apply Hb' || (unfold INPUT_BUF; lia)).
    change (in_r i) with (in_r (k_input s)). change (in_e i) with (u32 (in_e (k_input s) + 1)).
    rewrite u32_succ_l, u32_step, Hlen by (rewrite Hlen; lia). unfold INPUT_BUF.
    apply eq_iff_eq_true. rewrite Z.eqb_eq, Nat.eqb_eq. lia. }
  destruct ((d =? 10) || (d =? 4) || (length rdy + length cur + 1 =? 128)%nat) eqn:Hline.
  - pose (u := t <| k_input ::= (fun j => j <| in_w := in_e j |>) |>).
    destruct (input_commit i Hb') as (Hwu & Hru & Hcu').
    assert (tty (rdy ++ cur ++ [d], []) u) as Hu.
    { apply (tty_env s u (rdy, cur)); [exact Hs|by split_and!|exact Ho'|exact Hwu|].
      rewrite <- Hr', <- Hc', <- Hru, <- Hcu'. reflexivity. }
    destruct (tty_wakeup (Some ch_input) u _ Hu) as (v & Hv & Hev & Htv).
    exists v. split; [|split; [etransitivity; [|exact Hev]; by split_and!|exact Htv]].
    rewrite bind_modify, (bind_Done _ _ _ _ _ Hp). unfold getinput. rewrite bind_gets.
    change (k_input t) with i. rewrite Hfull, Hline. unfold when. by rewrite bind_modify.
  - exists t. rewrite bind_modify, (bind_Done _ _ _ _ _ Hp). unfold getinput. rewrite bind_gets.
    change (k_input t) with i. rewrite Hfull, Hline. split; [done|]. split; [by split_and!|].
    apply orb_false_iff in Hline as [[Hnl%Z.eqb_neq _]%orb_false_iff _].
    apply (tty_env s t (rdy, cur)); [exact Hs|by split_and!|exact Ho'|split; [exact Hb'|]|by rewrite <- Hr', <- Hc'].
    change (k_input t) with i. rewrite Hc'. destruct Hwf as [_ Hwf]. rewrite Hcu in Hwf. set_solver.
Qed.

Lemma tty_console_char c s st :
  tty st s -> 0 <= c < 256 -> tty_step (console_char c) s (c =? 16) (edit st c).
Proof.
  intros Hs Hc. destruct st as [rdy cur]. unfold console_char, edit.
  destruct (Z.eqb_spec c 16) as [|H16]; [by apply tty_ret|].
  pose proof Hs as (_ & _ & _ & _ & Hwf & [= Hr Hcu]).
  destruct (Z.eqb_spec c 21) as [|H21].
  { apply tty_gets. eapply tty_bind; [|intros t Ht; by apply tty_ret]. apply (tty_kill _ s rdy cur); [done|].
    rewrite <- Hcu. unfold cur_of. rewrite length_ring. lia. }
  destruct ((c =? 8) || (c =? 127)) eqn:Hbs.
  { apply tty_gets. rewrite cur_empty, Hcu by done. eapply tty_bind; [|intros t Ht; by apply tty_ret].
    case_bool_decide as He; [rewrite He in *; by apply tty_ret|by apply tty_erase]. }
  apply orb_false_iff in Hbs as [H8%Z.eqb_neq H127%Z.eqb_neq].
  eapply tty_bind; [by apply (tty_char c s rdy cur)|]. intros t Ht. apply tty_ret.
  unfold edit in Ht. rewrite !(proj2 (Z.eqb_neq c _)) in Ht by done. exact Ht.
Qed.

Lemma tty_console_chars cs d s st :
  tty st s -> Forall (fun c => 0 <= c < 256) cs ->
  tty_step (console_chars cs d) s (d || bool_decide (16 ∈ cs)) (foldl edit st cs).
Proof.
  revert d s st. induction cs as [|c cs IH]; intros d s st Hs Hcs; cbn [console_chars foldl].
  - rewrite bool_decide_false by set_solver. rewrite orb_false_r. by apply tty_ret.
  - apply Forall_cons in Hcs as [Hc Hcs]. eapply tty_bind; [by apply tty_console_char|].
    intros t Ht. replace (d || bool_decide (16 ∈ c :: cs)) with ((d || (c =? 16)) || bool_decide (16 ∈ cs)); [by apply IH|].
    rewrite <- orb_assoc. f_equal. apply eq_iff_eq_true. rewrite orb_true_iff, Z.eqb_eq, !bool_decide_eq_true. set_solver.
Qed.

(** ** Reading a line *)

(** What a read of at most [n] bytes takes from the characters ready, and what
    it leaves: a line with its newline, or what precedes a ^D, which is taken
    only by a read that finds it first. *)
Fixpoint read_line (first : bool) (n : nat) (rdy : list Z) : list Z * list Z :=
  match n, rdy with
  | S n', c :: rdy' =>
      if c =? 4 then ([], if first then rdy' else rdy)
      else if c =? 10 then ([c], rdy')
      else let '(l, rest) := read_line false n' rdy' in (c :: l, rest)
  | _, _ => ([], rdy)
  end.

Lemma input_get i c rdy :
  input_wf i -> rdy_of i = c :: rdy ->
  let i' := i <| in_r := u32 (in_r i + 1) |> in
  aget (in_buf i) (idx (in_r i mod 128)) = c /\ (in_r i =? in_w i) = false /\
  input_wf i' /\ rdy_of i' = rdy /\ cur_of i' = cur_of i /\ i' <| in_r := u32 (in_r i' - 1) |> = i.
Proof.
  intros [(Hl & Hr & Hw & He & Hn) Hnl] Hrdy i'.
  pose proof (u32_range (in_w i - in_r i)).
  assert (0 < u32 (in_w i - in_r i)) as Hpos.
  { apply (f_equal length) in Hrdy. unfold rdy_of in Hrdy. rewrite length_ring in Hrdy. unfold idx in Hrdy.
    simpl in Hrdy. lia. }
  unfold rdy_of in Hrdy. rewrite (ring_pop _ INPUT_range INPUT_div) in Hrdy by done. injection Hrdy as Hc Hrest.
  split_and!; [done| | |done|done|].
  - apply Z.eqb_neq. intros Heq. rewrite Heq, Z.sub_diag in Hpos. done.
  - split; [|done]. split; [done|]. split; [apply u32_range|]. do 2 (split; [done|]).
    simpl. rewrite u32_succ_r, u32_back by done. lia.
  - destruct i as [b r w e]. unfold i'. simpl in *.
    unfold u32. rewrite Zminus_mod_idemp_l, Z.add_simpl_r, Z.mod_small by done. reflexivity.
Qed.

Lemma input_wait_ready n s c rdy cur : tty (c :: rdy, cur) s -> input_wait n s = Done (Ok false) s.
Proof.
  intros (_ & _ & _ & _ & Hwf & [= Hr _]). destruct (input_get _ _ _ Hwf Hr) as (_ & Hne & _).
  destruct n; cbn [input_wait]; rewrite bind_gets; by rewrite Hne.
Qed.

Lemma input_loop_line n target acc s rdy cur :
  tty (rdy, cur) s -> (n <= target)%nat -> (n <= length rdy)%nat \/ 10 ∈ rdy \/ 4 ∈ rdy ->
  let r := read_line (n =? target)%nat n rdy in
  tty_step (input_loop n target acc) s (Some (n - length (fst r))%nat, acc ++ fst r) (snd r, cur).
Proof.
  revert acc s rdy. induction n as [|n IH]; intros acc s rdy Hs Hle Hend; cbn [read_line input_loop].
  { simpl. rewrite app_nil_r. by apply tty_ret. }
  destruct rdy as [|c rdy]; [simpl in Hend; set_solver by lia|].
  pose proof Hs as (_ & _ & _ & Ho & Hwf & [= Hr Hcu]).
  destruct (input_get _ _ _ Hwf Hr) as (Hc & _ & Hwf' & Hr' & Hcu' & Hback).
  eapply tty_gets, tty_same; [by eapply input_wait_ready|]. apply tty_gets. rewrite Hc.
  apply tty_modify; [done|]. set (t := upd _ s).
  assert (tty (rdy, cur) t) as Ht.
  { apply (tty_env s t _ _ Hs); [done|done|done|]. unfold t. simpl. by rewrite Hr', Hcu', Hcu. }
  destruct (Z.eqb_spec c 4) as [->|H4].
  { cbn [fst snd length]. rewrite app_nil_r, Nat.sub_0_r. destruct (Nat.ltb_spec (S n) target) as [Hlt|Hge]; unfold when.
    - rewrite (proj2 (Nat.eqb_neq (S n) target)) by lia. apply tty_modify; [done|]. apply tty_ret.
      pose (u := t <| k_input ::= (fun i => i <| in_r := u32 (in_r i - 1) |>) |>).
      assert (k_input u = k_input s) as Hu by exact Hback.
      apply (tty_env t u _ _ Ht); [done|done|by rewrite Hu|by rewrite Hu, Hr, Hcu].
    - rewrite (proj2 (Nat.eqb_eq (S n) target)) by lia. by apply tty_ret. }
  destruct (Z.eqb_spec c 10) as [->|H10].
  { simpl. rewrite Nat.sub_0_r. by apply tty_ret. }
  specialize (IH (acc ++ [c]) t rdy Ht ltac:(lia)). rewrite (proj2 (Nat.eqb_neq n target)) in IH by lia.
  destruct (read_line false n rdy) as [l rest]. cbn [fst snd length] in *. rewrite <- app_assoc in IH. apply IH.
  simpl in Hend. destruct Hend as [?|[?|?]]; [left; lia|set_solver..].
Qed.

(** C20: the console refines the line editor.  From a well formed buffer the
    interrupt handler takes any characters typed, without overrunning the
    buffer, leaving the screen or panicking: the characters ready and the line
    being edited become those of [edit] folded over the input, the CPU and the
    locks are as before, and what is left to do is the process listing, if ^P
    was typed.  From there the loop of consoleread for n bytes, if it need not
    wait, takes exactly the line [read_line] describes: erased characters are
    gone, a line ends with its newline, and a ^D in the middle stays for the
    next read. *)
Theorem console_refines_editor pcs cs s st :
  tty st s -> lock_free s lk_cons -> Forall (fun c => 0 <= c < 256) cs ->
  let st' := foldl edit st cs in
  exists t, uartintr pcs cs s = when (bool_decide (16 ∈ cs)) (procdump pcs) t /\
    same_env s t /\ tty st' t /\
    forall n, (n <= length (fst st'))%nat \/ 10 ∈ fst st' \/ 4 ∈ fst st' ->
      let r := read_line true n (fst st') in
      tty_step (input_loop n n []) t (Some (n - length (fst r))%nat, fst r) (snd r, snd st').
Proof.
  intros Hs Hl Hcs st'. pose proof Hs as (Hc & Hf & Hlen & Ho & Hwf & Hst).
  assert (tty st (acquired lk_cons s)) as Ha.
  { split_and!; try done; [by apply calm_acquired|by apply lock_free_acquired]. }
  destruct (tty_console_chars cs false _ _ Ha Hcs) as (t & Ht & He & Htt).
  destruct (release_same s t lk_cons Hc Hl He) as [Hr Hsu].
  set (u := upd _ (upd _ t)) in *.
  assert (tty st' u) as Hu.
  { destruct Htt as (_ & _ & _ & Hot & Hwt & Hvt). by apply (tty_env s u st). }
  exists u. split_and!; [|exact Hsu|exact Hu|].
  - unfold uartintr, consoleintr. rewrite (bind_Done _ _ _ _ _ (acquire_calm s _ Hc Hl)), bind_ret_l.
    rewrite (bind_Done _ _ _ _ _ Ht). by rewrite (bind_Done _ _ _ _ _ Hr).
  - intros n Hn. rewrite <- (Nat.eqb_refl n). destruct st' as [rdy cur]. by apply (input_loop_line n n []).
Qed.

(** A kernel with one CPU at its console. *)
Definition at_console : kstate :=
  kstate0
    <| k_cpus := [mk_cpu 0 0 true (Some 1%nat) true 0] |>
    <| k_locks := {[ lk_cons := mk_spinlock false None; lk_ptable := mk_spinlock false None ]} |>
    <| k_input := mk_input (replicate 128 0) (2 ^ 32 - 2) (2 ^ 32 - 2) (2 ^ 32 - 2) |>.

Lemma at_console_tty : tty ([], []) at_console.
Proof.
  split; [split_and!; [split; [vm_compute; lia|apply NoDup_singleton]|done|done|done]|].
  split; [done|]. split; [done|]. split; [split; [done|simpl; lia]|].
  split; [|reflexivity]. split; [split_and!; vm_compute; done|].
  unfold cur_of. simpl. rewrite ring_nil. set_solver.
Qed.

(** Typing l, x, backspace, s, return and reading ten bytes gives a line. *)
Lemma console_refines_editor_witness :
  exists t, uartintr (fun _ => []) [108; 120; 8; 115; 13] at_console = Done (Ok tt) t /\
    tty_step (input_loop 10 10 []) t (Some 7%nat, [108; 115; 10]) ([], []).
Proof.
  destruct (console_refines_editor (fun _ => []) [108; 120; 8; 115; 13] at_console ([], []))
    as (t & Ht & _ & _ & Hread); [apply at_console_tty|done|repeat constructor; lia|].
  exists t. split; [exact Ht|]. apply (Hread 10%nat). right. left. by apply (bool_decide_unpack _).
Defined.
