(* ===== verification/Sysarg.v ===== *)
(** * System call arguments (syscall.c, first half)

    The kernel runs on the page table of the calling process, so that a user
    address is dereferenced through it; an address that is not mapped faults
    in the kernel, which is undefined here.  A string argument is given as its
    bytes up to and with the NUL that fetchstr found. *)

From S2P Require Import Prelude Kernel Spinlock ProcCore Vm Bio Quiet Proc.

(** ** User memory *)

(** The kernel address of the byte at user address [va]. *)
Definition uaddr (va : Z) : K Z :=
  p <- curproc ;;
  pd <- my_pgdir p ;;
  m <- gets k_mem ;;
  match translate m pd va with
  | Some pte => ret (P2V (PTE_ADDR pte) + va mod PGSIZE)
  | None => halt (UB "page fault")
  end.

Definition uload (va : Z) : K Z :=
  a <- uaddr va ;;
  p <- gets (fun s => k_mem s !! pageof a) ;;
  match p with
  | Some pg => ret (aget pg (pageoff a))
  | None => halt (UB "load")
  end.

Fixpoint uloads (va : Z) (n : nat) : K (list Z) :=
  match n with
  | O => ret []
  | S n' => b <- uload va ;; l <- uloads (va + 1) n' ;; ret (b :: l)
  end.

Fixpoint ustores (va : Z) (l : list Z) : K unit :=
  match l with
  | [] => ret tt
  | b :: l' => a <- uaddr va ;; mwrite a [b] ;;; ustores (va + 1) l'
  end.

(** ** fetchint, fetchstr and the argument functions: [None] for -1 *)

Definition fetchint (addr : Z) : K (option Z) :=
  p <- curproc ;;
  size <- getproc p sz ;;
  if (size <=? addr) || (size <? u32 (addr + 4)) then ret None
  else l <- uloads addr 4 ;; ret (Some (i32 (le_load 4 l 0))).

(** for(s = *pp; s < ep; s++) if( *s == 0) return ...; *)
Fixpoint fetchstr_loop (n : nat) (s : Z) : K (option (list Z)) :=
  match n with
  | O => ret None
  | S n' =>
      c <- uload s ;;
      if c =? 0 then ret (Some [0])
      else r <- fetchstr_loop n' (s + 1) ;; ret (cons c <$> r)
  end.

Definition fetchstr (addr : Z) : K (option (list Z)) :=
  p <- curproc ;;
  size <- getproc p sz ;;
  if size <=? addr then ret None else fetchstr_loop (idx (size - addr)) addr.

Definition argint (n : Z) : K (option Z) :=
  p <- curproc ;;
  t <- getproc p tf ;;
  fetchint (u32 (tf_esp t + 4 + 4 * n)).

Definition argptr (n size : Z) : K (option Z) :=
  p <- curproc ;;
  i <- argint n ;;
  match i with
  | None => ret None
  | Some i =>
      sz <- getproc p sz ;;
      if (size <? 0) || (sz <=? u32 i) || (sz <? u32 (u32 i + size)) then ret None
      else ret (Some (u32 i))
  end.

Definition argstr (n : Z) : K (option (list Z)) :=
  a <- argint n ;;
  match a with
  | None => ret None
  | Some a => fetchstr (u32 a)
  end.

(** argstr where the address is needed as well. *)
Definition argstr_ptr (n : Z) : K (option (Z * list Z)) :=
  a <- argint n ;;
  match a with
  | None => ret None
  | Some a => l <- fetchstr (u32 a) ;; ret (pair (u32 a) <$> l)
  end.

(** if(arg(...) < 0) return -1; *)
Definition with_arg {A} (m : K (option A)) (k : A -> K Z) : K Z :=
  a <- m ;;
  match a with
  | Some a => k a
  | None => ret (-1)
  end.

(** ** Arguments stay in user memory *)

(** A path that only looks at the state. *)
Definition looks {A} (m : K A) (s : kstate) : Prop := exists r, m s = Done r s.

Lemma looks_bind {A B} (m : K A) (f : A -> K B) s :
  looks m s -> (forall a, m s = Done (Ok a) s -> looks (f a) s) -> looks (bind m f) s.
Proof.
  intros [[a|w] Hm] Hf.
  - destruct (Hf a Hm) as [r Hr]. exists r. by rewrite (bind_Done _ _ _ _ _ Hm).
  - exists (Stop w). by apply bind_Stop.
Qed.

Section user_memory.
Context (s : kstate) (p : nat).
Hypothesis Hc : calm s.
Hypothesis Hp : cproc (thiscpu s) = Some p.

Lemma looks_curproc : looks curproc s.
Proof. exists (Ok p). by apply curproc_ok. Qed.

Lemma looks_uload va : looks (uload va) s.
Proof.
  unfold uload, uaddr. apply looks_bind; [apply looks_bind; [apply looks_curproc|]|].
  - intros q _. apply looks_bind; [unfold my_pgdir, getproc; destruct (pgdir (pget s q)) eqn:E|].
    1,2: eexists; unfold bind, gets; simpl; rewrite E; reflexivity.
    intros pd _. apply looks_bind; [by eexists|]. intros m _. destruct (translate m pd va); by eexists.
  - intros a _. apply looks_bind; [by eexists|]. intros [pg|] _; by eexists.
Qed.

Lemma looks_uloads va n : looks (uloads va n) s.
Proof.
  revert va. induction n as [|n IH]; intros va; cbn [uloads]; [by eexists|].
  apply looks_bind; [apply looks_uload|]. intros b _. apply looks_bind; [apply IH|]. intros l _. by eexists.
Qed.

Lemma looks_fetchint addr : looks (fetchint addr) s.
Proof.
  unfold fetchint. apply looks_bind; [apply looks_curproc|]. intros q _. apply looks_bind; [by eexists|].
  intros size _. destruct (_ || _); [by eexists|]. apply looks_bind; [apply looks_uloads|]. intros l _. by eexists.
Qed.

Lemma looks_argint n : looks (argint n) s.
Proof.
  unfold argint. apply looks_bind; [apply looks_curproc|]. intros q _. apply looks_bind; [by eexists|].
  intros t _. apply looks_fetchint.
Qed.

(** The bytes that fetchstr returns are a string of the user's memory. *)
Lemma fetchstr_loop_ok n a :
  match fetchstr_loop n a s with
  | Done (Ok (Some l)) t => t = s /\ (length l <= n)%nat /\ exists str, l = str ++ [0] /\ (0 ∉ str) /\
      forall k c, l !! k = Some c -> uload (a + Z.of_nat k) s = Done (Ok c) s
  | Done _ t => t = s
  | Switch _ _ => False
  end.
Proof.
  revert a. induction n as [|n IH]; intros a; cbn [fetchstr_loop]; [done|].
  destruct (looks_uload a) as [[c|w] Hl]; [|by rewrite (bind_Stop _ _ _ _ _ Hl)].
  rewrite (bind_Done _ _ _ _ _ Hl). destruct (Z.eqb_spec c 0) as [->|Hc0].
  - split; [done|]. split; [simpl; lia|]. exists []. split; [done|]. split; [set_solver|].
    intros [|[|k]] c Hk; simplify_eq/=. by rewrite Z.add_0_r.
  - specialize (IH (a + 1)). unfold bind. destruct (fetchstr_loop n (a + 1) s) as [[[l|]|w] t|]; try done.
    simpl. destruct IH as (-> & Hlen & str & -> & Hz & Hk). split; [done|]. split; [simpl; lia|].
    exists (c :: str). split; [done|]. split; [set_solver|]. intros [|k] c' Hk'; simplify_eq/=.
    + by rewrite Z.add_0_r.
    + rewrite <- (Hk k c' Hk'). f_equal. lia.
Qed.
End user_memory.

(** C30: the pointers that system calls accept stay in the memory of the process.
    With the size of the process at most KERNBASE, a pointer from argptr(n, size)
    and the size bytes from it on are below proc->sz, negative sizes and sums
    that wrap around included; a string from fetchstr lies below proc->sz, ends
    with its only NUL and is what the user's pages hold.  Neither changes the
    state. *)
Theorem user_args_in_bounds s p :
  calm s -> cproc (thiscpu s) = Some p -> 0 <= sz (pget s p) <= KERNBASE ->
  (forall n size a t, - 2 ^ 31 <= size < 2 ^ 31 -> argptr n size s = Done (Ok (Some a)) t ->
     t = s /\ 0 <= size /\ 0 <= a < sz (pget s p) /\ a + size <= sz (pget s p)) /\
  (forall a l t, 0 <= a -> fetchstr a s = Done (Ok (Some l)) t ->
     t = s /\ a + Z.of_nat (length l) <= sz (pget s p) /\ exists str, l = str ++ [0] /\ (0 ∉ str) /\
     forall k c, l !! k = Some c -> uload (a + Z.of_nat k) s = Done (Ok c) s).
Proof.
  intros Hc Hp Hsz. unfold KERNBASE in Hsz. split.
  - intros n size a t Hsize Hrun. unfold argptr in Hrun.
    rewrite (bind_Done _ _ _ _ _ (curproc_ok s p Hc Hp)) in Hrun.
    destruct (looks_argint s p Hc Hp n) as [[[i|]|w] Hi];
      [rewrite (bind_Done _ _ _ _ _ Hi) in Hrun|rewrite (bind_Done _ _ _ _ _ Hi) in Hrun; done|
       rewrite (bind_Stop _ _ _ _ _ Hi) in Hrun; done].
    unfold getproc in Hrun. rewrite bind_gets in Hrun.
    destruct ((size <? 0) || (sz (pget s p) <=? u32 i) || (sz (pget s p) <? u32 (u32 i + size))) eqn:Ht; [done|].
    apply orb_false_iff in Ht as [[H1%Z.ltb_ge H2%Z.leb_gt]%orb_false_iff H3%Z.ltb_ge].
    injection Hrun as <- <-. pose proof (u32_range i). rewrite u32_id in H3 by lia. split_and!; [done|lia..].
  - intros a l t Ha Hrun. unfold fetchstr in Hrun.
    rewrite (bind_Done _ _ _ _ _ (curproc_ok s p Hc Hp)) in Hrun. unfold getproc in Hrun. rewrite bind_gets in Hrun.
    destruct (Z.leb_spec (sz (pget s p)) a) as [|Hlt]; [done|].
    pose proof (fetchstr_loop_ok s p Hc Hp (idx (sz (pget s p) - a)) a) as Hl. rewrite Hrun in Hl.
    destruct Hl as (-> & Hlen & Hstr). split; [done|]. split; [unfold idx in Hlen; lia|done].
Qed.

(** Process 1 with one page of memory that starts with a string. *)
Definition user_page : kstate :=
  (idle ∅)
    <| k_mem := {[ KERNBASE + 4096 := le_store 4 (replicate 4096 0) 0 (8192 + 7);
                   KERNBASE + 8192 := le_store 4 (replicate 4096 0) 0 (12288 + 7);
                   KERNBASE + 12288 := [104; 105; 0] ++ replicate 4093 1 ]} |>
    <| k_proc ::= alter (fun x => x <| sz := 4096 |> <| pgdir := Some (KERNBASE + 4096) |>) 1%nat |>.

Lemma user_page_quiet : quiet 1 user_page.
Proof. apply quiet_check_ok. by vm_compute. Qed.

Lemma user_page_string : result (fetchstr 0) user_page = Some (Some [104; 105; 0]).
Proof. by vm_compute. Qed.

Lemma user_page_sz : sz (pget user_page 1) = 4096.
Proof. by vm_compute. Qed.

Lemma user_args_in_bounds_witness :
  exists l t, fetchstr 0 user_page = Done (Ok (Some l)) t /\ Z.of_nat (length l) <= 4096 /\
    l = [104; 105; 0].
Proof.
  destruct (result_inv _ _ _ user_page_string) as [t E].
  destruct (user_args_in_bounds user_page 1 (quiet_calm 1 _ user_page_quiet) (proj1 (proj2 user_page_quiet)))
    as [_ Hstr]; [rewrite user_page_sz; split; discriminate|].
  destruct (Hstr 0 _ t (Z.le_refl 0) E) as (_ & Hb & _). rewrite user_page_sz in Hb.
  exists [104; 105; 0], t. exact (conj E (conj Hb eq_refl)).
Defined.
