(* ===== verification/Exec.v ===== *)
(** * Program loading (exec.c, loaduvm of vm.c, exec2 of PRJ02_syscall.c)

    exec and exec2 have the same code from the check of the ELF header on,
    except for the number of stack pages: [exec_image].  argv is the list of the
    argument strings, each with its NUL. *)

From S2P Require Import Prelude Cstring Kernel Spinlock ProcCore Console Vm Bio Log Inode Fs Proc.

(** ** loaduvm *)

Fixpoint loaduvm_loop (n : nat) (pgdir addr : Z) (ip : nat) (offset i size : Z) : K Z :=
  if negb (i <? size) then ret 0
  else
    match n with
    | O => halt (Hang "loaduvm")
    | S n' =>
        pte <- walkpgdir pgdir (u32 (addr + i)) false ;;
        match pte with
        | None => panic "loaduvm: address should exist"
        | Some pte =>
            v <- mload pte ;;
            let pa := PTE_ADDR v in
            let n := if size - i <? PGSIZE then size - i else PGSIZE in
            r <- readi ip (u32 (offset + i)) n ;;
            let '(got, l) := r in
            mwrite (P2V pa) l ;;;
            if negb (got =? n) then ret (-1)
            else loaduvm_loop n' pgdir addr ip offset (u32 (i + PGSIZE)) size
        end
    end.

Definition loaduvm (pgdir addr : Z) (ip : nat) (offset size : Z) : K Z :=
  if negb (addr mod PGSIZE =? 0) then panic "loaduvm: addr must be page aligned"
  else loaduvm_loop (S (idx (size / PGSIZE))) pgdir addr ip offset 0 size.

(** ** The ELF headers (elf.h) *)

Definition sizeof_elfhdr : Z := 52.

Definition sizeof_proghdr : Z := 32.

Definition ELF_MAGIC : Z := 1179403647.

Definition elf_magic (l : list Z) : Z := le_load 4 l 0.

Definition elf_entry (l : list Z) : Z := le_load 4 l 24.

Definition elf_phoff (l : list Z) : Z := le_load 4 l 28.

Definition elf_phnum (l : list Z) : Z := le_load 2 l 44.

Record proghdr := mk_ph {
  ph_type : Z; ph_off : Z; ph_vaddr : Z; ph_filesz : Z; ph_memsz : Z
}.

Definition decode_ph (l : list Z) : proghdr :=
  mk_ph (le_load 4 l 0) (le_load 4 l 4) (le_load 4 l 8) (le_load 4 l 16) (le_load 4 l 20).

(** ** Loading the segments *)

(** The loop over the program headers: the size, or [None] for goto bad. *)
Fixpoint load_segments (n : nat) (pgdir : Z) (ip : nat) (off sz : Z) : K (option Z) :=
  match n with
  | O => ret (Some sz)
  | S n' =>
      r <- readi ip (u32 off) sizeof_proghdr ;;
      let '(got, l) := r in
      if negb (got =? sizeof_proghdr) then ret None
      else
        let ph := decode_ph l in
        if negb (ph_type ph =? 1) then load_segments n' pgdir ip (off + sizeof_proghdr) sz
        else if ph_memsz ph <? ph_filesz ph then ret None
        else if u32 (ph_vaddr ph + ph_memsz ph) <? ph_vaddr ph then ret None
        else
          sz' <- allocuvm pgdir sz (u32 (ph_vaddr ph + ph_memsz ph)) ;;
          if sz' =? 0 then ret None
          else if negb (ph_vaddr ph mod PGSIZE =? 0) then ret None
          else
            e <- loaduvm pgdir (ph_vaddr ph) ip (ph_off ph) (ph_filesz ph) ;;
            if e <? 0 then ret None
            else load_segments n' pgdir ip (off + sizeof_proghdr) sz'
  end.

(** ** The arguments *)

(** The loop that pushes the strings: the stack pointer and the ustack entries
    from the third on, or [None] for goto bad. *)
Fixpoint push_args (pgdir sp : Z) (argc : nat) (argv : list (list Z)) (acc : list Z)
    : K (option (Z * list Z)) :=
  match argv with
  | [] => ret (Some (sp, acc))
  | a :: argv' =>
      if (MAXARG <=? argc)%nat then ret None
      else
        let sp := Z.land (u32 (sp - Z.of_nat (length a))) (Z.lnot 3) in
        r <- copyout pgdir sp a ;;
        if r <? 0 then ret None
        else push_args pgdir sp (S argc) argv' (acc ++ [sp])
  end.

(** The bytes of an array of uints. *)
Definition words (l : list Z) : list Z := mbind (fun w => le_store 4 [0; 0; 0; 0] 0 w) l.

(** ustack: the fake return PC, argc, argv and the argument pointers. *)
Definition ustack (sp : Z) (args : list Z) : list Z :=
  let argc := Z.of_nat (length args) in
  [4294967295; argc; u32 (sp - (argc + 1) * 4)] ++ args ++ [0].

(** The last element of the path. *)
Fixpoint base_name (last s : list Z) : list Z :=
  match s with
  | [] => last
  | c :: s' => if c =? 0 then last else base_name (if c =? 47 then s' else last) s'
  end.

(** ** exec_image: from the ELF header to the commit *)

(** bad: with the inode still locked. *)
Definition bad_inode (pgdir : option Z) (ip : nat) : K Z :=
  match pgdir with Some pd => freevm pd | None => ret tt end ;;;
  iunlockput ip ;;;
  end_op ;;;
  ret (-1).

(** bad: after the inode is released. *)
Definition bad_image (pgdir : Z) : K Z := freevm pgdir ;;; ret (-1).

(** The part after the segments: stack, arguments and commit, with [n] pages of
    stack above one inaccessible page. *)
Definition exec_stack (path : list Z) (argv : list (list Z)) (pd size n entry : Z) : K Z :=
  p <- curproc ;;
  let size := PGROUNDUP size in
  size <- allocuvm pd size (u32 (size + (1 + n) * PGSIZE)) ;;
  if size =? 0 then bad_image pd
  else
    clearpteu pd (u32 (size - (1 + n) * PGSIZE)) ;;;
    r <- push_args pd size 0 argv [] ;;
    match r with
    | None => bad_image pd
    | Some (sp, args) =>
        let us := ustack sp args in
        let sp := u32 (sp - Z.of_nat (length us) * 4) in
        e <- copyout pd sp (words us) ;;
        if e <? 0 then bad_image pd
        else
          copy_name p (base_name path path) ;;;
          old <- my_pgdir p ;;
          setproc p (fun x => x <| pgdir := Some pd |> <| sz := size |>
            <| tf := (tf x) <| tf_eip := entry |> <| tf_esp := sp |> |>) ;;;
          switchuvm p ;;;
          freevm old ;;;
          ret 0
    end.

Definition exec_image (path : list Z) (argv : list (list Z)) (ip : nat) (n : Z) : K Z :=
  r <- readi ip 0 sizeof_elfhdr ;;
  let '(got, elf) := r in
  if negb (got =? sizeof_elfhdr) then bad_inode None ip
  else if negb (elf_magic elf =? ELF_MAGIC) then bad_inode None ip
  else
    pd <- setupkvm ;;
    match pd with
    | None => bad_inode None ip
    | Some pgdir =>
        s <- load_segments (idx (elf_phnum elf)) pgdir ip (i32 (elf_phoff elf)) 0 ;;
        match s with
        | None => bad_inode (Some pgdir) ip
        | Some sz =>
            iunlockput ip ;;;
            end_op ;;;
            exec_stack path argv pgdir sz n (elf_entry elf)
        end
    end.

Definition exec (path : list Z) (argv : list (list Z)) : K Z :=
  begin_op ;;;
  i <- namei path ;;
  match i with
  | None =>
      end_op ;;;
      cprintf "exec: fail
" [] ;;;
      ret (-1)
  | Some ip =>
      ilock ip ;;;
      ok <- allowed MODE_XUSR MODE_XOTH ip ;;
      if negb ok then iunlockput ip ;;; end_op ;;; ret (-1)
      else exec_image path argv ip 1
  end.

Definition exec2 (path : list Z) (argv : list (list Z)) (stacksize : Z) : K Z :=
  p <- curproc ;;
  begin_op ;;;
  m <- getproc p mode ;;
  if negb (bool_decide (m = ADMINISTRATOR)) then
    end_op ;;;
    cprintf "exec2: fail (privilege error)
" [] ;;;
    ret (-1)
  else if (stacksize <? 1) || (100 <? stacksize) then
    end_op ;;;
    cprintf "exec2: fail (stacksize out of boundary)
" [] ;;;
    ret (-1)
  else
    i <- namei path ;;
    match i with
    | None =>
        end_op ;;;
        cprintf "exec2: fail
" [] ;;;
        ret (-1)
    | Some ip =>
        ilock ip ;;;
        exec_image path argv ip stacksize
    end.
