(* ===== verification/Users.v ===== *)
(** * The user table and file permissions (PRJ03_syscall.c)

    utable.u and utable.status are contiguous in the C structure; [k_utab] is
    their 360 bytes, so that a string that runs over a field runs over into the
    next one as it does in the code. *)

From S2P Require Import Prelude Cstring Kernel Spinlock ProcCore Console Vm Bio Quiet Log Inode Fs Proc Sysarg.

Definition NUM_USER : nat := 10.

Definition USER_FIELD : nat := 32.

Definition sizeof_u : nat := NUM_USER * USER_FIELD.

(** &utable.u[i][0] *)
Definition urow (t : list Z) (i : nat) : list Z := drop (USER_FIELD * i) t.

(** &utable.u[i][0] + USER_FIELD/2 *)
Definition upass (t : list Z) (i : nat) : list Z := drop (USER_FIELD * i + USER_FIELD / 2) t.

Definition ustatus (t : list Z) (i : nat) : Z := i32 (le_load 4 t (sizeof_u + 4 * i)).

Definition set_ustatus (t : list Z) (i : nat) (v : Z) : list Z := le_store 4 t (sizeof_u + 4 * i) v.

Definition ustrcpy (off : nat) (src : list Z) : K unit :=
  t <- gets k_utab ;;
  match strcpy_at t off src with
  | Some t' => modify (fun s => s <| k_utab := t' |>)
  | None => halt (UB "strcpy")
  end.

(** !strcmp(a, b) *)
Definition str_equal (a b : list Z) : K bool := same_user a b.

(** for(j = 0; j < USER_FIELD; j++) utable.u[i][j] = 0; *)
Definition clear_row (t : list Z) (i : nat) : list Z :=
  take (USER_FIELD * i) t ++ replicate USER_FIELD 0 ++ drop (USER_FIELD * i + USER_FIELD) t.

Definition init_utable : K Z :=
  initlock lk_utable ;;;
  acquire lk_utable ;;;
  mfor (seq 0 NUM_USER) (fun i =>
    modify (fun s => s <| k_utab := set_ustatus (clear_row (k_utab s) i) i 0 |>)) ;;;
  release lk_utable ;;;
  ret 0.

(** strcpy(ip->userid, src) *)
Definition set_userid (ip : nat) (src : list Z) : K unit :=
  u <- getinode ip userid_bytes ;;
  match strcpy u src with
  | Some u' => setinode ip (fun x => x <| iuserid := take 16 u' |> <| imode := le_load 4 u' 16 |>)
  | None => halt (UB "strcpy")
  end.

Definition shadow_path : list Z := chars "/shadow" ++ [0].

(** load_shadow; the second part reads the table from [ip]. *)
Definition load_table (ip : nat) : K Z :=
  acquire lk_utable ;;;
  modify (fun s => s <| k_uptr := Some ip |>) ;;;
  release lk_utable ;;;
  ilock ip ;;;
  r <- readi ip 0 (Z.of_nat sizeof_u) ;;
  let '(got, l) := r in
  modify (fun s => s <| k_utab := l ++ drop (length l) (k_utab s) |>) ;;;
  if got <? 0 then end_op ;;; ret (-1)
  else
    iunlock ip ;;;
    end_op ;;;
    ret 0.

Definition load_shadow : K Z :=
  begin_op ;;;
  r <- nameiparent shadow_path ;;
  let '(d, name) := r in
  match d with
  | None => ret (-1)
  | Some dp =>
      ilock dp ;;;
      f <- dirlookup dp name ;;
      match f with
      | None =>
          acquire lk_utable ;;;
          ustrcpy 0 root_name ;;;
          ustrcpy (USER_FIELD / 2) (chars "1234" ++ [0]) ;;;
          modify (fun s => s <| k_utab := set_ustatus (k_utab s) 0 1 |>) ;;;
          release lk_utable ;;;
          dev <- getinode dp idev ;;
          ip <- ialloc dev T_FILE ;;
          ilock ip ;;;
          setinode ip (fun x => x <| imajor := 0 |> <| iminor := 0 |> <| inlink := 1 |>) ;;;
          set_userid ip root_name ;;;
          iupdate ip ;;;
          n <- getinode ip inum ;;
          dirlink dp name n ;;;
          iunlockput dp ;;;
          t <- gets k_utab ;;
          w <- writei ip (take sizeof_u t) 0 (Z.of_nat sizeof_u) ;;
          if w <? 0 then iunlock ip ;;; end_op ;;; ret (-1)
          else iunlock ip ;;; load_table ip
      | Some _ =>
          iunlockput dp ;;;
          i <- namei shadow_path ;;
          match i with
          | None => end_op ;;; ret (-1)
          | Some ip => load_table ip
          end
      end
  end.

Definition inituser : K Z := init_utable ;;; load_shadow.

Definition usercheck (username password : list Z) : K Z :=
  r <- mfor_ret (seq 0 NUM_USER) (fun i =>
    t <- gets k_utab ;;
    u <- str_equal (urow t i) username ;;
    if negb u then ret None
    else
      p <- str_equal (upass t i) password ;;
      ret (if (p : bool) then Some tt else None)) ;;
  ret (match r with Some _ => 1 | None => 0 end).

(** The slots whose name is [username], and the first with status 0. *)
Definition name_slot (username : list Z) : K (option nat) :=
  mfor_ret (seq 0 NUM_USER) (fun i =>
    t <- gets k_utab ;;
    u <- str_equal (urow t i) username ;;
    ret (if (u : bool) then Some i else None)).

Definition free_slot (t : list Z) : option nat :=
  fst <$> list_find (fun i => ustatus t i = 0) (seq 0 NUM_USER).

Definition strlen_or_ub (s : list Z) : K Z :=
  match strlen s with
  | Some n => ret n
  | None => halt (UB "strlen")
  end.

(** if(i == NUM_USER || strlen(username) > USER_FIELD/2 || ...): [None] to
    return -1; the tests of a negative length never hold. *)
Definition useradd_slot (username password : list Z) : K (option nat) :=
  t <- gets k_utab ;;
  match free_slot t with
  | None => ret None
  | Some i =>
      a <- strlen_or_ub username ;;
      if Z.of_nat (USER_FIELD / 2) <? a then ret None
      else
        b <- strlen_or_ub password ;;
        if Z.of_nat (USER_FIELD / 2) <? b then ret None else ret (Some i)
  end.

(** ilock(utable.ptr): ilock panics on the null pointer. *)
Definition uptr : K nat :=
  p <- gets k_uptr ;;
  match p with
  | Some ip => ret ip
  | None => panic "ilock"
  end.

(** The directory of a new user. *)
Definition user_dir (dp : nat) (username : list Z) : K unit :=
  f <- dirlookup dp username ;;
  match f with
  | Some _ => ret tt
  | None =>
      dev <- getinode dp idev ;;
      fp <- ialloc dev T_DIR ;;
      ilock dp ;;;
      ilock fp ;;;
      setinode fp (fun x => x <| imajor := 0 |> <| iminor := 0 |> <| inlink := 1 |>) ;;;
      set_userid fp username ;;;
      iupdate fp ;;;
      setinode dp (fun x => x <| inlink := i16 (inlink x + 1) |>) ;;;
      iupdate dp ;;;
      n <- getinode fp inum ;;
      m <- getinode dp inum ;;
      a <- dirlink fp (chars "." ++ [0]) n ;;
      b <- (if a <? 0 then ret a else dirlink fp (chars ".." ++ [0]) m) ;;
      (if b <? 0 then panic "error in load_shadow(): create dots" else ret tt) ;;;
      dirlink dp username n ;;;
      iupdate fp ;;;
      iupdate dp ;;;
      iunlockput fp ;;;
      iunlockput dp
  end.

(** The new entry of the table. *)
Definition add_user (i : nat) (username password : list Z) : K unit :=
  ustrcpy (USER_FIELD * i) username ;;;
  ustrcpy (USER_FIELD * i + USER_FIELD / 2) password ;;;
  modify (fun s => s <| k_utab := set_ustatus (k_utab s) i 1 |>).

Definition useradd (username password : list Z) : K Z :=
  p <- curproc ;;
  u <- getproc p userid ;;
  r <- str_equal u root_name ;;
  if negb r then ret (-1)
  else
    acquire lk_utable ;;;
    d <- name_slot username ;;
    match d with
    | Some _ => ret (-1)
    | None =>
        i <- useradd_slot username password ;;
        match i with
        | None => ret (-1)
        | Some i =>
            add_user i username password ;;;
            utemp <- gets (fun s => take sizeof_u (k_utab s)) ;;
            release lk_utable ;;;
            begin_op ;;;
            ip <- uptr ;;
            ilock ip ;;;
            w <- writei ip utemp 0 (Z.of_nat sizeof_u) ;;
            if w <? 0 then iunlock ip ;;; end_op ;;; ret (-1)
            else
              iunlock ip ;;;
              dp <- namei (chars "/" ++ [0]) ;;
              match dp with
              | None => ret (-1)
              | Some dp =>
                  user_dir dp username ;;;
                  end_op ;;;
                  ret 0
              end
        end
    end.

Definition userdel (username : list Z) : K Z :=
  p <- curproc ;;
  u <- getproc p userid ;;
  r <- str_equal u root_name ;;
  if negb r then ret (-1)
  else
    r <- str_equal username root_name ;;
    if (r : bool) then ret (-1)
    else
      acquire lk_utable ;;;
      d <- name_slot username ;;
      match d with
      | Some i =>
          modify (fun s => s <| k_utab := set_ustatus (clear_row (k_utab s) i) i 0 |>) ;;;
          utemp <- gets (fun s => take sizeof_u (k_utab s)) ;;
          release lk_utable ;;;
          begin_op ;;;
          ip <- uptr ;;
          ilock ip ;;;
          w <- writei ip utemp 0 (Z.of_nat sizeof_u) ;;
          if w <? 0 then end_op ;;; ret (-1)
          else
            iunlock ip ;;;
            end_op ;;;
            ret 0
      | None =>
          release lk_utable ;;;
          ret (-1)
      end.

Definition chmod (ip : nat) (m : Z) : K Z :=
  setinode ip (fun x => x <| imode := u32 m |>) ;;;
  iupdate ip ;;;
  ret 0.

Definition whoami (username : Z) : K Z :=
  p <- curproc ;;
  u <- getproc p userid ;;
  match cstr u with
  | Some l => ustores username (l ++ [0]) ;;; ret 0
  | None => halt (UB "strcpy")
  end.

(** ** The system calls *)

Definition sys_inituser : K Z := inituser.

Definition sys_usercheck : K Z :=
  with_arg (argstr 0) (fun u => with_arg (argstr 1) (fun p => usercheck u p)).

Definition sys_useradd : K Z :=
  with_arg (argstr 0) (fun u => with_arg (argstr 1) (fun p => useradd u p)).

Definition sys_userdel : K Z := with_arg (argstr 0) userdel.

Definition sys_fork2 : K Z := with_arg (argstr 0) fork2.

(** Whether the caller is root or owns [ip]. *)
Definition owns (ip : nat) : K bool :=
  p <- curproc ;;
  u <- getproc p userid ;;
  r <- str_equal u root_name ;;
  if (r : bool) then ret true
  else
    o <- getinode ip userid_bytes ;;
    str_equal u o.

Definition chmod_at (pathname : list Z) (m : Z) : K Z :=
  begin_op ;;;
  i <- namei pathname ;;
  match i with
  | None =>
      end_op ;;;
      cprintf "chmod: invalid path
" [] ;;;
      ret (-1)
  | Some ip =>
      ilock ip ;;;
      o <- owns ip ;;
      if negb o then
        cprintf "chmod: privilege error (only owner of the file or root!)
" [] ;;;
        iunlock ip ;;;
        end_op ;;;
        ret (-1)
      else
        t <- getinode ip itype ;;
        if t =? T_DEV then
          cprintf "chmod: cannot change T_DEV (e.g. console)
" [] ;;;
          iunlock ip ;;;
          end_op ;;;
          ret (-1)
        else
          r <- chmod ip m ;;
          iunlock ip ;;;
          end_op ;;;
          ret r
  end.

Definition sys_chmod : K Z :=
  with_arg (argstr 0) (fun pathname => with_arg (argint 1) (fun m => chmod_at pathname m)).

Definition sys_whoami : K Z :=
  with_arg (argstr_ptr 0) (fun a => whoami (fst a)).

(** ** The table as accounts *)

(** Every name and every password ends in its field. *)
Definition users_wf (t : list Z) : Prop :=
  length t = 360%nat /\ forall k, (k < 20)%nat -> is_Some (cstr (field t (16 * k))).

(** The name and the password of each slot. *)
Definition accounts (t : list Z) : list (list Z * list Z) :=
  (fun i => (default [] (cstr (field t (16 * (2 * i)))), default [] (cstr (field t (16 * (2 * i + 1)))))) <$>
    seq 0 NUM_USER.

Definition statuses (t : list Z) : list Z := ustatus t <$> seq 0 NUM_USER.

Lemma urow_field t i : urow t i = drop (16 * (2 * i)) t.
Proof. unfold urow, USER_FIELD. f_equal. lia. Qed.

Lemma upass_field t i : upass t i = drop (16 * (2 * i + 1)) t.
Proof. unfold upass, USER_FIELD. f_equal. simpl. lia. Qed.

(** The strings that the code compares. *)
Lemma field_strings t i :
  users_wf t -> (i < NUM_USER)%nat ->
  exists a, accounts t !! i = Some a /\ cstr (urow t i) = Some (fst a) /\ cstr (upass t i) = Some (snd a).
Proof.
  intros [_ Hf] Hi. unfold NUM_USER in Hi.
  destruct (Hf (2 * i)%nat ltac:(lia)) as [u Hu]. destruct (Hf (2 * i + 1)%nat ltac:(lia)) as [p Hp].
  exists (u, p). rewrite urow_field, upass_field. split_and!; [|by eapply cstr_take..].
  unfold accounts. rewrite list_lookup_fmap, lookup_seq_lt by (unfold NUM_USER; lia). simpl in *.
  by rewrite Hu, Hp.
Qed.

Lemma str_equal_ok a b x y s :
  cstr a = Some x -> cstr b = Some y -> str_equal a b s = Done (Ok (bool_decide (x = y))) s.
Proof.
  intros Ha Hb. destruct (strcmp_spec a b x y Ha Hb) as (r & Hr & Heq).
  unfold str_equal, same_user. rewrite Hr. unfold ret. do 2 f_equal.
  apply eq_iff_eq_true. by rewrite Z.eqb_eq, bool_decide_eq_true.
Qed.

(** A search that does not change the state finds the first match. *)
Lemma mfor_ret_pure {X R} (l : list X) (f : X -> K (option R)) (g : X -> option R) s :
  (forall x, x ∈ l -> f x s = Done (Ok (g x)) s) -> mfor_ret l f s = Done (Ok (head (omap g l))) s.
Proof.
  induction l as [|x l IH]; intros Hf; cbn [mfor_ret]; [done|].
  rewrite (bind_Done _ _ _ _ _ (Hf x ltac:(set_solver))). simpl. destruct (g x); [done|].
  apply IH. set_solver.
Qed.

Lemma head_omap_some {X R} (l : list X) (g : X -> option R) :
  is_Some (head (omap g l)) <-> exists x, x ∈ l /\ is_Some (g x).
Proof.
  induction l as [|x l IH]; simpl.
  - split; [by intros [??]|]. intros (x & Hx & _). set_solver.
  - destruct (g x) eqn:Hg; simpl.
    + split; [|done]. intros _. exists x. split; [set_solver|by rewrite Hg].
    + rewrite IH. split; intros (y & Hy & Hs).
      * exists y. split; [set_solver|done].
      * apply elem_of_cons in Hy as [->|Hy]; [by rewrite Hg in Hs; destruct Hs|by exists y].
Qed.

Lemma usercheck_ok username password u p s :
  users_wf (k_utab s) -> cstr username = Some u -> cstr password = Some p ->
  usercheck username password s =
    Done (Ok (if bool_decide ((u, p) ∈ accounts (k_utab s)) then 1 else 0)) s.
Proof.
  intros Hwf Hu Hp. unfold usercheck.
  erewrite bind_Done.
  2:{ apply (mfor_ret_pure _ _ (fun i => if bool_decide (accounts (k_utab s) !! i = Some (u, p)) then Some tt else None)).
      intros i [_ Hi]%elem_of_seq. rewrite bind_gets.
      destruct (field_strings (k_utab s) i Hwf ltac:(lia)) as ([u' p'] & Ha & Hu' & Hp').
      rewrite (bind_Done _ _ _ _ _ (str_equal_ok _ _ _ _ s Hu' Hu)), Ha. simpl.
      case_bool_decide as Heq; simpl.
      - rewrite (bind_Done _ _ _ _ _ (str_equal_ok _ _ _ _ s Hp' Hp)). simpl. unfold ret. do 2 f_equal. subst u'.
        rewrite (bool_decide_ext (Some (u, p') = Some (u, p)) (p' = p)); [done|naive_solver].
      - rewrite bool_decide_false by congruence. done. }
  match goal with |- context [head ?l] => set (h := head l) end.
  assert (is_Some h <-> (u, p) ∈ accounts (k_utab s)) as Hh.
  { unfold h. rewrite head_omap_some, list_elem_of_lookup. split.
    - intros (i & _ & Hi). exists i. case_bool_decide; [done|by destruct Hi].
    - intros [i Hi]. exists i. rewrite bool_decide_true by done. split; [|done].
      apply lookup_lt_Some in Hi. unfold accounts in Hi. rewrite length_fmap, length_seq in Hi.
      apply elem_of_seq. lia. }
  clearbody h. unfold ret. do 2 f_equal. destruct h as [[]|].
  - rewrite bool_decide_true; [done|by apply Hh].
  - rewrite bool_decide_false; [done|]. intros [??]%Hh. done.
Qed.

(** Usercheck() succeeds exactly for the name and password of a slot of the
    table, and changes nothing. *)
Theorem usercheck_spec username password u p s :
  users_wf (k_utab s) -> cstr username = Some u -> cstr password = Some p ->
  usercheck username password s =
    Done (Ok (if bool_decide ((u, p) ∈ accounts (k_utab s)) then 1 else 0)) s.
Proof. apply usercheck_ok. Qed.

(** ** Changing the table *)

Lemma ustrcpy_ok off src a s :
  cstr src = Some a -> (off + length a < length (k_utab s))%nat ->
  ustrcpy off src s = Done (Ok tt) (s <| k_utab := put_field (k_utab s) off a |>).
Proof.
  intros Ha Hlen. unfold ustrcpy. rewrite bind_gets. by rewrite (strcpy_at_ok _ _ _ a).
Qed.

Lemma set_ustatus_field t i v off :
  (off + 16 <= sizeof_u)%nat -> length t = 360%nat -> field (set_ustatus t i v) off = field t off.
Proof.
  intros Hoff Hlen. unfold sizeof_u, NUM_USER, USER_FIELD in *. apply field_ext; unfold set_ustatus.
  - apply length_le_store.
  - rewrite length_le_store. lia.
  - intros j Hj. apply aget_le_store_lt. unfold sizeof_u, NUM_USER, USER_FIELD. lia.
Qed.

Lemma field_put_ne t k l a :
  k <> l -> (length a < 16)%nat -> (k < 20)%nat -> (l < 20)%nat -> length t = 360%nat ->
  field (put_field t (16 * k) a) (16 * l) = field t (16 * l).
Proof.
  intros Hne Ha Hk Hl Hlen. assert (length (put_field t (16 * k) a) = 360%nat) as Hlen'
    by (by rewrite length_put_field by lia).
  apply field_ext; [congruence|lia|]. intros j Hj. apply put_field_out; lia.
Qed.

Lemma ustatus_put t off a i :
  (off + length a < sizeof_u)%nat -> length t = 360%nat -> ustatus (put_field t off a) i = ustatus t i.
Proof.
  intros Hoff Hlen. unfold ustatus. f_equal. apply le_load_ext. intros j Hj.
  unfold sizeof_u, NUM_USER, USER_FIELD in *. apply put_field_out; lia.
Qed.

Lemma ustatus_set t i j v :
  length t = 360%nat -> (i < NUM_USER)%nat -> (j < NUM_USER)%nat -> - 2 ^ 31 <= v < 2 ^ 31 ->
  ustatus (set_ustatus t i v) j = if decide (i = j) then v else ustatus t j.
Proof.
  intros Hlen Hi Hj Hv. unfold NUM_USER in *. unfold ustatus, set_ustatus, sizeof_u, NUM_USER, USER_FIELD.
  case_decide as Hij; [subst j|].
  - rewrite le_load_store by lia. unfold i32. change (256 ^ Z.of_nat 4) with (2 ^ 32).
    rewrite Zplus_mod_idemp_l, Z.mod_small by lia. lia.
  - by rewrite le_load_store_ne by lia.
Qed.

(** Updating a table indexed by the slots. *)
Lemma list_fmap_insert_seq {A} (f : nat -> A) i v n :
  (fun j => if decide (j = i) then v else f j) <$> seq 0 n = <[i := v]> (f <$> seq 0 n).
Proof.
  apply list_eq. intros j. rewrite list_lookup_fmap, list_lookup_insert, list_lookup_fmap, length_fmap, length_seq.
  destruct (decide (j < n)%nat) as [Hj|Hj].
  - rewrite lookup_seq_lt by done. simpl. destruct (decide (j = i)) as [->|]; repeat case_decide; naive_solver.
  - rewrite lookup_seq_ge by lia. simpl. case_decide; [lia|done].
Qed.

(** The table of useradd when name and password fit their fields. *)
Lemma add_user_ok i username password u p s :
  users_wf (k_utab s) -> (i < NUM_USER)%nat -> cstr username = Some u -> cstr password = Some p ->
  (length u < 16)%nat -> (length p < 16)%nat ->
  exists t, add_user i username password s = Done (Ok tt) (s <| k_utab := t |>) /\ users_wf t /\
    accounts t = <[i := (u, p)]> (accounts (k_utab s)) /\ statuses t = <[i := 1]> (statuses (k_utab s)).
Proof.
  intros [Hlen Hf] Hi Hu Hp Hul Hpl. set (t := k_utab s) in *. unfold NUM_USER in Hi.
  assert (Forall (fun c => c <> 0) u) as Hun by (by apply cstr_spec in Hu as [? _]).
  assert (Forall (fun c => c <> 0) p) as Hpn by (by apply cstr_spec in Hp as [? _]).
  set (t1 := put_field t (16 * (2 * i)) u). set (t2 := put_field t1 (16 * (2 * i + 1)) p).
  assert (length t1 = 360%nat) as Hl1 by (unfold t1; by rewrite length_put_field by lia).
  assert (length t2 = 360%nat) as Hl2 by (unfold t2; by rewrite length_put_field by lia).
  set (t3 := set_ustatus t2 i 1).
  assert (length t3 = 360%nat) as Hl3 by (unfold t3, set_ustatus; by rewrite length_le_store).
  assert (forall k, (k < 20)%nat -> cstr (field t3 (16 * k)) =
    if decide (k = 2 * i + 1)%nat then Some p else if decide (k = 2 * i)%nat then Some u
    else cstr (field t (16 * k))) as Hfield.
  { intros k Hk. unfold t3. rewrite set_ustatus_field by (done || unfold sizeof_u, NUM_USER, USER_FIELD; lia).
    case_decide as H1; [subst k; apply field_put_eq; [done|done|lia]|]. unfold t2.
    rewrite field_put_ne by (done || lia).
    case_decide as H2; [subst k; apply field_put_eq; [done|done|lia]|]. unfold t1.
    by rewrite field_put_ne by (done || lia). }
  exists t3. split_and!.
  - unfold add_user, USER_FIELD. replace (32 * i)%nat with (16 * (2 * i))%nat by lia.
    replace (16 * (2 * i) + 32 / 2)%nat with (16 * (2 * i + 1))%nat by (simpl; lia).
    assert (16 * (2 * i) + length u < length (k_utab s))%nat as H1 by (fold t; lia).
    rewrite (bind_Done _ _ _ _ _ (ustrcpy_ok _ _ u s Hu H1)). fold t t1.
    assert (16 * (2 * i + 1) + length p < length (k_utab (s <| k_utab := t1 |>)))%nat as H2 by (simpl; lia).
    by rewrite (bind_Done _ _ _ _ _ (ustrcpy_ok _ _ p _ Hp H2)).
  - split; [done|]. intros k Hk. rewrite Hfield by done. repeat case_decide; by eauto.
  - unfold accounts. rewrite <- list_fmap_insert_seq with (v := (u, p)).
    apply list_fmap_ext. intros j k [-> Hj]%lookup_seq. unfold NUM_USER in Hj. cbv beta. rewrite !Nat.add_0_l.
    rewrite !Hfield by lia. destruct (decide (j = i)) as [->|Hne].
    + by rewrite decide_False, !decide_True by lia.
    + rewrite !decide_False by lia. done.
  - unfold statuses. rewrite <- list_fmap_insert_seq with (v := 1).
    apply list_fmap_ext. intros j k [-> Hj]%lookup_seq. unfold NUM_USER in Hj. cbv beta. rewrite !Nat.add_0_l.
    unfold t3. rewrite ustatus_set by (done || unfold NUM_USER; lia). destruct (decide (j = i)) as [->|Hne].
    + by rewrite decide_True.
    + rewrite decide_False by done. unfold t2, t1.
      rewrite !ustatus_put by (done || unfold sizeof_u, NUM_USER, USER_FIELD; lia). done.
Qed.

(** A user that useradd() enters can log in, and nobody else is affected.
    With name and password of less than 16 characters the entry of the table
    is written without touching another field: the slot gets exactly that
    account and status 1, every other account and status stays, the table is
    still well formed, and usercheck() accepts the new name and password. *)
Theorem useradd_login i username password u p s :
  users_wf (k_utab s) -> (i < NUM_USER)%nat -> cstr username = Some u -> cstr password = Some p ->
  (length u < 16)%nat -> (length p < 16)%nat ->
  exists t, add_user i username password s = Done (Ok tt) t /\ users_wf (k_utab t) /\
    accounts (k_utab t) = <[i := (u, p)]> (accounts (k_utab s)) /\
    statuses (k_utab t) = <[i := 1]> (statuses (k_utab s)) /\
    usercheck username password t = Done (Ok 1) t.
Proof.
  intros Hwf Hi Hu Hp Hul Hpl.
  destruct (add_user_ok i username password u p s) as (t & Ht & Hwt & Ha & Hst); try done.
  exists (s <| k_utab := t |>). split_and!; try done.
  rewrite (usercheck_ok _ _ u p) by done. rewrite bool_decide_true; [done|]. simpl. rewrite Ha.
  apply list_elem_of_lookup. exists i. apply list_lookup_insert_eq.
  unfold accounts. by rewrite length_fmap, length_seq.
Qed.

Lemma name_slot_ok username u s :
  users_wf (k_utab s) -> cstr username = Some u ->
  exists r, name_slot username s = Done (Ok r) s /\
    (is_Some r <-> exists i a, accounts (k_utab s) !! i = Some a /\ fst a = u).
Proof.
  intros Hwf Hu. unfold name_slot.
  set (g := fun i => if bool_decide (fst <$> accounts (k_utab s) !! i = Some u) then Some i else None).
  exists (head (omap g (seq 0 NUM_USER))). split.
  - apply mfor_ret_pure. intros i [_ Hi]%elem_of_seq. rewrite bind_gets.
    destruct (field_strings (k_utab s) i Hwf ltac:(lia)) as ([u' p'] & Ha & Hu' & _).
    rewrite (bind_Done _ _ _ _ _ (str_equal_ok _ _ _ _ s Hu' Hu)). unfold ret, g. rewrite Ha. simpl.
    by rewrite (bool_decide_ext (Some u' = Some u) (u' = u)) by naive_solver.
  - rewrite head_omap_some. unfold g. split.
    + intros (i & _ & Hi). case_bool_decide as Hb; [|by destruct Hi].
      destruct (accounts (k_utab s) !! i) as [a|] eqn:Ha; simplify_eq/=. by exists i, a.
    + intros (i & a & Ha & <-). exists i. rewrite Ha, bool_decide_true by done. split; [|done].
      apply lookup_lt_Some in Ha. unfold accounts in Ha. rewrite length_fmap, length_seq in Ha.
      apply elem_of_seq. lia.
Qed.

(** Run by root. *)
Definition as_root (p : nat) (s : kstate) : Prop :=
  quiet p s /\ cstr (userid (pget s p)) = Some (chars "root").

Lemma root_test {A} p s (m1 m2 : K A) :
  calm s -> cproc (thiscpu s) = Some p -> cstr (userid (pget s p)) = Some (chars "root") ->
  (p <- curproc ;; u <- getproc p userid ;; r <- str_equal u root_name ;; if negb r then m1 else m2) s = m2 s.
Proof.
  intros Hc Hp Hu. rewrite (bind_Done _ _ _ _ _ (curproc_ok s p Hc Hp)). unfold getproc. rewrite bind_gets.
  by rewrite (bind_Done _ _ _ _ _ (str_equal_ok _ root_name _ _ s Hu eq_refl)).
Qed.

(** When useradd() refuses a name that is taken, it returns -1 with
    utable.lock held: the next useradd() of root on that CPU panics in
    acquire(). *)
Theorem useradd_dup_wedges p username password u i a s :
  as_root p s -> users_wf (k_utab s) -> cstr username = Some u ->
  accounts (k_utab s) !! i = Some a -> fst a = u ->
  exists t, useradd username password s = Done (Ok (-1)) t /\ lock_held t lk_utable /\
    forall username' password', exists t', useradd username' password' t = Done (Stop (Panic "acquire")) t'.
Proof.
  intros [Hq Hr] Hwf Hu Ha Hau. pose proof Hq as (Hc & Hp & _).
  assert (lock_free s lk_utable) as Hl by (eapply quiet_free; [done|by apply static_fixed; set_solver]).
  destruct (calm_acquired s lk_utable Hc) as (Hca & Hia & Hna).
  exists (acquired lk_utable s). split_and!.
  - unfold useradd. rewrite (root_test p) by done.
    rewrite (bind_Done _ _ _ _ _ (acquire_calm s _ Hc Hl)).
    destruct (name_slot_ok username u (acquired lk_utable s) Hwf Hu) as (r & Hn & Hsome).
    rewrite (bind_Done _ _ _ _ _ Hn). destruct r; [done|].
    destruct (proj2 Hsome) as [??]; [by exists i, a|done].
  - apply acquired_held.
  - intros username' password'. unfold useradd.
    rewrite (root_test p); [|done|by rewrite cproc_acquired by apply Hc|done].
    eexists. apply bind_Stop. apply acquire_held; [apply Hca|done|done|apply acquired_held].
Qed.

(** ** Instances *)

Definition pad (n : nat) (l : list Z) : list Z := l ++ replicate (n - length l) 0.

(** A table whose slot 0 is root, with password 1234. *)
Definition root_only : list Z :=
  pad 16 (chars "root") ++ pad 16 (chars "1234") ++ replicate 288 0 ++ [1; 0; 0; 0] ++ replicate 36 0.

(** Slots 0 to 8 are taken. *)
Definition nearly_full : list Z :=
  pad 16 (chars "root") ++ pad 16 (chars "1234") ++
  concat ((fun i => pad 32 [97 + Z.of_nat i]) <$> seq 0 8) ++ replicate 32 0 ++
  concat (replicate 9 [1; 0; 0; 0]) ++ replicate 4 0.

Definition root_shell (t : list Z) : kstate :=
  (idle ∅) <| k_utab := t |>
    <| k_proc ::= alter (fun p => p <| userid := pad 16 (chars "root") |>) 1%nat |>.

Definition users_check (t : list Z) : bool :=
  (length t =? 360)%nat &&
  forallb (fun k => match cstr (field t (16 * k)) with Some _ => true | None => false end) (seq 0 20).

Lemma users_check_ok t : users_check t = true -> users_wf t.
Proof.
  unfold users_check. intros [Hl%Nat.eqb_eq Hf]%andb_true_iff. split; [done|]. intros k Hk.
  rewrite forallb_forall in Hf. specialize (Hf k). rewrite <- list_elem_of_In, elem_of_seq in Hf.
  specialize (Hf ltac:(lia)). by destruct (cstr (field t (16 * k))).
Qed.

Lemma as_root_shell t : as_root 1 (root_shell t).
Proof. split; [apply quiet_check_ok; by vm_compute|by vm_compute]. Qed.

Lemma usercheck_spec_witness :
  usercheck (chars "root" ++ [0]) (chars "1234" ++ [0]) (root_shell root_only) =
    Done (Ok 1) (root_shell root_only).
Proof.
  pose proof (usercheck_spec (chars "root" ++ [0]) (chars "1234" ++ [0]) (chars "root") (chars "1234")
    (root_shell root_only) (users_check_ok root_only eq_refl) eq_refl eq_refl) as H.
  rewrite bool_decide_true in H; [exact H|]. apply (list_elem_of_lookup_2 _ 0). by vm_compute.
Defined.

Lemma useradd_login_witness :
  exists t, add_user 1 (chars "kim" ++ [0]) (chars "pw" ++ [0]) (root_shell root_only) = Done (Ok tt) t /\
    usercheck (chars "kim" ++ [0]) (chars "pw" ++ [0]) t = Done (Ok 1) t.
Proof.
  destruct (useradd_login 1 (chars "kim" ++ [0]) (chars "pw" ++ [0]) (chars "kim") (chars "pw")
    (root_shell root_only)) as (t & H1 & _ & _ & _ & H2);
    [apply users_check_ok; by vm_compute|vm_compute; lia|done|done|simpl; lia|simpl; lia|by exists t].
Defined.

Lemma useradd_dup_wedges_witness :
  exists t, useradd (chars "root" ++ [0]) (chars "x" ++ [0]) (root_shell root_only) = Done (Ok (-1)) t /\
    lock_held t lk_utable.
Proof.
  destruct (useradd_dup_wedges 1 (chars "root" ++ [0]) (chars "x" ++ [0]) (chars "root") 0
    (chars "root", chars "1234") (root_shell root_only)) as (t & H1 & H2 & _);
    [apply as_root_shell|apply users_check_ok; by vm_compute|done|by vm_compute|done|by exists t].
Defined.

(** The test of useradd() on the lengths lets 16 characters through, which
    leaves no room for the NUL.  A password of 16 characters in the last slot
    puts its NUL into status[0] and frees the slot of root: the next useradd()
    takes slot 0.  A name of 16 characters runs into the password, and the user
    that was added cannot log in. *)
Theorem useradd_overlong :
  (let s := root_shell nearly_full in
   let pw := chars "0123456789abcdef" ++ [0] in
   ustatus nearly_full 0 = 1 /\
   result (useradd_slot (chars "kim" ++ [0]) pw) s = Some (Some 9%nat) /\
   result (add_user 9 (chars "kim" ++ [0]) pw ;;; gets (fun t => free_slot (k_utab t))) s =
     Some (Some 0%nat)) /\
  (let s := root_shell root_only in
   let name := chars "0123456789abcdef" ++ [0] in
   result (useradd_slot name (chars "pw" ++ [0])) s = Some (Some 1%nat) /\
   result (add_user 1 name (chars "pw" ++ [0]) ;;; usercheck name (chars "pw" ++ [0])) s = Some 0).
Proof. cbv zeta. split_and!; vm_compute; reflexivity. Qed.
