(* ===== verification/Sysfile.v ===== *)
(** * File system calls (sysfile.c) *)

From S2P Require Import Prelude Cstring Kernel Spinlock ProcCore Vm Bio Quiet Cache Log Crash Txn Inode Fs Pipe File Proc Sysarg Exec Users.

(** ** File descriptors *)

(** argfd: the descriptor and the file, [None] for -1. *)
Definition argfd (n : Z) : K (option (nat * nat)) :=
  a <- argint n ;;
  match a with
  | None => ret None
  | Some fd =>
      if (fd <? 0) || (Z.of_nat NOFILE <=? fd) then ret None
      else
        p <- curproc ;;
        f <- get_ofile p (idx fd) ;;
        ret (pair (idx fd) <$> f)
  end.

Definition free_fd (l : list (option nat)) : option nat :=
  fst <$> list_find (fun fd => aget l fd = None) (seq 0 NOFILE).

(** fdalloc: [None] for -1. *)
Definition fdalloc (f : nat) : K (option nat) :=
  p <- curproc ;;
  r <- getproc p (fun x => free_fd (ofile x)) ;;
  match r with
  | Some fd => set_ofile p fd (Some f) ;;; ret (Some fd)
  | None => ret None
  end.

Definition sys_dup : K Z :=
  with_arg (argfd 0) (fun a =>
  with_arg (fdalloc (snd a)) (fun fd =>
    filedup (snd a) ;;; ret (Z.of_nat fd))).

Definition sys_read : K Z :=
  with_arg (argfd 0) (fun a =>
  with_arg (argint 2) (fun n =>
  with_arg (argptr 1 n) (fun p =>
    r <- fileread (snd a) n ;;
    ustores p (snd r) ;;;
    ret (fst r)))).

Definition sys_write : K Z :=
  with_arg (argfd 0) (fun a =>
  with_arg (argint 2) (fun n =>
  with_arg (argptr 1 n) (fun p =>
    l <- uloads p (idx n) ;;
    filewrite (snd a) l n))).

Definition sys_close : K Z :=
  with_arg (argfd 0) (fun a =>
    p <- curproc ;;
    set_ofile p (fst a) None ;;;
    fileclose (snd a) ;;;
    ret 0).

(** The bytes of struct stat; padding is left as it is. *)
Definition sizeof_stat : Z := 40.

Definition put_stat (d : list Z) (st : stat) : list Z :=
  let d := le_store 2 d 0 (st_type st) in
  let d := le_store 4 d 4 (st_dev st) in
  let d := le_store 4 d 8 (st_ino st) in
  let d := le_store 2 d 12 (st_nlink st) in
  let d := le_store 4 d 16 (st_size st) in
  let d := take 20 d ++ st_userid st ++ drop 36 d in
  le_store 4 d 36 (st_mode st).

Definition sys_fstat : K Z :=
  with_arg (argfd 0) (fun a =>
  with_arg (argptr 1 sizeof_stat) (fun p =>
    r <- filestat (snd a) ;;
    match snd r with
    | Some st => d <- uloads p (idx sizeof_stat) ;; ustores p (put_stat d st)
    | None => ret tt
    end ;;;
    ret (fst r))).

(** ** link and unlink *)

Definition add_nlink (ip : nat) (d : Z) : K unit :=
  setinode ip (fun x => x <| inlink := i16 (inlink x + d) |>) ;;;
  iupdate ip.

Definition link_bad (ip : nat) : K Z :=
  ilock ip ;;;
  add_nlink ip (-1) ;;;
  iunlockput ip ;;;
  end_op ;;;
  ret (-1).

Definition link (old new : list Z) : K Z :=
  begin_op ;;;
  i <- namei old ;;
  match i with
  | None => end_op ;;; ret (-1)
  | Some ip =>
      ilock ip ;;;
      t <- getinode ip itype ;;
      if t =? T_DIR then iunlockput ip ;;; end_op ;;; ret (-1)
      else
        add_nlink ip 1 ;;;
        iunlock ip ;;;
        r <- nameiparent new ;;
        let '(d, name) := r in
        match d with
        | None => link_bad ip
        | Some dp =>
            ilock dp ;;;
            dd <- getinode dp idev ;;
            di <- getinode ip idev ;;
            n <- getinode ip inum ;;
            e <- (if negb (dd =? di) then ret (-1) else dirlink dp name n) ;;
            if e <? 0 then iunlockput dp ;;; link_bad ip
            else
              iunlockput dp ;;;
              iput ip ;;;
              end_op ;;;
              ret 0
        end
  end.

Definition sys_link : K Z :=
  with_arg (argstr 0) (fun old => with_arg (argstr 1) (fun new => link old new)).

(** for(off=2*sizeof(de); off<dp->size; off+=sizeof(de)) *)
Fixpoint dirempty_loop (fuel : nat) (dp : nat) (off : Z) : K bool :=
  size <- getinode dp isize ;;
  if negb (off <? size) then ret true
  else
    match fuel with
    | O => halt (Hang "isdirempty")
    | S fuel' =>
        r <- readi dp off sizeof_dirent ;;
        let '(got, de) := r in
        if negb (got =? sizeof_dirent) then panic "isdirempty: readi"
        else if negb (de_inum de =? 0) then ret false
        else dirempty_loop fuel' dp (off + sizeof_dirent)
    end.

Definition isdirempty (dp : nat) : K bool :=
  size <- getinode dp isize ;;
  dirempty_loop (S (idx (size / sizeof_dirent))) dp (2 * sizeof_dirent).

Definition unlink_bad (dp : nat) : K Z :=
  iunlockput dp ;;;
  end_op ;;;
  ret (-1).

(** namecmp(a, b) == 0 *)
Definition same_name (a b : list Z) : K bool :=
  match namecmp a b with
  | Some r => ret (r =? 0)
  | None => halt (UB "strncmp")
  end.

Definition unlink (path : list Z) : K Z :=
  begin_op ;;;
  r <- nameiparent path ;;
  let '(d, name) := r in
  match d with
  | None => end_op ;;; ret (-1)
  | Some dp =>
      ilock dp ;;;
      ok <- allowed MODE_WUSR MODE_WOTH dp ;;
      if negb ok then unlink_bad dp
      else
        d1 <- same_name name (chars "." ++ [0]) ;;
        d2 <- (if (d1 : bool) then ret true else same_name name (chars ".." ++ [0])) ;;
        if (d2 : bool) then unlink_bad dp
        else
          f <- dirlookup dp name ;;
          match f with
          | None => unlink_bad dp
          | Some (ip, off) =>
              ilock ip ;;;
              l <- getinode ip inlink ;;
              if l <? 1 then panic "unlink: nlink < 1"
              else
                t <- getinode ip itype ;;
                e <- (if t =? T_DIR then isdirempty ip else ret true) ;;
                if negb e then iunlockput ip ;;; unlink_bad dp
                else
                  w <- writei dp (replicate (idx sizeof_dirent) 0) off sizeof_dirent ;;
                  if negb (w =? sizeof_dirent) then panic "unlink: writei"
                  else
                    (if t =? T_DIR then add_nlink dp (-1) else ret tt) ;;;
                    iunlockput dp ;;;
                    add_nlink ip (-1) ;;;
                    iunlockput ip ;;;
                    end_op ;;;
                    ret 0
          end
  end.

Definition sys_unlink : K Z := with_arg (argstr 0) unlink.

(** ** create and open *)

(** if(permission denied){ iunlockput(ip); end_op(); return 0; } *)
Definition create_denied (ip : nat) : K (option nat) :=
  iunlockput ip ;;;
  end_op ;;;
  ret None.

(** create, when the name is new in [dp]. *)
Definition create_new (dp : nat) (name : list Z) (type major minor : Z) : K (option nat) :=
  dev <- getinode dp idev ;;
  ip <- ialloc dev type ;;
  ilock ip ;;;
  setinode ip (fun x => x <| imajor := major |> <| iminor := minor |> <| inlink := 1 |>) ;;;
  p <- curproc ;;
  u <- getproc p userid ;;
  set_userid ip u ;;;
  iupdate ip ;;;
  n <- getinode ip inum ;;
  (if type =? T_DIR then
    add_nlink dp 1 ;;;
    m <- getinode dp inum ;;
    a <- dirlink ip (chars "." ++ [0]) n ;;
    b <- (if a <? 0 then ret a else dirlink ip (chars ".." ++ [0]) m) ;;
    if b <? 0 then panic "create dots" else ret tt
   else ret tt) ;;;
  e <- dirlink dp name n ;;
  if e <? 0 then panic "create: dirlink"
  else
    iunlockput dp ;;;
    ret (Some ip).

Definition create (path : list Z) (type major minor : Z) : K (option nat) :=
  r <- nameiparent path ;;
  let '(d, name) := r in
  match d with
  | None => ret None
  | Some dp =>
      ilock dp ;;;
      f <- dirlookup dp name ;;
      match f with
      | Some (ip, _) =>
          iunlockput dp ;;;
          ilock ip ;;;
          ok <- allowed MODE_WUSR MODE_WOTH ip ;;
          if negb ok then create_denied ip
          else
            t <- getinode ip itype ;;
            if (type =? T_FILE) && (t =? T_FILE) then ret (Some ip)
            else iunlockput ip ;;; ret None
      | None =>
          ok <- allowed MODE_WUSR MODE_WOTH dp ;;
          if negb ok then create_denied dp
          else create_new dp name type major minor
      end
  end.

Definition O_RDONLY : Z := 0.

Definition O_WRONLY : Z := 1.

Definition O_RDWR : Z := 2.

Definition O_CREATE : Z := 512.

Definition has (omode flag : Z) : bool := negb (Z.land omode flag =? 0).

(** The permission test of open for an existing file. *)
Definition may_open (omode : Z) (ip : nat) : K bool :=
  if omode =? O_RDONLY then allowed MODE_RUSR MODE_ROTH ip
  else if omode =? O_WRONLY then allowed MODE_WUSR MODE_WOTH ip
  else if omode =? O_RDWR then
    w <- allowed MODE_WUSR MODE_WOTH ip ;;
    if negb w then ret false else allowed MODE_RUSR MODE_ROTH ip
  else ret true.

(** The inode to open, locked, or [None] after the failure's clean-up. *)
Definition open_inode (path : list Z) (omode : Z) : K (option nat) :=
  if has omode O_CREATE then
    i <- create path T_FILE 0 0 ;;
    match i with
    | None => end_op ;;; ret None
    | Some ip => ret (Some ip)
    end
  else
    i <- namei path ;;
    match i with
    | None => end_op ;;; ret None
    | Some ip =>
        ilock ip ;;;
        ok <- may_open omode ip ;;
        if negb ok then iunlockput ip ;;; end_op ;;; ret None
        else
          t <- getinode ip itype ;;
          if (t =? T_DIR) && negb (omode =? O_RDONLY) then iunlockput ip ;;; end_op ;;; ret None
          else ret (Some ip)
    end.

(** The file structure that open fills in. *)
Definition opened (ip : nat) (omode : Z) (x : file) : file :=
  x <| ftype := FD_INODE |> <| fip := Some ip |> <| foff := 0 |>
    <| readable := negb (has omode O_WRONLY) |>
    <| writable := has omode O_WRONLY || has omode O_RDWR |>.

Definition open_fail (f : option nat) (ip : nat) : K Z :=
  match f with Some f => fileclose f | None => ret tt end ;;;
  iunlockput ip ;;;
  end_op ;;;
  ret (-1).

Definition open (path : list Z) (omode : Z) : K Z :=
  begin_op ;;;
  i <- open_inode path omode ;;
  match i with
  | None => ret (-1)
  | Some ip =>
      f <- filealloc ;;
      match f with
      | None => open_fail None ip
      | Some f =>
          fd <- fdalloc f ;;
          match fd with
          | None => open_fail (Some f) ip
          | Some fd =>
              iunlock ip ;;;
              end_op ;;;
              setfile f (opened ip omode) ;;;
              ret (Z.of_nat fd)
          end
      end
  end.

Definition sys_open : K Z :=
  with_arg (argstr 0) (fun path => with_arg (argint 1) (fun omode => open path omode)).

(** ** mkdir, mknod, chdir *)

(** begin_op, the arguments, create, and the two ways out. *)
Definition make (arg : K (option (list Z * Z * Z))) (type : Z) : K Z :=
  begin_op ;;;
  a <- arg ;;
  i <- match a with
       | Some (path, major, minor) => create path type (i16 major) (i16 minor)
       | None => ret None
       end ;;
  match i with
  | None => end_op ;;; ret (-1)
  | Some ip =>
      iunlockput ip ;;;
      end_op ;;;
      ret 0
  end.

Definition sys_mkdir : K Z :=
  make (a <- argstr 0 ;; ret ((fun p => (p, 0, 0)) <$> a)) T_DIR.

Definition sys_mknod : K Z :=
  make (a <- argstr 0 ;;
        match a with
        | None => ret None
        | Some path =>
            b <- argint 1 ;;
            match b with
            | None => ret None
            | Some major => c <- argint 2 ;; ret (pair (path, major) <$> c)
            end
        end) T_DEV.

Definition chdir (path : option (list Z)) : K Z :=
  p <- curproc ;;
  i <- match path with Some path => namei path | None => ret None end ;;
  match i with
  | None => end_op ;;; ret (-1)
  | Some ip =>
      ilock ip ;;;
      ok <- allowed MODE_XUSR MODE_XOTH ip ;;
      if negb ok then iunlockput ip ;;; end_op ;;; ret (-1)
      else
        t <- getinode ip itype ;;
        if negb (t =? T_DIR) then iunlockput ip ;;; end_op ;;; ret (-1)
        else
          iunlock ip ;;;
          c <- getproc p cwd ;;
          match c with Some d => iput d | None => halt (UB "cwd") end ;;;
          end_op ;;;
          setproc p (fun x => x <| cwd := Some ip |>) ;;;
          ret 0
  end.

Definition sys_chdir : K Z :=
  begin_op ;;;
  a <- argstr 0 ;;
  chdir a.

(** ** exec and pipe *)

(** The loop that fetches argv: [None] for return -1. *)
Fixpoint fetch_argv (n : nat) (a : Z) : K (option (list (list Z))) :=
  match n with
  | O => ret None
  | S n' =>
      u <- fetchint (u32 a) ;;
      match u with
      | None => ret None
      | Some 0 => ret (Some [])
      | Some u =>
          s <- fetchstr (u32 u) ;;
          match s with
          | None => ret None
          | Some s => r <- fetch_argv n' (a + 4) ;; ret (cons s <$> r)
          end
      end
  end.

Definition sys_exec : K Z :=
  with_arg (argstr 0) (fun path =>
  with_arg (argint 1) (fun uargv =>
  with_arg (fetch_argv MAXARG uargv) (fun argv => exec path argv))).

Definition sys_exec2 : K Z :=
  with_arg (argstr 0) (fun path =>
  with_arg (argint 1) (fun uargv =>
  with_arg (argint 2) (fun stacksize =>
  with_arg (fetch_argv MAXARG uargv) (fun argv => exec2 path argv stacksize)))).

Definition pipe_undo (rf wf : nat) : K Z :=
  fileclose rf ;;;
  fileclose wf ;;;
  ret (-1).

Definition sys_pipe : K Z :=
  with_arg (argptr 0 8) (fun fd =>
  with_arg pipealloc (fun a =>
    let '(rf, wf) := a in
    p <- curproc ;;
    fd0 <- fdalloc rf ;;
    match fd0 with
    | None => pipe_undo rf wf
    | Some fd0 =>
        fd1 <- fdalloc wf ;;
        match fd1 with
        | None => set_ofile p fd0 None ;;; pipe_undo rf wf
        | Some fd1 =>
            ustores fd (le_store 4 [0; 0; 0; 0] 0 (Z.of_nat fd0)) ;;;
            ustores (fd + 4) (le_store 4 [0; 0; 0; 0] 0 (Z.of_nat fd1)) ;;;
            ret 0
        end
    end)).

(** ** Opening files *)

(** What the mode of the inode gives the caller. *)
Definition granted (u o : list Z) (mode usr oth : Z) : bool :=
  negb (Z.land mode (if bool_decide (u = chars "root" \/ u = o) then usr else oth) =? 0).

(** open() with one of its three modes. *)
Lemma may_open_modes omode ip p u o s x :
  calm s -> cproc (thiscpu s) = Some p -> cstr (userid (pget s p)) = Some u ->
  cstr (userid_bytes (iget_ s ip)) = Some o -> omode = O_RDONLY \/ omode = O_WRONLY \/ omode = O_RDWR ->
  let mode := imode (iget_ s ip) in
  may_open omode ip s =
    Done (Ok (implb (readable (opened ip omode x)) (granted u o mode MODE_RUSR MODE_ROTH) &&
              implb (writable (opened ip omode x)) (granted u o mode MODE_WUSR MODE_WOTH))) s.
Proof.
  intros Hc Hp Hu Ho Hm mode.
  pose proof (fun usr oth => allowed_ok usr oth ip p u o s Hc Hp Hu Ho) as Ha.
  unfold granted, mode. destruct Hm as [-> | [-> | ->]].
  - change (may_open O_RDONLY ip) with (allowed MODE_RUSR MODE_ROTH ip). rewrite Ha.
    by rewrite andb_true_r.
  - change (may_open O_WRONLY ip) with (allowed MODE_WUSR MODE_WOTH ip). by rewrite Ha.
  - change (may_open O_RDWR ip) with
      (w <- allowed MODE_WUSR MODE_WOTH ip ;; if negb w then ret false else allowed MODE_RUSR MODE_ROTH ip).
    rewrite (bind_Done _ _ _ _ _ (Ha _ _)). cbn [readable writable opened].
    destruct (negb (Z.land (imode (iget_ s ip)) _ =? 0)) eqn:E; cbn [negb].
    + rewrite Ha. by rewrite andb_true_r.
    + by rewrite andb_false_r.
Qed.

(** C39: for the three modes O_RDONLY, O_WRONLY and O_RDWR, open() of an existing
    file lets the caller through exactly if the mode bits grant what the new
    descriptor could do: reading if it is readable, writing if it is writable,
    by the owner's bits for root and the owner and by the others' bits for
    everybody else.  Any other mode passes unchecked, and may give a descriptor
    that can be written: open(path, 3) does. *)
Theorem may_open_exact omode ip p u o s x :
  calm s -> cproc (thiscpu s) = Some p -> cstr (userid (pget s p)) = Some u ->
  cstr (userid_bytes (iget_ s ip)) = Some o ->
  let mode := imode (iget_ s ip) in
  (omode = O_RDONLY \/ omode = O_WRONLY \/ omode = O_RDWR ->
   may_open omode ip s =
     Done (Ok (implb (readable (opened ip omode x)) (granted u o mode MODE_RUSR MODE_ROTH) &&
               implb (writable (opened ip omode x)) (granted u o mode MODE_WUSR MODE_WOTH))) s) /\
  (omode <> O_RDONLY -> omode <> O_WRONLY -> omode <> O_RDWR -> may_open omode ip s = Done (Ok true) s) /\
  has 3 O_CREATE = false /\ writable (opened ip 3 x) = true.
Proof.
  intros Hc Hp Hu Ho mode. split; [by eapply may_open_modes|split; [|done]].
  intros H0%Z.eqb_neq H1%Z.eqb_neq H2%Z.eqb_neq. unfold may_open. by rewrite H0, H1, H2.
Qed.

(** Fdalloc() gives the lowest free descriptor of the calling process and
    changes nothing but that entry; with all NOFILE descriptors in use it fails
    and changes nothing. *)
Theorem fdalloc_lowest f p s :
  calm s -> cproc (thiscpu s) = Some p -> (p < length (k_proc s))%nat ->
  length (ofile (pget s p)) = NOFILE ->
  match free_fd (ofile (pget s p)) with
  | Some fd => exists t, fdalloc f s = Done (Ok (Some fd)) t /\ (fd < NOFILE)%nat /\
      ofile (pget s p) !! fd = Some None /\
      (forall k, (k < fd)%nat -> exists g, ofile (pget s p) !! k = Some (Some g)) /\
      ofile (pget t p) = <[fd := Some f]> (ofile (pget s p)) /\
      (forall q, q <> p -> pget t q = pget s q)
  | None => fdalloc f s = Done (Ok None) s /\
      forall k, (k < NOFILE)%nat -> exists g, ofile (pget s p) !! k = Some (Some g)
  end.
Proof.
  intros Hc Hp Hlt Hlen. set (l := ofile (pget s p)) in *.
  assert (forall k, (k < NOFILE)%nat -> exists g, l !! k = Some g /\ aget l k = g) as Hl.
  { intros k Hk. rewrite <- Hlen in Hk. destruct (lookup_lt_is_Some_2 l k Hk) as [g Hg]. exists g.
    split; [done|by apply aget_lookup]. }
  unfold fdalloc. rewrite (bind_Done _ _ _ _ _ (curproc_ok s p Hc Hp)). unfold getproc. rewrite bind_gets.
  fold l. destruct (free_fd l) as [fd|] eqn:Hfree; unfold free_fd in Hfree.
  - destruct (list_find _ _) as [[i fd']|] eqn:E; [|done]. injection Hfree as <-.
    apply list_find_Some in E as (Hi & He & Hmin). apply lookup_seq in Hi as [-> Hi]. simpl in He.
    eexists. split.
    { rewrite (bind_Done _ _ _ tt (pupd p (fun x => x <| ofile ::= <[i := Some f]> |>) s)); [done|].
      unfold set_ofile, getproc. rewrite bind_gets. fold l. by rewrite (proj2 (Nat.ltb_lt _ _)) by lia. }
    split; [done|]. split_and!.
    + destruct (Hl i Hi) as (g & Hg & Hag). congruence.
    + intros k Hk. destruct (Hl k ltac:(lia)) as ([g|] & Hg & Hag); [by exists g|].
      exfalso. apply (Hmin k k); [by apply lookup_seq_lt; lia|done|done].
    + rewrite pget_pupd_eq by done. done.
    + intros q Hq. by rewrite pget_pupd_ne.
  - apply fmap_None, list_find_None in Hfree. split; [done|]. intros k Hk.
    rewrite Forall_forall in Hfree. specialize (Hfree k ltac:(apply elem_of_seq; lia)).
    destruct (Hl k Hk) as ([g|] & Hg & Hag); [by exists g|done].
Qed.

(** ** A refused create *)

(** create(), started in [s], reaches in [t] one of its two permission tests, for
    the inode [ip] that it has locked, and the test fails: the file exists and the
    caller may not write it, or it does not exist and the caller may not write the
    directory. *)
Inductive create_refuses (path : list Z) (ip : nat) (s t : kstate) : Prop :=
| refuses_file dp name off s1 s2 s3 s4 :
    nameiparent path s = Done (Ok (Some dp, name)) s1 -> ilock dp s1 = Done (Ok tt) s2 ->
    dirlookup dp name s2 = Done (Ok (Some (ip, off))) s3 ->
    iunlockput dp s3 = Done (Ok tt) s4 -> ilock ip s4 = Done (Ok tt) t ->
    allowed MODE_WUSR MODE_WOTH ip t = Done (Ok false) t ->
    create_refuses path ip s t
| refuses_directory name s1 s2 :
    nameiparent path s = Done (Ok (Some ip, name)) s1 -> ilock ip s1 = Done (Ok tt) s2 ->
    dirlookup ip name s2 = Done (Ok None) t ->
    allowed MODE_WUSR MODE_WOTH ip t = Done (Ok false) t ->
    create_refuses path ip s t.

Lemma create_refused path ip type major minor s t :
  create_refuses path ip s t -> create path type major minor s = create_denied ip t.
Proof.
  intros [dp name off s1 s2 s3 s4 H1 H2 H3 H4 H5 H6|name s1 s2 H1 H2 H3 H6]; unfold create;
    rewrite (bind_Done _ _ _ _ _ H1), (bind_Done _ _ _ _ _ H2), (bind_Done _ _ _ _ _ H3).
  - by rewrite (bind_Done _ _ _ _ _ H4), (bind_Done _ _ _ _ _ H5), (bind_Done _ _ _ _ _ H6).
  - by rewrite (bind_Done _ _ _ _ _ H6).
Qed.

(** A second end_op() for the one operation outstanding. *)
Lemma end_op_twice p t :
  quiet p t -> committing (k_log t) = false -> outstanding (k_log t) = 1 -> lh_n (k_log t) = 0 ->
  exists t1 u, end_op t = Done (Ok tt) t1 /\ end_op t1 = Done (Ok tt) u /\ quiet p u /\
    k_log u = (k_log t) <| outstanding := (-1) |>.
Proof.
  intros Hq Hcom Hout Hn.
  destruct (end_op_empty p t Hq Hcom Hn) as (t1 & H1 & Hq1 & Hl1).
  destruct (end_op_empty p t1 Hq1) as (u & H2 & Hqu & Hlu); [by rewrite Hl1|by rewrite Hl1|].
  exists t1, u. split_and!; [exact H1|exact H2|exact Hqu|]. rewrite Hlu, Hl1. simpl. by rewrite Hout.
Qed.

Lemma log_write_unbegun p g b u :
  quiet p u -> k_log u = g <| outstanding := (-1) |> -> committing g = false -> lh_n g = 0 -> 2 <= lsize g ->
  exists w, (begin_op ;;; log_write b) u = Done (Stop (Panic "log_write outside of trans")) w.
Proof.
  intros Hqu Hlu Hcom Hn Hsz. eexists.
  rewrite (bind_Done _ _ _ _ _ (begin_op_ok p u Hqu ltac:(rewrite Hlu; unfold op_admitted; simpl; by rewrite Hcom, Hn))).
  unfold log_write, getlog. rewrite bind_gets. unfold id.
  change (k_log (upd _ u)) with ((k_log u) <| outstanding := i32 (outstanding (k_log u) + 1) |>). rewrite Hlu. simpl.
  rewrite Hn. rewrite (proj2 (Z.leb_gt (lsize g - 1) 0)) by lia. done.
Qed.

(** C40: open() with O_CREATE of a file that the caller may not write, or in a
    directory that it may not write, returns -1 with log.outstanding at -1: the
    refused create() ends the transaction itself and open() ends it again.  The
    state is one with no operation outstanding, and the lookup of the name and
    the iunlockput() of the refused inode have put nothing into the log.
    Whatever operation comes next then panics at its first log_write(), so an
    unprivileged open() stops the machine. *)
Theorem open_denied_breaks_log p path omode ip s s0 t u :
  has omode O_CREATE = true ->
  begin_op s = Done (Ok tt) s0 -> create_refuses path ip s0 t -> iunlockput ip t = Done (Ok tt) u ->
  quiet p u -> k_log u = (k_log s) <| outstanding := 1 |> ->
  committing (k_log s) = false -> lh_n (k_log s) = 0 -> 2 <= lsize (k_log s) ->
  exists v, open path omode s = Done (Ok (-1)) v /\ outstanding (k_log v) = -1 /\
    forall b, exists w, (begin_op ;;; log_write b) v = Done (Stop (Panic "log_write outside of trans")) w.
Proof.
  intros Ho Hb Hr Hput Hq Hlu Hcom Hn Hsz.
  destruct (end_op_twice p u Hq) as (u1 & v & H1 & H2 & Hqv & Hlv); [by rewrite Hlu..|].
  exists v. split_and!.
  - unfold open. rewrite (bind_Done _ _ _ _ _ Hb). rewrite (bind_Done _ _ _ None v); [done|].
    unfold open_inode. rewrite Ho. rewrite (bind_Done _ _ _ None u1); [by rewrite (bind_Done _ _ _ _ _ H2)|].
    rewrite (create_refused _ _ _ _ _ _ _ Hr). unfold create_denied.
    by rewrite (bind_Done _ _ _ _ _ Hput), (bind_Done _ _ _ _ _ H1).
  - by rewrite Hlv.
  - intros b. apply (log_write_unbegun p (k_log u)); [exact Hqv|exact Hlv|by rewrite Hlu..].
Qed.

(** ** Instances *)

Lemma may_open_exact_witness :
  exists b, may_open O_RDWR 0 (root_shell root_only) = Done (Ok b) (root_shell root_only).
Proof.
  eexists. refine (proj1 (may_open_exact O_RDWR 0 1 (chars "root") [] (root_shell root_only) file0 _ _ _ _) _).
  - apply (quiet_calm 1), (as_root_shell root_only).
  - apply (as_root_shell root_only).
  - apply (as_root_shell root_only).
  - by vm_compute.
  - by right; right.
Defined.

Lemma root_shell_files t : ofile (pget (root_shell t) 1) = replicate NOFILE None.
Proof. by vm_compute. Qed.

Lemma fdalloc_lowest_witness :
  exists t, fdalloc 7 (root_shell root_only) = Done (Ok (Some 0%nat)) t.
Proof.
  pose proof (fdalloc_lowest 7 1 (root_shell root_only)
    (quiet_calm 1 _ (proj1 (as_root_shell root_only))) (proj1 (proj2 (proj1 (as_root_shell root_only))))) as H.
  rewrite root_shell_files in H. destruct H as (t & Ht & _); [vm_compute; lia|done|].
  exists t. exact Ht.
Defined.

(** Kim runs process 1.  The root directory holds the file "f"; both belong to
    root and only root may write them. *)
Definition kims_shell : kstate :=
  (idle {[ 100 := [5; 0; 102] ++ replicate 509 0 ]}) <| k_log := mk_log 2 30 0 false 1 0 (replicate 30 0) |>
    <| k_proc ::= alter (fun p => p <| userid := pad 16 (chars "kim") |>) 1%nat |>
    <| k_inode ::= fun l =>
         mk_inode 1 1 1 inhabitant true T_DIR 0 0 1 16 (100 :: replicate 7 0) (pad 16 (chars "root")) 61 ::
         mk_inode 1 5 1 inhabitant true T_FILE 0 0 1 0 (replicate 8 0) (pad 16 (chars "root")) 52 :: drop 2 l |>.

Definition f_path : list Z := chars "/f" ++ [0].

#[local] Abbreviation f_begun := (state_after begin_op kims_shell).

#[local] Abbreviation f_parent := (state_after (nameiparent f_path) f_begun).

#[local] Abbreviation f_dir := (state_after (ilock 0) f_parent).

#[local] Abbreviation f_found := (state_after (dirlookup 0 (chars "f" ++ replicate 13 0)) f_dir).

#[local] Abbreviation f_put := (state_after (iunlockput 0) f_found).

#[local] Abbreviation f_locked := (state_after (ilock 1) f_put).

Lemma f_refused : create_refuses f_path 1 f_begun f_locked.
Proof.
  refine (refuses_file f_path 1 f_begun f_locked 0 (chars "f" ++ replicate 13 0) 0 f_parent f_dir f_found f_put
    (result_state _ _ _ _) (result_state _ _ _ _) (result_state _ _ _ _) (result_state _ _ _ _)
    (result_state _ _ _ _) _).
  1-5: by vm_compute.
  rewrite (allowed_ok _ _ 1 1 (chars "kim") (chars "root")); [|apply (quiet_calm 1), quiet_check_ok|..]; [|by vm_compute..].
  by replace (imode (iget_ f_locked 1)) with 52 by by vm_compute.
Qed.

Lemma open_denied_breaks_log_witness :
  exists v, open f_path (Z.lor O_CREATE O_WRONLY) kims_shell = Done (Ok (-1)) v /\ outstanding (k_log v) = -1.
Proof.
  refine (match open_denied_breaks_log 1 f_path (Z.lor O_CREATE O_WRONLY) 1 kims_shell f_begun f_locked
    (state_after (iunlockput 1) f_locked) eq_refl _ f_refused _ _ _ _ _ _ with
    ex_intro _ v (conj H1 (conj H2 _)) => ex_intro _ v (conj H1 H2) end).
  - apply result_state. by vm_compute.
  - apply result_state. by vm_compute.
  - apply quiet_check_ok. by vm_compute.
  - by vm_compute.
  - by vm_compute.
  - by vm_compute.
  - by vm_compute.
Defined.
