(* ===== verification/Trap.v ===== *)
(** * Traps and the system call table (trap.c, syscall.c, sysproc.c and the
    system calls of the course's exercises)

    What a trap reads from devices is in the record [hw]: the scan codes, the
    serial characters, the register cr2 and the return addresses that procdump
    prints. *)

From S2P Require Import Prelude Kernel Spinlock ProcCore Console Vm Proc Kbd Sysarg Exec Users Sysfile.

(** ** Process system calls (sysproc.c) *)

Definition sys_fork : K Z := fork.

Definition sys_exit : K Z := exit ;;; ret 0.

Definition sys_wait : K Z := wait.

Definition sys_kill : K Z := with_arg (argint 0) kill.

Definition sys_getpid : K Z := p <- curproc ;; getproc p pid.

Definition sys_sbrk : K Z :=
  with_arg (argint 0) (fun n =>
    p <- curproc ;;
    addr <- getproc p sz ;;
    r <- growproc n ;;
    if r <? 0 then ret (-1) else ret (i32 addr)).

(** while(ticks - ticks0 < n); -1 when the process was killed. *)
Fixpoint sleep_loop (fuel : nat) (ticks0 n : Z) : K Z :=
  t <- gets k_ticks ;;
  if negb (u32 (t - ticks0) <? u32 n) then release lk_ticks ;;; ret 0
  else
    p <- curproc ;;
    k <- getproc p killed ;;
    if (k : bool) then release lk_ticks ;;; ret (-1)
    else
      match fuel with
      | O => halt (Hang "sys_sleep")
      | S fuel' => sleep (Some ch_ticks) lk_ticks ;;; sleep_loop fuel' ticks0 n
      end.

Definition sys_sleep : K Z :=
  with_arg (argint 0) (fun n =>
    acquire lk_ticks ;;;
    ticks0 <- gets k_ticks ;;
    fuel <- gets k_fuel ;;
    sleep_loop fuel ticks0 n).

Definition sys_uptime : K Z :=
  acquire lk_ticks ;;;
  t <- gets k_ticks ;;
  release lk_ticks ;;;
  ret (i32 t).

(** ** PRAC_syscall.c, PRJ01_syscall.c, PRJ02_syscall.c *)

Definition myfunction (str : list Z) : K Z :=
  cprintf "%s
" [astr str] ;;;
  ret (i32 2882382797).

Definition sys_myfunction : K Z := with_arg (argstr 0) myfunction.

Definition getppid : K Z :=
  p <- curproc ;;
  q <- getproc p parent ;;
  match q with
  | Some q => getproc q pid
  | None => halt (UB "null dereference of parent")
  end.

Definition sys_getppid : K Z := getppid.

(** yield2 in the MLFQ build, yield otherwise. *)
Definition sys_yield : K Z :=
  m <- gets k_mlfq ;;
  (if (m : bool) then yield2 else yield) ;;;
  ret 0.

Definition sys_getlev : K Z := getlev.

Definition sys_setpriority : K Z :=
  with_arg (argint 0) (fun n => with_arg (argint 1) (fun prio => setpriority n prio)).

Definition sys_getadmin : K Z := with_arg (argstr 0) getadmin.

Definition sys_setmemorylimit : K Z :=
  with_arg (argint 0) (fun n => with_arg (argint 1) (fun lim => setmemorylimit n lim)).

Definition sys_printproclist : K Z := printproclist ;;; ret 0.

Definition sys_getshmem : K Z := with_arg (argint 0) (fun _ => exit ;;; ret (-1)).

(** ** The table *)

Definition syscalls : list (K Z) :=
  [sys_fork; sys_exit; sys_wait; sys_pipe; sys_read; sys_kill; sys_exec; sys_fstat;
   sys_chdir; sys_dup; sys_getpid; sys_sbrk; sys_sleep; sys_uptime; sys_open; sys_write;
   sys_mknod; sys_unlink; sys_link; sys_mkdir; sys_close; sys_myfunction; sys_getppid;
   sys_yield; sys_getlev; sys_setpriority; sys_getadmin; sys_exec2; sys_setmemorylimit;
   sys_printproclist; sys_getshmem; sys_inituser; sys_usercheck; sys_useradd; sys_userdel;
   sys_fork2; sys_chmod; sys_whoami].

(** syscalls[num]; entry 0 of the C array is empty. *)
Definition handler (num : Z) : option (K Z) :=
  if 0 <? num then syscalls !! idx (num - 1) else None.

Definition set_eax (p : nat) (v : Z) : K unit :=
  setproc p (fun x => x <| tf := (tf x) <| tf_eax := u32 v |> |>).

Definition syscall : K unit :=
  p <- curproc ;;
  num <- getproc p (fun x => i32 (tf_eax (tf x))) ;;
  match handler num with
  | Some f => v <- f ;; set_eax p v
  | None =>
      x <- getproc p id ;;
      cprintf "%d %s: unknown sys call %d
" [AInt (pid x); astr (name x); AInt num] ;;;
      set_eax p (-1)
  end.

(** ** trap *)

Definition T_SYSCALL : Z := 64.

Definition T_MYSYSCALL : Z := 128.

Definition T_IRQ0 : Z := 32.

Record hw := mk_hw {
  hw_scan : list Z;
  hw_serial : list Z;
  hw_cr2 : Z;
  hw_pcs : nat -> list Z
}.

(** if(myproc()->killed) exit(); *)
Definition exit_if_killed : K unit :=
  p <- curproc ;;
  k <- getproc p killed ;;
  when k exit.

(** myproc() && myproc()->killed && (tf->cs&3) == DPL_USER *)
Definition exit_if_killed_user (t : trapframe) : K unit :=
  p <- myproc ;;
  match p with
  | None => ret tt
  | Some p =>
      k <- getproc p killed ;;
      when (k && (Z.land (tf_cs t) 3 =? 3)) exit
  end.

(** case T_IRQ0 + IRQ_TIMER *)
Definition timer_tick : K unit :=
  c <- cpuid ;;
  when (c =? 0)%nat
    (acquire lk_ticks ;;;
     modify (fun s => s <| k_ticks := u32 (k_ticks s + 1) |>) ;;;
     wakeup (Some ch_ticks) ;;;
     release lk_ticks).

(** default: a fault of the kernel or of the process *)
Definition fault (h : hw) (t : trapframe) : K unit :=
  p <- myproc ;;
  c <- cpuid ;;
  match p with
  | Some p =>
      if Z.land (tf_cs t) 3 =? 0 then
        cprintf "unexpected trap %d from cpu %d eip %x (cr2=0x%x)
" [AInt (tf_trapno t); AInt (Z.of_nat c); AInt (tf_eip t); AInt (hw_cr2 h)] ;;;
        panic "trap"
      else
        x <- getproc p id ;;
        cprintf "pid %d %s: trap %d err %d on cpu %d eip 0x%x addr 0x%x--kill proc
" [AInt (pid x); astr (name x); AInt (tf_trapno t); AInt (tf_err t); AInt (Z.of_nat c);
   AInt (tf_eip t); AInt (hw_cr2 h)] ;;;
        setproc p (fun x => x <| killed := true |>)
  | None =>
      cprintf "unexpected trap %d from cpu %d eip %x (cr2=0x%x)
" [AInt (tf_trapno t); AInt (Z.of_nat c); AInt (tf_eip t); AInt (hw_cr2 h)] ;;;
      panic "trap"
  end.

(** The switch on trapno; memide.c's ideintr does nothing. *)
Definition interrupt (h : hw) (t : trapframe) : K unit :=
  let n := tf_trapno t in
  if n =? T_IRQ0 then timer_tick
  else if n =? T_IRQ0 + 14 then ret tt
  else if n =? T_IRQ0 + 15 then ret tt
  else if n =? T_IRQ0 + 1 then kbdintr (hw_pcs h) (hw_scan h)
  else if n =? T_IRQ0 + 4 then uartintr (hw_pcs h) (hw_serial h)
  else if (n =? T_IRQ0 + 7) || (n =? T_IRQ0 + 31) then
    c <- cpuid ;;
    cprintf "cpu%d: spurious interrupt at %x:%x
" [AInt (Z.of_nat c); AInt (tf_cs t); AInt (tf_eip t)]
  else fault h t.

(** Force process to give up CPU on clock tick. *)
Definition preempt (t : trapframe) : K unit :=
  p <- myproc ;;
  match p with
  | None => ret tt
  | Some p =>
      st <- getproc p state ;;
      when (bool_decide (st = RUNNING) && (tf_trapno t =? T_IRQ0)) yield
  end.

Definition trap (h : hw) (t : trapframe) : K unit :=
  if tf_trapno t =? T_SYSCALL then
    exit_if_killed ;;;
    p <- curproc ;;
    setproc p (fun x => x <| tf := t |>) ;;;
    syscall ;;;
    exit_if_killed
  else if tf_trapno t =? T_MYSYSCALL then
    exit_if_killed ;;;
    p <- curproc ;;
    setproc p (fun x => x <| tf := t |>) ;;;
    cprintf "user interrupt %d called!
" [AInt T_MYSYSCALL] ;;;
    exit_if_killed
  else
    interrupt h t ;;;
    exit_if_killed_user t ;;;
    preempt t ;;;
    exit_if_killed_user t.
