(* ===== verification/User.v ===== *)
(** * User programs (user.h, usys.S)

    A user program is a tree of the system calls it makes: at each call the
    program continues with the answer of the kernel.  fork is a call like the
    others; the tree goes on with 0 in the child and with a pid in the parent.
    The kernel is an argument of every theorem: a relation between the call,
    the state of the outside world and the answer. *)

From S2P Require Import Prelude Cstring Kernel Spinlock ProcCore Bio Inode.

(** ** The system calls

    Strings are given without their NUL.  The answer of a call that fills a
    buffer is what it put there, [None] for -1. *)

Inductive call : Set -> Type :=
| Fork : call Z
| Wait : call Z
| Pipe : call (option (Z * Z))
| Write (fd : Z) (l : list Z) : call Z
| Read (fd n : Z) : call (option (list Z))
| Close (fd : Z) : call Z
| Kill (pid : Z) : call Z
| Exec (path : list Z) (argv : list (list Z)) : call Z
| Open (path : list Z) (omode : Z) : call Z
| Mknod (path : list Z) (major minor : Z) : call Z
| Unlink (path : list Z) : call Z
| Fstat (fd : Z) : call (option stat)
| Link (old new : list Z) : call Z
| Mkdir (path : list Z) : call Z
| Chdir (path : list Z) : call Z
| Dup (fd : Z) : call Z
| Getpid : call Z
| Sbrk (n : Z) : call Z
| Sleep (n : Z) : call Z
| Uptime : call Z
| Getppid : call Z
| Yield : call Z
| Getlev : call Z
| Setpriority (pid priority : Z) : call Z
| Getadmin (password : list Z) : call Z
| Exec2 (path : list Z) (argv : list (list Z)) (stacksize : Z) : call Z
| Setmemorylimit (pid limit : Z) : call Z
| Printproclist : call Z
| Inituser : call Z
| Usercheck (username password : list Z) : call Z
| Useradd (username password : list Z) : call Z
| Userdel (username : list Z) : call Z
| Fork2 (username : list Z) : call Z
| Chmod (pathname : list Z) (mode : Z) : call Z
| Whoami : call (list Z).

(** ** Programs *)

Inductive prog (A : Type) : Type :=
| Ret (a : A)
| Call (X : Set) (c : call X) (k : X -> prog A)
| Exit
| Fault (w : stop).
Arguments Ret {A} a.
Arguments Call {A X} c k.
Arguments Exit {A}.
Arguments Fault {A} w.

Fixpoint pbind {A B} (m : prog A) (f : A -> prog B) : prog B :=
  match m with
  | Ret a => f a
  | Call c k => Call c (fun x => pbind (k x) f)
  | Exit => Exit
  | Fault w => Fault w
  end.

(** A program with memory [S]. *)
Definition U (S A : Type) : Type := S -> prog (A * S).

Definition uret {S A} (a : A) : U S A := fun s => Ret (a, s).

Definition ubind {S A B} (m : U S A) (f : A -> U S B) : U S B :=
  fun s => pbind (m s) (fun r => f r.1 r.2).

Definition sys {S} {X : Set} (c : call X) : U S X := fun s => Call c (fun x => Ret (x, s)).

Definition uexit {S A} : U S A := fun _ => Exit.

Definition fault {S A} (w : stop) : U S A := fun _ => Fault w.

Definition ugets {S A} (f : S -> A) : U S A := fun s => Ret (f s, s).

Definition umod {S} (f : S -> S) : U S unit := fun s => Ret (tt, f s).

(** A pointer dereference of the string library. *)
Definition deref {S A} (o : option A) : U S A :=
  match o with Some a => uret a | None => fault (UB "pointer") end.

Declare Scope user_scope.
Delimit Scope user_scope with U.

Notation "x <- m ;; k" := (ubind m (fun x => k))
  (at level 100, m at next level, right associativity,
   format "'[v' x  <-  m  ;; '/' k ']'") : user_scope.
Notation "m ;;; k" := (ubind m (fun _ => k))
  (at level 100, right associativity,
   format "'[v' m  ;;; '/' k ']'") : user_scope.

Open Scope user_scope.

Definition uwhen {S} (c : bool) (m : U S unit) : U S unit :=
  if c then m else uret tt.

Fixpoint ufor {S X} (l : list X) (body : X -> U S unit) : U S unit :=
  match l with
  | [] => uret tt
  | x :: l' => body x ;;; ufor l' body
  end.

(** ** Total correctness against a kernel

    [uwp R X m Q s e]: with memory [s] and world [e], whatever answers [R]
    allows, the program returns with [Q] or exits with [X], and never faults. *)

Definition kernel (E : Type) : Type := forall X : Set, call X -> E -> X -> E -> Prop.

Section wp.
Context {E : Type} (R : kernel E) (QX : E -> Prop).

Fixpoint pwp {A} (m : prog A) (Q : A -> E -> Prop) (e : E) : Prop :=
  match m with
  | Ret a => Q a e
  | Call c k => forall x e', R _ c e x e' -> pwp (k x) Q e'
  | Exit => QX e
  | Fault _ => False
  end.

Definition uwp {S A} (m : U S A) (Q : A -> S -> E -> Prop) (s : S) (e : E) : Prop :=
  pwp (m s) (fun r => Q r.1 r.2) e.

Lemma pwp_mono {A} (m : prog A) (Q Q' : A -> E -> Prop) e :
  pwp m Q e -> (forall a e', Q a e' -> Q' a e') -> pwp m Q' e.
Proof. intros Hm HQ. revert e Hm. induction m as [a|X c k IH| |w]; intros e; simpl; eauto. Qed.

Lemma pwp_bind {A B} (m : prog A) (f : A -> prog B) Q e :
  pwp m (fun a => pwp (f a) Q) e -> pwp (pbind m f) Q e.
Proof. revert e. induction m as [a|X c k IH| |w]; intros e; simpl; eauto. Qed.

Lemma uwp_mono {S A} (m : U S A) (Q Q' : A -> S -> E -> Prop) s e :
  uwp m Q s e -> (forall a s' e', Q a s' e' -> Q' a s' e') -> uwp m Q' s e.
Proof. intros Hm HQ. eapply pwp_mono; [exact Hm|intros [a s'] e'; apply HQ]. Qed.

Lemma uwp_ret {S A} (a : A) (Q : A -> S -> E -> Prop) s e : Q a s e -> uwp (uret a) Q s e.
Proof. done. Qed.

Lemma uwp_gets {S A} (f : S -> A) (Q : A -> S -> E -> Prop) s e : Q (f s) s e -> uwp (ugets f) Q s e.
Proof. done. Qed.

Lemma uwp_mod {S} (f : S -> S) (Q : unit -> S -> E -> Prop) s e : Q tt (f s) e -> uwp (umod f) Q s e.
Proof. done. Qed.

Lemma uwp_exit {S A} (Q : A -> S -> E -> Prop) s e : QX e -> uwp uexit Q s e.
Proof. done. Qed.

Lemma uwp_sys {S} {X : Set} (c : call X) (Q : X -> S -> E -> Prop) s e :
  (forall x e', R X c e x e' -> Q x s e') -> uwp (sys c) Q s e.
Proof. done. Qed.

Lemma uwp_deref {S A} (a : A) o (Q : A -> S -> E -> Prop) s e : o = Some a -> Q a s e -> uwp (deref o) Q s e.
Proof. by intros ->. Qed.

Lemma uwp_bind {S A B} (m : U S A) (f : A -> U S B) Q s e :
  uwp m (fun a => uwp (f a) Q) s e -> uwp (ubind m f) Q s e.
Proof. intros Hm. apply pwp_bind. exact Hm. Qed.
End wp.

(** ** Runs

    A kernel that answers by a function, for concrete runs; a call it does not
    answer ends the run. *)

Definition answerer (E : Type) : Type := forall X : Set, call X -> E -> option (X * E).

Inductive ending (A : Type) :=
| Returned (a : A)
| Exited
| Faulted (w : stop)
| Unanswered.
Arguments Returned {A} a.
Arguments Exited {A}.
Arguments Faulted {A} w.
Arguments Unanswered {A}.

Fixpoint prun {E A} (h : answerer E) (m : prog A) (e : E) : ending A * E :=
  match m with
  | Ret a => (Returned a, e)
  | Call c k =>
      match h _ c e with
      | Some (x, e') => prun h (k x) e'
      | None => (Unanswered, e)
      end
  | Exit => (Exited, e)
  | Fault w => (Faulted w, e)
  end.

(** A run with answers that the kernel allows ends as [pwp] says. *)
Lemma pwp_run {E A} (R : kernel E) QX (h : answerer E) (m : prog A) Q e :
  (forall X c e x e', h X c e = Some (x, e') -> R X c e x e') -> pwp R QX m Q e ->
  match prun h m e with
  | (Returned a, e') => Q a e'
  | (Exited, e') => QX e'
  | (Faulted _, _) => False
  | (Unanswered, _) => True
  end.
Proof.
  intros Hh. revert e. induction m as [a|X c k IH| |w]; intros e; simpl; try done.
  intros Hk. destruct (h X c e) as [[x e']|] eqn:Hx; [|done]. apply IH, Hk, Hh, Hx.
Qed.

(** ** Safety under any kernel

    A monitor follows the calls of a program and says which call may come next
    and what the world is after each answer.  [psafe] holds when the program
    never makes a call that is not allowed, however long it runs. *)

Record monitor (E : Type) := mk_monitor {
  may : forall X : Set, call X -> E -> Prop;
  step : kernel E
}.
Arguments may {E} m {X} c e.
Arguments step {E} m {X} c e x e'.

Section safety.
Context {E : Type} (mon : monitor E).

Fixpoint psafe {A} (m : prog A) (Q : A -> E -> Prop) (e : E) : Prop :=
  match m with
  | Ret a => Q a e
  | Call c k => may mon c e /\ forall x e', step mon c e x e' -> psafe (k x) Q e'
  | Exit | Fault _ => True
  end.

Definition usafe {S A} (m : U S A) (Q : A -> S -> E -> Prop) (s : S) (e : E) : Prop :=
  psafe (m s) (fun r => Q r.1 r.2) e.

Lemma psafe_mono {A} (m : prog A) (Q Q' : A -> E -> Prop) e :
  psafe m Q e -> (forall a e', Q a e' -> Q' a e') -> psafe m Q' e.
Proof.
  intros Hm HQ. revert e Hm. induction m as [a|X c k IH| |w]; intros e; simpl; eauto. intros [Hc Hk]. eauto.
Qed.

Lemma psafe_bind {A B} (m : prog A) (f : A -> prog B) Q e :
  psafe m (fun a => psafe (f a) Q) e -> psafe (pbind m f) Q e.
Proof. revert e. induction m as [a|X c k IH| |w]; intros e; simpl; eauto. intros [Hc Hk]. eauto. Qed.

Lemma usafe_mono {S A} (m : U S A) (Q Q' : A -> S -> E -> Prop) s e :
  usafe m Q s e -> (forall a s' e', Q a s' e' -> Q' a s' e') -> usafe m Q' s e.
Proof. intros Hm HQ. eapply psafe_mono; [exact Hm|intros [a s'] e'; apply HQ]. Qed.

Lemma usafe_bind {S A B} (m : U S A) (f : A -> U S B) Q s e :
  usafe m (fun a => usafe (f a) Q) s e -> usafe (ubind m f) Q s e.
Proof. intros Hm. apply psafe_bind. exact Hm. Qed.

Lemma usafe_ret {S A} (a : A) (Q : A -> S -> E -> Prop) s e : Q a s e -> usafe (uret a) Q s e.
Proof. done. Qed.

Lemma usafe_sys {S} {X : Set} (c : call X) (Q : X -> S -> E -> Prop) s e :
  may mon c e -> (forall x e', step mon c e x e' -> Q x s e') -> usafe (sys c) Q s e.
Proof. done. Qed.

Lemma usafe_fault {S A} w (Q : A -> S -> E -> Prop) s e : usafe (fault w) Q s e.
Proof. done. Qed.

Lemma usafe_exit {S A} (Q : A -> S -> E -> Prop) s e : usafe uexit Q s e.
Proof. done. Qed.

Lemma usafe_deref {S A} o (Q : A -> S -> E -> Prop) s e : (forall a, o = Some a -> Q a s e) -> usafe (deref o) Q s e.
Proof. intros HQ. destruct o as [a|]; [by apply HQ|done]. Qed.

Lemma usafe_gets {S A} (f : S -> A) (Q : A -> S -> E -> Prop) s e : Q (f s) s e -> usafe (ugets f) Q s e.
Proof. done. Qed.

Lemma usafe_mod {S} (f : S -> S) (Q : unit -> S -> E -> Prop) s e : Q tt (f s) e -> usafe (umod f) Q s e.
Proof. done. Qed.
End safety.
