(* ===== verification/Umalloc.v ===== *)
(** * malloc and free (umalloc.c)

    The allocator of user programs: a circular list of free blocks, in order
    of address, that starts at the static header [base].  Memory is a map of
    the 32-bit words of the allocator, by byte address; a header at [a] is the
    word ptr at [a] and the word size at [a + 4], with sizes in headers of 8
    bytes. *)

From S2P Require Import Prelude Kernel User.

Record uheap := mk_uheap {
  words : gmap Z Z;
  freep : Z    (* 0 before the first malloc *)
}.

#[export] Instance upd_words : Upd words := fun f h => mk_uheap (f (words h)) (freep h).
#[export] Instance upd_freep : Upd freep := fun f h => mk_uheap (words h) (f (freep h)).

(** ** The operations *)

Definition word (a : Z) : U uheap Z :=
  o <- ugets (fun h => words h !! a) ;; deref o.

Definition set_word (a v : Z) : U uheap unit := umod (fun h => h <| words ::= <[a := v]> |>).

(** p->s.ptr and p->s.size *)
Definition s_ptr (p : Z) : U uheap Z := word p.

Definition s_size (p : Z) : U uheap Z := word (u32 (p + 4)).

Definition set_ptr (p v : Z) : U uheap unit := set_word p v.

Definition set_size (p v : Z) : U uheap unit := set_word (u32 (p + 4)) v.

(** p + n for a Header *p *)
Definition hplus (p n : Z) : Z := u32 (p + 8 * n).

(** for(p = freep; !(bp > p && bp < p->s.ptr); p = p->s.ptr)
      if(p >= p->s.ptr && (bp > p || bp < p->s.ptr)) break; *)
Fixpoint free_find (fuel : nat) (bp p : Z) : U uheap Z :=
  q <- s_ptr p ;;
  if (p <? bp) && (bp <? q) then uret p
  else if (q <=? p) && ((p <? bp) || (bp <? q)) then uret p
  else
    match fuel with
    | O => fault (Hang "free")
    | S fuel' => free_find fuel' bp q
    end.

(** if(bp + bp->s.size == p->s.ptr) ... *)
Definition join_next (bp p : Z) : U uheap unit :=
  bs <- s_size bp ;;
  q <- s_ptr p ;;
  if hplus bp bs =? q then
    q1 <- s_ptr p ;;
    qs <- s_size q1 ;;
    set_size bp (u32 (bs + qs)) ;;;
    q2 <- s_ptr p ;;
    q' <- s_ptr q2 ;;
    set_ptr bp q'
  else q1 <- s_ptr p ;; set_ptr bp q1.

(** if(p + p->s.size == bp) ... *)
Definition join_prev (bp p : Z) : U uheap unit :=
  ps <- s_size p ;;
  if hplus p ps =? bp then
    bs <- s_size bp ;;
    set_size p (u32 (ps + bs)) ;;;
    b <- s_ptr bp ;;
    set_ptr p b
  else set_ptr p bp.

Definition free (ap : Z) : U uheap unit :=
  let bp := u32 (ap - 8) in
  fp <- ugets freep ;;
  n <- ugets (fun h => size (words h)) ;;
  p <- free_find n bp fp ;;
  join_next bp p ;;;
  join_prev bp p ;;;
  umod (fun h => h <| freep := p |>).

Definition morecore (nu : Z) : U uheap Z :=
  let nu := if nu <? 4096 then 4096 else nu in
  p <- sys (Sbrk (i32 (nu * 8))) ;;
  if p =? -1 then uret 0
  else
    let hp := u32 p in
    set_size hp nu ;;;
    free (hplus hp 1) ;;;
    ugets freep.

(** nunits = (nbytes + sizeof(Header) - 1)/sizeof(Header) + 1, in uint *)
Definition nunits (nbytes : Z) : Z := u32 (u32 (u32 (nbytes + 8) - 1) / 8 + 1).

(** The block [p] is big enough: it is unlinked, or its tail is cut off. *)
Definition take_block (n prevp p s : Z) : U uheap Z :=
  r <- (if s =? n then q <- s_ptr p ;; set_ptr prevp q ;;; uret p
        else
          set_size p (u32 (s - n)) ;;;
          s' <- s_size p ;;
          set_size (hplus p s') n ;;;
          uret (hplus p s')) ;;
  umod (fun h => h <| freep := prevp |>) ;;;
  uret (hplus r 1).

Fixpoint malloc_loop (fuel : nat) (n prevp p : Z) : U uheap Z :=
  s <- s_size p ;;
  if n <=? s then take_block n prevp p s
  else
    let next p :=
      match fuel with
      | O => fault (Hang "malloc")
      | S fuel' => q <- s_ptr p ;; malloc_loop fuel' n p q
      end in
    fp <- ugets freep ;;
    if p =? fp then
      p' <- morecore n ;;
      if p' =? 0 then uret 0 else next p'
    else next p.

Definition malloc (base nbytes : Z) : U uheap Z :=
  let n := nunits nbytes in
  fp <- ugets freep ;;
  prevp <- (if fp =? 0 then
              umod (fun h => h <| freep := base |>) ;;;
              set_ptr base base ;;;
              set_size base 0 ;;;
              uret base
            else uret fp) ;;
  p <- s_ptr prevp ;;
  k <- ugets (fun h => size (words h)) ;;
  malloc_loop (2 * k + 2) n prevp p.

(** ** Free blocks: a header address and a size in headers *)

Definition disj (u v : Z * Z) : Prop := u.1 + 8 * u.2 <= v.1 \/ v.1 + 8 * v.2 <= u.1.

(** Two neighbours of the free list: not overlapping and not touching. *)
Definition gap (u v : Z * Z) : Prop := u.1 + 8 * u.2 < v.1.

Fixpoint apart (l : list (Z * Z)) : Prop :=
  match l with
  | [] => True
  | u :: l' => Forall (disj u) l' /\ apart l'
  end.

Lemma disj_sym u v : disj u v -> disj v u.
Proof. unfold disj. lia. Qed.

#[export] Instance apart_perm : Proper ((≡ₚ) ==> iff) apart.
Proof.
  assert (forall l l', l ≡ₚ l' -> apart l -> apart l') as Himp.
  { intros l l' Hp. induction Hp as [|u l l' Hp IH|u v l|l l2 l3 _ IH1 _ IH2]; simpl.
    - done.
    - intros [Hu Hl]. split; [by rewrite <- Hp|by apply IH].
    - intros [[Huv Hu]%Forall_cons (Hv & Hl)]. split_and!; [|done|done].
      constructor; [by apply disj_sym|done].
    - intros Hl. by apply IH2, IH1. }
  intros l l' Hp. split; [by apply Himp|by apply Himp].
Qed.

Lemma apart_app l1 l2 : apart (l1 ++ l2) <-> apart l1 /\ apart l2 /\ Forall (fun u => Forall (disj u) l2) l1.
Proof.
  induction l1 as [|u l1 IH]; simpl.
  - split; [intros H; by split|by intros (_ & ? & _)].
  - rewrite IH, Forall_app, Forall_cons. tauto.
Qed.

(** Putting block [u] in front of [l], joined with its first block when they
    touch. *)
Definition coalesce (u : Z * Z) (l : list (Z * Z)) : list (Z * Z) :=
  match l with
  | v :: l' => if u.1 + 8 * u.2 =? v.1 then (u.1, u.2 + v.2) :: l' else u :: l
  | [] => [u]
  end.

Definition units (l : list (Z * Z)) : Z := foldr (fun u z => u.2 + z) 0 l.

Lemma units_app l1 l2 : units (l1 ++ l2) = units l1 + units l2.
Proof. induction l1 as [|u l1 IH]; simpl; [done|]. unfold units in *. lia. Qed.

Lemma units_coalesce u l : units (coalesce u l) = u.2 + units l.
Proof. destruct l as [|v l]; simpl; [lia|]. case_match; simpl; lia. Qed.

Lemma length_coalesce u l : (length (coalesce u l) <= S (length l))%nat.
Proof. destruct l as [|v l]; simpl; [lia|]. case_match; simpl; lia. Qed.

Section blocks.
Context (lo hi : Z).

(** A block inside the heap. *)
Definition block_ok (u : Z * Z) : Prop := lo <= u.1 /\ 1 <= u.2 /\ u.1 + 8 * u.2 <= hi.

Lemma coalesce_ok u l : block_ok u -> Forall block_ok l -> Forall block_ok (coalesce u l).
Proof.
  intros Hu Hl. destruct Hl as [|v l Hv Hl]; simpl; [by constructor|].
  case_match eqn:He; repeat constructor; try done; unfold block_ok in *; simpl; lia.
Qed.

Lemma coalesce_big u l k : Forall block_ok l -> k <= u.2 -> Exists (fun v => k <= v.2) (coalesce u l).
Proof.
  intros Hl Hu. destruct Hl as [|v l Hv Hl]; simpl; [by constructor|].
  case_match; constructor; unfold block_ok in *; simpl; lia.
Qed.

Lemma coalesce_keeps u l k : 0 <= u.2 -> Exists (fun v => k <= v.2) l -> Exists (fun v => k <= v.2) (coalesce u l).
Proof.
  intros Hu Hl. destruct Hl as [v l Hv|v l Hl]; simpl; case_match.
  - constructor. simpl. lia.
  - by apply Exists_cons_tl, Exists_cons_hd.
  - by apply Exists_cons_tl.
  - by apply Exists_cons_tl, Exists_cons_tl.
Qed.

Lemma apart_coalesce u l rest :
  Forall block_ok l -> Forall block_ok rest -> 1 <= u.2 -> apart (u :: l ++ rest) -> apart (coalesce u l ++ rest).
Proof.
  destruct l as [|v l]; [done|]. intros [Hv Hl]%Forall_cons Hr Hu Ha. simpl. case_match eqn:He; [|done].
  destruct Ha as [[_ Hul]%Forall_cons (Hvl & Ha)]. split; [|done].
  assert (Forall block_ok (l ++ rest)) as Hok by (by apply Forall_app).
  rewrite Forall_forall in *. intros x Hx. specialize (Hul x Hx). specialize (Hvl x Hx). specialize (Hok x Hx).
  unfold disj, block_ok in *. simpl. lia.
Qed.

Lemma sorted_coalesce u l :
  Forall block_ok l -> 1 <= u.2 -> Forall (fun v => u.1 + 8 * u.2 <= v.1) l ->
  StronglySorted gap l -> StronglySorted gap (coalesce u l).
Proof.
  destruct l as [|v l]; simpl; [by repeat constructor|].
  intros [Hv Hl]%Forall_cons Hu [Huv Hul]%Forall_cons Hs. case_match eqn:He.
  - apply StronglySorted_inv in Hs as [Hs Hg]. constructor; [done|]. eapply Forall_impl; [exact Hg|].
    unfold gap. intros x. simpl. lia.
  - pose proof Hs as [_ Hg]%StronglySorted_inv. constructor; [done|]. unfold block_ok, gap in *. constructor; [lia|].
    eapply Forall_impl; [exact Hg|]. intros x. simpl. lia.
Qed.

(** The blocks of a coalesced list lie above its first address. *)
Lemma coalesce_above u l a :
  a < u.1 -> Forall (fun v => a < v.1) l -> Forall (fun v => a < v.1) (coalesce u l).
Proof.
  intros Hu Hl. destruct Hl as [|v l Hv Hl]; simpl; [by constructor|].
  case_match; repeat constructor; done.
Qed.
End blocks.

Lemma sorted_app l1 l2 :
  StronglySorted gap (l1 ++ l2) <->
  StronglySorted gap l1 /\ StronglySorted gap l2 /\ Forall (fun u => Forall (gap u) l2) l1.
Proof.
  induction l1 as [|u l1 IH]; simpl.
  - split; [intros H; split_and!; [constructor|done|constructor]|by intros (_ & ? & _)].
  - split.
    + intros [[H1 [H2 H3]]%IH [Hg1 Hg2]%Forall_app]%StronglySorted_inv. split_and!; [by constructor|done|by constructor].
    + intros ([H1 Hg1]%StronglySorted_inv & H2 & [Hg2 H3]%Forall_cons). constructor; [by apply IH|by apply Forall_app].
Qed.

(** Where a block goes in the free list. *)
Lemma free_split lo hi F bp n :
  Forall (block_ok lo hi) F -> StronglySorted gap F -> Forall (disj (bp, n)) F ->
  exists Fl Fr, F = Fl ++ Fr /\ Forall (fun u => u.1 + 8 * u.2 <= bp) Fl /\ Forall (fun u => bp + 8 * n <= u.1) Fr.
Proof.
  induction F as [|u F IH]; intros Hok Hs Hd; [by exists [], []|]. apply Forall_cons in Hok as [Huk Hok].
  apply StronglySorted_inv in Hs as [Hs Hg]. apply Forall_cons in Hd as [Hu Hd]. unfold disj in Hu. simpl in Hu.
  destruct (decide (u.1 + 8 * u.2 <= bp)) as [Hle|Hgt].
  - destruct (IH Hok Hs Hd) as (Fl & Fr & -> & Hl & Hr). exists (u :: Fl), Fr. split_and!; [done|by constructor|done].
  - exists [], (u :: F). split_and!; [done|constructor|]. constructor; [lia|].
    eapply Forall_impl; [exact Hg|]. unfold gap, block_ok in *. intros x. simpl. lia.
Qed.

(** ** The circular list in memory *)

(** Each header but the last points to the next and holds its size. *)
Fixpoint links (w : gmap Z Z) (l : list (Z * Z)) : Prop :=
  match l with
  | u :: ((v :: _) as l') => w !! u.1 = Some v.1 /\ w !! (u.1 + 4) = Some u.2 /\ links w l'
  | _ => True
  end.

Definition ring (w : gmap Z Z) (r : list (Z * Z)) : Prop :=
  match r with
  | [] => False
  | u :: _ => links w (r ++ [u])
  end.

Lemma links_split w l1 u l2 : links w (l1 ++ u :: l2) <-> links w (l1 ++ [u]) /\ links w (u :: l2).
Proof.
  induction l1 as [|x l1 IH]; cbn [app].
  - split; [by intros H; split; [|exact H]|by intros [_ H]].
  - destruct l1 as [|y l1]; cbn [app links] in *; [tauto|]. rewrite IH. tauto.
Qed.

Lemma links_last w l u v : u.1 = v.1 -> links w (l ++ [u]) -> links w (l ++ [v]).
Proof.
  intros Huv. induction l as [|x l IH]; [done|]. destruct l as [|y l]; cbn [app links] in *.
  - by rewrite Huv.
  - intros (H1 & H2 & H3). by split_and!; [| |apply IH].
Qed.

Lemma links_frame w w' l z :
  Forall (fun u => w' !! u.1 = w !! u.1 /\ w' !! (u.1 + 4) = w !! (u.1 + 4)) l ->
  links w (l ++ [z]) -> links w' (l ++ [z]).
Proof.
  induction 1 as [|x l [H1 H2] Hl IH]; [done|]. destruct l as [|y l]; cbn [app links] in *.
  - by rewrite H1, H2.
  - rewrite H1, H2. intros (? & ? & ?). split_and!; [done|done|by apply IH].
Qed.

Lemma ring_rotate w a b : ring w (a ++ b) -> ring w (b ++ a).
Proof.
  destruct b as [|y b]; [by rewrite app_nil_r|]. destruct a as [|x a]; [by rewrite app_nil_r|].
  cbn [app ring]. rewrite <- !app_assoc. cbn [app].
  change (x :: a ++ y :: b ++ [x]) with ((x :: a) ++ y :: (b ++ [x])).
  change (y :: b ++ x :: a ++ [y]) with ((y :: b) ++ x :: (a ++ [y])).
  rewrite (links_split w (x :: a)), (links_split w (y :: b)). intros [H1 H2]. by split.
Qed.

(** The header a node points to. *)
Definition next (b : Z) (l : list (Z * Z)) : Z := match l with [] => b | v :: _ => v.1 end.

Lemma ring_head w u r : ring w (u :: r) -> w !! u.1 = Some (next u.1 r) /\ w !! (u.1 + 4) = Some u.2.
Proof. unfold ring. destruct r as [|v r]; cbn [app links]; tauto. Qed.

Lemma ring_next w b l1 u l2 :
  ring w (l1 ++ u :: l2) -> next b (l1 ++ u :: l2) = b -> w !! u.1 = Some (next b l2) /\ w !! (u.1 + 4) = Some u.2.
Proof.
  intros Hr Hb. apply ring_rotate in Hr. cbn [app] in Hr. apply ring_head in Hr as [H1 H2]. split; [|done].
  rewrite H1. destruct l2 as [|v l2]; [|done]. destruct l1; simpl in *; congruence.
Qed.

(** ** Headers *)

Definition head1 (u : Z * Z) : Z * Z := (u.1, 1).

(** Headers do not overlap. *)
Definition heads_apart (l : list (Z * Z)) : Prop := apart (head1 <$> l).

#[export] Instance heads_apart_perm : Proper ((≡ₚ) ==> iff) heads_apart.
Proof. intros l l' Hp. unfold heads_apart. by rewrite Hp. Qed.

Lemma heads_cons u l : heads_apart (u :: l) <-> Forall (fun v => disj (head1 u) (head1 v)) l /\ heads_apart l.
Proof. unfold heads_apart. cbn [fmap list_fmap apart]. by rewrite Forall_fmap. Qed.

(** Blocks that do not overlap have headers that do not. *)
Lemma apart_heads l : Forall (fun u => 1 <= u.2) l -> apart l -> heads_apart l.
Proof.
  induction 1 as [|u l Hu Hl IH]; [done|]. intros [Hd Ha]. apply heads_cons. split; [|by apply IH].
  rewrite Forall_forall in *. intros v Hv. specialize (Hd v Hv). specialize (Hl v Hv).
  unfold disj, head1 in *. simpl in *. lia.
Qed.

Lemma heads_nodup l : heads_apart l -> NoDup l.*1.
Proof.
  induction l as [|u l IH]; [intros _; apply NoDup_nil; done|]. intros [Hd Ha]%heads_cons. apply NoDup_cons.
  split; [|by apply IH]. intros (v & Hv & Hin)%list_elem_of_fmap. rewrite Forall_forall in Hd.
  specialize (Hd v Hin). unfold disj, head1 in Hd. simpl in *. lia.
Qed.

(** As many words as list nodes, at least. *)
Lemma ring_size w r : heads_apart r -> ring w r -> (length r <= size w)%nat.
Proof.
  intros Hh%heads_nodup Hr. rewrite <- (length_fmap fst), <- (size_list_to_set (C := gset Z)) by done.
  rewrite <- size_dom. apply subseteq_size. intros a (u & -> & (l1 & l2 & ->)%list_elem_of_split)%elem_of_list_to_set%list_elem_of_fmap.
  apply ring_rotate in Hr. apply ring_head in Hr as [H1 _]. apply elem_of_dom. by eexists.
Qed.

(** ** Linking a block in *)

Lemma run_word {A} a v (k : Z -> U uheap A) h : words h !! a = Some v -> (x <- word a ;; k x) h = k v h.
Proof. unfold word, ubind, ugets, deref. simpl. by intros ->. Qed.

Lemma ubind_Ret {S A B} (m : U S A) (f : A -> U S B) s a s' : m s = Ret (a, s') -> ubind m f s = f a s'.
Proof. unfold ubind. by intros ->. Qed.

Lemma links_cons w u l z :
  links w (u :: l ++ [z]) <-> w !! u.1 = Some (next z.1 l) /\ w !! (u.1 + 4) = Some u.2 /\ links w (l ++ [z]).
Proof. by destruct l. Qed.

(** A header in the 32-bit address space, with its block. *)
Definition inspace (u : Z * Z) : Prop := 0 <= u.1 /\ 0 <= u.2 /\ u.1 + 8 * u.2 + 8 <= 2 ^ 32.

Lemma hplus_in u : inspace u -> hplus u.1 u.2 = u.1 + 8 * u.2.
Proof. intros Hu. unfold inspace in Hu. apply u32_id. lia. Qed.

Lemma size_addr u : inspace u -> u32 (u.1 + 4) = u.1 + 4.
Proof. intros Hu. unfold inspace in Hu. apply u32_id. lia. Qed.

(** Words outside the headers [l]. *)
Definition same_off (l : list Z) (w w' : gmap Z Z) : Prop :=
  forall a, Forall (fun p => a <> p /\ a <> p + 4) l -> w' !! a = w !! a.

Lemma same_off_head l w w' u :
  same_off l w w' -> Forall (fun p => disj (head1 u) (p, 1)) l ->
  w' !! u.1 = w !! u.1 /\ w' !! (u.1 + 4) = w !! (u.1 + 4).
Proof.
  intros Hs Hd. split; apply Hs; (eapply Forall_impl; [exact Hd|]); unfold disj, head1; intros p; simpl; lia.
Qed.

Lemma links_off l w w' r z :
  same_off l w w' -> Forall (fun u => Forall (fun p => disj (head1 u) (p, 1)) l) r ->
  links w (r ++ [z]) -> links w' (r ++ [z]).
Proof.
  intros Hs Hd. apply links_frame. eapply Forall_impl; [exact Hd|]. intros u. by apply same_off_head.
Qed.

Lemma links_suffix w R R1 z : R1 `suffix_of` R -> links w (R ++ [z]) -> links w (R1 ++ [z]).
Proof.
  intros [l ->]. rewrite <- app_assoc. destruct R1 as [|u R1]; [done|]. cbn [app]. intros H%links_split. apply H.
Qed.

Lemma Forall_suffix {A} (P : A -> Prop) l l' : l' `suffix_of` l -> Forall P l -> Forall P l'.
Proof. intros [k ->]. by intros [_ H]%Forall_app. Qed.

(** A new first node in front of a part of the list. *)
Lemma links_push w w1 u R R1 z :
  links w (R ++ [z]) -> R1 `suffix_of` R -> same_off [u.1] w w1 ->
  Forall (fun v => disj (head1 u) (head1 v)) R -> w1 !! u.1 = Some (next z.1 R1) -> w1 !! (u.1 + 4) = Some u.2 ->
  links w1 (u :: R1 ++ [z]).
Proof.
  intros Hl HR Hs Hd H1 H2. apply links_cons. split_and!; [done|done|].
  apply (links_suffix w1 R); [done|]. apply (links_off [u.1] w); [done| |done].
  eapply Forall_impl; [exact Hd|]. intros v Hv. constructor; [by apply disj_sym|done].
Qed.

(** The first if of free: [bp] is linked to what follows, joined with it when
    they touch. *)
Definition joined (w w1 : gmap Z Z) (p pn bp m : Z) (R R1 : list (Z * Z)) : Prop :=
  w1 !! p = w !! p /\ w1 !! (p + 4) = w !! (p + 4) /\ same_off [bp] w w1 /\ R1 `suffix_of` R /\
  links w1 ((bp, m) :: R1 ++ [(p, pn)]) /\ 0 <= m /\ bp + 8 * m + 8 <= 2 ^ 32.

Lemma joined_intro w w1 p pn bp n m R R1 :
  links w (R ++ [(p, pn)]) -> heads_apart ((p, pn) :: (bp, n) :: R) ->
  same_off [bp] w w1 -> w1 !! bp = Some (next p R1) -> w1 !! (bp + 4) = Some m ->
  R1 `suffix_of` R -> 0 <= m -> bp + 8 * m + 8 <= 2 ^ 32 -> joined w w1 p pn bp m R R1.
Proof.
  intros Hl [[Hpb Hp]%Forall_cons [Hb _]%heads_cons]%heads_cons Hs Hw1 Hw2 HR1 Hm0 Hm.
  destruct (same_off_head [bp] w w1 (p, pn) Hs) as [Hq1 Hq2]; [by apply Forall_cons|].
  unfold joined. split_and!; try done. by apply (links_push w w1 (bp, m) R).
Qed.

Lemma join_next_ok w fp p pn R bp n :
  ring w ((p, pn) :: R) -> w !! (bp + 4) = Some n -> heads_apart ((p, pn) :: (bp, n) :: R) ->
  Forall inspace ((p, pn) :: (bp, n) :: R) -> p < bp ->
  exists w1 m R1, coalesce (bp, n) R = (bp, m) :: R1 /\
    join_next bp p (mk_uheap w fp) = Ret (tt, mk_uheap w1 fp) /\ joined w w1 p pn bp m R R1.
Proof.
  intros Hr Hn Hh [_ [Hbs HRs]%Forall_cons]%Forall_cons Hlt. apply links_cons in Hr as (H1 & _ & Hl). cbn [fst snd] in *.
  assert (hplus bp n = bp + 8 * n) as Hbn by (by apply (hplus_in (bp, n))).
  assert (u32 (bp + 4) = bp + 4) as Hb4 by (by apply (size_addr (bp, n))).
  unfold join_next, s_ptr, s_size, set_size, set_ptr. rewrite Hb4, (run_word _ n), (run_word _ (next p R)) by done.
  unfold inspace in *. cbn [fst snd] in *.
  destruct (Z.eq_dec (hplus bp n) (next p R)) as [He|Hne].
  - rewrite (proj2 (Z.eqb_eq _ _)) by done. destruct R as [|[q qn] R]; [simpl in He; lia|].
    pose proof Hh as [[_ [Hpq _]%Forall_cons]%Forall_cons [[Hbq _]%Forall_cons _]%heads_cons]%heads_cons.
    pose proof Hl as (H3 & H4 & _)%links_cons. apply Forall_cons in HRs as [Hqs _].
    unfold inspace, disj, head1 in *. cbn [fst snd next] in *.
    exists (<[bp := next p R]> (<[bp + 4 := n + qn]> w)), (n + qn), R.
    assert (u32 (q + 4) = q + 4) as Hq4 by (apply u32_id; lia).
    split; [simpl; by rewrite (proj2 (Z.eqb_eq _ q)) by lia|]. split.
    + rewrite (run_word p q) by done. rewrite Hq4, (run_word (q + 4) qn), u32_id by (done || lia).
      unfold set_word. unfold ubind at 1. cbn [umod pbind fst snd].
      rewrite (run_word p q) by (simpl; by rewrite lookup_insert_ne by lia).
      by rewrite (run_word q (next p R)) by (simpl; by rewrite lookup_insert_ne by lia).
    + apply (joined_intro w _ p pn bp n); try done; try lia.
      * intros a [[Ha1 Ha2] _]%Forall_cons. by rewrite !lookup_insert_ne.
      * by rewrite lookup_insert_eq.
      * by rewrite lookup_insert_ne, lookup_insert_eq by lia.
      * by exists [(q, qn)].
  - rewrite (proj2 (Z.eqb_neq _ _)) by done. exists (<[bp := next p R]> w), n, R. split; [|split].
    + destruct R as [|[q qn] R]; [done|]. simpl in *. by rewrite (proj2 (Z.eqb_neq _ q)) by lia.
    + by rewrite (run_word p (next p R)).
    + apply (joined_intro w _ p pn bp n); try done; try lia.
      * intros a [[Ha _] _]%Forall_cons. by rewrite lookup_insert_ne.
      * by rewrite lookup_insert_eq.
      * rewrite lookup_insert_ne by lia. done.
Qed.

(** The second if: [p] is linked to [bp], joined with it when they touch. *)
Lemma join_prev_ok w w1 fp p pn R R1 bp n m :
  w !! (p + 4) = Some pn -> heads_apart ((p, pn) :: (bp, n) :: R) -> inspace (p, pn) -> p < bp ->
  joined w w1 p pn bp m R R1 ->
  exists w2, join_prev bp p (mk_uheap w1 fp) = Ret (tt, mk_uheap w2 fp) /\
    ring w2 (coalesce (p, pn) ((bp, m) :: R1)) /\ same_off [p; bp] w w2.
Proof.
  intros Hpn [[Hpb Hp]%Forall_cons _]%heads_cons Hps Hlt (_ & Hq & Hs & HR & Hl & Hm0 & Hm).
  pose proof Hl as (H1 & H2 & Hl1)%links_cons. assert (u32 (bp + 4) = bp + 4) as Hb4 by (apply u32_id; unfold inspace in Hps; simpl in *; lia).
  assert (u32 (p + 4) = p + 4) as Hp4 by (by apply (size_addr (p, pn))).
  assert (Forall (fun v => disj (head1 (p, pn)) (head1 v)) ((bp, m) :: R1)) as Hd.
  { constructor; [done|]. by apply (Forall_suffix _ R). }
  unfold join_prev, s_ptr, s_size, set_size, set_ptr. rewrite Hp4, (run_word _ pn) by (simpl; congruence).
  rewrite (hplus_in (p, pn) Hps : hplus p pn = p + 8 * pn). unfold inspace, disj, head1 in *. cbn [fst snd] in *.
  cbn [coalesce fst snd]. destruct (Z.eqb_spec (p + 8 * pn) bp) as [He|Hne].
  - exists (<[p := next p R1]> (<[p + 4 := pn + m]> w1)). split; [|split].
    + rewrite Hb4, (run_word _ m), u32_id by (done || lia). unfold set_word. unfold ubind at 1. cbn [umod pbind fst snd].
      by rewrite (run_word bp (next p R1)) by (simpl; by rewrite lookup_insert_ne by lia).
    + cbn [app]. apply (links_push w1 _ (p, pn + m) R1 R1 (p, pn + m)).
      * by apply (links_last _ _ (p, pn)).
      * done.
      * intros a [[Ha1 Ha2] _]%Forall_cons. by rewrite !lookup_insert_ne.
      * by apply Forall_cons in Hd as [_ Hd].
      * by rewrite lookup_insert_eq.
      * cbn [fst snd]. by rewrite lookup_insert_ne, lookup_insert_eq by lia.
    + intros a [[Ha1 Ha2] Hb]%Forall_cons. rewrite !lookup_insert_ne by done. by apply Hs.
  - exists (<[p := bp]> w1). split; [done|split].
    + apply (links_push w1 _ (p, pn) ((bp, m) :: R1) ((bp, m) :: R1)).
      * done.
      * done.
      * intros a [[Ha1 Ha2] _]%Forall_cons. by rewrite lookup_insert_ne.
      * done.
      * by rewrite lookup_insert_eq.
      * rewrite lookup_insert_ne by (cbn [fst]; lia). cbn [fst snd]. congruence.
    + intros a [[Ha1 Ha2] Hb]%Forall_cons. rewrite lookup_insert_ne by done. by apply Hs.
Qed.

(** ** Finding the place of a block *)

Section find.
Context (base bp : Z) (w : gmap Z Z) (fp : Z) (low high : list (Z * Z)).
Hypothesis Hring : ring w (low ++ high).
Hypothesis Hbase : next base (low ++ high) = base.
Hypothesis Hsorted : StronglySorted (fun u v => u.1 < v.1) (low ++ high).
Hypothesis Hlow : Forall (fun u => base <= u.1 < bp) low.
Hypothesis Hhigh : Forall (fun u => bp < u.1) high.
Hypothesis Hne : low <> [].

Lemma sorted_mid l1 u v l2 : low ++ high = l1 ++ u :: v :: l2 -> u.1 < v.1.
Proof.
  intros He. rewrite He in Hsorted. clear -Hsorted. induction l1 as [|y l1 IH]; cbn [app] in *.
  - apply StronglySorted_inv in Hsorted as [_ H]. by apply Forall_cons in H as [H _].
  - apply StronglySorted_inv in Hsorted as [H _]. by apply IH.
Qed.

Lemma find_step l1 u l2 : low ++ high = l1 ++ u :: l2 -> w !! u.1 = Some (next base l2).
Proof. intros He. rewrite He in Hring, Hbase. by destruct (ring_next w base l1 u l2). Qed.

(** From a node below the block the search walks up to the last of them. *)
Lemma find_low l2 l1 u fuel :
  low = l1 ++ u :: l2 -> (length l2 <= fuel)%nat ->
  exists P p pn, low = P ++ [(p, pn)] /\ free_find fuel bp u.1 (mk_uheap w fp) = Ret (p, mk_uheap w fp).
Proof.
  revert l1 u fuel. induction l2 as [|v l2 IH]; intros l1 u fuel He Hf.
  - assert (w !! u.1 = Some (next base high)) as Hn by (apply (find_step l1 u); rewrite He, <- app_assoc; done).
    pose proof Hlow as Hl. rewrite He in Hl. apply Forall_app in Hl as [_ [Hu _]%Forall_cons].
    exists l1, u.1, u.2. split; [by rewrite He; destruct u|].
    destruct fuel; cbn [free_find]; unfold s_ptr; rewrite (run_word u.1 (next base high)), (proj2 (Z.ltb_lt u.1 bp)) by (done || lia).
    all: destruct high as [|v high']; cbn [next andb orb].
    1, 3: rewrite (proj2 (Z.ltb_ge bp base)), (proj2 (Z.leb_le base u.1)) by lia; done.
    all: apply Forall_cons in Hhigh as [Hv _]; by rewrite (proj2 (Z.ltb_lt bp v.1)) by lia.
  - assert (low ++ high = l1 ++ u :: v :: l2 ++ high) as Hs by (rewrite He, <- app_assoc; done).
    pose proof (find_step _ _ _ Hs) as Hn. pose proof (sorted_mid _ _ _ _ Hs) as Huv.
    pose proof Hlow as Hl. rewrite He in Hl. apply Forall_app in Hl as [_ [Hu [Hv _]%Forall_cons]%Forall_cons].
    destruct fuel as [|fuel]; [simpl in Hf; lia|]. cbn [free_find]. unfold s_ptr at 1. rewrite (run_word u.1 v.1) by done.
    rewrite (proj2 (Z.ltb_ge bp v.1)), (proj2 (Z.leb_gt v.1 u.1)), andb_false_r by lia. cbn [andb].
    apply (IH (l1 ++ [u])); [by rewrite <- app_assoc|simpl in Hf; lia].
Qed.

(** From a node above it the search goes round by [base]. *)
Lemma find_high l2 l1 u fuel :
  high = l1 ++ u :: l2 -> (length l2 + length low <= fuel)%nat ->
  exists P p pn, low = P ++ [(p, pn)] /\ free_find fuel bp u.1 (mk_uheap w fp) = Ret (p, mk_uheap w fp).
Proof.
  revert l1 u fuel. induction l2 as [|v l2 IH]; intros l1 u fuel He Hf.
  all: pose proof Hhigh as Hh; rewrite He in Hh; apply Forall_app in Hh as [_ [Hu Hh]%Forall_cons].
  - assert (low ++ high = (low ++ l1) ++ [u]) as Hs by (rewrite He, <- app_assoc; done).
    pose proof (find_step _ _ _ Hs) as Hn. 
    assert (exists b low', low = b :: low') as (b & low' & Hl) by (destruct low as [|b low']; [done|by exists b, low']).
    pose proof Hbase as Hb0. pose proof Hlow as Hb. rewrite Hl in Hb0, Hb, Hf. simpl in Hb0. apply Forall_cons in Hb as [Hb _].
    destruct fuel as [|fuel]; [simpl in Hf; lia|]. cbn [free_find]. unfold s_ptr at 1.
    rewrite (run_word u.1 base), (proj2 (Z.ltb_ge u.1 bp)), (proj2 (Z.ltb_ge bp base)) by (done || lia).
    cbn [andb orb]. rewrite andb_false_r. rewrite <- Hb0. apply (find_low low' []); [done|]. simpl in Hf. lia.
  - assert (low ++ high = (low ++ l1) ++ u :: v :: l2) as Hs by (rewrite He, <- app_assoc; done).
    pose proof (find_step _ _ _ Hs) as Hn. pose proof (sorted_mid _ _ _ _ Hs) as Huv.
    destruct fuel as [|fuel]; [simpl in Hf; lia|]. cbn [free_find]. unfold s_ptr at 1.
    rewrite (run_word u.1 v.1), (proj2 (Z.ltb_ge u.1 bp)), (proj2 (Z.leb_gt v.1 u.1)) by (done || lia). cbn [andb].
    apply (IH (l1 ++ [u])); [by rewrite <- app_assoc|simpl in Hf; lia].
Qed.

Lemma free_find_ok x fuel :
  x ∈ (low ++ high).*1 -> (length (low ++ high) <= fuel)%nat ->
  exists P p pn, low = P ++ [(p, pn)] /\ free_find fuel bp x (mk_uheap w fp) = Ret (p, mk_uheap w fp).
Proof.
  intros (u & -> & [Hin|Hin]%elem_of_app)%list_elem_of_fmap Hf; rewrite length_app in Hf;
    apply list_elem_of_split in Hin as (l1 & l2 & He).
  - apply (find_low l2 l1); [done|]. rewrite He, length_app in Hf. simpl in Hf. lia.
  - apply (find_high l2 l1); [done|]. rewrite He, length_app in Hf. simpl in Hf. lia.
Qed.
End find.

(** ** The free list after a block is put back *)

Lemma coalesce_head u l : exists m l', coalesce u l = (u.1, m) :: l'.
Proof. destruct l as [|v l]; simpl; [by exists u.2, []; destruct u|]. case_match; [by eexists _, _|]. exists u.2, (v :: l). by destruct u. Qed.

Lemma coalesce_app u l P :
  l <> [] \/ (forall v P', P = v :: P' -> u.1 + 8 * u.2 <> v.1) -> coalesce u (l ++ P) = coalesce u l ++ P.
Proof.
  intros H. destruct l as [|v l]; simpl; [|by case_match]. destruct P as [|v P]; simpl; [done|].
  destruct H as [H|H]; [done|]. by rewrite (proj2 (Z.eqb_neq _ _)) by (by eapply H).
Qed.

Section putback.
Context (base brk bp n : Z) (Fl Fr A : list (Z * Z)).
Hypothesis Hsorted : StronglySorted gap (Fl ++ Fr).
Hypothesis Hapart : apart (Fl ++ Fr ++ (bp, n) :: A).
Hypothesis Hok : Forall (block_ok (base + 8) brk) (Fl ++ Fr ++ (bp, n) :: A).
Hypothesis Hlow : Forall (fun u => u.1 + 8 * u.2 <= bp) Fl.
Hypothesis Hhigh : Forall (fun u => bp + 8 * n <= u.1) Fr.

Let C := coalesce (bp, n) Fr.

Lemma putback_right :
  StronglySorted gap C /\ apart (C ++ Fl ++ A) /\ Forall (block_ok (base + 8) brk) (C ++ Fl ++ A) /\ units C = n + units Fr /\
  Exists (fun u => n <= u.2) C.
Proof.
  pose proof Hok as [HFl [HFr [Hb HA]%Forall_cons]%Forall_app]%Forall_app.
  apply sorted_app in Hsorted as (HsL & HsR & HsLR).
  assert (1 <= (bp, n).2) as Hn by apply Hb. split_and!.
  - by apply (sorted_coalesce (base + 8) brk).
  - apply (apart_coalesce (base + 8) brk); try done; [by apply Forall_app|].
    revert Hapart. apply apart_perm. solve_Permutation.
  - apply Forall_app. split; [by apply coalesce_ok|by apply Forall_app].
  - apply units_coalesce.
  - by apply (coalesce_big (base + 8) brk).
Qed.

(** [P] and [p] are the nodes below the block, [base] included. *)
Lemma putback P p pn :
  (base, 0) :: Fl = P ++ [(p, pn)] ->
  exists F', P ++ coalesce (p, pn) C = (base, 0) :: F' /\ StronglySorted gap F' /\ apart (F' ++ A) /\
    Forall (block_ok (base + 8) brk) (F' ++ A) /\ units F' = units (Fl ++ Fr) + n /\ Exists (fun u => n <= u.2) F' /\
    (length F' <= S (length (Fl ++ Fr)))%nat.
Proof.
  intros HP. destruct putback_right as (HsC & HaC & HkC & HuC & HeC). destruct (coalesce_head (bp, n) Fr) as (m & C' & HC).
  fold C in HC. destruct P as [|b P].
  - injection HP as <- <- ->. exists C. cbn [app] in *. split_and!; try done; [|lia|apply length_coalesce].
    + rewrite HC. simpl. rewrite (proj2 (Z.eqb_neq _ bp)); [done|].
      apply Forall_app in Hok as [_ [Hb _]%Forall_cons]. unfold block_ok in Hb. simpl in Hb. lia.
  - cbn [app] in HP. injection HP as <- ->. exists (P ++ coalesce (p, pn) C). split; [done|].
    apply sorted_app in Hsorted as (HsL & HsR & HsLR). apply sorted_app in HsL as (HsP & _ & HPp).
    apply Forall_app in HsLR as [HsPR [HpR _]%Forall_cons]. apply Forall_app in Hlow as [HlP [Hlp _]%Forall_cons].
    apply Forall_app in HkC as [HkC [[HkP [Hkp _]%Forall_cons]%Forall_app HkA]%Forall_app].
    assert (Forall (fun v => p + 8 * pn <= v.1) C) as HpC.
    { eapply Forall_impl; [apply (coalesce_above (bp, n) Fr (p + 8 * pn - 1))|]; cbn [fst snd] in *; [lia| |].
      - eapply Forall_impl; [exact HpR|]. unfold gap. simpl. intros v. lia.
      - simpl. intros v. lia. }
    split_and!.
    + apply sorted_app. split_and!; [done|by apply (sorted_coalesce (base + 8) brk); [|apply Hkp| |]|].
      rewrite Forall_forall in *. intros u Hu. unfold gap. apply coalesce_above.
      * specialize (HPp u Hu). apply Forall_cons in HPp as [H _]. exact H.
      * apply Forall_forall. intros v Hv. specialize (HpC v Hv). specialize (HPp u Hu).
        apply Forall_cons in HPp as [H _]. unfold gap, block_ok in *. simpl in *. lia.
    + rewrite <- app_assoc. rewrite (Permutation_app_swap_app P). apply (apart_coalesce (base + 8) brk); try done.
      * by apply Forall_app.
      * apply Hkp.
      * revert HaC. apply apart_perm. solve_Permutation.
    + rewrite <- app_assoc. apply Forall_app. split; [done|]. apply Forall_app. split; [by apply coalesce_ok|done].
    + rewrite units_app, units_coalesce, HuC, !units_app. simpl. lia.
    + apply Exists_app. right. apply coalesce_keeps; [|done]. unfold block_ok in Hkp. simpl in *. lia.
    + pose proof (length_coalesce (bp, n) Fr). pose proof (length_coalesce (p, pn) C).
      rewrite !length_app in *. simpl. fold C in H. lia.
Qed.
End putback.

(** ** The invariant of the heap *)

(** [F] are the free blocks and [A] the blocks in use: none overlap, all lie
    between [base] and [brk], neighbours in the free list do not touch, and the
    header of a block in use holds its size. *)
Record arena (base brk : Z) (F A : list (Z * Z)) (h : uheap) : Prop := {
  ar_base : 0 < base;
  ar_room : base + 8 <= brk;
  ar_brk : brk <= 2 ^ 31;
  ar_ring : ring (words h) ((base, 0) :: F);
  ar_freep : freep h ∈ ((base, 0) :: F).*1;
  ar_sorted : StronglySorted gap F;
  ar_apart : apart (F ++ A);
  ar_ok : Forall (block_ok (base + 8) brk) (F ++ A);
  ar_live : Forall (fun u => words h !! (u.1 + 4) = Some u.2) A
}.

(** The words of the blocks of [A] are as before. *)
Definition untouched (A : list (Z * Z)) (h h' : uheap) : Prop :=
  Forall (fun u => forall a, u.1 <= a < u.1 + 8 * u.2 -> words h' !! a = words h !! a) A.

Lemma untouched_live A h h' :
  untouched A h h' -> Forall (fun u => 1 <= u.2) A -> Forall (fun u => words h !! (u.1 + 4) = Some u.2) A ->
  Forall (fun u => words h' !! (u.1 + 4) = Some u.2) A.
Proof.
  unfold untouched. rewrite !Forall_forall. intros Hu H1 Hl u Hin. specialize (H1 u Hin).
  rewrite (Hu u Hin) by lia. by apply Hl.
Qed.

(** Writing headers that are apart from the blocks of [A]. *)
Lemma same_off_untouched l w w' fp fp' A :
  same_off l w w' -> Forall (fun u => Forall (fun p => disj u (p, 1)) l) A ->
  untouched A (mk_uheap w fp) (mk_uheap w' fp').
Proof.
  intros Hs Hd. eapply Forall_impl; [exact Hd|]. intros u Hu a Ha. apply Hs. eapply Forall_impl; [exact Hu|].
  unfold disj. intros p. simpl. lia.
Qed.

Section arena.
Context (base : Z).

Lemma blocks_heads brk l : apart l -> Forall (block_ok (base + 8) brk) l -> heads_apart ((base, 0) :: l).
Proof.
  intros Ha Hok. apply heads_cons. split.
  - eapply Forall_impl; [exact Hok|]. unfold block_ok, disj. simpl. lia.
  - apply apart_heads; [|done]. eapply Forall_impl; [exact Hok|]. by intros u [_ [? _]].
Qed.

Lemma arena_heads brk F A h : arena base brk F A h -> heads_apart ((base, 0) :: F ++ A).
Proof. intros H. apply (blocks_heads brk); [apply (ar_apart _ _ _ _ _ H)|apply (ar_ok _ _ _ _ _ H)]. Qed.

Lemma arena_inspace brk F A h : arena base brk F A h -> F ++ A <> [] -> Forall inspace ((base, 0) :: F ++ A).
Proof.
  intros H Hne. pose proof (ar_ok _ _ _ _ _ H) as Hok. pose proof (ar_brk _ _ _ _ _ H). pose proof (ar_base _ _ _ _ _ H).
  constructor.
  - destruct Hok as [|u l Hu _]; [done|]. unfold block_ok, inspace in *. simpl. lia.
  - eapply Forall_impl; [exact Hok|]. unfold block_ok, inspace. lia.
Qed.

(** The list is in order of address. *)
Lemma arena_sorted brk F A h : arena base brk F A h -> StronglySorted (fun u v => u.1 < v.1) ((base, 0) :: F).
Proof.
  intros H. pose proof (ar_ok _ _ _ _ _ H) as [Hok _]%Forall_app. pose proof (ar_sorted _ _ _ _ _ H) as Hs.
  constructor.
  - clear H. induction Hs as [|u F Hs IH Hg]; [constructor|]. apply Forall_cons in Hok as [Hu Hok]. constructor; [by apply IH|].
    eapply Forall_impl; [exact Hg|]. unfold gap, block_ok in *. lia.
  - eapply Forall_impl; [exact Hok|]. unfold block_ok. simpl. lia.
Qed.

Lemma arena_perm brk F A A' h : A ≡ₚ A' -> arena base brk F A h -> arena base brk F A' h.
Proof. intros HA []. by split; rewrite <- ?HA. Qed.

Lemma freep_pos brk F A h : arena base brk F A h -> 0 < freep h.
Proof.
  intros H. pose proof (ar_base _ _ _ _ _ H).
  pose proof (ar_freep _ _ _ _ _ H) as (u & -> & [->|Hu]%elem_of_cons)%list_elem_of_fmap; [done|].
  pose proof (ar_ok _ _ _ _ _ H) as [Hok _]%Forall_app. rewrite Forall_forall in Hok. specialize (Hok u Hu).
  unfold block_ok in Hok. lia.
Qed.

Lemma heads_app l1 l2 : heads_apart (l1 ++ l2) -> heads_apart l1.
Proof. unfold heads_apart. rewrite fmap_app. by intros [? _]%apart_app. Qed.

(** The node before the block: the header of the block and of its neighbours. *)
Lemma arena_link brk Fl Fr bp n A h P p pn :
  arena base brk (Fl ++ Fr) ((bp, n) :: A) h -> (base, 0) :: Fl = P ++ [(p, pn)] ->
  ring (words h) ((p, pn) :: Fr ++ P) /\ heads_apart ((p, pn) :: (bp, n) :: Fr ++ P) /\
  Forall inspace ((p, pn) :: (bp, n) :: Fr ++ P) /\ Forall (fun u => disj u (p, 1) /\ disj u (bp, 1)) A.
Proof.
  intros H HP. pose proof (arena_heads _ _ _ _ H) as Hh. pose proof (arena_inspace _ _ _ _ H) as Hin.
  pose proof (ar_ring _ _ _ _ _ H) as Hr. pose proof (ar_apart _ _ _ _ _ H) as Ha. pose proof (ar_ok _ _ _ _ _ H) as Hok.
  assert ((base, 0) :: (Fl ++ Fr) ++ (bp, n) :: A ≡ₚ ((p, pn) :: (bp, n) :: Fr ++ P) ++ A) as Hperm.
  { transitivity (((base, 0) :: Fl) ++ Fr ++ (bp, n) :: A); [by rewrite <- app_assoc|]. rewrite HP. solve_Permutation. }
  split_and!.
  - change ((base, 0) :: Fl ++ Fr) with (((base, 0) :: Fl) ++ Fr) in Hr. rewrite HP, <- app_assoc in Hr.
    by apply (ring_rotate _ P ((p, pn) :: Fr)) in Hr.
  - rewrite Hperm in Hh. by apply heads_app in Hh.
  - rewrite Hperm in Hin. assert (Forall inspace (((p, pn) :: (bp, n) :: Fr ++ P) ++ A)) as Hin1 by (apply Hin; by destruct Fl, Fr).
    by apply Forall_app in Hin1 as [? _].
  - apply apart_app in Ha as (_ & [HbA _] & HFA). apply Forall_app in Hok as [HokF [Hokb HokA]%Forall_cons].
    assert (Forall (fun v => disj v (p, 1)) A) as Hp.
    { assert ((p, pn) ∈ (base, 0) :: Fl) as [[= -> ->]|Hpl]%elem_of_cons by (rewrite HP; set_solver).
      - eapply Forall_impl; [exact HokA|]. unfold block_ok, disj. simpl. lia.
      - rewrite Forall_forall in HFA, HokF. specialize (HFA (p, pn) ltac:(set_solver)). specialize (HokF (p, pn) ltac:(set_solver)).
        apply Forall_cons in HFA as [_ HFA]. eapply Forall_impl; [exact HFA|]. unfold block_ok, disj in *. simpl in *. lia. }
    rewrite Forall_forall in *. intros v Hv. split; [by apply Hp|]. specialize (HbA v Hv).
    unfold block_ok, disj in *. simpl in *. lia.
Qed.

(** Where free puts the block: after [p], the last node below it. *)
Lemma free_place brk F A bp n h :
  arena base brk F ((bp, n) :: A) h ->
  exists Fl Fr P p pn, F = Fl ++ Fr /\ Forall (fun u => u.1 + 8 * u.2 <= bp) Fl /\
    Forall (fun u => bp + 8 * n <= u.1) Fr /\ (base, 0) :: Fl = P ++ [(p, pn)] /\ p < bp /\
    free_find (size (words h)) bp (freep h) h = Ret (p, h).
Proof.
  intros H. pose proof (arena_heads _ _ _ _ H) as Hh. pose proof (arena_sorted _ _ _ _ H) as Hs.
  pose proof H as [_ _ _ Hring Hfp Hsort Hap Hok _].
  destruct (free_split (base + 8) brk F bp n) as (Fl & Fr & -> & HFl & HFr).
  { by apply Forall_app in Hok as [? _]. }
  { done. }
  { apply apart_app in Hap as (_ & _ & HdF). eapply Forall_impl; [exact HdF|]. intros u [Hu _]%Forall_cons. by apply disj_sym. }
  rewrite <- !app_assoc in *. pose proof Hok as [HokL [HokR [Hokb HokA]%Forall_cons]%Forall_app]%Forall_app.
  destruct h as [w fp]. cbn [words freep] in *.
  destruct (free_find_ok base bp w fp ((base, 0) :: Fl) Fr) with (x := fp) (fuel := size w) as (P & p & pn & HP & Hfind);
    try done.
  { constructor; [unfold block_ok in Hokb; simpl in *; lia|]. rewrite Forall_forall in *. intros u Hu.
    specialize (HFl u Hu). specialize (HokL u Hu). unfold block_ok in *. simpl. lia. }
  { eapply Forall_impl; [exact HFr|]. unfold block_ok in Hokb. simpl in *. lia. }
  { apply ring_size; [|done]. apply (heads_app _ ((bp, n) :: A)). cbn [app]. by rewrite <- app_assoc. }
  exists Fl, Fr, P, p, pn. split_and!; try done.
  assert ((p, pn) ∈ (base, 0) :: Fl) as [[= -> ->]|Hpl]%elem_of_cons by (rewrite HP; set_solver).
  - unfold block_ok in Hokb. simpl in Hokb. lia.
  - rewrite Forall_forall in HFl, HokL. specialize (HFl _ Hpl). specialize (HokL _ Hpl). unfold block_ok in HokL. simpl in *. lia.
Qed.

Lemma free_ok brk F A bp n h :
  arena base brk F ((bp, n) :: A) h ->
  exists F' h', free (bp + 8) h = Ret (tt, h') /\ arena base brk F' A h' /\ units F' = units F + n /\
    Exists (fun u => n <= u.2) F' /\ (length F' <= S (length F))%nat /\ untouched A h h'.
Proof.
  intros H. destruct (free_place _ _ _ _ _ _ H) as (Fl & Fr & P & p & pn & -> & HFl & HFr & HP & Hlt & Hfind).
  pose proof H as [Hb0 Hroom Hbrk Hring Hfp Hsort Hap Hok [Hbw Hlive]%Forall_cons]. rewrite <- !app_assoc in *.
  pose proof Hok as [_ [_ [Hokb HokA]%Forall_cons]%Forall_app]%Forall_app. destruct h as [w fp]. cbn [words freep] in *.
  destruct (arena_link _ _ _ _ _ _ _ _ _ _ H HP) as (Hr & Hha & Hin & Hdis).
  destruct (join_next_ok w fp p pn (Fr ++ P) bp n) as (w1 & m & R1 & HR1 & Hj1 & Hjd); try done.
  destruct (join_prev_ok w w1 fp p pn (Fr ++ P) R1 bp n m) as (w2 & Hj2 & Hr2 & Hoff); try done.
  { by apply ring_head in Hr as [_ ?]. }
  { by apply Forall_cons in Hin as [? _]. }
  destruct (putback base brk bp n Fl Fr A) with P p pn as (F' & HF' & HsF & HaF & HkF & HuF & HeF & HlF); try done.
  assert (coalesce (p, pn) ((bp, m) :: R1) = coalesce (p, pn) (coalesce (bp, n) Fr) ++ P) as Hco.
  { rewrite <- HR1, coalesce_app.
    - apply coalesce_app. left. by destruct (coalesce_head (bp, n) Fr) as (? & ? & ->).
    - right. intros v P' ->. injection HP as <- _. unfold block_ok in Hokb. simpl in *. lia. }
  rewrite Hco in Hr2. destruct (coalesce_head (p, pn) (coalesce (bp, n) Fr)) as (pm & C' & HC').
  assert (untouched A (mk_uheap w fp) (mk_uheap w2 p)) as Hunt.
  { apply (same_off_untouched [p; bp]); [done|]. eapply Forall_impl; [exact Hdis|]. intros u [? ?].
    by repeat (apply Forall_cons; split). }
  exists F', (mk_uheap w2 p). split; [|split; [|done]].
  - unfold free. rewrite Z.add_simpl_r, u32_id by (unfold block_ok in Hokb; simpl in Hokb; lia).
    unfold ubind at 1. cbn [ugets pbind fst snd freep]. unfold ubind at 1. cbn [ugets pbind fst snd words].
    rewrite (ubind_Ret _ _ _ _ _ Hfind), (ubind_Ret _ _ _ _ _ Hj1), (ubind_Ret _ _ _ _ _ Hj2). done.
  - split; cbn [words freep]; try done.
    + rewrite <- HF'. by apply (ring_rotate _ _ P).
    + rewrite <- HF', HC', fmap_app. simpl. set_solver.
    + by apply (untouched_live A _ _ Hunt); [eapply Forall_impl; [exact HokA|by intros u [_ [? _]]]|].
Qed.

(** ** Taking a block *)

(** Other words than the pointer of [prev]. *)
Lemma arena_out brk F A h x : arena base brk F A h -> x ∈ (base, 0) :: F -> Forall (fun u => disj u (x.1, 1)) A.
Proof.
  intros H Hx. pose proof (ar_ok _ _ _ _ _ H) as [HokF HokA]%Forall_app.
  pose proof (ar_apart _ _ _ _ _ H) as (_ & _ & Hd)%apart_app. apply elem_of_cons in Hx as [->|Hx].
  - eapply Forall_impl; [exact HokA|]. unfold block_ok, disj. simpl. lia.
  - rewrite Forall_forall in HokF, Hd. specialize (HokF x Hx). eapply Forall_impl; [exact (Hd x Hx)|].
    unfold block_ok, disj in *. simpl. lia.
Qed.

(** The block [v] leaves the list. *)
Lemma ring_drop w x prev v y w' :
  ring w (x ++ prev :: v :: y) -> heads_apart (x ++ prev :: v :: y) -> same_off [prev.1] w w' ->
  w' !! prev.1 = w !! v.1 -> w' !! (prev.1 + 4) = w !! (prev.1 + 4) -> ring w' (x ++ prev :: y).
Proof.
  intros Hr Hh Hs H1 H2. apply ring_rotate in Hr. apply (ring_rotate w' (prev :: y)). rewrite Permutation_app_comm in Hh.
  cbn [app ring] in *. apply heads_cons in Hh as [[_ Hd]%Forall_cons _].
  apply (links_cons w prev (v :: y ++ x)) in Hr as (_ & Hps & Hr). apply (links_cons w v (y ++ x)) in Hr as (Hv & _ & Hr).
  apply (links_push w w' prev (y ++ x) (y ++ x)); try done.
  - by rewrite H1.
  - by rewrite H2.
Qed.

(** The block [v] gets shorter. *)
Lemma ring_cut w x v y m :
  ring w (x ++ v :: y) -> heads_apart (x ++ v :: y) -> ring (<[v.1 + 4 := m]> w) (x ++ (v.1, m) :: y).
Proof.
  intros Hr Hh. apply ring_rotate in Hr. apply (ring_rotate _ ((v.1, m) :: y)). rewrite Permutation_app_comm in Hh.
  cbn [app ring] in *. apply heads_cons in Hh as [Hd _]. pose proof Hr as (Hv & _ & Hl)%links_cons.
  apply (links_push w _ (v.1, m) (y ++ x) (y ++ x)).
  - by apply (links_last _ _ v).
  - done.
  - intros a [[_ Ha] _]%Forall_cons. by rewrite lookup_insert_ne.
  - done.
  - cbn [fst]. rewrite lookup_insert_ne by lia. done.
  - by rewrite lookup_insert_eq.
Qed.

Lemma ring_off w w' l r :
  ring w r -> same_off l w w' -> Forall (fun u => Forall (fun p => disj (head1 u) (p, 1)) l) r -> ring w' r.
Proof. destruct r as [|u r]; [done|]. intros Hr Hs Hd. by apply (links_off l w w'). Qed.

Lemma apart_cut v m l :
  1 <= m < v.2 -> apart (v :: l) -> apart ((v.1, m) :: (v.1 + 8 * m, v.2 - m) :: l).
Proof.
  intros Hm [Hd Ha]. split; [constructor; [left; simpl; lia|]|split; [|done]].
  all: eapply Forall_impl; [exact Hd|]; unfold disj; simpl; lia.
Qed.

Lemma sorted_cut l v m r : 1 <= m < v.2 -> StronglySorted gap (l ++ v :: r) -> StronglySorted gap (l ++ (v.1, m) :: r).
Proof.
  intros Hm (Hl & [Hr Hg]%StronglySorted_inv & Hlr)%sorted_app. apply sorted_app. split_and!; [done| |].
  - constructor; [done|]. eapply Forall_impl; [exact Hg|]. unfold gap. simpl. lia.
  - eapply Forall_impl; [exact Hlr|]. intros u [H1 H2]%Forall_cons. by apply Forall_cons.
Qed.

Lemma sorted_drop l v r : StronglySorted gap (l ++ v :: r) -> StronglySorted gap (l ++ r).
Proof.
  intros (Hl & [Hr Hg]%StronglySorted_inv & Hlr)%sorted_app. apply sorted_app. split_and!; [done|done|].
  eapply Forall_impl; [exact Hlr|]. by intros u [H1 H2]%Forall_cons.
Qed.

(** The state in which the block of [n] headers at [a] has been taken. *)
Definition taken brk (F A : list (Z * Z)) (h : uheap) (a n : Z) (h' : uheap) : Prop :=
  exists F', arena base brk F' ((a, n) :: A) h' /\ units F' + n = units F /\ untouched A h h'.

Lemma take_whole brk F A h x prev v y :
  arena base brk F A h -> (base, 0) :: F = x ++ prev :: v :: y -> 1 <= v.2 ->
  exists h', take_block v.2 prev.1 v.1 v.2 h = Ret (v.1 + 8, h') /\ taken brk F A h v.1 v.2 h'.
Proof.
  intros H HF Hv. pose proof (arena_heads _ _ _ _ H) as Hh. pose proof (arena_out _ _ _ _ prev H) as Hout.
  destruct H as [Hb0 Hroom Hbrk Hring Hfp Hsort Hap Hok Hlive].
  assert (exists Fl, F = Fl ++ v :: y /\ (base, 0) :: Fl = x ++ [prev]) as (Fl & -> & HFl).
  { destruct x as [|b x]; [injection HF as <- ->; by exists []|]. injection HF as <- ->. exists (x ++ [prev]). by rewrite <- app_assoc. }
  destruct h as [w fp]. cbn [words freep] in *. pose proof Hring as Hr. rewrite HF in Hr.
  assert (heads_apart (x ++ prev :: v :: y)) as Hhx.
  { rewrite <- HF. by apply (heads_app _ A). }
  assert (prev.1 <> v.1 /\ prev.1 <> v.1 + 4) as [Hne1 Hne2].
  { clear -Hhx. rewrite Permutation_app_comm in Hhx. apply heads_cons in Hhx as [[Hd _]%Forall_cons _].
    unfold disj, head1 in Hd. simpl in Hd. lia. }
  destruct (ring_next w base (x ++ [prev]) v y) as [Hvn Hvs]; [by rewrite <- app_assoc|by rewrite <- app_assoc; cbn [app]; rewrite <- HF|].
  set (w' := <[prev.1 := next base y]> w).
  assert (same_off [prev.1] w w') as Hso by (intros a [[Ha _] _]%Forall_cons; unfold w'; by rewrite lookup_insert_ne).
  assert (untouched A (mk_uheap w fp) (mk_uheap w' prev.1)) as Hunt.
  { apply (same_off_untouched [prev.1]); [done|]. eapply Forall_impl; [apply Hout; rewrite HF; set_solver|].
    intros u Hu. by apply Forall_cons. }
  assert (block_ok (base + 8) brk v) as Hvok by (rewrite Forall_forall in Hok; apply Hok; set_solver).
  exists (mk_uheap w' prev.1). split.
  - assert ((q <- s_ptr v.1 ;; set_ptr prev.1 q ;;; uret v.1) (mk_uheap w fp) = Ret (v.1, mk_uheap w' fp)) as Hrun.
    { unfold s_ptr. by rewrite (run_word v.1 (next base y)). }
    unfold take_block. rewrite Z.eqb_refl, (ubind_Ret _ _ _ _ _ Hrun). unfold ubind, hplus. simpl.
    unfold block_ok in Hvok. by rewrite u32_id by lia.
  - exists (Fl ++ y). split; [|split; [rewrite !units_app; simpl; lia|done]].
    assert ((base, 0) :: Fl ++ y = x ++ prev :: y) as HF'.
    { change ((base, 0) :: Fl ++ y) with (((base, 0) :: Fl) ++ y). by rewrite HFl, <- app_assoc. }
    assert ((Fl ++ v :: y) ++ A ≡ₚ (Fl ++ y) ++ (v.1, v.2) :: A) as Hperm by (destruct v; solve_Permutation).
    split; cbn [words freep]; try done.
    + rewrite HF'. apply (ring_drop w x prev v y); try done; unfold w'; [by rewrite lookup_insert_eq|].
      by rewrite lookup_insert_ne by lia.
    + rewrite HF', fmap_app. simpl. set_solver.
    + by apply (sorted_drop _ v).
    + by rewrite <- Hperm.
    + by rewrite <- Hperm.
    + apply Forall_cons. split; [unfold w'; cbn [fst snd]; by rewrite lookup_insert_ne by lia|].
      apply (untouched_live A _ _ Hunt); [|done]. apply Forall_app in Hok as [_ HokA].
      eapply Forall_impl; [exact HokA|]. by intros u [_ [? _]].
Qed.

Lemma take_tail brk F A h x prev v y n :
  arena base brk F A h -> (base, 0) :: F = x ++ prev :: v :: y -> 1 <= n < v.2 ->
  exists a h', take_block n prev.1 v.1 v.2 h = Ret (a + 8, h') /\ taken brk F A h a n h'.
Proof.
  intros H HF Hn. pose proof (arena_heads _ _ _ _ H) as Hh. pose proof (arena_out _ _ _ _ v H) as Hout.
  destruct H as [Hb0 Hroom Hbrk Hring Hfp Hsort Hap Hok Hlive].
  assert (exists Fl, F = Fl ++ v :: y /\ (base, 0) :: Fl = x ++ [prev]) as (Fl & -> & HFl).
  { destruct x as [|b x]; [injection HF as <- ->; by exists []|]. injection HF as <- ->. exists (x ++ [prev]). by rewrite <- app_assoc. }
  destruct h as [w fp]. cbn [words freep] in *.
  assert (block_ok (base + 8) brk v) as Hvok by (rewrite Forall_forall in Hok; apply Hok; set_solver).
  assert (w !! (v.1 + 4) = Some v.2) as Hvs.
  { apply (ring_next w base ((base, 0) :: Fl) v y); done. }
  set (m := v.2 - n). set (a := v.1 + 8 * m). unfold block_ok in Hvok.
  set (w' := <[a + 4 := n]> (<[v.1 + 4 := m]> w)). exists a, (mk_uheap w' prev.1).
  assert ((Fl ++ v :: y) ++ A ≡ₚ v :: Fl ++ y ++ A) as Hperm1 by solve_Permutation.
  assert ((v.1, m) :: (a, n) :: Fl ++ y ++ A ≡ₚ (Fl ++ (v.1, m) :: y) ++ (a, n) :: A) as Hperm2 by solve_Permutation.
  assert (apart ((Fl ++ (v.1, m) :: y) ++ (a, n) :: A)) as Hap'.
  { rewrite <- Hperm2. replace n with (v.2 - m) by lia. apply apart_cut; [lia|]. by rewrite <- Hperm1. }
  assert (Forall (block_ok (base + 8) brk) ((Fl ++ (v.1, m) :: y) ++ (a, n) :: A)) as Hok'.
  { rewrite <- Hperm2. rewrite Hperm1 in Hok. apply Forall_cons in Hok as [_ Hok].
    apply Forall_cons; split; [|apply Forall_cons; split; [|done]]; unfold block_ok; simpl; lia. }
  assert (same_off [v.1; a] w w') as Hso.
  { intros b [[_ Hb1] [[_ Hb2] _]%Forall_cons]%Forall_cons. unfold w'. by rewrite !lookup_insert_ne. }
  assert (untouched A (mk_uheap w fp) (mk_uheap w' prev.1)) as Hunt.
  { apply (same_off_untouched [v.1; a]); [done|]. rewrite Forall_forall in Hout |- *. intros u Hu.
    apply Forall_cons. split; [apply Hout; [rewrite HF; set_solver|done]|]. apply Forall_cons; split; [|done].
    apply apart_app in Hap' as (_ & [Hda _] & _). rewrite Forall_forall in Hda. specialize (Hda u Hu). unfold disj in *. simpl in *. lia. }
  split.
  - unfold take_block. rewrite (proj2 (Z.eqb_neq v.2 n)) by lia. unfold hplus, s_size, set_size, set_word.
    assert (u32 (v.1 + 4) = v.1 + 4) as -> by (apply u32_id; lia). rewrite (u32_id (v.2 - n)) by lia. fold m.
    rewrite (ubind_Ret _ _ _ a (mk_uheap w' fp)).
    + unfold ubind. simpl. by rewrite u32_id by lia.
    + unfold ubind at 1. cbn [umod pbind fst snd]. rewrite (run_word _ m) by (simpl; by rewrite lookup_insert_eq).
      fold a. rewrite (u32_id a), (u32_id (a + 4)) by lia. done.
  - exists (Fl ++ (v.1, m) :: y). split; [|split; [rewrite !units_app; simpl; lia|done]].
    assert ((base, 0) :: Fl ++ (v.1, m) :: y = x ++ prev :: (v.1, m) :: y) as HF'.
    { change ((base, 0) :: Fl ++ (v.1, m) :: y) with (((base, 0) :: Fl) ++ (v.1, m) :: y). by rewrite HFl, <- app_assoc. }
    split; cbn [words freep]; try done.
    + apply (ring_off (<[v.1 + 4 := m]> w) w' [a]).
      * change ((base, 0) :: Fl ++ (v.1, m) :: y) with (((base, 0) :: Fl) ++ (v.1, m) :: y). apply ring_cut; [done|].
        apply (heads_app _ A). cbn [app]. done.
      * intros b [[_ Hb] _]%Forall_cons. unfold w'. by rewrite lookup_insert_ne.
      * pose proof (blocks_heads brk _ Hap' Hok') as Hh'. clear -Hh'.
        change ((base, 0) :: (Fl ++ (v.1, m) :: y) ++ (a, n) :: A) with (((base, 0) :: Fl ++ (v.1, m) :: y) ++ (a, n) :: A) in Hh'.
        unfold heads_apart in Hh'. rewrite fmap_app in Hh'. apply apart_app in Hh' as (_ & _ & Hd).
        rewrite Forall_fmap in Hd. eapply Forall_impl; [exact Hd|]. intros u [Hu _]%Forall_cons. by apply Forall_cons.
    + rewrite HF', fmap_app. simpl. set_solver.
    + apply sorted_cut; [lia|done].
    + apply Forall_cons. split; [unfold w'; by rewrite lookup_insert_eq|].
      apply (untouched_live A _ _ Hunt); [|done]. apply Forall_app in Hok as [_ HokA].
      eapply Forall_impl; [exact HokA|]. by intros u [_ [? _]].
Qed.

Lemma take_block_ok brk F A h x prev v y n :
  arena base brk F A h -> (base, 0) :: F = x ++ prev :: v :: y -> 1 <= n <= v.2 ->
  exists a h', take_block n prev.1 v.1 v.2 h = Ret (a + 8, h') /\ taken brk F A h a n h'.
Proof.
  intros H HF Hn. destruct (Z.eq_dec v.2 n) as [<-|Hne].
  - destruct (take_whole brk F A h x prev v y) as (h' & Hr & Ht); [done|done|lia|]. by exists v.1, h'.
  - apply (take_tail brk F A h x prev v y); [done|done|lia].
Qed.

(** ** The scan of the free list *)

(** What malloc does when it has gone round without finding a block. *)
Definition grow (fuel : nat) (n : Z) : U uheap Z :=
  p <- morecore n ;;
  if p =? 0 then uret 0
  else
    match fuel with
    | O => fault (Hang "malloc")
    | S fuel' => q <- s_ptr p ;; malloc_loop fuel' n p q
    end.

Section scan.
Context (brk n : Z) (F A : list (Z * Z)) (h : uheap).
Hypothesis Har : arena base brk F A h.
Hypothesis Hn : 1 <= n.

Lemma node_words l1 u l2 :
  (base, 0) :: F = l1 ++ u :: l2 ->
  words h !! u.1 = Some (next base l2) /\ words h !! (u32 (u.1 + 4)) = Some u.2.
Proof.
  intros He. pose proof (ar_ring _ _ _ _ _ Har) as Hr. rewrite He in Hr.
  destruct (ring_next (words h) base l1 u l2 Hr) as [H1 H2]; [by rewrite <- He|]. split; [done|].
  pose proof (ar_ok _ _ _ _ _ Har) as [Hok _]%Forall_app. pose proof (ar_base _ _ _ _ _ Har).
  pose proof (ar_brk _ _ _ _ _ Har). pose proof (ar_room _ _ _ _ _ Har).
  assert (u ∈ (base, 0) :: F) as [->|Hu]%elem_of_cons by (rewrite He; set_solver).
  - by rewrite u32_id by (simpl; lia).
  - rewrite Forall_forall in Hok. specialize (Hok u Hu). unfold block_ok in Hok. by rewrite u32_id by lia.
Qed.

(** From [u] the loop looks at the nodes [b], none of which is freep. *)
Lemma scan_segment b a u c fuel :
  (base, 0) :: F = a ++ u :: b ++ c -> Forall (fun v => v.1 <> freep h) b -> (length b <= fuel)%nat ->
  (exists x prev v y, (base, 0) :: F = x ++ prev :: v :: y /\ n <= v.2 /\
    malloc_loop fuel n u.1 (next base (b ++ c)) h = take_block n prev.1 v.1 v.2 h) \/
  (exists a' u', (base, 0) :: F = a' ++ u' :: c /\ Forall (fun v => v.2 < n) b /\
    malloc_loop fuel n u.1 (next base (b ++ c)) h = malloc_loop (fuel - length b) n u'.1 (next base c) h).
Proof.
  revert a u fuel. induction b as [|v b IH]; intros a u fuel He Hf Hlen.
  - right. exists a, u. simpl. by rewrite Nat.sub_0_r.
  - apply Forall_cons in Hf as [Hv Hf]. destruct fuel as [|fuel]; [simpl in Hlen; lia|].
    destruct (node_words (a ++ [u]) v (b ++ c)) as [H1 H2]; [by rewrite <- app_assoc|].
    assert (malloc_loop (S fuel) n u.1 (next base ((v :: b) ++ c)) h =
      if n <=? v.2 then take_block n u.1 v.1 v.2 h else malloc_loop fuel n v.1 (next base (b ++ c)) h) as ->.
    { cbn [malloc_loop app next]. unfold s_size at 1. rewrite (run_word _ v.2) by done. destruct (n <=? v.2); [done|].
      unfold ubind at 1. cbn [ugets pbind fst snd]. rewrite (proj2 (Z.eqb_neq _ _)) by done. unfold s_ptr.
      by rewrite (run_word _ (next base (b ++ c))). }
    destruct (Z.leb_spec n v.2) as [Hle|Hgt]; [left; by exists a, u, v, (b ++ c)|].
    destruct (IH (a ++ [u]) v fuel) as [Hl|(a' & u' & He' & Hb & Hr)]; [by rewrite <- app_assoc|done|simpl in Hlen; lia|by left|].
    right. exists a', u'. by split_and!; [|constructor|].
Qed.

(** At freep, with nothing big enough. *)
Lemma scan_end fuel u v l1 l2 :
  (base, 0) :: F = l1 ++ v :: l2 -> v.1 = freep h -> v.2 < n -> malloc_loop fuel n u v.1 h = grow fuel n h.
Proof.
  intros He Hv Hlt. destruct (node_words l1 v l2 He) as [_ H2].
  destruct fuel; cbn [malloc_loop]; unfold s_size at 1; rewrite (run_word _ v.2) by done;
    rewrite (proj2 (Z.leb_gt n v.2)) by done; unfold ubind at 1; cbn [ugets pbind fst snd]; by rewrite Hv, Z.eqb_refl.
Qed.

Lemma scan_ok fuel q :
  words h !! freep h = Some q -> (length F + 1 <= fuel)%nat ->
  (exists x prev v y, (base, 0) :: F = x ++ prev :: v :: y /\ n <= v.2 /\
    malloc_loop fuel n (freep h) q h = take_block n prev.1 v.1 v.2 h) \/
  (exists fuel', (fuel <= fuel' + length F + 1)%nat /\ Forall (fun v => v.2 < n) F /\ malloc_loop fuel n (freep h) q h = grow fuel' n h).
Proof.
  intros Hq Hfuel. pose proof (ar_freep _ _ _ _ _ Har) as (f & Hfp & (l1 & l2 & Hl)%list_elem_of_split)%list_elem_of_fmap.
  pose proof (heads_nodup _ (heads_app _ _ (arena_heads _ _ _ _ Har : heads_apart (((base, 0) :: F) ++ A)))) as Hnd.
  rewrite Hl, fmap_app in Hnd. apply NoDup_app in Hnd as (_ & Hd & [Hf2 _]%NoDup_cons).
  destruct (node_words l1 f l2 Hl) as [Hfn _]. rewrite Hfp in Hq. rewrite Hfn in Hq. injection Hq as <-. rewrite Hfp.
  pose proof (f_equal length Hl) as Hlen. rewrite length_app in Hlen. simpl in Hlen.
  destruct (scan_segment l2 l1 f [] fuel) as [Hfound|(a' & u' & He & Hsm & Hrun)].
  { by rewrite app_nil_r. }
  { apply Forall_forall. intros v Hv Heq. apply Hf2. rewrite <- Hfp, <- Heq. by apply (list_elem_of_fmap_2 fst). }
  { lia. }
  { left. rewrite app_nil_r in Hfound. exact Hfound. }
  rewrite app_nil_r in Hrun. rewrite Hrun. cbn [next]. clear Hrun.
  destruct l1 as [|b l1].
  - right. injection Hl as <- Hl. exists (fuel - length l2)%nat. split; [lia|]. split; [by rewrite Hl|].
    apply (scan_end _ _ (base, 0) [] F); [done|done|simpl; lia].
  - injection Hl as <- Hl. simpl in Hlen. destruct (node_words [] (base, 0) F) as [Hb1 Hb2]; [done|]. cbn [fst snd] in *.
    assert (freep h <> base) as Hne.
    { rewrite Hfp. intros Hfb. apply (Hd f.1); [rewrite Hfb|]; apply list_elem_of_here. }
    destruct (fuel - length l2)%nat as [|fuel1] eqn:Hf1; [lia|].
    assert (malloc_loop (S fuel1) n u'.1 base h = malloc_loop fuel1 n base (next base (l1 ++ f :: l2)) h) as ->.
    { cbn [malloc_loop]. unfold s_size at 1. rewrite (run_word _ 0), (proj2 (Z.leb_gt n 0)) by (done || lia).
      unfold ubind at 1. cbn [ugets pbind fst snd]. rewrite (proj2 (Z.eqb_neq _ _)) by done. unfold s_ptr.
      rewrite (run_word _ (next base F)) by done. by rewrite Hl. }
    destruct (scan_segment l1 [] (base, 0) (f :: l2) fuel1) as [Hfound|(a2 & u2 & He2 & Hb1' & Hrun)].
    { cbn [app]. by rewrite Hl. }
    { apply Forall_forall. intros v Hv Heq. apply (Hd v.1); [apply list_elem_of_further; by apply (list_elem_of_fmap_2 fst)|].
      rewrite Heq, Hfp. apply list_elem_of_here. }
    { lia. }
    { by left. }
    cbn [fst next] in Hrun. rewrite Hrun. cbn [next]. destruct (Z.le_gt_cases n f.2) as [Hle|Hgt].
    + left. exists a2, u2, f, l2. split; [done|]. split; [done|].
      destruct (node_words (a2 ++ [u2]) f l2) as [_ H2]; [by rewrite <- app_assoc|].
      destruct (fuel1 - length l1)%nat; cbn [malloc_loop]; unfold s_size at 1; rewrite (run_word _ f.2) by done;
        by rewrite (proj2 (Z.leb_le n f.2)).
    + right. exists (fuel1 - length l1)%nat. split; [lia|]. split; [rewrite Hl; apply Forall_app; split; [done|by apply Forall_cons]|]. apply (scan_end _ _ f ((base, 0) :: l1) l2); [by rewrite Hl|done|done].
Qed.
End scan.

Lemma freep_word brk F A h : arena base brk F A h -> exists q, words h !! freep h = Some q.
Proof.
  intros H. pose proof (ar_freep _ _ _ _ _ H) as (f & Hfp & (l1 & l2 & Hl)%list_elem_of_split)%list_elem_of_fmap.
  rewrite Hfp. destruct (node_words brk 1 F A h H ltac:(lia) l1 f l2 Hl) as [H1 _]. by eexists.
Qed.

(** ** Growing the heap *)

(** The end of the process's memory, and whether sbrk has refused. *)
Record brkw := mk_brkw { w_brk : Z; w_refused : bool }.

(** sbrk gives the old end and moves it, below KERNBASE, or refuses. *)
Definition sbrk_kernel : kernel brkw := fun X c =>
  match c in call X return brkw -> X -> brkw -> Prop with
  | Sbrk k => fun e x e' =>
      (x = -1 /\ e' = mk_brkw (w_brk e) true) \/
      (x = w_brk e /\ w_brk e' = w_brk e + k /\ w_brk e' <= 2 ^ 31 /\ w_refused e' = w_refused e)
  | _ => fun _ _ _ => False
  end.

(** A block added at the end counts as one in use. *)
Lemma arena_extend brk F A h m :
  arena base brk F A h -> 1 <= m -> brk + 8 * m <= 2 ^ 31 ->
  arena base (brk + 8 * m) F ((brk, m) :: A) (h <| words ::= <[brk + 4 := m]> |>) /\
  untouched A h (h <| words ::= <[brk + 4 := m]> |>).
Proof.
  intros H Hm Hmax. pose proof H as [Hb0 Hroom Hbrk Hring Hfp Hsort Hap Hok Hlive]. destruct h as [w fp].
  change ((mk_uheap w fp) <| words ::= <[brk + 4 := m]> |>) with (mk_uheap (<[brk + 4 := m]> w) fp). cbn [words freep] in *.
  assert (same_off [brk] w (<[brk + 4 := m]> w)) as Hso.
  { intros b [[_ Hb] _]%Forall_cons. by rewrite lookup_insert_ne. }
  assert (Forall (fun u => disj u (brk, 1)) (F ++ A)) as Hd.
  { eapply Forall_impl; [exact Hok|]. unfold block_ok, disj. simpl. lia. }
  assert (untouched A (mk_uheap w fp) (mk_uheap (<[brk + 4 := m]> w) fp)) as Hunt.
  { apply (same_off_untouched [brk]); [done|]. apply Forall_app in Hd as [_ Hd]. eapply Forall_impl; [exact Hd|].
    intros u Hu. by apply Forall_cons. }
  split; [|done]. split; cbn [words freep]; try done; try lia.
  - apply (ring_off w _ [brk]); [done|done|]. apply Forall_cons. split.
    + apply Forall_cons. split; [left; simpl; lia|done].
    + apply Forall_app in Hok as [HokF _]. eapply Forall_impl; [exact HokF|]. intros u Hu. apply Forall_cons. split; [|done].
      unfold block_ok, disj in *. simpl. lia.
  - rewrite Permutation_app_comm. cbn [app]. split; [|by rewrite Permutation_app_comm]. rewrite Permutation_app_comm.
    eapply Forall_impl; [exact Hok|]. unfold block_ok, disj. simpl. lia.
  - rewrite Permutation_app_comm. cbn [app]. apply Forall_cons. split; [unfold block_ok; simpl; lia|].
    rewrite Permutation_app_comm. eapply Forall_impl; [exact Hok|]. unfold block_ok. lia.
  - apply Forall_cons. split; [by rewrite lookup_insert_eq|]. apply (untouched_live A _ _ Hunt); [|done].
    apply Forall_app in Hok as [_ HokA]. eapply Forall_impl; [exact HokA|]. by intros u [_ [? _]].
Qed.

Lemma untouched_trans A h1 h2 h3 : untouched A h1 h2 -> untouched A h2 h3 -> untouched A h1 h3.
Proof.
  unfold untouched. rewrite !Forall_forall. intros H1 H2 u Hu a Ha. rewrite (H2 u Hu a Ha). by apply (H1 u).
Qed.

(** morecore: 0 when sbrk refuses, or more free memory with a block that is big
    enough. *)
Lemma morecore_ok F A h e nu QX :
  arena base (w_brk e) F A h -> 1 <= nu -> 8 * nu < 2 ^ 31 ->
  uwp sbrk_kernel QX (morecore nu) (fun p h' e' =>
    (p = 0 /\ h' = h /\ e' = mk_brkw (w_brk e) true) \/
    (exists F', p = freep h' /\ p <> 0 /\ arena base (w_brk e') F' A h' /\ w_refused e' = w_refused e /\
       8 * units F' + w_brk e = 8 * units F + w_brk e' /\ w_brk e <= w_brk e' /\
       Exists (fun u => nu <= u.2) F' /\ (length F' <= S (length F))%nat /\ untouched A h h')) h e.
Proof.
  intros H Hnu Hmax. unfold morecore. set (m := if nu <? 4096 then 4096 else nu).
  assert (nu <= m /\ 1 <= m /\ 8 * m < 2 ^ 31) as (Hm1 & Hm2 & Hm3) by (unfold m; destruct (Z.ltb_spec nu 4096); lia).
  pose proof (ar_brk _ _ _ _ _ H) as Hbrk. pose proof (ar_room _ _ _ _ _ H) as Hroom. pose proof (ar_base _ _ _ _ _ H) as Hb0.
  apply uwp_bind, uwp_sys. intros x e' [[-> ->]|(-> & He & Hle & Href)]; [by left|].
  rewrite i32_id, Z.mul_comm in He by lia. rewrite (proj2 (Z.eqb_neq _ _)) by lia. unfold set_size, hplus, set_word.
  rewrite !(u32_id (w_brk e)), (u32_id (w_brk e + 4)) by lia. rewrite Z.mul_1_r, u32_id by lia.
  destruct (arena_extend (w_brk e) F A h m H) as [Har Hunt]; [lia|lia|].
  destruct (free_ok _ _ _ _ _ _ Har) as (F' & h' & Hrun & Har' & Hu & Hex & Hlen & Hunt').
  unfold uwp. unfold ubind at 1. cbn [umod pbind fst snd]. rewrite (ubind_Ret _ _ _ _ _ Hrun). simpl.
  right. exists F'. rewrite He in *. split_and!; try done; try lia.
  - pose proof (freep_pos _ _ _ _ Har'). lia.
  - eapply Exists_impl; [exact Hex|]. simpl. lia.
  - by eapply untouched_trans.
Qed.

(** ** malloc *)

(** 0 when sbrk refused, or a block of [n] headers that was free or is new. *)
Definition malloced (n : Z) (F A : list (Z * Z)) (h : uheap) (e : brkw) (p : Z) (h' : uheap) (e' : brkw) : Prop :=
  (p = 0 /\ w_refused e' = true /\ arena base (w_brk e') F A h' /\ w_brk e' = w_brk e /\ untouched A h h') \/
  (exists F', p <> 0 /\ arena base (w_brk e') F' ((p - 8, n) :: A) h' /\
     8 * (units F' + n) + w_brk e = 8 * units F + w_brk e' /\ w_brk e <= w_brk e' /\ untouched A h h').

Lemma taken_malloced F A h e a n h' :
  taken (w_brk e) F A h a n h' -> malloced n F A h e (a + 8) h' e.
Proof.
  intros (F' & Har & Hu & Hunt). right. exists F'. rewrite Z.add_simpl_r. split_and!; try done; try lia.
  pose proof (ar_base _ _ _ _ _ Har). pose proof (ar_ok _ _ _ _ _ Har) as Hok. rewrite Forall_forall in Hok.
  specialize (Hok (a, n) ltac:(set_solver)). unfold block_ok in Hok. simpl in Hok. lia.
Qed.

Lemma malloc_loop_ok F A h e n q fuel QX :
  arena base (w_brk e) F A h -> 1 <= n -> 8 * n < 2 ^ 31 -> words h !! freep h = Some q ->
  (2 * length F + 4 <= fuel)%nat ->
  uwp sbrk_kernel QX (malloc_loop fuel n (freep h) q) (malloced n F A h e) h e.
Proof.
  intros Har Hn Hmax Hq Hfuel. unfold uwp.
  destruct (scan_ok _ n F A h Har Hn fuel q Hq) as [(x & prev & v & y & HF & Hv & ->)|(fuel' & Hf & Hsm & ->)]; [lia| |].
  { destruct (take_block_ok _ F A h x prev v y n Har HF) as (a & h' & -> & Ht); [lia|]. by apply taken_malloced. }
  apply (uwp_bind sbrk_kernel QX). eapply uwp_mono; [by apply (morecore_ok F A h e n)|].
  intros p h' e' [(-> & -> & ->)|(F' & -> & Hp & Har' & Href & Hu & Hge & Hex & Hlen & Hunt)].
  { left. split_and!; try done. apply Forall_forall. done. }
  rewrite (proj2 (Z.eqb_neq _ _)) by done. destruct fuel' as [|fuel']; [lia|]. unfold uwp.
  assert (exists q', words h' !! freep h' = Some q') as (q' & Hq').
  { by apply (freep_word (w_brk e') F' A). }
  unfold s_ptr. rewrite (run_word _ q') by done.
  destruct (scan_ok _ n F' A h' Har' Hn fuel' q' Hq') as [(x & prev & v & y & HF & Hv & ->)|(fuel2 & _ & Hsm' & _)]; [lia| |].
  - destruct (take_block_ok _ F' A h' x prev v y n Har' HF) as (a & h2 & -> & Ht); [lia|]. simpl.
    destruct (taken_malloced F' A h' e' a n h2 Ht) as [(H0 & _)|(F2 & H0 & Har2 & Hu2 & _ & Hunt2)].
    + destruct Ht as (F2 & Har2 & _). pose proof (ar_base _ _ _ _ _ Har2). pose proof (ar_ok _ _ _ _ _ Har2) as Hok.
      rewrite Forall_forall in Hok. specialize (Hok (a, n) ltac:(set_solver)). unfold block_ok in Hok. simpl in Hok. lia.
    + right. exists F2. split_and!; try done; try lia. by eapply untouched_trans.
  - exfalso. apply Exists_exists in Hex as (u & Hu' & Hle). rewrite Forall_forall in Hsm'. specialize (Hsm' u Hu'). lia.
Qed.
End arena.

(** The first malloc makes the list of [base] alone. *)
Lemma arena_first base brk h :
  0 < base -> base + 8 <= brk -> brk <= 2 ^ 31 ->
  arena base brk [] [] (mk_uheap (<[base + 4 := 0]> (<[base := base]> (words h))) base).
Proof.
  intros H1 H2 H3. split; cbn [words freep]; try done.
  - cbn. rewrite lookup_insert_ne, !lookup_insert_eq by lia. done.
  - set_solver.
  - constructor.
Qed.

Lemma malloc_arena base F A h e n QX :
  arena base (w_brk e) F A h -> 1 <= n -> 8 * n < 2 ^ 31 ->
  uwp sbrk_kernel QX (p <- s_ptr (freep h) ;; k <- ugets (fun h => size (words h)) ;; malloc_loop (2 * k + 2) n (freep h) p)
    (malloced base n F A h e) h e.
Proof.
  intros Har Hn Hmax. destruct (freep_word _ _ _ _ _ Har) as (q & Hq). unfold uwp, s_ptr. rewrite (run_word _ q) by done.
  unfold ubind. cbn [ugets pbind fst snd]. apply (malloc_loop_ok base F A h e n q); try done.
  assert (length ((base, 0%Z) :: F) <= size (words h))%nat as Hs.
  { apply ring_size; [|apply (ar_ring _ _ _ _ _ Har)]. apply (heads_app _ A). apply (arena_heads _ _ _ _ _ Har). }
  simpl in Hs. lia.
Qed.

(** The heap of a program: before the first malloc freep is 0. *)
Definition heap_ok (base brk : Z) (F A : list (Z * Z)) (h : uheap) : Prop :=
  arena base brk F A h \/ (freep h = 0 /\ F = [] /\ A = [] /\ 0 < base /\ base + 8 <= brk /\ brk <= 2 ^ 31).

Lemma nunits_ok nbytes : 0 <= nbytes < 2 ^ 31 - 16 ->
  1 <= nunits nbytes /\ nbytes <= 8 * nunits nbytes - 8 < nbytes + 8 /\ 8 * nunits nbytes < 2 ^ 31.
Proof.
  intros Hn. unfold nunits. rewrite (u32_id (nbytes + 8)), (u32_id (nbytes + 8 - 1)) by lia.
  pose proof (Z.div_mod (nbytes + 8 - 1) 8 ltac:(lia)). pose proof (Z.mod_pos_bound (nbytes + 8 - 1) 8 ltac:(lia)).
  rewrite u32_id by lia. lia.
Qed.

(** C6: malloc of fewer than 2^31 - 16 bytes, on a heap with free blocks [F] and
    blocks in use [A], returns (it does not loop) 0 only after the kernel has
    refused memory, with the heap as it was, or else a pointer to a block of at least [nbytes]
    bytes that overlaps no block in use and no free block.  No byte is lost:
    what is free and what was given is what was free and what sbrk added.  The
    words of the blocks in use, headers and contents, are not written. *)
Theorem malloc_correct base nbytes F A h e QX :
  heap_ok base (w_brk e) F A h -> 0 <= nbytes < 2 ^ 31 - 16 ->
  uwp sbrk_kernel QX (malloc base nbytes) (fun p h' e' =>
    (p = 0 /\ w_refused e' = true /\ heap_ok base (w_brk e') F A h' /\ untouched A h h') \/
    (exists F' n, p <> 0 /\ nbytes <= 8 * n - 8 < nbytes + 8 /\ heap_ok base (w_brk e') F' ((p - 8, n) :: A) h' /\
       8 * (units F' + n) + w_brk e = 8 * units F + w_brk e' /\ untouched A h h')) h e.
Proof.
  intros Hh Hnb. destruct (nunits_ok nbytes Hnb) as (Hn1 & Hn2 & Hn3). unfold malloc.
  set (n := nunits nbytes) in *.
  assert (forall h1, arena base (w_brk e) F A h1 -> untouched A h h1 ->
    uwp sbrk_kernel QX (p <- s_ptr (freep h1) ;; k <- ugets (fun h => size (words h)) ;; malloc_loop (2 * k + 2) n (freep h1) p)
    (fun p h' e' =>
      (p = 0 /\ w_refused e' = true /\ heap_ok base (w_brk e') F A h' /\ untouched A h h') \/
      (exists F' n, p <> 0 /\ nbytes <= 8 * n - 8 < nbytes + 8 /\ heap_ok base (w_brk e') F' ((p - 8, n) :: A) h' /\
         8 * (units F' + n) + w_brk e = 8 * units F + w_brk e' /\ untouched A h h')) h1 e) as Hmain.
  { intros h1 Har Hunt1. eapply uwp_mono; [by apply (malloc_arena base F A h1 e n)|].
    intros p h' e' [(-> & Hr & Har' & _ & Hunt)|(F' & Hp & Har' & Hu & _ & Hunt)]; [left|right; exists F', n].
    - split_and!; try done; [by left|by eapply untouched_trans].
    - split_and!; try done; try lia; [by left|by eapply untouched_trans]. }
  apply uwp_bind, uwp_gets, uwp_bind. destruct Hh as [Har|(H0 & -> & -> & Hb0 & Hroom & Hbrk)].
  - pose proof (freep_pos _ _ _ _ _ Har). rewrite (proj2 (Z.eqb_neq _ _)) by lia. apply Hmain; [done|]. by apply Forall_forall.
  - rewrite H0, Z.eqb_refl. unfold set_ptr, set_size, set_word. rewrite (u32_id (base + 4)) by lia.
    apply (Hmain (mk_uheap (<[base + 4 := 0]> (<[base := base]> (words h))) base)); [by apply arena_first|constructor].
Qed.

(** C14: free of a block in use puts it back: the heap stays well formed with the
    block no longer in use, all its bytes are free again, neighbouring free
    blocks have been joined, and the words of the other blocks in use are not
    written. *)
Theorem free_correct base brk F A A' p n h :
  heap_ok base brk F A h -> A ≡ₚ (p - 8, n) :: A' ->
  exists F' h', free p h = Ret (tt, h') /\ heap_ok base brk F' A' h' /\ units F' = units F + n /\
    StronglySorted gap F' /\ untouched A' h h'.
Proof.
  intros [Har|(_ & _ & -> & _)] HA; [|by apply Permutation_nil_l in HA].
  apply (arena_perm _ _ _ _ _ _ HA) in Har. destruct (free_ok _ _ _ _ _ _ _ Har) as (F' & h' & Hrun & Har' & Hu & _ & _ & Hunt).
  rewrite Z.sub_add in Hrun. exists F', h'. split_and!; try done; [by left|apply (ar_sorted _ _ _ _ _ Har')].
Qed.


(** The rounding of malloc wraps around: a request of 2^32 - 7 bytes or more
    is served with a block of one header, which has no room for a single byte,
    and not refused. *)
Theorem malloc_wraps base nbytes F A h e QX :
  arena base (w_brk e) F A h -> 2 ^ 32 - 7 <= nbytes < 2 ^ 32 ->
  nunits nbytes = 1 /\
  uwp sbrk_kernel QX (malloc base nbytes) (fun p h' e' =>
    p <> 0 -> exists F', arena base (w_brk e') F' ((p - 8, 1) :: A) h') h e.
Proof.
  intros Har Hnb.
  assert (nunits nbytes = 1) as Hn.
  { unfold nunits. replace (nbytes + 8) with (nbytes + 8 - 2 ^ 32 + 1 * 2 ^ 32) by lia. unfold u32 at 3.
    rewrite Z.mod_add, Z.mod_small by lia. rewrite (u32_id (_ - 1)), Z.div_small by lia. done. }
  split; [done|]. unfold malloc. rewrite Hn.
  apply uwp_bind, uwp_gets, uwp_bind.
  pose proof (freep_pos _ _ _ _ _ Har). rewrite (proj2 (Z.eqb_neq _ _)) by lia. apply uwp_ret. eapply uwp_mono; [by apply (malloc_arena base F A h e 1)|].
  intros p h' e' [(-> & _)|(F' & _ & Har' & _)]; [done|]. by exists F'.
Qed.

(** ** A process with no heap yet *)

(** A kernel that grants every request. *)
Definition sbrk_run : answerer brkw := fun X c =>
  match c in call X return brkw -> option (X * brkw) with
  | Sbrk k => fun e => Some (w_brk e, mk_brkw (w_brk e + k) (w_refused e))
  | _ => fun _ => None
  end.

Definition no_heap : uheap := mk_uheap ∅ 0.

Lemma malloc_correct_witness :
  (exists Q, uwp sbrk_kernel (fun _ => False) (malloc 4096 100) Q no_heap (mk_brkw 8192 false)) /\
  (exists h' e', prun sbrk_run (malloc 4096 100 no_heap) (mk_brkw 8192 false) = (Returned (40856, h'), e')).
Proof.
  split; [|vm_compute; eauto]. eexists.
  apply (malloc_correct 4096 100 [] [] no_heap (mk_brkw 8192 false) (fun _ => False)); [|lia].
  right. cbn. split_and!; try done; lia.
Defined.

(** The heap after that malloc: one block in use and the rest free. *)
Definition one_block : uheap :=
  mk_uheap {[ 4096 := 8192; 4100 := 0; 8192 := 4096; 8196 := 4082; 40848 := 0; 40852 := 14 ]} 4096.

Lemma one_block_ok : arena 4096 40960 [(8192, 4082)] [(40848, 14)] one_block.
Proof.
  split; try done.
  - simpl. set_solver.
  - repeat constructor.
  - repeat constructor. unfold disj. simpl. lia.
  - repeat constructor; simpl; lia.
  - repeat constructor.
Qed.

Lemma free_correct_witness : exists F' h', free 40856 one_block = Ret (tt, h') /\ units F' = 4096.
Proof.
  destruct (free_correct 4096 40960 [(8192, 4082)] [(40848, 14)] [] 40856 14 one_block) as (F' & h' & Hr & _ & Hu & _).
  - left. exact one_block_ok.
  - reflexivity.
  - exists F', h'. split; [exact Hr|exact Hu].
Defined.

Lemma malloc_wraps_witness :
  nunits 4294967295 = 1 /\
  (exists h' e', prun sbrk_run (malloc 4096 4294967295 one_block) (mk_brkw 40960 false) = (Returned (40848, h'), e')).
Proof.
  split; [|vm_compute; eauto].
  refine (proj1 (malloc_wraps 4096 4294967295 [(8192, 4082)] [(40848, 14)] one_block (mk_brkw 40960 false) (fun _ => False) one_block_ok _)); lia.
Defined.
