(* ===== verification/Ulib.v ===== *)
(** * The user library (printf.c; gets and stat of ulib.c)

    The rest of ulib.c, the string functions, is in Cstring.  Formats are
    strings without their NUL; an argument is an int or a string pointer. *)

From S2P Require Import Prelude Cstring Kernel Spinlock Console ProcCore Bio Inode User.

(** ** printf.c *)

Definition putc {S} (fd c : Z) : U S unit := sys (Write fd [u8 c]) ;;; uret tt.

(** The digits of printf.c are upper case. *)
Definition udigits : list Z := chars "0123456789ABCDEF".

(** while(--i >= 0) putc(fd, buf[i]), for the characters of buf *)
Definition uprintint {S} (fd xx base : Z) (sgn : bool) : U S unit :=
  ufor (printint_chars udigits xx base sgn) (putc fd).

(** The loop over the format; [st] is state == '%'. *)
Fixpoint printf_loop {S} (fd : Z) (st : bool) (fmt : list Z) (ap : list carg) : U S unit :=
  match fmt with
  | [] => uret tt
  | c :: fmt' =>
      if negb st then
        if c =? 37 then printf_loop fd true fmt' ap
        else putc fd c ;;; printf_loop fd false fmt' ap
      else if c =? 100 then
        match ap with
        | AInt z :: ap' => uprintint fd z 10 true ;;; printf_loop fd false fmt' ap'
        | _ => fault (UB "printf")
        end
      else if (c =? 120) || (c =? 112) then
        match ap with
        | AInt z :: ap' => uprintint fd z 16 false ;;; printf_loop fd false fmt' ap'
        | _ => fault (UB "printf")
        end
      else if c =? 115 then
        match ap with
        | AStr s :: ap' => ufor (default (chars "(null)") s) (putc fd) ;;; printf_loop fd false fmt' ap'
        | _ => fault (UB "printf")
        end
      else if c =? 99 then
        match ap with
        | AInt z :: ap' => putc fd z ;;; printf_loop fd false fmt' ap'
        | _ => fault (UB "printf")
        end
      else if c =? 37 then putc fd c ;;; printf_loop fd false fmt' ap
      else putc fd 37 ;;; putc fd c ;;; printf_loop fd false fmt' ap
  end.

Definition printf {S} (fd : Z) (fmt : list Z) (ap : list carg) : U S unit := printf_loop fd false fmt ap.

(** ** gets and stat *)

(** buf[i] = c *)
Definition store {S} (buf : list Z) (i : nat) (c : Z) : U S (list Z) :=
  if (i <? length buf)%nat then uret (<[i := c]> buf) else fault (UB "store").

(** for(i=0; i+1 < max; ), with [n] the turns left; the result is buf and i. *)
Fixpoint gets_loop {S} (n : nat) (buf : list Z) (i : nat) : U S (list Z * nat) :=
  match n with
  | O => uret (buf, i)
  | S n' =>
      r <- sys (Read 0 1) ;;
      match r with
      | Some (c :: _) =>
          buf <- store buf i c ;;
          if (c =? 10) || (c =? 13) then uret (buf, (i + 1)%nat) else gets_loop n' buf (i + 1)
      | _ => uret (buf, i)
      end
  end.

Definition gets {S} (buf : list Z) (max : Z) : U S (list Z) :=
  r <- gets_loop (idx (max - 1)) buf 0 ;; store r.1 r.2 0.

Definition ustat {S} (n : list Z) : U S (option stat) :=
  fd <- sys (Open n 0) ;;
  if fd <? 0 then uret None
  else
    r <- sys (Fstat fd) ;;
    sys (Close fd) ;;;
    uret r.

(** ** A kernel of streams

    What is still to be read from each open file, what has been written to
    each, and the files that open finds.  [rd n l rest] says which reads of at
    most [n] bytes may return [l] and leave [rest]. *)

Record io := mk_io {
  io_in : gmap Z (list Z);
  io_out : gmap Z (list Z);
  io_files : gmap (list Z) (list Z)
}.

#[export] Instance upd_io_in : Upd io_in := fun f e => mk_io (f (io_in e)) (io_out e) (io_files e).
#[export] Instance upd_io_out : Upd io_out := fun f e => mk_io (io_in e) (f (io_out e)) (io_files e).

Definition out_of (e : io) (fd : Z) : list Z := default [] (io_out e !! fd).

(** [l] appended to what was written to [fd]. *)
Definition io_write (fd : Z) (l : list Z) (e : io) : io := e <| io_out ::= <[fd := out_of e fd ++ l]> |>.

(** A read of a pipe or of the console: some bytes, none only at the end. *)
Definition short_reads (n : Z) (l rest : list Z) : Prop :=
  Z.of_nat (length l) <= n /\ (l = [] -> rest = [] \/ n <= 0).

(** A read of a file: as many bytes as were asked for and are left. *)
Definition full_reads (n : Z) (l rest : list Z) : Prop :=
  Z.of_nat (length l) <= n /\ (Z.of_nat (length l) < n -> rest = []).

Definition io_kernel (rd : Z -> list Z -> list Z -> Prop) : kernel io := fun X c =>
  match c in call X return io -> X -> io -> Prop with
  | Read fd n => fun e x e' =>
      exists l rest, io_in e !! fd = Some (l ++ rest) /\ rd n l rest /\ x = Some l /\
        e' = e <| io_in ::= <[fd := rest]> |>
  | Write fd l => fun e x e' => x = Z.of_nat (length l) /\ e' = io_write fd l e
  | Open path _ => fun e x e' =>
      (x = -1 /\ io_files e !! path = None /\ e' = e) \/
      (3 <= x /\ io_in e !! x = None /\ exists l, io_files e !! path = Some l /\
        e' = e <| io_in ::= <[x := l]> |>)
  | Close fd => fun e x e' => x = 0 /\ e' = e <| io_in ::= delete fd |>
  | _ => fun _ _ _ => False
  end.

Lemma io_write_nil fd e : is_Some (io_out e !! fd) -> io_write fd [] e = e.
Proof.
  intros [l Hl]. destruct e as [i o f]. unfold io_write, out_of. simpl in *. rewrite Hl. simpl.
  change (mk_io i (<[fd := l ++ []]> o) f = mk_io i o f). by rewrite app_nil_r, insert_id.
Qed.

Lemma io_write_app fd l1 l2 e : io_write fd l2 (io_write fd l1 e) = io_write fd (l1 ++ l2) e.
Proof.
  destruct e as [i o f]. unfold io_write, out_of. simpl.
  change (mk_io i (<[fd := default [] (<[fd := default [] (o !! fd) ++ l1]> o !! fd) ++ l2]> (<[fd := default [] (o !! fd) ++ l1]> o)) f =
    mk_io i (<[fd := default [] (o !! fd) ++ l1 ++ l2]> o) f).
  rewrite lookup_insert_eq, insert_insert_eq. simpl. by rewrite <- app_assoc.
Qed.

Section streams.
Context (rd : Z -> list Z -> list Z -> Prop) (QX : io -> Prop).

Lemma uwp_write {S} fd l (Q : Z -> S -> io -> Prop) s e :
  Q (Z.of_nat (length l)) s (io_write fd l e) -> uwp (io_kernel rd) QX (sys (Write fd l)) Q s e.
Proof. intros HQ. apply uwp_sys. by intros x e' [-> ->]. Qed.

Lemma uwp_putc {S} fd c (Q : unit -> S -> io -> Prop) s e :
  Q tt s (io_write fd [u8 c] e) -> uwp (io_kernel rd) QX (putc fd c) Q s e.
Proof. intros HQ. by apply uwp_bind, uwp_write. Qed.

(** Characters put one by one. *)
Lemma uwp_puts {S} fd l (Q : unit -> S -> io -> Prop) s e :
  bytes l -> is_Some (io_out e !! fd) -> Q tt s (io_write fd l e) ->
  uwp (io_kernel rd) QX (ufor l (putc fd)) Q s e.
Proof.
  intros Hl. revert e. induction Hl as [|c l Hc Hl IH]; intros e Hfd HQ; cbn [ufor].
  - apply uwp_ret. by rewrite io_write_nil in HQ.
  - apply uwp_bind, uwp_putc, IH.
    + unfold io_write. simpl. rewrite lookup_insert_eq. by eexists.
    + rewrite io_write_app. unfold u8, is_byte in *. by rewrite Z.mod_small by lia.
Qed.
End streams.

(** ** What printf prints *)

(** The text of one conversion %[d] and the arguments that are left. *)
Definition conversion (d : Z) (ap : list carg) : option (list Z * list carg) :=
  if d =? 100 then
    match ap with AInt z :: ap' => Some (printint_chars udigits z 10 true, ap') | _ => None end
  else if (d =? 120) || (d =? 112) then
    match ap with AInt z :: ap' => Some (printint_chars udigits z 16 false, ap') | _ => None end
  else if d =? 115 then
    match ap with AStr s :: ap' => Some (default (chars "(null)") s, ap') | _ => None end
  else if d =? 99 then
    match ap with AInt z :: ap' => Some ([u8 z], ap') | _ => None end
  else if d =? 37 then Some ([37], ap)
  else Some ([37; d], ap).

(** The text of a format: the specification of printf. *)
Fixpoint format (fmt : list Z) (ap : list carg) : option (list Z) :=
  match fmt with
  | [] => Some []
  | c :: fmt' =>
      if c =? 37 then
        match fmt' with
        | [] => Some []
        | d :: fmt'' =>
            match conversion d ap with
            | Some (l, ap') => app l <$> format fmt'' ap'
            | None => None
            end
        end
      else cons c <$> format fmt' ap
  end.

Definition carg_ok (a : carg) : Prop :=
  match a with AStr (Some l) => bytes l | _ => True end.

Lemma printint_bytes xx base sgn :
  2 <= base <= 16 -> bytes (printint_chars udigits xx base sgn).
Proof.
  intros Hb. unfold printint_chars. apply Forall_app. split.
  - destruct (sgn && _); repeat constructor; unfold is_byte; lia.
  - apply Forall_rev. match goal with |- context [digit_loop 32 udigits base ?y] => set (x := y) end.
    assert (0 <= x) as Hx by (unfold x; destruct (sgn && _); apply u32_range). clearbody x. clear -Hb Hx.
    revert x Hx. generalize 32%nat as n. induction n as [|n IH]; intros x Hx; cbn [digit_loop]; [constructor|]. constructor.
    + pose proof (Z.mod_pos_bound x base ltac:(lia)) as Hm. set (d := x mod base) in *.
      assert (Forall is_byte udigits) as Hd by (apply (bool_decide_unpack _); by vm_compute).
      unfold aget. destruct (udigits !! idx d) as [c|] eqn:Hc; simpl.
      * by eapply Forall_lookup_1 in Hc.
      * unfold is_byte, inhabitant. simpl. lia.
    + destruct (x / base =? 0); [constructor|]. apply IH. apply Z.div_pos; lia.
Qed.

Lemma conversion_bytes d ap l ap' :
  is_byte d -> Forall carg_ok ap -> conversion d ap = Some (l, ap') -> bytes l /\ Forall carg_ok ap'.
Proof.
  intros Hd Hap. unfold conversion.
  assert (bytes (chars "(null)")) as Hnull by (apply (bool_decide_unpack _); by vm_compute).
  repeat case_match; intros [= <- <-]; try (apply Forall_cons in Hap as [Ha Hap]); split; try done.
  all: try (by apply printint_bytes).
  - by destruct s.
  - apply Forall_cons. split; [apply u8_range|done].
  - apply Forall_cons. by split.
  - apply Forall_cons. split; [done|]. by apply Forall_cons.
Qed.

Section printing.
Context {S : Type} (rd : Z -> list Z -> list Z -> Prop) (QX : io -> Prop) (fd : Z).

Lemma io_write_open l e : is_Some (io_out (io_write fd l e) !! fd).
Proof. unfold io_write. simpl. rewrite lookup_insert_eq. by eexists. Qed.

Lemma uwp_conversion d fmt ap l ap' (Q : unit -> S -> io -> Prop) s e :
  is_byte d -> Forall carg_ok ap -> conversion d ap = Some (l, ap') -> is_Some (io_out e !! fd) ->
  uwp (io_kernel rd) QX (printf_loop fd false fmt ap') Q s (io_write fd l e) ->
  uwp (io_kernel rd) QX (printf_loop fd true (d :: fmt) ap) Q s e.
Proof.
  intros Hd Hap Hc Hfd HQ. destruct (conversion_bytes d ap l ap' Hd Hap Hc) as [Hl _].
  unfold conversion in Hc. cbn [printf_loop negb]. unfold uprintint.
  repeat case_match; simplify_eq; apply uwp_bind; try (by apply uwp_puts).
  - by apply uwp_putc.
  - match goal with H : (d =? 37) = true |- _ => apply Z.eqb_eq in H as -> end. by apply uwp_putc.
  - apply uwp_putc, uwp_bind, uwp_putc. rewrite io_write_app. cbn [app]. unfold u8 in *.
    rewrite (Z.mod_small d) by (unfold is_byte in Hd; lia). done.
Qed.

Lemma uwp_printf fmt ap txt (Q : unit -> S -> io -> Prop) s e :
  bytes fmt -> Forall carg_ok ap -> format fmt ap = Some txt -> is_Some (io_out e !! fd) ->
  Q tt s (io_write fd txt e) -> uwp (io_kernel rd) QX (printf fd fmt ap) Q s e.
Proof.
  unfold printf. remember (length fmt) as n eqn:Hn. revert fmt ap txt e Hn.
  induction n as [n IH] using lt_wf_ind. intros fmt ap txt e -> Hb Hap Hf Hfd HQ.
  destruct fmt as [|c fmt]; cbn [format] in Hf.
  { injection Hf as <-. rewrite io_write_nil in HQ by done. by apply uwp_ret. }
  apply Forall_cons in Hb as [Hc Hb]. destruct (Z.eqb_spec c 37) as [->|Hne].
  - change (printf_loop fd false (37 :: fmt) ap) with (printf_loop (S := S) fd true fmt ap).
    destruct fmt as [|d fmt].
    { injection Hf as <-. rewrite io_write_nil in HQ by done. by apply uwp_ret. }
    apply Forall_cons in Hb as [Hd Hb]. destruct (conversion d ap) as [[l ap']|] eqn:Hconv; [|done].
    destruct (format fmt ap') as [txt'|] eqn:Hf'; [|done]. simpl in Hf. injection Hf as <-.
    apply (uwp_conversion d fmt ap l ap'); try done. destruct (conversion_bytes d ap l ap' Hd Hap Hconv) as [_ Hap'].
    apply (IH (length fmt)) with txt'; try done; [simpl; lia|apply io_write_open|by rewrite io_write_app].
  - destruct (format fmt ap) as [txt'|] eqn:Hf'; [|done]. simpl in Hf. injection Hf as <-.
    cbn [printf_loop negb]. rewrite (proj2 (Z.eqb_neq c 37)) by done. apply uwp_bind, uwp_putc.
    apply (IH (length fmt)) with txt'; try done; [simpl; lia|apply io_write_open|]. rewrite io_write_app. unfold u8 in *.
    by rewrite Z.mod_small by (unfold is_byte in Hc; lia).
Qed.
End printing.

(** Printf writes, byte by byte, exactly the text that its format and
    arguments stand for ([format]): %d in decimal with its sign, %x and %p in
    upper-case hexadecimal, %s (a null pointer as (null)), %c, %%, and an unknown
    conversion as it is; a lone % at the end prints nothing. *)
Theorem printf_formats {S} rd QX fd fmt ap txt (s : S) e :
  bytes fmt -> Forall carg_ok ap -> format fmt ap = Some txt -> is_Some (io_out e !! fd) ->
  uwp (io_kernel rd) QX (printf fd fmt ap) (fun _ s' e' => s' = s /\ e' = io_write fd txt e) s e.
Proof. intros Hb Hap Hf Hfd. by apply (uwp_printf rd QX fd fmt ap txt). Qed.

Definition console_io : io := mk_io {[ 0 := [] ]} {[ 1 := [] ]} ∅.

Lemma printf_formats_witness :
  uwp (S := unit) (io_kernel short_reads) (fun _ => False)
    (printf 1 (chars "%d %x %s%c") [AInt (-17); AInt 255; AStr None; AInt 10])
    (fun _ _ e => out_of e 1 = chars "-17 FF (null)" ++ [10]) tt console_io.
Proof.
  eapply uwp_mono.
  - apply (printf_formats short_reads (fun _ => False) 1 (chars "%d %x %s%c") [AInt (-17); AInt 255; AStr None; AInt 10]
      (chars "-17 FF (null)" ++ [10]) tt console_io);
      [apply (bool_decide_unpack _); vm_compute; exact I|repeat constructor|vm_compute; reflexivity|by eexists].
  - intros _ s' e' [_ ->]. vm_compute. reflexivity.
Defined.
