(* ===== verification/Grep.v ===== *)
(** * grep (grep.c)

    The matcher of Kernighan and Pike on strings in memory (a pointer is the
    list of the bytes from it on, [None] an access past the end), and the loop
    over the input, with its buffer of 1024 bytes. *)

From S2P Require Import Prelude Cstring Kernel Console User Ulib.

(** ** The matcher *)

(** matchstar: [mh] is matchhere on the rest of the pattern. *)
Fixpoint matchstar (c : Z) (mh : list Z -> option bool) (text : list Z) : option bool :=
  match mh text with
  | Some true => Some true
  | Some false =>
      match text with
      | [] => None
      | t :: text' => if negb (t =? 0) && ((t =? c) || (c =? 46)) then matchstar c mh text' else Some false
      end
  | None => None
  end.

Fixpoint matchhere (re text : list Z) : option bool :=
  match re with
  | [] => None
  | c :: re1 =>
      if c =? 0 then Some true
      else
        match re1 with
        | [] => None
        | d :: re2 =>
            if d =? 42 then matchstar c (matchhere re2) text
            else
              match text with
              | [] => None
              | t :: text' =>
                  if (c =? 36) && (d =? 0) then Some (t =? 0)
                  else if negb (t =? 0) && ((c =? 46) || (c =? t)) then matchhere re1 text'
                  else Some false
              end
        end
  end.

(** do { if(matchhere(re, text)) return 1; } while( *text++ != '\0'); *)
Fixpoint match_loop (re text : list Z) : option bool :=
  match matchhere re text with
  | Some true => Some true
  | Some false =>
      match text with
      | [] => None
      | t :: text' => if t =? 0 then Some false else match_loop re text'
      end
  | None => None
  end.

Definition match_ (re text : list Z) : option bool :=
  match re with
  | [] => None
  | c :: re' => if c =? 94 then matchhere re' text else match_loop re text
  end.

(** ** The input loop *)

(** char buf[1024] *)
Definition GBUF : Z := 1024.

(** while((q = strchr(p, '\n')) != 0), from index [p] of buf; the result is p at
    the end.  Every turn consumes a byte, so that [fuel] is bounded by the size
    of the buffer. *)
Fixpoint grep_lines (fuel : nat) (pattern : list Z) (p : nat) : U (list Z) nat :=
  buf <- ugets id ;;
  r <- deref (strchr (drop p buf) 10) ;;
  match r with
  | None => uret p
  | Some k =>
      let q := (p + k)%nat in
      umod (<[q := 0]>) ;;;
      buf <- ugets id ;;
      b <- deref (match_ pattern (drop p buf)) ;;
      uwhen b
        (umod (<[q := 10]>) ;;;
         buf <- ugets id ;;
         sys (Write 1 (take (q + 1 - p) (drop p buf))) ;;;
         uret tt) ;;;
      match fuel with
      | O => fault (Hang "grep")
      | S fuel' => grep_lines fuel' pattern (q + 1)
      end
  end.

(** while((n = read(fd, buf+m, sizeof(buf)-m-1)) > 0), for at most [fuel] reads *)
Fixpoint grep_loop (fuel : nat) (pattern : list Z) (fd : Z) (m : nat) : U (list Z) unit :=
  r <- sys (Read fd (GBUF - Z.of_nat m - 1)) ;;
  match r with
  | None | Some [] => uret tt
  | Some l =>
      let m := (m + length l)%nat in
      umod (fun buf => take (m - length l) buf ++ l ++ drop m buf) ;;;
      umod (<[m := 0]>) ;;;
      p <- grep_lines (idx GBUF) pattern 0 ;;
      let m := if (p =? 0)%nat then O else m in
      m <- (if (0 <? m)%nat then
              umod (fun buf => move_up buf 0 p (m - p)) ;;;
              uret (m - p)%nat
            else uret m) ;;
      match fuel with
      | O => fault (Hang "grep")
      | S fuel' => grep_loop fuel' pattern fd m
      end
  end.

Definition grep (fuel : nat) (pattern : list Z) (fd : Z) : U (list Z) unit := grep_loop fuel pattern fd 0.

(** for(i = 2; i < argc; i++), over the file names *)
Definition grep_file (fuel : nat) (pattern name : list Z) : U (list Z) unit :=
  fd <- sys (Open name 0) ;;
  if fd <? 0 then
    printf 1 (chars "grep: cannot open %s" ++ [10]) [AStr (Some name)] ;;;
    uexit
  else
    grep fuel pattern fd ;;;
    sys (Close fd) ;;;
    uret tt.

(** main, with argv[1..argc-1]; the strings are NUL-terminated in memory. *)
Definition grep_main (fuel : nat) (args : list (list Z)) : U (list Z) unit :=
  match args with
  | [] =>
      printf 2 (chars "usage: grep pattern [file ...]" ++ [10]) [] ;;;
      uexit
  | pattern :: [] => grep fuel (pattern ++ [0]) 0 ;;; uexit
  | pattern :: names => ufor names (grep_file fuel (pattern ++ [0])) ;;; uexit
  end.

(** ** What a pattern means *)

(** The items of a pattern: a character, a character repeated, or the end of the
    text. *)
Inductive item := One (c : Z) | Star (c : Z) | End.

Fixpoint items (re : list Z) : list item :=
  match re with
  | [] => []
  | c :: re1 =>
      match re1 with
      | [] => if c =? 36 then [End] else [One c]
      | d :: re2 => if d =? 42 then Star c :: items re2 else One c :: items re1
      end
  end.

(** '.' stands for any character. *)
Definition fits (c t : Z) : Prop := c = 46 \/ c = t.

(** [begins its text]: some beginning of [text] is what the items stand for. *)
Inductive begins : list item -> list Z -> Prop :=
| begins_nil text : begins [] text
| begins_one c t its text : fits c t -> begins its text -> begins (One c :: its) (t :: text)
| begins_star c rep its text : Forall (fits c) rep -> begins its text -> begins (Star c :: its) (rep ++ text)
| begins_end its : begins its [] -> begins (End :: its) [].

(** A pattern matches a text when it begins some suffix of it, or the text
    itself after '^'. *)
Definition matches (re text : list Z) : Prop :=
  if decide (head re = Some 94) then begins (items (tail re)) text
  else exists l text', text = l ++ text' /\ begins (items re) text'.

(** ** The matcher finds what the pattern means *)

Definition nonul (l : list Z) : Prop := Forall (fun c => c <> 0) l.

Lemma begins_star_inv c its text :
  begins (Star c :: its) text <->
  begins its text \/ exists t text', text = t :: text' /\ fits c t /\ begins (Star c :: its) text'.
Proof.
  split.
  - intros H. inversion H as [| |c' rep its' text' Hrep Hb|]; subst. destruct rep as [|t rep]; [by left|].
    apply Forall_cons in Hrep as [Ht Hrep]. right. exists t, (rep ++ text'). split_and!; [done|done|by constructor].
  - intros [Hb|(t & text' & -> & Ht & Hb)]; [by apply (begins_star c [])|].
    inversion Hb as [| |c' rep its' text2 Hrep Hb2|]; subst. by apply (begins_star c (t :: rep)); [constructor|].
Qed.

Lemma fits_test c t : reflect (fits c t) ((c =? 46) || (c =? t)).
Proof.
  apply iff_reflect. unfold fits. rewrite orb_true_iff, !Z.eqb_eq. done.
Qed.

(** matchstar, given that matchhere is right on the rest of the pattern. *)
Lemma matchstar_ok c mh its text rest :
  nonul text ->
  (forall text', nonul text' -> exists b, mh (text' ++ 0 :: rest) = Some b /\ (b = true <-> begins its text')) ->
  exists b, matchstar c mh (text ++ 0 :: rest) = Some b /\ (b = true <-> begins (Star c :: its) text).
Proof.
  intros Ht Hmh. induction Ht as [|t text Htz Ht IH].
  - destruct (Hmh [] (List.Forall_nil _)) as (b & Hb & Hiff). cbn [app] in *. exists b. cbn [matchstar]. rewrite Hb.
    rewrite begins_star_inv. split; [by destruct b|]. rewrite Hiff. split; [by left|].
    by intros [?|(? & ? & ? & _)].
  - destruct (Hmh (t :: text)) as (b & Hb & Hiff); [by constructor|]. destruct IH as (b' & Hb' & Hiff').
    cbn [app matchstar] in *. rewrite Hb. destruct b.
    { exists true. split; [done|]. rewrite begins_star_inv. split; [intros _; left; by apply Hiff|done]. }
    rewrite (proj2 (Z.eqb_neq t 0)) by done. cbn [negb andb].
    rewrite (Z.eqb_sym t c), orb_comm. destruct (fits_test c t) as [Hf|Hf].
    + exists b'. split; [done|]. rewrite Hiff', (begins_star_inv c its (t :: text)). split; [intros H; right; by exists t, text|].
      intros [H|(t' & text' & [= <- <-] & _ & H)]; [by apply Hiff in H|done].
    + exists false. split; [done|]. split; [done|]. rewrite begins_star_inv.
      intros [H|(t' & text' & [= <- <-] & H & _)]; [by apply Hiff in H|done].
Qed.

Lemma matchhere_ok re text rest rest' :
  nonul re -> nonul text ->
  exists b, matchhere (re ++ 0 :: rest) (text ++ 0 :: rest') = Some b /\ (b = true <-> begins (items re) text).
Proof.
  remember (length re) as n eqn:Hn. revert re text Hn. induction n as [n IH] using lt_wf_ind. intros re text -> Hre Ht.
  destruct re as [|c re1]; [exists true; split; [done|split; [constructor|done]]|].
  apply Forall_cons in Hre as [Hc Hre]. cbn [app matchhere]. rewrite (proj2 (Z.eqb_neq c 0)) by done.
  destruct re1 as [|d re2].
  - cbn [app]. rewrite (Z.eqb_refl 0). change (0 =? 42) with false. cbn [items]. rewrite andb_true_r.
    destruct text as [|t text]; cbn [app].
    + rewrite Z.eqb_refl. cbn [negb andb]. destruct (Z.eqb_spec c 36) as [->|Hd].
      * exists true. split; [done|]. split; [intros _; repeat constructor|done].
      * exists false. split; [done|]. split; [done|]. intros H. by inversion H.
    + apply Forall_cons in Ht as [Htz Ht]. rewrite (proj2 (Z.eqb_neq t 0)) by done. cbn [negb andb].
      destruct (Z.eqb_spec c 36) as [->|Hd].
      * exists false. split; [done|]. split; [done|]. intros H. by inversion H.
      * change (0 =? 0) with true. destruct (fits_test c t) as [Hf|Hf].
        -- exists true. split; [done|]. split; [intros _; apply begins_one; [done|constructor]|done].
        -- exists false. split; [done|]. split; [done|]. intros H. by inversion H.
  - apply Forall_cons in Hre as [Hdz Hre]. cbn [app items]. rewrite (proj2 (Z.eqb_neq d 0)), andb_false_r by done.
    destruct (Z.eqb_spec d 42) as [->|Hd].
    + apply matchstar_ok; [done|]. intros text' Ht'. apply (IH (length re2)); try done. simpl. lia.
    + destruct text as [|t text]; cbn [app].
      * exists false. split; [done|]. split; [done|]. intros H. by inversion H.
      * apply Forall_cons in Ht as [Htz Ht]. rewrite (proj2 (Z.eqb_neq t 0)) by done. cbn [negb andb].
        destruct (fits_test c t) as [Hf|Hf].
        -- destruct (IH (length (d :: re2)) ltac:(simpl; lia) (d :: re2) text eq_refl) as (b & Hb & Hiff); [by constructor|done|].
           exists b. split; [exact Hb|]. rewrite Hiff. split; [by constructor|]. intros H. by inversion H.
        -- exists false. split; [done|]. split; [done|]. intros H. by inversion H.
Qed.

Lemma match_loop_ok re text rest rest' :
  nonul re -> nonul text ->
  exists b, match_loop (re ++ 0 :: rest) (text ++ 0 :: rest') = Some b /\
    (b = true <-> exists l text', text = l ++ text' /\ begins (items re) text').
Proof.
  intros Hre Ht. induction Ht as [|t text Htz Ht IH].
  - destruct (matchhere_ok re [] rest rest') as (b & Hb & Hiff); [done|constructor|]. cbn [app] in *. exists b.
    split; [cbn [match_loop]; rewrite Hb; by destruct b|]. rewrite Hiff. split; [intros H; by exists [], []|].
    intros (l & text' & He & H). by destruct l, text'.
  - destruct (matchhere_ok re (t :: text) rest rest') as (b & Hb & Hiff); [done|by constructor|].
    destruct IH as (b' & Hb' & Hiff'). cbn [app match_loop] in *. rewrite Hb. destruct b.
    { exists true. split; [done|]. split; [intros _; exists [], (t :: text); split; [done|by apply Hiff]|done]. }
    rewrite (proj2 (Z.eqb_neq t 0)) by done. exists b'. split; [done|]. rewrite Hiff'. split.
    + intros (l & text' & -> & H). by exists (t :: l), text'.
    + intros (l & text' & He & H). destruct l as [|t' l]; cbn [app] in He; [subst text'; by apply Hiff in H|].
      injection He as <- ->. by exists l, text'.
Qed.

Lemma match_ok re text rest rest' :
  nonul re -> nonul text ->
  exists b, match_ (re ++ 0 :: rest) (text ++ 0 :: rest') = Some b /\ (b = true <-> matches re text).
Proof.
  intros Hre Ht. unfold matches, match_. destruct re as [|c re]; cbn [app head tail].
  - rewrite decide_False by done. apply (match_loop_ok [] text rest rest'); [constructor|done].
  - destruct (Z.eqb_spec c 94) as [->|Hne].
    + rewrite decide_True by done. apply Forall_cons in Hre as [_ Hre]. by apply matchhere_ok.
    + rewrite decide_False by (intros [= ->]; done). by apply (match_loop_ok (c :: re)).
Qed.

(** C33: grep's matcher decides its pattern language.  On a pattern and a text in
    memory it stays inside both strings, returns, and answers true exactly when
    the text contains what the pattern stands for: each character for itself,
    '.' for any, c* for any number of c, '^' at the beginning and '$' at the end
    for the ends of the text. *)
Theorem match_decides re text rest rest' :
  nonul re -> nonul text ->
  exists b, match_ (re ++ 0 :: rest) (text ++ 0 :: rest') = Some b /\ (b = true <-> matches re text).
Proof. apply match_ok. Qed.

Lemma match_decides_witness : matches (chars "^a.*c$") (chars "abbc").
Proof.
  destruct (match_decides (chars "^a.*c$") (chars "abbc") [] []) as (b & Hb & Hiff);
    [apply (bool_decide_unpack _); vm_compute; exact I..|].
  apply Hiff. vm_compute in Hb. injection Hb as <-. reflexivity.
Defined.

(** ** The input, line by line *)

Definition nonl (l : list Z) : Prop := Forall (fun c => c <> 10) l.

(** The text of terminated lines. *)
Definition unlines (ls : list (list Z)) : list Z := concat ((fun l => l ++ [10]) <$> ls).

(** The output for the lines [ls]: those that match, each with its newline. *)
Inductive picks (re : list Z) : list (list Z) -> list Z -> Prop :=
| picks_nil : picks re [] []
| picks_hit l ls out : matches re l -> picks re ls out -> picks re (l :: ls) (l ++ [10] ++ out)
| picks_miss l ls out : ~ matches re l -> picks re ls out -> picks re (l :: ls) out.

Lemma picks_app re ls1 ls2 o1 o2 : picks re ls1 o1 -> picks re ls2 o2 -> picks re (ls1 ++ ls2) (o1 ++ o2).
Proof. induction 1; intros H2; cbn [app]; [done| |]; rewrite <- ?app_assoc; by constructor; auto. Qed.

Lemma strchr_line l rest : nonul l -> nonl l -> strchr (l ++ 10 :: rest) 10 = Some (Some (length l)).
Proof.
  intros H1 H2. induction H1 as [|c l Hc H1 IH]; [done|]. apply Forall_cons in H2 as [Hn H2]. cbn [app strchr].
  rewrite (proj2 (Z.eqb_neq c 0)), (proj2 (Z.eqb_neq c 10)) by done. by rewrite IH.
Qed.

Lemma strchr_last l rest : nonul l -> nonl l -> strchr (l ++ 0 :: rest) 10 = Some None.
Proof.
  intros H1 H2. induction H1 as [|c l Hc H1 IH]; [done|]. apply Forall_cons in H2 as [Hn H2]. cbn [app strchr].
  rewrite (proj2 (Z.eqb_neq c 0)), (proj2 (Z.eqb_neq c 10)) by done. by rewrite IH.
Qed.

Lemma insert_at {A} (l1 : list A) x y l2 : <[length l1 := y]> (l1 ++ x :: l2) = l1 ++ y :: l2.
Proof. rewrite insert_app_r_alt by done. by rewrite Nat.sub_diag. Qed.

(** Every text is some lines and a rest. *)
Lemma lines_exist text : exists ls last, text = unlines ls ++ last /\ Forall nonl ls /\ nonl last.
Proof.
  induction text as [|c text (ls & last & -> & Hls & Hlast)].
  { exists [], []. split; [done|]. split; constructor. }
  destruct (Z.eq_dec c 10) as [->|Hc].
  { exists ([] :: ls), last. split; [reflexivity|]. split; [|done]. constructor; [constructor|done]. }
  destruct ls as [|l ls]; [exists [], (c :: last); split; [done|]; split; [constructor|by constructor]|].
  apply Forall_cons in Hls as [Hl Hls]. exists ((c :: l) :: ls), last. split_and!; [done| |done].
  constructor; [by constructor|done].
Qed.

Lemma line_unique l1 l2 r1 r2 : nonl l1 -> nonl l2 -> l1 ++ 10 :: r1 = l2 ++ 10 :: r2 -> l1 = l2 /\ r1 = r2.
Proof.
  intros H1. revert l2. induction H1 as [|c l1 Hc H1 IH]; intros [|d l2] H2 He; cbn [app] in He.
  - by injection He as ->.
  - injection He as <- _. by apply Forall_cons in H2 as [? _].
  - by injection He as -> _.
  - injection He as <- He. apply Forall_cons in H2 as [_ H2]. by destruct (IH l2 H2 He) as [-> ->].
Qed.

Lemma lines_prefix ls1 t ls last :
  unlines ls1 ++ t = unlines ls ++ last -> Forall nonl ls1 -> Forall nonl ls -> nonl last ->
  exists ls2, ls = ls1 ++ ls2 /\ t = unlines ls2 ++ last.
Proof.
  intros He H1. revert ls He. induction H1 as [|l1 ls1 Hl1 H1 IH]; intros ls He H2 H3; [by exists ls|].
  change (unlines (l1 :: ls1)) with ((l1 ++ [10]) ++ unlines ls1) in He. rewrite <- !app_assoc in He. cbn [app] in He.
  destruct ls as [|l ls].
  - exfalso. cbn [unlines fmap list_fmap concat app] in He. rewrite <- He in H3.
    apply Forall_app in H3 as [_ [H3 _]%Forall_cons]. done.
  - apply Forall_cons in H2 as [Hl H2]. change (unlines (l :: ls)) with ((l ++ [10]) ++ unlines ls) in He.
    rewrite <- !app_assoc in He. cbn [app] in He. apply line_unique in He as [-> He]; [|done|done].
    destruct (IH ls He H2 H3) as (ls2 & -> & Ht). by exists ls2.
Qed.

Lemma no_newline ls last : nonl (unlines ls ++ last) -> ls = [].
Proof.
  destruct ls as [|l ls]; [done|]. change (unlines (l :: ls)) with ((l ++ [10]) ++ unlines ls). rewrite <- !app_assoc.
  by intros [_ [Hc _]%Forall_cons]%Forall_app.
Qed.

Lemma unlines_length ls : (length ls <= length (unlines ls))%nat.
Proof.
  induction ls as [|l ls IH]; [done|]. change (unlines (l :: ls)) with ((l ++ [10]) ++ unlines ls).
  rewrite !length_app. simpl. lia.
Qed.

Lemma unlines_nonul ls last : nonul (unlines ls ++ last) -> Forall nonul ls /\ nonul last.
Proof.
  induction ls as [|l ls IH]; [done|]. change (unlines (l :: ls)) with ((l ++ [10]) ++ unlines ls).
  intros [[[Hl _]%Forall_app H]%Forall_app Hlast]%Forall_app. destruct IH as [H1 H2]; [by apply Forall_app|].
  split; [by constructor|done].
Qed.

(** The copy down of what follows the last line. *)
Lemma move_up_front m s n :
  (s + n <= length m)%nat -> exists junk, move_up m 0 s n = take n (drop s m) ++ junk /\ length (move_up m 0 s n) = length m.
Proof.
  intros Hn. exists (drop n (move_up m 0 s n)). split; [|apply move_up_length].
  rewrite <- (take_drop n (move_up m 0 s n)) at 1. f_equal.
  apply list_eq_same_length with n; rewrite ?length_take, ?length_drop, ?move_up_length; [lia|lia|].
  intros i x y Hi Hx Hy. apply lookup_take_Some in Hx as [Hx _]. apply lookup_take_Some in Hy as [Hy _].
  rewrite lookup_drop in Hy. apply aget_lookup in Hx, Hy. rewrite <- Hx, <- Hy, move_up_aget by lia.
  by rewrite decide_True, Nat.sub_0_r by lia.
Qed.

Lemma io_turn fd rest out1 out2 e :
  (io_write 1 out2 (io_write 1 out1 (e <| io_in ::= <[fd := rest]> |>))) <| io_in ::= <[fd := []]> |> =
  (io_write 1 (out1 ++ out2) e) <| io_in ::= <[fd := []]> |>.
Proof.
  rewrite io_write_app. destruct e as [i o f]. unfold io_write, out_of.
  change (mk_io (<[fd := []]> (<[fd := rest]> i)) (<[1 := default [] (o !! 1) ++ out1 ++ out2]> o) f =
    mk_io (<[fd := []]> i) (<[1 := default [] (o !! 1) ++ out1 ++ out2]> o) f). by rewrite insert_insert_eq.
Qed.

Section grepping.
Context (re : list Z) (rd : Z -> list Z -> list Z -> Prop) (QX : io -> Prop).
Hypothesis Hre : nonul re.

(** The lines of the buffer after [pre]: the matching ones are written. *)
Lemma grep_lines_ok ls last fuel pre rest (Q : nat -> list Z -> io -> Prop) e :
  Forall nonul ls -> Forall nonl ls -> nonul last -> nonl last -> (length ls <= fuel)%nat ->
  is_Some (io_out e !! 1) ->
  (forall pre' out, length pre' = length (pre ++ unlines ls) -> picks re ls out ->
     Q (length pre') (pre' ++ last ++ 0 :: rest) (io_write 1 out e)) ->
  uwp (io_kernel rd) QX (grep_lines fuel (re ++ [0]) (length pre)) Q (pre ++ unlines ls ++ last ++ 0 :: rest) e.
Proof.
  revert ls fuel pre e. induction ls as [|l ls IH]; intros fuel pre e Hz Hn Hlz Hln Hf He HQ.
  - assert (uwp (io_kernel rd) QX (uret (length pre)) Q (pre ++ last ++ 0 :: rest) e) as Hret.
    { apply uwp_ret. rewrite <- (io_write_nil 1 e) by done. apply HQ; [by rewrite app_nil_r|constructor]. }
    destruct fuel; cbn [grep_lines]; apply uwp_bind, uwp_gets, uwp_bind;
      (apply (uwp_deref _ _ None); [cbn [id unlines fmap list_fmap concat app]; by rewrite drop_app_length, strchr_last|exact Hret]).
  - apply Forall_cons in Hz as [Hz1 Hz]. apply Forall_cons in Hn as [Hn1 Hn].
    change (unlines (l :: ls)) with ((l ++ [10]) ++ unlines ls) in *.
    destruct fuel as [|fuel]; [simpl in Hf; lia|]. cbn [grep_lines]. apply uwp_bind, uwp_gets, uwp_bind.
    set (tl := unlines ls ++ last ++ 0 :: rest).
    assert (pre ++ ((l ++ [10]) ++ unlines ls) ++ last ++ 0 :: rest = (pre ++ l) ++ 10 :: tl) as ->.
    { unfold tl. by rewrite <- !app_assoc. }
    apply (uwp_deref _ _ (Some (length l))).
    { cbn [id]. rewrite <- app_assoc, drop_app_length. by apply strchr_line. }
    rewrite <- length_app. apply uwp_bind, uwp_mod. rewrite insert_at. apply uwp_bind, uwp_gets, uwp_bind. cbn [id].
    destruct (match_ok re l [] tl Hre Hz1) as (b & Hb & Hiff).
    apply (uwp_deref _ _ b); [rewrite <- app_assoc, drop_app_length; exact Hb|].
    assert (forall c out0 e', is_Some (io_out e' !! 1) -> e' = io_write 1 out0 e ->
      (forall out, picks re ls out -> picks re (l :: ls) (out0 ++ out)) ->
      uwp (io_kernel rd) QX (grep_lines fuel (re ++ [0]) (length (pre ++ l) + 1)) Q ((pre ++ l) ++ c :: tl) e') as Hnext.
    { intros c out0 e' He' -> Hp. replace (length (pre ++ l) + 1)%nat with (length ((pre ++ l) ++ [c])) by (rewrite !length_app; simpl; lia).
      replace ((pre ++ l) ++ c :: tl) with (((pre ++ l) ++ [c]) ++ tl) by (by rewrite <- app_assoc).
      apply IH; try done; [simpl in Hf; lia|]. intros pre' out Hlen Hpk. rewrite io_write_app. apply HQ; [|by apply Hp].
      rewrite Hlen, !length_app. simpl. lia. }
    apply uwp_bind. destruct b.
    + cbn [uwhen]. apply uwp_bind, uwp_mod. rewrite insert_at. apply uwp_bind, uwp_gets, uwp_bind. cbn [id].
      replace (length (pre ++ l) + 1 - length pre)%nat with (length (l ++ [10])) by (rewrite !length_app; simpl; lia).
      assert (drop (length pre) ((pre ++ l) ++ 10 :: tl) = (l ++ [10]) ++ tl) as ->
        by (rewrite <- !app_assoc, drop_app_length; done).
      rewrite take_app_length. apply uwp_write, uwp_ret. apply (Hnext 10 (l ++ [10])); [apply io_write_open|done|].
      intros out Hp. rewrite <- app_assoc. constructor; [by apply Hiff|done].
    + cbn [uwhen]. apply uwp_ret. apply (Hnext 0 []); [done|by rewrite io_write_nil|].
      intros out Hp. apply picks_miss; [|done]. intros Hm%Hiff. done.
Qed.

End grepping.

Section reading.
Context (re : list Z) (QX : io -> Prop).
Hypothesis Hre : nonul re.

(** A buffer without a newline is only seen at the end of the text. *)
Lemma no_line c l rest ls last :
  c ++ l ++ rest = unlines ls ++ last -> nonl (c ++ l) -> nonl last -> Forall nonl ls ->
  Forall (fun x => length x <= 1022)%nat ls ->
  full_reads (1023 - Z.of_nat (length c)) l rest -> ls = [] /\ nonl rest.
Proof.
  intros He Hn Hlast Hls Hlen [Hl1 Hl2]. destruct ls as [|x ls].
  - split; [done|]. cbn in He. rewrite <- He in Hlast. rewrite app_assoc in Hlast. by apply Forall_app in Hlast as [_ ?].
  - exfalso. apply Forall_cons in Hlen as [Hx _]. apply Forall_cons in Hls as [Hxn _].
    change (unlines (x :: ls)) with ((x ++ [10]) ++ unlines ls) in He. rewrite <- !app_assoc, app_assoc in He. cbn [app] in He.
    destruct (decide (length (c ++ l) <= length x)%nat) as [Hle|Hgt].
    + rewrite Hl2 in He by (rewrite length_app in Hle; lia). rewrite app_nil_r in He. rewrite He in Hn.
      apply Forall_app in Hn as [_ [Hn _]%Forall_cons]. done.
    + assert ((c ++ l) !! length x = Some 10) as H10.
      { rewrite <- (lookup_app_l (c ++ l) rest) by lia. rewrite He, lookup_app_r by done. by rewrite Nat.sub_diag. }
      eapply Forall_lookup_1 in H10; [|exact Hn]. done.
Qed.

(** A read appends to what the buffer holds, and a NUL follows. *)
Lemma fill_buffer (c junk l : list Z) :
  length (c ++ junk) = 1024%nat -> (length (c ++ l) <= 1023)%nat ->
  exists junk', (length (c ++ l) + S (length junk') = 1024)%nat /\
    let m := (length c + length l)%nat in
    <[m := 0]> (take (m - length l) (c ++ junk) ++ l ++ drop m (c ++ junk)) = (c ++ l) ++ 0 :: junk'.
Proof.
  intros Hbuf Hm. rewrite length_app in Hbuf, Hm. destruct (drop (length l) junk) as [|y junk'] eqn:Hjunk;
    pose proof (f_equal length Hjunk) as Hd; rewrite length_drop in Hd; simpl in Hd; [lia|].
  exists junk'. rewrite length_app. split; [lia|]. cbn zeta.
  rewrite Nat.add_sub, take_app_length, drop_app_add', Hjunk, app_assoc by done.
  rewrite <- length_app. apply insert_at.
Qed.

(** After the lines of the buffer the rest moves to the front; a buffer without
    a newline is dropped. *)
Lemma keep_rest pre rest1 junk (Q : nat -> list Z -> io -> Prop) e :
  (pre = [] -> forall junk2, length junk2 = length (rest1 ++ junk) -> Q O junk2 e) ->
  (pre <> [] -> forall junk2, length (rest1 ++ junk2) = length (pre ++ rest1 ++ junk) -> Q (length rest1) (rest1 ++ junk2) e) ->
  let m := if (length pre =? 0)%nat then O else length (pre ++ rest1) in
  uwp (io_kernel full_reads) QX
    (if (0 <? m)%nat then
       umod (fun buf => move_up buf 0 (length pre) (m - length pre)) ;;;
       uret (m - length pre)%nat
     else uret m) Q (pre ++ rest1 ++ junk) e.
Proof.
  intros H0 H1. destruct pre as [|z pre']; [by apply uwp_ret, H0|]. specialize (H1 ltac:(done)). clear H0.
  set (pre := z :: pre') in *. assert (length pre <> 0)%nat as Hp0 by (by unfold pre). cbn zeta.
  rewrite (proj2 (Nat.eqb_neq _ _)), length_app, (proj2 (Nat.ltb_lt 0 _)) by (done || lia). apply uwp_bind, uwp_mod, uwp_ret.
  replace (length pre + length rest1 - length pre)%nat with (length rest1) by lia.
  destruct (move_up_front (pre ++ rest1 ++ junk) (length pre) (length rest1)) as (junk2 & Hmv & Hml).
  { rewrite !length_app. lia. }
  rewrite drop_app_length, take_app_length in Hmv. rewrite Hmv in *. by apply H1.
Qed.

(** What the loop does from a buffer that holds [c], the part of a line. *)
Definition grep_runs (fuel : nat) (fd : Z) : Prop := forall c junk inp ls last (Q : unit -> list Z -> io -> Prop) e,
  io_in e !! fd = Some inp -> is_Some (io_out e !! 1) -> nonul (c ++ inp) -> nonl c ->
  length (c ++ junk) = 1024%nat -> (length c <= 1022)%nat -> c ++ inp = unlines ls ++ last ->
  Forall nonl ls -> nonl last -> Forall (fun x => length x <= 1022)%nat ls -> (length inp <= fuel)%nat ->
  (forall out buf, picks re ls out -> Q tt buf ((io_write 1 out e) <| io_in ::= <[fd := []]> |>)) ->
  uwp (io_kernel full_reads) QX (grep_loop fuel (re ++ [0]) fd (length c)) Q (c ++ junk) e.

(** One turn, on a read of [l]. *)
Lemma grep_turn fuel fd c junk l rest ls last (Q : unit -> list Z -> io -> Prop) e :
  grep_runs fuel fd -> is_Some (io_in e !! fd) -> is_Some (io_out e !! 1) -> nonul (c ++ l ++ rest) ->
  length (c ++ junk) = 1024%nat -> (length c <= 1022)%nat -> c ++ l ++ rest = unlines ls ++ last ->
  Forall nonl ls -> nonl last -> Forall (fun x => length x <= 1022)%nat ls -> (length rest <= fuel)%nat ->
  full_reads (1023 - Z.of_nat (length c)) l rest ->
  (forall out buf, picks re ls out -> Q tt buf ((io_write 1 out e) <| io_in ::= <[fd := []]> |>)) ->
  let m := (length c + length l)%nat in
  uwp (io_kernel full_reads) QX
    (umod (fun buf => take (m - length l) buf ++ l ++ drop m buf) ;;;
     umod (<[m := 0]>) ;;;
     p <- grep_lines (idx GBUF) (re ++ [0]) 0 ;;
     let m := if (p =? 0)%nat then O else m in
     m <- (if (0 <? m)%nat then
             umod (fun buf => move_up buf 0 p (m - p)) ;;;
             uret (m - p)%nat
           else uret m) ;;
     grep_loop fuel (re ++ [0]) fd m) Q (c ++ junk) (e <| io_in ::= <[fd := rest]> |>).
Proof.
  intros IH Hin Hout Hz Hbuf Hcl He Hls Hlast Hlen Hf Hrd HQ m. pose proof Hrd as [Hl1 _].
  assert (length (c ++ l) <= 1023)%nat as Hm by (rewrite length_app; lia).
  destruct (fill_buffer c junk l Hbuf Hm) as (junk' & Htot & Hfill).
  apply uwp_bind, uwp_mod, uwp_bind, uwp_mod. unfold m. cbn zeta in Hfill. rewrite Hfill, <- length_app. clear m Hfill Hbuf.
  destruct (lines_exist (c ++ l)) as (ls1 & last1 & Hcl1 & Hls1 & Hlast1).
  rewrite app_assoc in Hz. apply Forall_app in Hz as [Hzcl Hz3].
  destruct (unlines_nonul ls1 last1) as [Hz4 Hz5]; [by rewrite <- Hcl1|].
  pose proof (unlines_length ls1) as Hul. rewrite Hcl1, length_app in *. apply uwp_bind. rewrite <- app_assoc.
  apply (grep_lines_ok re full_reads QX Hre ls1 last1 (idx GBUF) [] junk'); try done.
  { change (idx GBUF) with 1024%nat. lia. }
  intros pre out1 Hpre Hp1. cbn [app] in Hpre. apply uwp_bind. rewrite <- Hpre, <- length_app. apply keep_rest.
  - intros -> junk2 Hj. assert (ls1 = []) as -> by (destruct ls1; simpl in *; [done|lia]).
    inversion Hp1; subst. destruct (no_line c l rest ls last) as [-> Hrest]; try done.
    { rewrite Hcl1. exact Hlast1. }
    apply (IH [] junk2 rest [] rest); try done.
    + simpl. by rewrite lookup_insert_eq.
    + apply io_write_open.
    + constructor.
    + cbn [app]. rewrite length_app in *. simpl in *. lia.
    + simpl. lia.
    + intros out buf Hp. inversion Hp; subst. rewrite io_turn. apply HQ. constructor.
  - intros Hne junk2 Hj.
    destruct (lines_prefix ls1 (last1 ++ rest) ls last) as (ls2 & -> & Hr2); try done.
    { rewrite app_assoc, <- Hcl1, <- app_assoc. exact He. }
    apply Forall_app in Hls as [_ Hls2]. apply Forall_app in Hlen as [_ Hlen2].
    apply (IH last1 junk2 rest ls2 last); try done.
    + simpl. by rewrite lookup_insert_eq.
    + apply io_write_open.
    + by apply Forall_app.
    + rewrite !length_app in *. simpl in *. lia.
    + destruct pre; [done|]. simpl in *. lia.
    + intros out buf Hp2. rewrite io_turn. apply HQ. by apply picks_app.
Qed.

Lemma grep_loop_ok fuel fd : grep_runs fuel fd.
Proof.
  induction fuel as [|fuel IH]; intros c junk inp ls last Q e Hin Hout Hz Hc Hbuf Hcl He Hls Hlast Hlen Hf HQ.
  all: cbn [grep_loop]; apply uwp_bind, uwp_sys; intros x e1 (l & rest & Hl & Hrd & -> & ->); rewrite Hin in Hl;
    injection Hl as ->; change (GBUF - Z.of_nat (length c) - 1) with (1024 - Z.of_nat (length c) - 1) in Hrd;
    replace (1024 - Z.of_nat (length c) - 1) with (1023 - Z.of_nat (length c)) in Hrd by lia.
  all: destruct l as [|b l].
  1, 3: apply uwp_ret; destruct Hrd as [_ Hrest]; rewrite (Hrest ltac:(simpl; lia)) in *; rewrite app_nil_r in He;
    rewrite He in Hc; apply no_newline in Hc as ->; rewrite <- (io_write_nil 1 e) by done; apply HQ; constructor.
  { simpl in Hf. lia. }
  eapply (grep_turn fuel fd c junk (b :: l) rest ls last); try done.
  rewrite length_app in Hf. simpl in Hf. lia.
Qed.
End reading.

(** C34: on a text file, that is, one without NUL bytes, whose lines fit the
    buffer (at most 1022 characters and the newline), and with reads that are
    only short at the end of the file, grep reads the whole file, returns, and
    writes the lines ended by a newline that the pattern matches, in order, each
    with its newline, and nothing else.  It needs no more reads than the file
    has bytes. *)
Theorem grep_correct fuel re fd text ls last buf e QX :
  nonul re -> io_in e !! fd = Some text -> is_Some (io_out e !! 1) -> nonul text ->
  text = unlines ls ++ last -> Forall nonl ls -> nonl last -> Forall (fun l => length l <= 1022)%nat ls ->
  length buf = 1024%nat -> (length text <= fuel)%nat ->
  uwp (io_kernel full_reads) QX (grep fuel (re ++ [0]) fd)
    (fun _ _ e' => exists out, picks re ls out /\ e' = (io_write 1 out e) <| io_in ::= <[fd := []]> |>) buf e.
Proof.
  intros Hre Hin Hout Hz He Hls Hlast Hlen Hbuf Hf.
  apply (grep_loop_ok re QX Hre fuel fd [] buf text ls last); try done.
  - constructor.
  - simpl. lia.
  - intros out buf' Hp. by exists out.
Qed.

Definition two_lines : io := mk_io {[ 3 := chars "cat" ++ 10 :: chars "dog" ++ [10] ]} {[ 1 := [] ]} ∅.

Lemma grep_correct_witness :
  exists out, picks (chars "^d") [chars "cat"; chars "dog"] out /\
  uwp (io_kernel full_reads) (fun _ => False) (grep 10 (chars "^d" ++ [0]) 3)
    (fun _ _ e' => exists out, picks (chars "^d") [chars "cat"; chars "dog"] out /\
       e' = (io_write 1 out two_lines) <| io_in ::= <[3 := []]> |>) (replicate 1024 0) two_lines.
Proof.
  exists (chars "dog" ++ [10]). split.
  - apply picks_miss.
    + destruct (match_ok (chars "^d") (chars "cat") [] []) as (b & Hb & Hiff);
        [apply (bool_decide_unpack _); vm_compute; exact I..|].
      rewrite <- Hiff. vm_compute in Hb. congruence.
    + apply (picks_hit _ (chars "dog") [] []); [|constructor].
      destruct (match_ok (chars "^d") (chars "dog") [] []) as (b & Hb & Hiff);
        [apply (bool_decide_unpack _); vm_compute; exact I..|].
      apply Hiff. vm_compute in Hb. congruence.
  - apply (grep_correct 10 (chars "^d") 3 (chars "cat" ++ 10 :: chars "dog" ++ [10]) [chars "cat"; chars "dog"] []);
      apply (bool_decide_unpack _); vm_compute; exact I.
Defined.

(** ** Short reads *)

(** A kernel that gives the chunks of its input one per read, as a pipe or the
    console does. *)
Definition chunk_run : answerer (list (list Z) * list Z) := fun X c =>
  match c in call X return list (list Z) * list Z -> option (X * (list (list Z) * list Z)) with
  | Read _ n => fun e =>
      match e.1 with
      | [] => Some (Some [], e)
      | l :: ls => if Z.of_nat (length l) <=? n then Some (Some l, (ls, e.2)) else None
      end
  | Write _ l => fun e => Some (Z.of_nat (length l), (e.1, e.2 ++ l))
  | _ => fun _ => None
  end.

(** Grep loses input when a read ends inside a line.  The line "abc" matches
    the pattern "b", and it is printed when it comes in one read; when it comes
    as "ab" and "c", the first part has no newline and is thrown away, and
    nothing is printed. *)
Theorem grep_drops_partial_line :
  matches (chars "b") (chars "abc") /\
  (exists buf, prun chunk_run (grep 9 (chars "b" ++ [0]) 0 (replicate 1024 0)) ([chars "abc" ++ [10]], []) =
    (Returned (tt, buf), ([], chars "abc" ++ [10]))) /\
  (exists buf, prun chunk_run (grep 9 (chars "b" ++ [0]) 0 (replicate 1024 0)) ([chars "ab"; chars "c" ++ [10]], []) =
    (Returned (tt, buf), ([], []))).
Proof.
  split; [|split; eexists; vm_compute; reflexivity].
  destruct (match_ok (chars "b") (chars "abc") [] []) as (b & Hb & Hiff);
    [apply (bool_decide_unpack _); by vm_compute..|].
  apply Hiff. vm_compute in Hb. congruence.
Qed.

(** Grep stops looking for newlines at a NUL.  After a line with a NUL byte, the
    line "abc", which the pattern "b" matches, is not printed, although it came
    in the same read. *)
Theorem grep_drops_after_nul :
  matches (chars "b") (chars "abc") /\
  (exists buf, prun chunk_run (grep 9 (chars "b" ++ [0]) 0 (replicate 1024 0)) ([[120; 0; 10] ++ chars "abc" ++ [10]], []) =
    (Returned (tt, buf), ([], []))).
Proof.
  split; [|eexists; vm_compute; reflexivity].
  destruct (match_ok (chars "b") (chars "abc") [] []) as (b & Hb & Hiff);
    [apply (bool_decide_unpack _); by vm_compute..|].
  apply Hiff. vm_compute in Hb. congruence.
Qed.
