(* ===== verification/Programs.v ===== *)
(** * The user programs (cat.c, wc.c, echo.c, kill.c, ln.c, mkdir.c, rm.c,
      zombie.c, ls.c, PRJ03_chmod.c, PRJ03_useradd.c, PRJ03_userdel.c)

    Each main takes argv[1..argc-1], as strings without their NUL, and the fuel
    of its read loop where it has one.  Global buffers hold nothing from one use
    to the next, and are values here. *)

From S2P Require Import Prelude Cstring Kernel Spinlock Console ProcCore Bio Inode User Ulib.

(** A format with the final newline. *)
Definition line (s : string) : list Z := chars s ++ [10].

(** buf[i] for a uint index *)
Definition load {G} (buf : list Z) (i : Z) : U G Z :=
  if (0 <=? i) && (i <? Z.of_nat (length buf)) then uret (aget buf (idx i)) else fault (UB "load").

Section programs.
Context {G : Type}.

(** ** cat.c *)

Fixpoint cat (fuel : nat) (fd : Z) : U G unit :=
  r <- sys (Read fd 512) ;;
  match r with
  | None =>
      printf 1 (line "cat: read error") [] ;;;
      uexit
  | Some [] => uret tt
  | Some l =>
      n <- sys (Write 1 l) ;;
      if negb (n =? Z.of_nat (length l)) then
        printf 1 (line "cat: write error") [] ;;;
        uexit
      else
        match fuel with
        | O => fault (Hang "cat")
        | S fuel' => cat fuel' fd
        end
  end.

Definition cat_file (fuel : nat) (name : list Z) : U G unit :=
  fd <- sys (Open name 0) ;;
  if fd <? 0 then
    printf 1 (line "cat: cannot open %s") [AStr (Some name)] ;;;
    uexit
  else
    cat fuel fd ;;;
    sys (Close fd) ;;;
    uret tt.

Definition cat_main (fuel : nat) (args : list (list Z)) : U G unit :=
  (if decide (args = []) then cat fuel 0 else ufor args (cat_file fuel)) ;;;
  uexit.

(** ** wc.c *)

(** l, w, c and inword *)
Record wcount := mk_wcount { w_l : Z; w_w : Z; w_c : Z; w_in : bool }.

(** strchr(" \r\t\n\v", ch) *)
Definition is_space (ch : Z) : bool :=
  match strchr [32; 13; 9; 10; 11; 0] ch with Some (Some _) => true | _ => false end.

(** The body of the inner loop. *)
Definition wc_char (x : wcount) (ch : Z) : wcount :=
  let c := i32 (w_c x + 1) in
  let l := if ch =? 10 then i32 (w_l x + 1) else w_l x in
  if is_space ch then mk_wcount l (w_w x) c false
  else if negb (w_in x) then mk_wcount l (i32 (w_w x + 1)) c true
  else mk_wcount l (w_w x) c (w_in x).

Fixpoint wc_loop (fuel : nat) (fd : Z) (x : wcount) : U G (option wcount) :=
  r <- sys (Read fd 512) ;;
  match r with
  | None => uret None
  | Some [] => uret (Some x)
  | Some l =>
      match fuel with
      | O => fault (Hang "wc")
      | S fuel' => wc_loop fuel' fd (foldl wc_char x l)
      end
  end.

Definition wc (fuel : nat) (fd : Z) (name : list Z) : U G unit :=
  r <- wc_loop fuel fd (mk_wcount 0 0 0 false) ;;
  match r with
  | None =>
      printf 1 (line "wc: read error") [] ;;;
      uexit
  | Some x => printf 1 (line "%d %d %d %s") [AInt (w_l x); AInt (w_w x); AInt (w_c x); AStr (Some name)]
  end.

Definition wc_file (fuel : nat) (name : list Z) : U G unit :=
  fd <- sys (Open name 0) ;;
  if fd <? 0 then
    printf 1 (line "wc: cannot open %s") [AStr (Some name)] ;;;
    uexit
  else
    wc fuel fd name ;;;
    sys (Close fd) ;;;
    uret tt.

Definition wc_main (fuel : nat) (args : list (list Z)) : U G unit :=
  (if decide (args = []) then wc fuel 0 [] else ufor args (wc_file fuel)) ;;;
  uexit.

(** ** echo.c *)

Fixpoint echo (args : list (list Z)) : U G unit :=
  match args with
  | [] => uret tt
  | a :: args' =>
      printf 1 (chars "%s%s") [AStr (Some a); AStr (Some (if decide (args' = []) then [10] else [32]))] ;;;
      echo args'
  end.

Definition echo_main (args : list (list Z)) : U G unit := echo args ;;; uexit.

(** ** kill.c, ln.c, mkdir.c, rm.c, zombie.c *)

Definition kill_main (args : list (list Z)) : U G unit :=
  if decide (args = []) then
    printf 2 (line "usage: kill pid...") [] ;;;
    uexit
  else
    ufor args (fun a => pid <- deref (atoi (a ++ [0])) ;; sys (Kill pid) ;;; uret tt) ;;;
    uexit.

Definition ln_main (args : list (list Z)) : U G unit :=
  match args with
  | [old; new] =>
      r <- sys (Link old new) ;;
      uwhen (r <? 0) (printf 2 (line "link %s %s: failed") [AStr (Some old); AStr (Some new)]) ;;;
      uexit
  | _ =>
      printf 2 (line "Usage: ln old new") [] ;;;
      uexit
  end.

Fixpoint mkdir_loop (args : list (list Z)) : U G unit :=
  match args with
  | [] => uret tt
  | a :: args' =>
      r <- sys (Mkdir a) ;;
      if r <? 0 then printf 2 (line "mkdir: %s failed to create") [AStr (Some a)] else mkdir_loop args'
  end.

Definition mkdir_main (args : list (list Z)) : U G unit :=
  if decide (args = []) then
    printf 2 (line "Usage: mkdir files...") [] ;;;
    uexit
  else mkdir_loop args ;;; uexit.

Fixpoint rm_loop (args : list (list Z)) : U G unit :=
  match args with
  | [] => uret tt
  | a :: args' =>
      r <- sys (Unlink a) ;;
      if r <? 0 then printf 2 (line "rm: %s failed to delete") [AStr (Some a)] else rm_loop args'
  end.

Definition rm_main (args : list (list Z)) : U G unit :=
  if decide (args = []) then
    printf 2 (line "Usage: rm files...") [] ;;;
    uexit
  else rm_loop args ;;; uexit.

Definition zombie_main : U G unit :=
  pid <- sys Fork ;;
  uwhen (0 <? pid) (sys (Sleep 5) ;;; uret tt) ;;;
  uexit.

(** ** ls.c *)

(** for(p=path+strlen(path); p >= path && *p != '/'; p--); p++;
    the name after the last slash *)
Fixpoint last_name (path : list Z) : list Z :=
  match path with
  | [] => []
  | c :: path' => if existsb (Z.eqb 47) path' then last_name path' else if c =? 47 then path' else path
  end.

Definition fmtname (path : list Z) : list Z :=
  let p := last_name path in
  if (DIRSIZ <=? length p)%nat then p else p ++ replicate (DIRSIZ - length p) 32.

(** The seven characters of auth, without the NUL. *)
Definition auth (type mode : Z) : U G (list Z) :=
  t <- (if type =? T_DIR then uret 100
        else if type =? T_FILE then uret 45
        else if type =? T_DEV then uret 99
        else
          printf 2 (line "ls: unknown file type") [] ;;;
          uexit) ;;
  let bit m c := if negb (Z.land mode m =? 0) then c else 45 in
  uret [t; bit MODE_RUSR 114; bit MODE_WUSR 119; bit MODE_XUSR 120;
        bit MODE_ROTH 114; bit MODE_WOTH 119; bit MODE_XOTH 120].

Definition ls_line (path : list Z) (st : stat) : U G unit :=
  a <- auth (st_type st) (st_mode st) ;;
  u <- deref (cstr (st_userid st)) ;;
  printf 1 (line "%s %s %s %d %d")
    [AStr (Some (fmtname path)); AStr (Some u); AStr (Some a); AInt (st_ino st); AInt (st_size st)].

(** while(read(fd, &de, sizeof(de)) == sizeof(de)); [dir] is the path and the
    slash.  The name is p[0..DIRSIZ) up to its first NUL. *)
Fixpoint ls_dir (fuel : nat) (fd : Z) (dir : list Z) : U G unit :=
  r <- sys (Read fd 16) ;;
  match r with
  | Some de =>
      if negb (length de =? 16)%nat then uret tt
      else
        let next :=
          match fuel with
          | O => fault (Hang "ls")
          | S fuel' => ls_dir fuel' fd dir
          end in
        if le_load 2 de 0 =? 0 then next
        else
          name <- deref (cstr (drop 2 de ++ [0])) ;;
          st <- ustat (dir ++ name) ;;
          match st with
          | None => printf 1 (line "ls: cannot stat %s") [AStr (Some (dir ++ name))] ;;; next
          | Some st => ls_line (dir ++ name) st ;;; next
          end
  | None => uret tt
  end.

Definition ls (fuel : nat) (path : list Z) : U G unit :=
  fd <- sys (Open path 0) ;;
  if fd <? 0 then printf 2 (line "ls: cannot open %s") [AStr (Some path)]
  else
    st <- sys (Fstat fd) ;;
    match st with
    | None =>
        printf 2 (line "ls: cannot stat %s") [AStr (Some path)] ;;;
        sys (Close fd) ;;;
        uret tt
    | Some st =>
        (if st_type st =? T_FILE then ls_line path st
         else if st_type st =? T_DIR then
           if (512 <? length path + 1 + DIRSIZ + 1)%nat then printf 1 (line "ls: path too long") []
           else ls_dir fuel fd (path ++ [47])
         else uret tt) ;;;
        sys (Close fd) ;;;
        uret tt
    end.

Definition ls_main (fuel : nat) (args : list (list Z)) : U G unit :=
  (if decide (args = []) then ls fuel [46] else ufor args (ls fuel)) ;;;
  uexit.

(** ** The programs of project 3 *)

(** if (strlen(argv[1]) != 2 || ...), on the string argv[1] *)
Definition mode_digits (a : list Z) : option (Z * Z) :=
  match a with
  | [x; y] => if (x <? 48) || (55 <? x) || (y <? 48) || (55 <? y) then None else Some (x - 48, y - 48)
  | _ => None
  end.

Definition chmod_mode (x y : Z) : Z :=
  let set d b mode m := if negb (Z.land d b =? 0) then Z.lor mode m else mode in
  let mode := set x 4 0 MODE_RUSR in
  let mode := set x 2 mode MODE_WUSR in
  let mode := set x 1 mode MODE_XUSR in
  let mode := set y 4 mode MODE_ROTH in
  let mode := set y 2 mode MODE_WOTH in
  set y 1 mode MODE_XOTH.

Definition chmod_main (args : list (list Z)) : U G unit :=
  match args with
  | a :: path :: _ =>
      match mode_digits a with
      | None =>
          printf 1 (line "Invalid mode: %s") [AStr (Some a)] ;;;
          uexit
      | Some (x, y) =>
          r <- sys (Chmod path (chmod_mode x y)) ;;
          printf 1 (line (if r =? 0 then "chmod successful" else "chmod failed!")) [] ;;;
          uexit
      end
  | _ =>
      printf 1 (line "Usage: PRJ03_chmod mode target") [] ;;;
      printf 1 (line "mode: AB where A,B=[0,7]. A is for the owner and B is for others.") [] ;;;
      printf 1 (line "Each number is a sum of three options:") [] ;;;
      printf 1 (line "  4: read") [] ;;;
      printf 1 (line "  2: write") [] ;;;
      printf 1 (line "  1: execute" ++ [10]) [] ;;;
      uexit
  end.

(** gets(username, sizeof username); username[strlen(username) - 1] = 0;
    [junk] is what the array on the stack held *)
Definition ask (prompt : string) (junk : list Z) : U G (list Z) :=
  printf 1 (chars prompt) [] ;;;
  buf <- gets junk (Z.of_nat (length junk)) ;;
  n <- deref (strlen buf) ;;
  load buf (n - 1) ;;;
  buf <- store buf (idx (n - 1)) 0 ;;
  deref (cstr buf).

Definition useradd_main (junk junk' : list Z) : U G unit :=
  printf 1 (line "[Add user]") [] ;;;
  username <- ask "Username: " junk ;;
  password <- ask "Password: " junk' ;;
  r <- sys (Useradd username password) ;;
  printf 1 (line (if r =? 0 then "Useradd successful" else "Useradd failed!")) [] ;;;
  uexit.

Definition userdel_main (junk : list Z) : U G unit :=
  printf 1 (line "[Delete user]") [] ;;;
  username <- ask "Username: " junk ;;
  r <- sys (Userdel username) ;;
  printf 1 (line (if r =? 0 then "Userdel successful" else "Userdel failed!")) [] ;;;
  uexit.
End programs.

(** ** Reading a stream to its end *)

(** The world when [fd] has been read to its end. *)
Definition drained (fd : Z) (e : io) : io := e <| io_in ::= <[fd := []]> |>.

Lemma drained_write fd rest l1 l2 e :
  drained fd (io_write 1 l2 (io_write 1 l1 (e <| io_in ::= <[fd := rest]> |>))) = drained fd (io_write 1 (l1 ++ l2) e).
Proof.
  unfold drained. rewrite io_write_app. destruct e as [i o f]. unfold io_write, out_of.
  change (mk_io (<[fd := []]> (<[fd := rest]> i)) (<[1 := default [] (o !! 1) ++ l1 ++ l2]> o) f =
    mk_io (<[fd := []]> i) (<[1 := default [] (o !! 1) ++ l1 ++ l2]> o) f). by rewrite insert_insert_eq.
Qed.

Lemma cat_ok {G} fuel fd text (Q : unit -> G -> io -> Prop) QX s e :
  io_in e !! fd = Some text -> is_Some (io_out e !! 1) -> (length text <= fuel)%nat ->
  Q tt s (drained fd (io_write 1 text e)) -> uwp (io_kernel short_reads) QX (cat fuel fd) Q s e.
Proof.
  revert text e. induction fuel as [|fuel IH]; intros text e Hin Hout Hf HQ; cbn [cat].
  all: apply uwp_bind, uwp_sys; intros x e1 (l & rest & Hl & [_ Hz] & -> & ->); rewrite Hin in Hl; injection Hl as ->.
  all: destruct l as [|b l]; [destruct (Hz eq_refl) as [-> | ?]; [|lia]; apply uwp_ret; by rewrite io_write_nil in HQ|].
  { simpl in Hf. lia. }
  apply uwp_bind, uwp_write. rewrite Z.eqb_refl. cbn [negb]. apply (IH rest).
  - simpl. by rewrite lookup_insert_eq.
  - apply io_write_open.
  - rewrite length_app in Hf. simpl in Hf. lia.
  - by rewrite drained_write.
Qed.

(** What open, reading to the end and close leave of the world. *)
Lemma drained_closed fd text l e :
  io_in e !! fd = None ->
  (drained fd (io_write 1 l (e <| io_in ::= <[fd := text]> |>))) <| io_in ::= delete fd |> = io_write 1 l e.
Proof.
  intros Hfd. destruct e as [i o f]. unfold drained, io_write, out_of. simpl in Hfd.
  change (mk_io (delete fd (<[fd := []]> (<[fd := text]> i))) (<[1 := default [] (o !! 1) ++ l]> o) f =
    mk_io i (<[1 := default [] (o !! 1) ++ l]> o) f). by rewrite insert_insert_eq, delete_insert_id.
Qed.

Lemma cat_file_ok {G} fuel n text (Q : unit -> G -> io -> Prop) QX s e :
  io_files e !! n = Some text -> (length text <= fuel)%nat -> is_Some (io_out e !! 1) ->
  Q tt s (io_write 1 text e) -> uwp (io_kernel short_reads) QX (cat_file fuel n) Q s e.
Proof.
  intros Hn Hf Hout HQ. unfold cat_file. apply uwp_bind, uwp_sys.
  intros fd e2 [(-> & Hno & ->)|(Hfd & Hfree & l & Hl & ->)]; [exfalso; congruence|].
  rewrite Hn in Hl. injection Hl as <-. rewrite (proj2 (Z.ltb_ge fd 0)) by lia.
  apply uwp_bind, (cat_ok fuel fd text); [simpl; by rewrite lookup_insert_eq|done|done|].
  apply uwp_bind, uwp_sys. intros x e3 [-> ->]. apply uwp_ret. by rewrite drained_closed.
Qed.

Lemma cat_files_ok {G} fuel names texts (Q : unit -> G -> io -> Prop) QX s e :
  Forall2 (fun n t => io_files e !! n = Some t /\ (length t <= fuel)%nat) names texts ->
  is_Some (io_out e !! 1) -> Q tt s (io_write 1 (concat texts) e) ->
  uwp (io_kernel short_reads) QX (ufor names (cat_file fuel)) Q s e.
Proof.
  intros H2. remember (io_files e) as files eqn:Hfiles. revert e Hfiles.
  induction H2 as [|n t names texts [Hn Hf] H2 IH]; intros e -> Hout HQ; cbn [ufor].
  - apply uwp_ret. by rewrite io_write_nil in HQ.
  - apply uwp_bind, (cat_file_ok fuel n t); [done|done|done|]. apply IH; [done|apply io_write_open|by rewrite io_write_app].
Qed.

(** Cat with file names writes the contents of the files, in order and
    complete, to standard output and exits, however the reads cut the contents
    into pieces; it neither stops early nor loops. *)
Theorem cat_concatenates {G} fuel names texts (s : G) e :
  names <> [] -> Forall2 (fun n t => io_files e !! n = Some t /\ (length t <= fuel)%nat) names texts ->
  is_Some (io_out e !! 1) ->
  uwp (io_kernel short_reads) (fun e' => e' = io_write 1 (concat texts) e) (cat_main fuel names) (fun _ _ _ => False) s e.
Proof.
  intros Hne H2 Hout. unfold cat_main. rewrite decide_False by done.
  apply uwp_bind, (cat_files_ok fuel names texts); [done|done|]. by apply uwp_exit.
Qed.

Definition two_files : io :=
  mk_io {[ 0 := [] ]} {[ 1 := [] ]} {[ chars "a" := chars "hello"; chars "b" := chars "world" ]}.

Lemma cat_concatenates_witness :
  uwp (io_kernel short_reads) (fun e' => e' = io_write 1 (concat [chars "hello"; chars "world"]) two_files)
    (cat_main 9 [chars "a"; chars "b"]) (fun _ _ _ => False) tt two_files.
Proof.
  apply (cat_concatenates 9 [chars "a"; chars "b"] [chars "hello"; chars "world"] tt two_files).
  - done.
  - repeat constructor; simpl; lia.
  - by eexists.
Defined.

(** ** Counting *)

(** A word starts at a character that is not a space, after a space or at the
    beginning. *)
Definition word_start (text : list Z) (i : nat) : bool :=
  match text !! i with
  | Some c =>
      negb (is_space c) &&
      match i with
      | O => true
      | S j => match text !! j with Some d => is_space d | None => true end
      end
  | None => false
  end.

Definition count_words (text : list Z) : Z := Z.of_nat (length (filter (fun i => word_start text i) (seq 0 (length text)))).

Definition count_lines (text : list Z) : Z := Z.of_nat (length (filter (fun c => c = 10) text)).

(** inword after [text] *)
Definition in_word (text : list Z) : bool :=
  match last text with Some c => negb (is_space c) | None => false end.

Lemma word_start_app text c i : (i < length text)%nat -> word_start (text ++ [c]) i = word_start text i.
Proof.
  intros Hi. unfold word_start. rewrite lookup_app_l by done. destruct (text !! i); [|done]. destruct i as [|j]; [done|].
  by rewrite lookup_app_l by lia.
Qed.

Lemma filter_same {A} (P Q : A -> Prop) `{!forall x, Decision (P x), !forall x, Decision (Q x)} (l : list A) :
  (forall x, x ∈ l -> P x <-> Q x) -> filter P l = filter Q l.
Proof.
  induction l as [|x l IH]; intros HPQ; [done|]. rewrite !filter_cons, IH by (intros y Hy; apply HPQ; by right).
  apply decide_ext, HPQ. by left.
Qed.

Lemma count_words_snoc text c :
  count_words (text ++ [c]) = count_words text + (if negb (is_space c) && negb (in_word text) then 1 else 0).
Proof.
  unfold count_words. rewrite length_app. cbn [length]. rewrite Nat.add_1_r, seq_S, filter_app, length_app. cbn [Nat.add].
  assert (filter (fun i => word_start (text ++ [c]) i) (seq 0 (length text)) =
    filter (fun i => word_start text i) (seq 0 (length text))) as ->.
  { apply filter_same. intros i [_ Hi]%elem_of_seq. by rewrite word_start_app. }
  rewrite filter_cons, filter_nil.
  assert (word_start (text ++ [c]) (length text) = negb (is_space c) && negb (in_word text)) as Hw.
  { unfold word_start, in_word. rewrite list_lookup_middle by done. f_equal.
    destruct (length text) as [|j] eqn:Hlen; [by apply length_zero_iff_nil in Hlen as ->|].
    rewrite last_lookup, Hlen. simpl. rewrite lookup_app_l by lia. destruct (text !! j) as [d|] eqn:Hd; [by rewrite negb_involutive|].
    apply lookup_ge_None in Hd. lia. }
  rewrite Hw. destruct (negb (is_space c) && negb (in_word text)); simpl; lia.
Qed.

Lemma in_word_snoc text c : in_word (text ++ [c]) = negb (is_space c).
Proof. unfold in_word. by rewrite last_snoc. Qed.

Lemma count_le text : 0 <= count_words text <= Z.of_nat (length text) /\ 0 <= count_lines text <= Z.of_nat (length text).
Proof.
  unfold count_words, count_lines. pose proof (length_filter (fun i => word_start text i) (seq 0 (length text))).
  pose proof (length_filter (fun c => c = 10) text). rewrite length_seq in *. lia.
Qed.

(** The counters after [text]. *)
Lemma wc_counts text :
  Z.of_nat (length text) < 2 ^ 31 ->
  foldl wc_char (mk_wcount 0 0 0 false) text =
    mk_wcount (count_lines text) (count_words text) (Z.of_nat (length text)) (in_word text).
Proof.
  induction text as [|c text IH] using rev_ind; intros Hlen; [done|]. rewrite length_app in Hlen. simpl in Hlen.
  rewrite foldl_app, IH by lia. cbn [foldl]. rewrite count_words_snoc, in_word_snoc.
  destruct (count_le text) as [Hw Hl].
  assert (count_lines (text ++ [c]) = count_lines text + if c =? 10 then 1 else 0) as ->.
  { unfold count_lines. rewrite filter_app, length_app, filter_cons, filter_nil. case_decide as Hc.
    - subst. simpl. lia.
    - rewrite (proj2 (Z.eqb_neq c 10)) by done. simpl. lia. }
  unfold wc_char. cbn [w_l w_w w_c w_in]. rewrite length_app. simpl. rewrite !i32_id by lia.
  destruct (c =? 10), (is_space c), (in_word text); simpl; f_equal; lia.
Qed.

Lemma wc_loop_ok {G} fuel fd text x (Q : option wcount -> G -> io -> Prop) QX s e :
  io_in e !! fd = Some text -> (length text <= fuel)%nat ->
  Q (Some (foldl wc_char x text)) s (drained fd e) -> uwp (io_kernel short_reads) QX (wc_loop fuel fd x) Q s e.
Proof.
  revert text x e. induction fuel as [|fuel IH]; intros text x e Hin Hf HQ; cbn [wc_loop].
  all: apply uwp_bind, uwp_sys; intros r e1 (l & rest & Hl & [_ Hz] & -> & ->); rewrite Hin in Hl; injection Hl as ->.
  all: destruct l as [|b l]; [destruct (Hz eq_refl) as [-> | ?]; [|lia]; by apply uwp_ret|].
  { simpl in Hf. lia. }
  apply (IH rest).
  - simpl. by rewrite lookup_insert_eq.
  - rewrite length_app in Hf. simpl in Hf. lia.
  - rewrite foldl_app in HQ.
    assert (drained fd (e <| io_in ::= <[fd := rest]> |>) = drained fd e) as ->; [|done].
    destruct e as [i o f]. unfold drained.
    change (mk_io (<[fd := []]> (<[fd := rest]> i)) o f = mk_io (<[fd := []]> i) o f). by rewrite insert_insert_eq.
Qed.

(** Wc prints the number of newlines, of words and of characters of its
    input, however the reads cut it: a word starts at each character that is not
    a space after one that is (or at the beginning). *)
Theorem wc_correct {G} fuel fd text name txt (s : G) e QX :
  io_in e !! fd = Some text -> (length text <= fuel)%nat -> Z.of_nat (length text) < 2 ^ 31 ->
  is_Some (io_out e !! 1) -> bytes name ->
  format (line "%d %d %d %s")
    [AInt (count_lines text); AInt (count_words text); AInt (Z.of_nat (length text)); AStr (Some name)] = Some txt ->
  uwp (io_kernel short_reads) QX (wc fuel fd name) (fun _ _ e' => e' = io_write 1 txt (drained fd e)) s e.
Proof.
  intros Hin Hf Hlen Hout Hname Htxt. apply uwp_bind, (wc_loop_ok fuel fd text); [done|done|]. rewrite wc_counts by done.
  cbn [w_l w_w w_c]. eapply uwp_printf; [by apply (bool_decide_unpack _); vm_compute|by repeat constructor|exact Htxt|done|done].
Qed.

Definition three_words : io := mk_io {[ 0 := chars "to be " ++ 10 :: chars " or" ++ [10] ]} {[ 1 := [] ]} ∅.

Lemma wc_correct_witness :
  uwp (io_kernel short_reads) (fun _ => False) (wc 20 0 (chars "x"))
    (fun _ _ e' => e' = io_write 1 (line "2 3 11 x") (drained 0 three_words)) tt three_words.
Proof.
  apply (wc_correct 20 0 (chars "to be " ++ 10 :: chars " or" ++ [10]) (chars "x") (line "2 3 11 x") tt three_words).
  all: apply (bool_decide_unpack _); vm_compute; exact I.
Defined.

(** ** echo *)

Fixpoint join (sep : Z) (args : list (list Z)) : list Z :=
  match args with
  | [] => []
  | [a] => a
  | a :: args' => a ++ sep :: join sep args'
  end.

Lemma echo_ok {G} args (s : G) e rd QX (Q : unit -> G -> io -> Prop) :
  Forall bytes args -> args <> [] -> is_Some (io_out e !! 1) -> Q tt s (io_write 1 (join 32 args ++ [10]) e) ->
  uwp (io_kernel rd) QX (echo args) Q s e.
Proof.
  intros Ha. revert e. induction Ha as [|a args Hba Ha IH]; intros e Hne Hout HQ; [done|]. cbn [echo].
  assert (bytes (chars "%s%s")) as Hf by (apply (bool_decide_unpack _); by vm_compute).
  destruct args as [|b args]; apply uwp_bind.
  - by eapply (uwp_printf rd _ 1 _ _ (a ++ [10])); [|repeat (apply Forall_cons; split)|reflexivity| |].
  - eapply (uwp_printf rd _ 1 _ _ (a ++ [32])); [done|by repeat (apply Forall_cons; split)|reflexivity|done|].
    apply IH; [done|apply io_write_open|]. rewrite io_write_app. cbn [join] in HQ. by rewrite <- !app_assoc in *.
Qed.

(** echo prints its arguments with single spaces between them and a newline at
    the end. *)
Theorem echo_prints {G} args (s : G) e rd :
  Forall bytes args -> args <> [] -> is_Some (io_out e !! 1) ->
  uwp (io_kernel rd) (fun e' => e' = io_write 1 (join 32 args ++ [10]) e) (echo_main args) (fun _ _ _ => False) s e.
Proof. intros Ha Hne Hout. by apply uwp_bind, echo_ok. Qed.

(** ** chmod *)

(** The two octal digits are the mode: the owner's bits above the others'. *)
Lemma chmod_mode_octal x y : 0 <= x < 8 -> 0 <= y < 8 -> chmod_mode x y = 8 * x + y.
Proof.
  intros Hx Hy.
  assert (forallb (fun i => forallb (fun j => chmod_mode i j =? 8 * i + j) [0; 1; 2; 3; 4; 5; 6; 7]) [0; 1; 2; 3; 4; 5; 6; 7] = true)
    as Hall by (by vm_compute).
  rewrite forallb_forall in Hall. specialize (Hall x). rewrite forallb_forall in Hall.
  apply Z.eqb_eq, Hall; simpl; lia.
Qed.

(** ** End of input at a prompt *)

(** A kernel with an empty standard input. *)
Definition eof_run : answerer unit := fun X c =>
  match c in call X return unit -> option (X * unit) with
  | Read _ _ => fun _ => Some (Some [], tt)
  | Write _ l => fun _ => Some (Z.of_nat (length l), tt)
  | _ => fun _ => None
  end.

(** The programs that add and delete users cut off the last character of the
    line they read without looking whether there is one: at the end of the input
    they write before the start of their array. *)
Theorem useradd_eof_underflow junk :
  length junk = 50%nat ->
  prun eof_run (useradd_main junk junk tt) tt = (Faulted (UB "load"), tt) /\
  prun eof_run (userdel_main junk tt) tt = (Faulted (UB "load"), tt).
Proof.
  intros Hj. unfold useradd_main, userdel_main, ask. rewrite Hj. destruct junk as [|c junk]; [done|].
  split; vm_compute; reflexivity.
Qed.

Lemma useradd_eof_underflow_witness :
  prun eof_run (userdel_main (replicate 50 0) tt) tt = (Faulted (UB "load"), tt).
Proof. apply (useradd_eof_underflow (replicate 50 0)). reflexivity. Defined.
