(* ===== verification/Login.v ===== *)
(** * init and login (init.c, login.c)

    The two programs between the kernel and the shell.  Their loops do not
    end; they run for the turns of their fuel. *)

From S2P Require Import Prelude Cstring Kernel Spinlock Console ProcCore Bio Inode User Ulib Programs.

(** The scheduler the kernel was built with; MLFQ_K is a compile-time constant. *)
Inductive policy := MULTILEVEL_SCHED | MLFQ_SCHED (k : Z) | DEFAULT.

Section login.
Context {G : Type}.

(** while((wpid=wait()) >= 0 && wpid != pid) printf(1, "zombie!\n"); *)
Fixpoint reap (fuel : nat) (pid : Z) : U G unit :=
  wpid <- sys Wait ;;
  if (0 <=? wpid) && negb (wpid =? pid) then
    printf 1 (line "zombie!") [] ;;;
    match fuel with
    | O => fault (Hang "wait")
    | S fuel' => reap fuel' pid
    end
  else uret tt.

(** ** init.c *)

Definition print_policy (p : policy) : U G unit :=
  match p with
  | MULTILEVEL_SCHED => printf 1 (line "policy: MULTILEVEL_SCHED") []
  | MLFQ_SCHED k =>
      printf 1 (line "policy: MLFQ_SCHED") [] ;;;
      printf 1 (line "MLFQ_K: %d") [AInt k]
  | DEFAULT => printf 1 (line "policy: DEFAULT") []
  end.

Fixpoint init_loop (fuel : nat) : U G unit :=
  printf 1 (line "init: starting login") [] ;;;
  pid <- sys Fork ;;
  if pid <? 0 then
    printf 1 (line "init: fork failed") [] ;;;
    uexit
  else if pid =? 0 then
    sys (Exec (chars "login") [chars "login"]) ;;;
    printf 1 (line "init: exec login failed") [] ;;;
    uexit
  else
    reap fuel pid ;;;
    match fuel with
    | O => fault (Hang "init")
    | S fuel' => init_loop fuel'
    end.

Definition init_main (p : policy) (fuel : nat) : U G unit :=
  fd <- sys (Open (chars "console") 2) ;;
  uwhen (fd <? 0)
    (sys (Mknod (chars "console") 1 1) ;;;
     sys (Open (chars "console") 2) ;;;
     uret tt) ;;;
  sys (Dup 0) ;;;
  sys (Dup 0) ;;;
  print_policy p ;;;
  sys Inituser ;;;
  init_loop fuel.

(** ** login.c *)

(** memset(buf, 0, nbuf); gets(buf, nbuf); and the buffer *)
Definition getinput (nbuf : nat) : U G (Z * list Z) :=
  buf <- gets (replicate nbuf 0) (Z.of_nat nbuf) ;;
  uret (if aget buf 0 =? 0 then -1 else 0, buf).

(** if(id[strlen(id) - 1] == '\n') id[strlen(id) - 1] = '\0';
    else id[strlen(id)] = '\0'; *)
Definition chop (buf : list Z) : U G (list Z) :=
  n <- deref (strlen buf) ;;
  c <- load buf (n - 1) ;;
  store buf (idx (if c =? 10 then n - 1 else n)) 0.

(** prompt: the answer and id *)
Definition prompt : U G (Z * list Z) :=
  printf 1 (chars "ID: ") [] ;;;
  id <- getinput 20 ;;
  printf 1 (chars "PW: ") [] ;;;
  pw <- getinput 20 ;;
  let id := id.2 in
  let pw := pw.2 in
  if (aget id 0 =? 0) || (aget id 0 =? 10) || (aget pw 0 =? 10) then uret (-1, id)
  else
    id <- chop id ;;
    pw <- chop pw ;;
    u <- deref (cstr id) ;;
    p <- deref (cstr pw) ;;
    r <- sys (Usercheck u p) ;;
    uret (r, id).

(** while((flag = prompt()) < 1) { ... }; the result is id *)
Fixpoint ask_user (fuel : nat) : U G (list Z) :=
  r <- prompt ;;
  if negb (r.1 <? 1) then uret r.2
  else
    (if r.1 =? -1 then printf 1 (line "login: you forgot to type ID or PW") []
     else if r.1 =? 0 then printf 1 (line "login: ID does not exist or wrong password") []
     else printf 1 (line "login: unknown error occured") []) ;;;
    match fuel with
    | O => fault (Hang "prompt")
    | S fuel' => ask_user fuel'
    end.

Fixpoint login_main (fuel : nat) : U G unit :=
  id <- ask_user fuel ;;
  u <- deref (cstr id) ;;
  pid <- sys (Fork2 u) ;;
  if pid <? 0 then
    printf 1 (line "login: fork failed") [] ;;;
    uexit
  else if pid =? 0 then
    sys (Exec (chars "sh") [chars "sh"; u]) ;;;
    printf 1 (line "login: exec sh failed") [] ;;;
    uexit
  else
    reap fuel pid ;;;
    match fuel with
    | O => fault (Hang "login")
    | S fuel' => login_main fuel'
    end.
End login.

(** ** Who gets a shell *)

(** Where login stands: nobody, a user that usercheck has accepted, or the
    process that fork2 has made for that user. *)
Inductive session := Nobody | Accepted (u : list Z) | Child (u : list Z).

(** A process is made only for an accepted user, and runs nothing but the shell
    of that user. *)
Definition login_monitor : monitor session := {|
  may X c := match c in call X return session -> Prop with
    | Fork2 u => fun e => e = Accepted u
    | Exec path argv => fun e => exists u, e = Child u /\ path = chars "sh" /\ argv = [chars "sh"; u]
    | Exec2 _ _ _ | Fork | Useradd _ _ | Userdel _ | Chmod _ _ | Getadmin _ => fun _ => False
    | _ => fun _ => True
    end;
  step X c := match c in call X return session -> X -> session -> Prop with
    | Usercheck u _ => fun _ x e' => e' = if 1 <=? x then Accepted u else Nobody
    | Fork2 u => fun _ x e' => e' = if x =? 0 then Child u else Nobody
    | _ => fun e _ e' => e' = e
    end
|}.

(** A monitor that lets reads and writes pass. *)
Class PassIO {E} (mon : monitor E) : Prop := {
  pass_write fd l e : may mon (Write fd l) e /\ forall x e', step mon (Write fd l) e x e' -> e' = e;
  pass_read fd n e : may mon (Read fd n) e /\ forall x e', step mon (Read fd n) e x e' -> e' = e
}.

#[export] Instance login_pass : PassIO login_monitor.
Proof. by split. Qed.

Section pass.
Context {E G : Type} (mon : monitor E) `{!PassIO mon}.

Lemma usafe_putc fd c (Q : unit -> G -> E -> Prop) s e : Q tt s e -> usafe mon (putc fd c) Q s e.
Proof.
  intros HQ. apply usafe_bind, usafe_sys; [by apply (pass_write fd [u8 c] e)|]. intros x e' ->%(pass_write fd [u8 c] e).
  by apply usafe_ret.
Qed.

Lemma usafe_puts fd l (Q : unit -> G -> E -> Prop) s e : Q tt s e -> usafe mon (ufor l (putc fd)) Q s e.
Proof. intros HQ. induction l as [|c l IH]; cbn [ufor]; [by apply usafe_ret|]. by apply usafe_bind, usafe_putc. Qed.

Lemma usafe_printf fd fmt ap (Q : unit -> G -> E -> Prop) s e : Q tt s e -> usafe mon (printf fd fmt ap) Q s e.
Proof.
  intros HQ. unfold printf. generalize false as st. revert ap. induction fmt as [|c fmt IH]; intros ap st; [by apply usafe_ret|].
  cbn [printf_loop]. unfold uprintint.
  repeat case_match; try apply usafe_fault; try apply IH; apply usafe_bind;
    first [apply usafe_puts, IH|apply usafe_putc, IH|apply usafe_putc, usafe_bind, usafe_putc, IH].
Qed.

Lemma usafe_store buf i c (Q : list Z -> G -> E -> Prop) s e : (forall b, Q b s e) -> usafe mon (store buf i c) Q s e.
Proof. intros HQ. unfold store. case_match; [by apply usafe_ret|by apply usafe_fault]. Qed.

Lemma usafe_gets_line buf max (Q : list Z -> G -> E -> Prop) s e : (forall b, Q b s e) -> usafe mon (gets buf max) Q s e.
Proof.
  intros HQ. apply usafe_bind. apply usafe_mono with (fun _ s' e' => s' = s /\ e' = e).
  - generalize 0%nat as i. revert buf. generalize (idx (max - 1)) as n. induction n as [|n IH]; intros buf i; cbn [gets_loop].
    + by apply usafe_ret.
    + apply usafe_bind, usafe_sys; [by apply (pass_read 0 1 e)|]. intros x e' ->%(pass_read 0 1 e).
      destruct x as [[|c l]|]; try by apply usafe_ret. apply usafe_bind, usafe_store. intros b.
      case_match; [by apply usafe_ret|apply IH].
  - intros a s' e' [-> ->]. by apply usafe_store.
Qed.
End pass.

(** Applying one of these lemmas, with the instance found. *)
Ltac pass_printf := apply usafe_printf; [exact _|].

Ltac pass_gets := apply usafe_gets_line; [exact _|].

Section guard.
Context {G : Type}.

(** prompt answers 1 or more only for the user that usercheck has accepted. *)
Lemma prompt_safe (Q : Z * list Z -> G -> session -> Prop) s e :
  (forall r id e', (1 <= r -> exists u, cstr id = Some u /\ e' = Accepted u) -> Q (r, id) s e') ->
  usafe login_monitor prompt Q s e.
Proof.
  intros HQ. unfold prompt, getinput, chop.
  apply usafe_bind; pass_printf. apply usafe_bind, usafe_bind; pass_gets. intros id.
  apply usafe_ret, usafe_bind; pass_printf.
  apply usafe_bind, usafe_bind; pass_gets. intros pw. apply usafe_ret. cbn [snd].
  case_match; [apply usafe_ret, HQ; lia|].
  apply usafe_bind, usafe_bind, usafe_deref. intros n _. apply usafe_bind. unfold load at 1.
  case_match; [|apply usafe_fault]. apply usafe_ret, usafe_store. intros id'.
  apply usafe_bind, usafe_bind, usafe_deref. intros n' _. apply usafe_bind. unfold load.
  case_match; [|apply usafe_fault]. apply usafe_ret, usafe_store. intros pw'.
  apply usafe_bind, usafe_deref. intros u Hu. apply usafe_bind, usafe_deref. intros p _.
  apply usafe_bind, usafe_sys; [done|]. intros r e' ->. apply usafe_ret, HQ. intros Hr. exists u. split; [done|].
  simpl. by rewrite (proj2 (Z.leb_le 1 r)).
Qed.

Lemma ask_user_safe fuel (Q : list Z -> G -> session -> Prop) s e :
  (forall id u, cstr id = Some u -> Q id s (Accepted u)) -> usafe login_monitor (ask_user fuel) Q s e.
Proof.
  intros HQ. revert e. induction fuel as [|fuel IH]; intros e; cbn [ask_user]; apply usafe_bind, prompt_safe;
    intros r id e' Hr; cbn [fst snd]; destruct (Z.ltb_spec r 1) as [Hlt|Hge]; cbn [negb].
  all: try (destruct (Hr Hge) as (u & Hu & ->); by apply usafe_ret, HQ).
  all: apply usafe_bind; repeat case_match; pass_printf; first [apply usafe_fault|apply IH].
Qed.

Lemma reap_safe fuel pid (Q : unit -> G -> session -> Prop) s e : Q tt s e -> usafe login_monitor (reap fuel pid) Q s e.
Proof.
  intros HQ. induction fuel as [|fuel IH]; cbn [reap]; apply usafe_bind; (apply usafe_sys; [done|]); intros w e' ->;
    destruct ((0 <=? w) && negb (w =? pid)).
  2, 4: by apply usafe_ret.
  all: apply usafe_bind; pass_printf.
  - apply usafe_fault.
  - apply IH.
Qed.

(** C32: login starts a shell only for a user whose name and password usercheck
    has accepted.  Whatever the kernel and the console answer and however often
    it is tried, fork2 is called with the name that was accepted last, and the
    process it makes runs nothing but the shell, with that name as its argument;
    login makes no other process and changes no account. *)
Theorem login_guards_shell fuel (s : G) e : usafe login_monitor (login_main fuel) (fun _ _ _ => True) s e.
Proof.
  revert e. induction fuel as [|fuel IH]; intros e; cbn [login_main]; apply usafe_bind, ask_user_safe; intros id u Hu;
    apply usafe_bind, usafe_deref; intros u' Hu'; rewrite Hu in Hu'; injection Hu' as <-; apply usafe_bind;
    (apply usafe_sys; [done|]); intros pid e1 ->; destruct (Z.ltb_spec pid 0).
  1, 3: apply usafe_bind; pass_printf; apply usafe_exit.
  all: destruct (Z.eqb_spec pid 0) as [->|Hp].
  1, 3: apply usafe_bind; apply usafe_sys; [by exists u|]; intros x e2 ->; apply usafe_bind; pass_printf; apply usafe_exit.
  all: apply usafe_bind, reap_safe; first [apply usafe_fault|apply IH].
Qed.
End guard.

(** ** End of input at the password *)

(** A console that gives the bytes of its input one per read. *)
Definition typed_run : answerer (list Z) := fun X c =>
  match c in call X return list Z -> option (X * list Z) with
  | Read _ _ => fun e => match e with [] => Some (Some [], e) | b :: e' => Some (Some [b], e') end
  | Write _ l => fun e => Some (Z.of_nat (length l), e)
  | Usercheck _ _ => fun e => Some (0, e)
  | _ => fun _ => None
  end.

(** Prompt looks for an empty name and for an empty line as the password, but
    not for the end of the input there: with a name and then the end of the
    input it reads the byte before the array pw. *)
Theorem login_pw_eof fuel :
  prun typed_run (login_main (G := unit) fuel tt) (chars "root" ++ [10]) = (Faulted (UB "load"), []).
Proof. destruct fuel; vm_compute; reflexivity. Qed.
