(* ===== verification/Shell.v ===== *)
(** * The command line (sh.c, parsing)

    A line is the array buf, with its NUL at [es]; pointers into it are
    indices.  The parser leaves the line as it is and records where each word
    begins and ends; nulterminate then writes the NULs.  panic prints a message
    and exits: it is the result [PPanic] here.  The malloc of the constructors
    execcmd to backcmd, whose result the code uses without a test, succeeds. *)

From S2P Require Import Prelude Cstring Kernel.

(** ** Commands *)

(** A word: the addresses in argv and eargv, or file and efile. *)
Definition word : Type := nat * nat.

Record redir := mk_redir { r_file : word; r_mode : Z; r_fd : Z }.

Inductive cmd :=
| EXEC (argv : list word)
| REDIR (c : cmd) (r : redir)
| PIPE (left right : cmd)
| LIST (left right : cmd)
| BACK (c : cmd).

Definition MAXARGS : nat := 10.

(** The redirections that parseredirs puts around a command, first to last.  In
    the C code the words read later still go into the struct execcmd inside. *)
Definition wrap (rs : list redir) (c : cmd) : cmd := foldl REDIR c rs.

(** ** Tokens *)

(** strchr(str, c) != 0 *)
Definition in_str (str : list Z) (c : Z) : bool :=
  match strchr (str ++ [0]) c with Some (Some _) => true | _ => false end.

Definition is_white (c : Z) : bool := in_str [32; 9; 13; 10; 11] c.

Definition is_symbol (c : Z) : bool := in_str (chars "<|>&;()") c.

Definition word_char (c : Z) : bool := negb (is_white c) && negb (is_symbol c).

(** while(s < es && p( *s)) s++; with [n] = es - s *)
Fixpoint advance (n : nat) (p : Z -> bool) (buf : list Z) (s : nat) : nat :=
  match n with
  | O => s
  | S n' => if p (aget buf s) then advance n' p buf (S s) else s
  end.

Definition skip (buf : list Z) (es s : nat) : nat := advance (es - s) is_white buf s.

(** gettoken: the token, *q, *eq and *ps *)
Definition gettoken (buf : list Z) (es s : nat) : Z * nat * nat * nat :=
  let q := skip buf es s in
  let c := aget buf q in
  let '(ret, eq) :=
    if c =? 0 then (0, q)
    else if in_str (chars "|();&<") c then (c, (q + 1)%nat)
    else if c =? 62 then
      if aget buf (q + 1) =? 62 then (43, (q + 2)%nat) else (62, (q + 1)%nat)
    else (97, advance (es - q) word_char buf q) in
  (ret, q, eq, skip buf es eq).

(** peek: the answer and *ps *)
Definition peek (buf : list Z) (es s : nat) (toks : string) : bool * nat :=
  let s := skip buf es s in
  (negb (aget buf s =? 0) && in_str (chars toks) (aget buf s), s).

(** ** The parser *)

Inductive presult (A : Type) :=
| POk (a : A) (s : nat)
| PPanic (msg : string)
| PHang.
Arguments POk {A} a s.
Arguments PPanic {A} msg.
Arguments PHang {A}.

Definition ptry {A B} (r : presult A) (f : A -> nat -> presult B) : presult B :=
  match r with
  | POk a s => f a s
  | PPanic m => PPanic m
  | PHang => PHang
  end.

Section parser.
Context (buf : list Z) (es : nat).

(** O_RDONLY on 0, O_WRONLY|O_CREATE on 1 *)
Definition make_redir (tok : Z) (w : word) : redir :=
  if tok =? 60 then mk_redir w 0 0 else mk_redir w 513 1.

Fixpoint parseredirs (fuel : nat) (s : nat) : presult (list redir) :=
  let '(b, s) := peek buf es s "<>" in
  if b then
    let '(tok, _, _, s) := gettoken buf es s in
    let '(t, q, eq, s) := gettoken buf es s in
    if negb (t =? 97) then PPanic "missing file for redirection"
    else
      match fuel with
      | O => PHang
      | S fuel' => ptry (parseredirs fuel' s) (fun rs s => POk (make_redir tok (q, eq) :: rs) s)
      end
  else POk [] s.

(** The while loop of parseexec, with argc = length argv. *)
Fixpoint parseargs (fuel : nat) (s : nat) (argv : list word) (rs : list redir) : presult (list word * list redir) :=
  let '(b, s) := peek buf es s "|)&;" in
  if b then POk (argv, rs) s
  else
    let '(tok, q, eq, s) := gettoken buf es s in
    if tok =? 0 then POk (argv, rs) s
    else if negb (tok =? 97) then PPanic "syntax"
    else
      let argv := argv ++ [(q, eq)] in
      if (MAXARGS <=? length argv)%nat then PPanic "too many args"
      else
        ptry (parseredirs (S es) s) (fun rs' s =>
          match fuel with
          | O => PHang
          | S fuel' => parseargs fuel' s argv (rs ++ rs')
          end).

(** while(peek(ps, es, "&")) { gettoken(ps, es, 0, 0); cmd = backcmd(cmd); } *)
Fixpoint parsebacks (fuel : nat) (s : nat) (c : cmd) : presult cmd :=
  let '(b, s) := peek buf es s "&" in
  if b then
    let '(_, _, _, s) := gettoken buf es s in
    match fuel with
    | O => PHang
    | S fuel' => parsebacks fuel' s (BACK c)
    end
  else POk c s.

(** parseexec when there is no block *)
Definition parsesimple (s : nat) : presult cmd :=
  ptry (parseredirs (S es) s) (fun rs s =>
  ptry (parseargs (S es) s [] rs) (fun r s => POk (wrap r.2 (EXEC r.1)) s)).

Fixpoint parseline (n : nat) (s : nat) : presult cmd :=
  match n with
  | O => PHang
  | S n' =>
      ptry (parsepipe n' s) (fun c s =>
      ptry (parsebacks (S es) s c) (fun c s =>
      let '(b, s) := peek buf es s ";" in
      if b then
        let '(_, _, _, s) := gettoken buf es s in
        ptry (parseline n' s) (fun c' s => POk (LIST c c') s)
      else POk c s))
  end
with parsepipe (n : nat) (s : nat) : presult cmd :=
  match n with
  | O => PHang
  | S n' =>
      ptry (parseexec n' s) (fun c s =>
      let '(b, s) := peek buf es s "|" in
      if b then
        let '(_, _, _, s) := gettoken buf es s in
        ptry (parsepipe n' s) (fun c' s => POk (PIPE c c') s)
      else POk c s)
  end
with parseexec (n : nat) (s : nat) : presult cmd :=
  match n with
  | O => PHang
  | S n' =>
      let '(b, s) := peek buf es s "(" in
      if b then parseblock n' s else parsesimple s
  end
with parseblock (n : nat) (s : nat) : presult cmd :=
  match n with
  | O => PHang
  | S n' =>
      let '(b, s) := peek buf es s "(" in
      if negb b then PPanic "parseblock"
      else
        let '(_, _, _, s) := gettoken buf es s in
        ptry (parseline n' s) (fun c s =>
        let '(b, s) := peek buf es s ")" in
        if negb b then PPanic "syntax - missing )"
        else
          let '(_, _, _, s) := gettoken buf es s in
          ptry (parseredirs (S es) s) (fun rs s => POk (wrap rs c) s))
  end.

(** parsecmd up to nulterminate; [inr] are the leftovers at [s].  Each level of
    the parser that recurs has consumed a character. *)
Definition parsetop : presult (cmd + nat) :=
  ptry (parseline (4 * es + 8) 0) (fun c s =>
  let '(_, s) := peek buf es s "" in
  POk (if (s =? es)%nat then inl c else inr s) s).
End parser.

(** ** nulterminate *)

Definition terminate_words (ws : list word) (buf : list Z) : list Z :=
  foldl (fun b w => <[w.2 := 0]> b) buf ws.

Fixpoint nulterminate (c : cmd) (buf : list Z) : list Z :=
  match c with
  | EXEC argv => terminate_words argv buf
  | REDIR c r => <[(r_file r).2 := 0]> (nulterminate c buf)
  | PIPE l r | LIST l r => nulterminate r (nulterminate l buf)
  | BACK c => nulterminate c buf
  end.

(** The equations of the parser. *)
Lemma parseline_S buf es n s : parseline buf es (S n) s =
  ptry (parsepipe buf es n s) (fun c s =>
  ptry (parsebacks buf es (S es) s c) (fun c s =>
  let '(b, s) := peek buf es s ";" in
  if b then
    let '(_, _, _, s) := gettoken buf es s in
    ptry (parseline buf es n s) (fun c' s => POk (LIST c c') s)
  else POk c s)).
Proof. reflexivity. Qed.

Lemma parsepipe_S buf es n s : parsepipe buf es (S n) s =
  ptry (parseexec buf es n s) (fun c s =>
  let '(b, s) := peek buf es s "|" in
  if b then
    let '(_, _, _, s) := gettoken buf es s in
    ptry (parsepipe buf es n s) (fun c' s => POk (PIPE c c') s)
  else POk c s).
Proof. reflexivity. Qed.

Lemma parseexec_S buf es n s : parseexec buf es (S n) s =
  let '(b, s) := peek buf es s "(" in
  if b then parseblock buf es n s else parsesimple buf es s.
Proof. reflexivity. Qed.

Lemma parseblock_S buf es n s : parseblock buf es (S n) s =
  let '(b, s) := peek buf es s "(" in
  if negb b then PPanic "parseblock"
  else
    let '(_, _, _, s) := gettoken buf es s in
    ptry (parseline buf es n s) (fun c s =>
    let '(b, s) := peek buf es s ")" in
    if negb b then PPanic "syntax - missing )"
    else
      let '(_, _, _, s) := gettoken buf es s in
      ptry (parseredirs buf es (S es) s) (fun rs s => POk (wrap rs c) s)).
Proof. reflexivity. Qed.

(** ** Tokens stay inside the line *)

Lemma in_str_spec str c : Forall (fun x => x <> 0) str -> in_str str c = bool_decide (c <> 0 /\ c ∈ str).
Proof.
  intros Hs. unfold in_str. induction Hs as [|x str Hx Hs IH]; cbn [app strchr].
  - rewrite bool_decide_false; [done|]. by intros [_ ?%elem_of_nil].
  - rewrite (proj2 (Z.eqb_neq x 0)) by done. destruct (Z.eqb_spec x c) as [->|Hne].
    + rewrite bool_decide_true; [done|]. split; [done|by left].
    + assert (bool_decide (c <> 0 /\ c ∈ x :: str) = bool_decide (c <> 0 /\ c ∈ str)) as ->.
      { apply bool_decide_ext. rewrite elem_of_cons. naive_solver. }
      rewrite <- IH. by destruct (strchr (str ++ [0]) c) as [[k|]|].
Qed.

Lemma advance_range n p buf s : (s <= advance n p buf s <= s + n)%nat.
Proof.
  revert s. induction n as [|n IH]; intros s; cbn [advance]; [lia|]. case_match; [|lia]. specialize (IH (S s)). lia.
Qed.

(** [advance] stops at its limit or where [p] does not hold. *)
Lemma advance_stop n p buf s : advance n p buf s = (s + n)%nat \/ p (aget buf (advance n p buf s)) = false.
Proof.
  revert s. induction n as [|n IH]; intros s; cbn [advance]; [left; lia|]. case_match eqn:Hp; [|by right].
  destruct (IH (S s)) as [->|H]; [left; lia|by right].
Qed.

Lemma advance_all n p buf s i : (s <= i < advance n p buf s)%nat -> p (aget buf i) = true.
Proof.
  revert s. induction n as [|n IH]; intros s Hi; cbn [advance] in *; [lia|]. case_match eqn:Hp; [|lia].
  destruct (decide (i = s)) as [->|Hne]; [done|]. apply (IH (S s)). lia.
Qed.

Lemma is_symbol_char c : is_symbol c = in_str (chars "|();&<") c || (c =? 62).
Proof.
  unfold is_symbol. rewrite !in_str_spec by (apply (bool_decide_unpack _); by vm_compute).
  destruct (Z.eqb_spec c 62) as [->|Hne]; [by vm_compute|]. rewrite orb_false_r. apply bool_decide_ext.
  assert (chars "<|>&;()" ≡ₚ 62 :: chars "|();&<") as Hp by (apply (bool_decide_unpack _); by vm_compute).
  rewrite Hp, elem_of_cons. naive_solver.
Qed.

Section total.
Context (buf : list Z) (es : nat).
Hypothesis Hend : aget buf es = 0.

Lemma skip_range s : (s <= es)%nat -> (s <= skip buf es s <= es)%nat.
Proof. intros Hs. unfold skip. pose proof (advance_range (es - s) is_white buf s). lia. Qed.

Lemma skip_stop s : (s <= es)%nat -> skip buf es s = es \/ is_white (aget buf (skip buf es s)) = false.
Proof. intros Hs. destruct (advance_stop (es - s) is_white buf s) as [H|H]; [left; unfold skip; lia|by right]. Qed.

Lemma gettoken_range s ret q eq s' :
  gettoken buf es s = (ret, q, eq, s') -> (s <= es)%nat ->
  (s <= q <= eq)%nat /\ (eq <= s' <= es)%nat /\ (ret <> 0 -> (q < eq)%nat).
Proof.
  unfold gettoken. intros Hg Hs. pose proof (skip_range s Hs) as Hq. set (k := skip buf es s) in *.
  assert (aget buf k <> 0 -> (k < es)%nat) as Hlt.
  { intros Hc. destruct (decide (k = es)) as [He|]; [by rewrite He in Hc|lia]. }
  assert (forall r e, (k <= e <= es)%nat -> (r <> 0 -> (k < e)%nat) -> (r, k, e, skip buf es e) = (ret, q, eq, s') ->
    (s <= q <= eq)%nat /\ (eq <= s' <= es)%nat /\ (ret <> 0 -> (q < eq)%nat)) as Hfin.
  { intros r e He Hr [= <- <- <- <-]. pose proof (skip_range e ltac:(lia)). split; [lia|]. split; [lia|done]. }
  destruct (Z.eqb_spec (aget buf k) 0) as [Hc|Hc]; [by apply (Hfin 0 k); [lia| |]|]. specialize (Hlt Hc).
  destruct (in_str (chars "|();&<") (aget buf k)) eqn:Hsym; [by apply (Hfin (aget buf k) (k + 1)%nat); [lia|lia|]|].
  destruct (Z.eqb_spec (aget buf k) 62) as [H62|H62].
  - destruct (Z.eqb_spec (aget buf (k + 1)) 62) as [Hn|Hn]; [|by apply (Hfin 62 (k + 1)%nat); [lia|lia|]].
    apply (Hfin 43 (k + 2)%nat); [|lia|done]. destruct (decide (k + 1 = es)%nat) as [He|]; [by rewrite He, Hend in Hn|lia].
  - apply (Hfin 97 (advance (es - k) word_char buf k)); [pose proof (advance_range (es - k) word_char buf k); lia| |done].
    intros _. destruct (es - k)%nat as [|n] eqn:Hn; [lia|]. cbn [advance].
    assert (word_char (aget buf k) = true) as ->; [|pose proof (advance_range n word_char buf (S k)); lia].
    unfold word_char. rewrite is_symbol_char, Hsym, (proj2 (Z.eqb_neq _ 62)) by done.
    destruct (skip_stop s Hs) as [He|Hw]; [fold k in He; lia|]. fold k in Hw. by rewrite Hw.
Qed.

Lemma peek_range s toks b s' : peek buf es s toks = (b, s') -> (s <= es)%nat -> (s <= s' <= es)%nat.
Proof. unfold peek. intros [= _ <-]. by apply skip_range. Qed.

(** A token that peek has seen is not the end. *)
Lemma peek_gettoken s toks s1 ret q eq s2 :
  peek buf es s toks = (true, s1) -> (s <= es)%nat -> gettoken buf es s1 = (ret, q, eq, s2) -> (s1 < s2)%nat.
Proof.
  intros Hp Hs Hg. pose proof (peek_range _ _ _ _ Hp Hs) as H1.
  pose proof (gettoken_range _ _ _ _ _ Hg ltac:(lia)) as (H2 & H3 & H4).
  assert (ret <> 0) as Hr; [|specialize (H4 Hr); lia]. unfold peek in Hp. injection Hp as Hb <-.
  apply andb_true_iff in Hb as [Hb _]. apply negb_true_iff, Z.eqb_neq in Hb.
  unfold gettoken in Hg. set (k := skip buf es s) in *.
  assert (skip buf es k = k) as Hk.
  { unfold skip. destruct (es - k)%nat as [|n]; [done|]. cbn [advance].
    destruct (skip_stop s Hs) as [He|Hw]; fold k in He || fold k in Hw; [|by rewrite Hw].
    exfalso. apply Hb. by rewrite He. }
  rewrite Hk in Hg. rewrite (proj2 (Z.eqb_neq _ 0)) in Hg by done.
  repeat case_match; by simplify_eq.
Qed.

(** The parser returns or panics, past where it started and inside the line. *)
Definition total {A} (s : nat) (r : presult A) : Prop :=
  match r with
  | POk _ s' => (s <= s' <= es)%nat
  | PPanic _ => True
  | PHang => False
  end.

Lemma total_try {A B} s (r : presult A) (f : A -> nat -> presult B) :
  total s r -> (forall a s', (s <= s' <= es)%nat -> total s (f a s')) -> total s (ptry r f).
Proof. destruct r; simpl; eauto. Qed.

Lemma total_mono {A} s s' (r : presult A) : total s' r -> (s <= s')%nat -> total s r.
Proof. destruct r; simpl; try done. lia. Qed.

Lemma parseredirs_total fuel s : (s <= es)%nat -> (es - s <= fuel)%nat -> total s (parseredirs buf es fuel s).
Proof.
  revert s. induction fuel as [|fuel IH]; intros s Hs Hf; cbn [parseredirs].
  all: destruct (peek buf es s "<>") as [b s1] eqn:Hp; pose proof (peek_range _ _ _ _ Hp Hs) as H1;
    destruct b; [|simpl; lia].
  all: destruct (gettoken buf es s1) as [[[tok q0] eq0] s2] eqn:Hg1;
    pose proof (gettoken_range _ _ _ _ _ Hg1 ltac:(lia)) as (_ & H2 & _);
    pose proof (peek_gettoken _ _ _ _ _ _ _ Hp Hs Hg1) as Hlt.
  { lia. }
  destruct (gettoken buf es s2) as [[[t q] eq] s3] eqn:Hg2. pose proof (gettoken_range _ _ _ _ _ Hg2 ltac:(lia)) as (H3 & H4 & _).
  case_match; [done|]. apply (total_mono _ s3); [|lia]. apply total_try; [apply IH; lia|]. simpl. lia.
Qed.

Lemma parseargs_total fuel s argv rs : (s <= es)%nat -> (es - s <= fuel)%nat -> total s (parseargs buf es fuel s argv rs).
Proof.
  revert s argv rs. induction fuel as [|fuel IH]; intros s argv rs Hs Hf; cbn [parseargs].
  all: destruct (peek buf es s "|)&;") as [b s1] eqn:Hp; pose proof (peek_range _ _ _ _ Hp Hs) as H1;
    destruct b; [simpl; lia|].
  all: destruct (gettoken buf es s1) as [[[tok q] eq] s2] eqn:Hg;
    pose proof (gettoken_range _ _ _ _ _ Hg ltac:(lia)) as (H2 & H3 & H4).
  all: destruct (Z.eqb_spec tok 0) as [Ht|Ht]; [simpl; lia|]; specialize (H4 Ht).
  { lia. }
  destruct (negb (tok =? 97)); [done|]. case_match; [done|]. apply (total_mono _ s2); [|lia].
  apply total_try; [apply parseredirs_total; lia|]. intros rs' s3 Hs3. apply (total_mono _ s3); [apply IH; lia|lia].
Qed.

Lemma parsebacks_total fuel s c : (s <= es)%nat -> (es - s <= fuel)%nat -> total s (parsebacks buf es fuel s c).
Proof.
  revert s c. induction fuel as [|fuel IH]; intros s c Hs Hf; cbn [parsebacks].
  all: destruct (peek buf es s "&") as [b s1] eqn:Hp; pose proof (peek_range _ _ _ _ Hp Hs) as H1;
    destruct b; [|simpl; lia].
  all: destruct (gettoken buf es s1) as [[[tok q] eq] s2] eqn:Hg;
    pose proof (gettoken_range _ _ _ _ _ Hg ltac:(lia)) as (H2 & H3 & _);
    pose proof (peek_gettoken _ _ _ _ _ _ _ Hp Hs Hg) as Hlt.
  { lia. }
  apply (total_mono _ s2); [apply IH; lia|lia].
Qed.

Lemma parsesimple_total s : (s <= es)%nat -> total s (parsesimple buf es s).
Proof.
  intros Hs. apply total_try; [apply parseredirs_total; lia|]. intros rs s1 H1. apply (total_mono _ s1); [|lia].
  apply total_try; [apply parseargs_total; lia|]. intros r s2 H2. simpl. lia.
Qed.

Lemma parser_total n :
  (forall s, (s <= es)%nat -> (4 * (es - s) + 4 <= n)%nat -> total s (parseline buf es n s)) /\
  (forall s, (s <= es)%nat -> (4 * (es - s) + 3 <= n)%nat -> total s (parsepipe buf es n s)) /\
  (forall s, (s <= es)%nat -> (4 * (es - s) + 2 <= n)%nat -> total s (parseexec buf es n s)) /\
  (forall s, (s <= es)%nat -> (4 * (es - s) + 1 <= n)%nat -> total s (parseblock buf es n s)).
Proof.
  induction n as [|n (IHl & IHp & IHe & IHb)]; [split_and!; intros s Hs Hn; lia|].
  split_and!; intros s Hs Hn; rewrite ?parseline_S, ?parsepipe_S, ?parseexec_S, ?parseblock_S.
  - apply total_try; [apply IHp; lia|]. intros c s1 H1. apply (total_mono _ s1); [|lia].
    apply total_try; [apply parsebacks_total; lia|]. intros c' s2 H2.
    destruct (peek buf es s2 ";") as [b s3] eqn:Hp. pose proof (peek_range _ _ _ _ Hp ltac:(lia)). destruct b; [|simpl; lia].
    destruct (gettoken buf es s3) as [[[tok q] eq] s4] eqn:Hg. pose proof (gettoken_range _ _ _ _ _ Hg ltac:(lia)) as (_ & ? & _).
    pose proof (peek_gettoken _ _ _ _ _ _ _ Hp ltac:(lia) Hg).
    apply (total_mono _ s4); [|lia]. apply total_try; [apply IHl; lia|]. simpl. lia.
  - apply total_try; [apply IHe; lia|]. intros c s1 H1.
    destruct (peek buf es s1 "|") as [b s3] eqn:Hp. pose proof (peek_range _ _ _ _ Hp ltac:(lia)). destruct b; [|simpl; lia].
    destruct (gettoken buf es s3) as [[[tok q] eq] s4] eqn:Hg. pose proof (gettoken_range _ _ _ _ _ Hg ltac:(lia)) as (_ & ? & _).
    pose proof (peek_gettoken _ _ _ _ _ _ _ Hp ltac:(lia) Hg).
    apply (total_mono _ s4); [|lia]. apply total_try; [apply IHp; lia|]. simpl. lia.
  - destruct (peek buf es s "(") as [b s1] eqn:Hp. pose proof (peek_range _ _ _ _ Hp Hs). destruct b.
    + apply (total_mono _ s1); [apply IHb; lia|lia].
    + apply (total_mono _ s1); [apply parsesimple_total; lia|lia].
  - destruct (peek buf es s "(") as [b s1] eqn:Hp. pose proof (peek_range _ _ _ _ Hp Hs). destruct b; [|done]. cbn [negb].
    destruct (gettoken buf es s1) as [[[tok q] eq] s2] eqn:Hg. pose proof (gettoken_range _ _ _ _ _ Hg ltac:(lia)) as (_ & ? & _).
    pose proof (peek_gettoken _ _ _ _ _ _ _ Hp ltac:(lia) Hg).
    apply (total_mono _ s2); [|lia]. apply total_try; [apply IHl; lia|]. intros c s3 H3.
    destruct (peek buf es s3 ")") as [b s4] eqn:Hp2. pose proof (peek_range _ _ _ _ Hp2 ltac:(lia)). destruct b; [|done]. cbn [negb].
    destruct (gettoken buf es s4) as [[[tok' q'] eq'] s5] eqn:Hg2. pose proof (gettoken_range _ _ _ _ _ Hg2 ltac:(lia)) as (? & ? & _).
    apply (total_mono _ s5); [|lia]. apply total_try; [apply parseredirs_total; lia|]. simpl. lia.
Qed.
End total.
