(* ===== verification/Grammar.v ===== *)
(** * The language of the shell (sh.c, theorems on the parser)

    The tokens of a line, the grammar of commands over them, and the proof that
    the parser of Shell builds the command that a line of the grammar stands
    for, with every word NUL-terminated in place. *)

From S2P Require Import Prelude Cstring Kernel Shell.

(** ** Tokens *)

Inductive tok :=
| Sym (c : Z)
| App                      (* >> *)
| Word (w : list Z).

Definition white (l : list Z) : Prop := Forall (fun c => is_white c = true) l.

(** The characters of words: no white space, no symbol and no NUL. *)
Definition plain (c : Z) : Prop := c <> 0 /\ word_char c = true.

(** A word ends before [t]. *)
Definition stops (t : list Z) : Prop := match t with [] => True | c :: _ => word_char c = false end.

(** [lexes t toks]: the text [t] is the tokens [toks], with any white space
    between them. *)
Inductive lexes : list Z -> list tok -> Prop :=
| lexes_end ws : white ws -> lexes ws []
| lexes_sym ws c t toks : white ws -> c ∈ chars "|();&<" -> lexes t toks -> lexes (ws ++ c :: t) (Sym c :: toks)
| lexes_gt ws t toks : white ws -> head t <> Some 62 -> lexes t toks -> lexes (ws ++ 62 :: t) (Sym 62 :: toks)
| lexes_app ws t toks : white ws -> lexes t toks -> lexes (ws ++ 62 :: 62 :: t) (App :: toks)
| lexes_word ws w t toks :
    white ws -> w <> [] -> Forall plain w -> stops t -> lexes t toks -> lexes (ws ++ w ++ t) (Word w :: toks).

(** ** The grammar *)

(** A redirection: '<', '>' or '+' for >>, and the file. *)
Record gredir := mk_gredir { g_kind : Z; g_file : list Z }.

Inductive gline :=
| GLine (p : gpipe) (backs : nat)                       (* pipe & ... & *)
| GSeq (p : gpipe) (backs : nat) (l : gline)            (* pipe & ... & ; line *)
with gpipe :=
| GPipe1 (e : gexec)
| GPipe (e : gexec) (p : gpipe)                         (* exec | pipe *)
with gexec :=
| GBlock (l : gline) (rs : list gredir)                 (* ( line ) redirections *)
| GSimple (rs : list gredir) (ws : list (list Z * list gredir)).  (* redirections and words *)

Scheme gline_mut := Induction for gline Sort Prop
  with gpipe_mut := Induction for gpipe Sort Prop
  with gexec_mut := Induction for gexec Sort Prop.
Combined Scheme grammar_ind from gline_mut, gpipe_mut, gexec_mut.

Definition redir_toks (r : gredir) : list tok := [if g_kind r =? 43 then App else Sym (g_kind r); Word (g_file r)].

Definition redirs_toks (rs : list gredir) : list tok := concat (redir_toks <$> rs).

Definition words_toks (ws : list (list Z * list gredir)) : list tok :=
  concat ((fun x => Word x.1 :: redirs_toks x.2) <$> ws).

Fixpoint line_toks (g : gline) : list tok :=
  match g with
  | GLine p n => pipe_toks p ++ replicate n (Sym 38)
  | GSeq p n l => pipe_toks p ++ replicate n (Sym 38) ++ Sym 59 :: line_toks l
  end
with pipe_toks (g : gpipe) : list tok :=
  match g with
  | GPipe1 e => exec_toks e
  | GPipe e p => exec_toks e ++ Sym 124 :: pipe_toks p
  end
with exec_toks (g : gexec) : list tok :=
  match g with
  | GBlock l rs => Sym 40 :: line_toks l ++ Sym 41 :: redirs_toks rs
  | GSimple rs ws => redirs_toks rs ++ words_toks ws
  end.

(** What is left to check: the kinds of redirection and the number of words. *)
Definition redirs_ok (rs : list gredir) : Prop := Forall (fun r => g_kind r ∈ [60; 62; 43]) rs.

Fixpoint line_ok (g : gline) : Prop :=
  match g with
  | GLine p _ => pipe_ok p
  | GSeq p _ l => pipe_ok p /\ line_ok l
  end
with pipe_ok (g : gpipe) : Prop :=
  match g with
  | GPipe1 e => exec_ok e
  | GPipe e p => exec_ok e /\ pipe_ok p
  end
with exec_ok (g : gexec) : Prop :=
  match g with
  | GBlock l rs => line_ok l /\ redirs_ok rs
  | GSimple rs ws => redirs_ok rs /\ Forall (fun x => redirs_ok x.2) ws /\ (length ws < MAXARGS)%nat
  end.

(** The depth of the recursion that parses it. *)
Fixpoint line_depth (g : gline) : nat :=
  match g with
  | GLine p _ => S (pipe_depth p)
  | GSeq p _ l => S (pipe_depth p `max` line_depth l)
  end
with pipe_depth (g : gpipe) : nat :=
  match g with
  | GPipe1 e => S (exec_depth e)
  | GPipe e p => S (exec_depth e `max` pipe_depth p)
  end
with exec_depth (g : gexec) : nat :=
  match g with
  | GBlock l _ => S (S (line_depth l))
  | GSimple _ _ => 1
  end.

(** ** What the grammar stands for *)

(** A command with its strings. *)
Inductive scmd :=
| SExec (argv : list (list Z))
| SRedir (c : scmd) (file : list Z) (mode fd : Z)
| SPipe (left right : scmd)
| SList (left right : scmd)
| SBack (c : scmd).

Definition add_redir (c : scmd) (r : gredir) : scmd :=
  if g_kind r =? 60 then SRedir c (g_file r) 0 0 else SRedir c (g_file r) 513 1.

Definition add_redirs (rs : list gredir) (c : scmd) : scmd := foldl add_redir c rs.

Fixpoint line_cmd (g : gline) : scmd :=
  match g with
  | GLine p n => Nat.iter n SBack (pipe_cmd p)
  | GSeq p n l => SList (Nat.iter n SBack (pipe_cmd p)) (line_cmd l)
  end
with pipe_cmd (g : gpipe) : scmd :=
  match g with
  | GPipe1 e => exec_cmd e
  | GPipe e p => SPipe (exec_cmd e) (pipe_cmd p)
  end
with exec_cmd (g : gexec) : scmd :=
  match g with
  | GBlock l rs => add_redirs rs (line_cmd l)
  | GSimple rs ws => add_redirs (rs ++ concat ws.*2) (SExec ws.*1)
  end.

(** ** What a parsed command says *)

Definition slice (buf : list Z) (w : word) : list Z := take (w.2 - w.1) (drop w.1 buf).

(** The command with the characters between the ends of each word. *)
Fixpoint slices (buf : list Z) (c : cmd) : scmd :=
  match c with
  | EXEC argv => SExec (slice buf <$> argv)
  | REDIR c r => SRedir (slices buf c) (slice buf (r_file r)) (r_mode r) (r_fd r)
  | PIPE l r => SPipe (slices buf l) (slices buf r)
  | LIST l r => SList (slices buf l) (slices buf r)
  | BACK c => SBack (slices buf c)
  end.

(** The command with the strings that start at each word, as runcmd reads it. *)
Fixpoint strings (buf : list Z) (c : cmd) : option scmd :=
  match c with
  | EXEC argv => SExec <$> mapM (fun w => cstr (drop w.1 buf)) argv
  | REDIR c r =>
      match strings buf c, cstr (drop (r_file r).1 buf) with
      | Some c', Some f => Some (SRedir c' f (r_mode r) (r_fd r))
      | _, _ => None
      end
  | PIPE l r =>
      match strings buf l, strings buf r with Some l', Some r' => Some (SPipe l' r') | _, _ => None end
  | LIST l r =>
      match strings buf l, strings buf r with Some l', Some r' => Some (SList l' r') | _, _ => None end
  | BACK c => SBack <$> strings buf c
  end.

Fixpoint words_of (c : cmd) : list word :=
  match c with
  | EXEC argv => argv
  | REDIR c r => words_of c ++ [r_file r]
  | PIPE l r | LIST l r => words_of l ++ words_of r
  | BACK c => words_of c
  end.

(** The characters [c] with [in_str str c = true], one by one. *)
Ltac str_cases H :=
  rewrite in_str_spec in H by (apply (bool_decide_unpack _); by vm_compute);
  apply bool_decide_eq_true in H as [_ H];
  repeat (apply elem_of_cons in H as [->|H]); [..|by apply elem_of_nil in H].

(** ** The lexer *)

Lemma white_plain c : is_white c = true -> word_char c = false.
Proof. unfold word_char. by intros ->. Qed.

Lemma symbol_plain c : c ∈ chars "|();&<" -> c <> 0 /\ is_white c = false /\ word_char c = false /\
  in_str (chars "|();&<") c = true.
Proof.
  intros Hc. assert (Forall (fun c => c <> 0 /\ is_white c = false /\ word_char c = false /\
    in_str (chars "|();&<") c = true) (chars "|();&<")) as H by (apply (bool_decide_unpack _); by vm_compute).
  rewrite Forall_forall in H. by apply H.
Qed.

Lemma advance_over p buf n s l rest :
  drop s buf = l ++ rest -> Forall (fun c => p c = true) l -> (length l <= n)%nat ->
  (n = length l \/ match rest with [] => False | c :: _ => p c = false end) ->
  advance n p buf s = (s + length l)%nat.
Proof.
  intros Hd Hl. revert s n Hd. induction Hl as [|c l Hc Hl IH]; intros s n Hd Hn Hstop.
  - simpl. rewrite Nat.add_0_r. destruct n as [|n]; [done|]. cbn [advance]. destruct Hstop as [?|Hstop]; [done|].
    destruct rest as [|d rest]; [done|]. cbn [app] in Hd.
    assert (aget buf s = d) as ->.
    { apply aget_lookup. rewrite <- (Nat.add_0_r s), <- lookup_drop, Hd. done. }
    by rewrite Hstop.
  - destruct n as [|n]; [simpl in Hn; lia|]. cbn [advance].
    assert (aget buf s = c) as ->.
    { apply aget_lookup. rewrite <- (Nat.add_0_r s), <- lookup_drop, Hd. done. }
    rewrite Hc. rewrite (IH (S s) n).
    + simpl. lia.
    + rewrite <- Nat.add_1_r, <- drop_drop, Hd. done.
    + simpl in Hn. lia.
    + destruct Hstop as [Hs|Hs]; [left; simpl in Hs; lia|by right].
Qed.

(** The text from a token on, without the white space before it. *)
Lemma lexes_strip t toks :
  lexes t toks -> exists ws t', t = ws ++ t' /\ white ws /\ lexes t' toks /\
    match t' with [] => True | c :: _ => c <> 0 /\ is_white c = false end.
Proof.
  intros H. destruct H as [ws Hws|ws c t toks Hws Hc Ht|ws t toks Hws Hh Ht|ws t toks Hws Ht|ws w t toks Hws Hne Hw Hst Ht].
  - exists ws, []. rewrite app_nil_r. split_and!; try done. apply lexes_end. constructor.
  - exists ws, (c :: t). destruct (symbol_plain c Hc) as (? & ? & _). split_and!; try done. by apply (lexes_sym []); [constructor|..].
  - exists ws, (62 :: t). split_and!; try done. by apply (lexes_gt []); [constructor|..].
  - exists ws, (62 :: 62 :: t). split_and!; try done. by apply (lexes_app []); [constructor|..].
  - exists ws, (w ++ t). split_and!; try done; [by apply (lexes_word []); [constructor|..]|]. destruct w as [|c w]; [done|]. cbn [app].
    apply Forall_cons in Hw as [[Hc Hwc] _]. split; [done|]. destruct (is_white c) eqn:Hwh; [|done].
    by rewrite (white_plain c Hwh) in Hwc.
Qed.

Section line.
Context (buf : list Z) (es : nat).

(** [t] is the line from [s] on. *)
Definition view (s : nat) (t : list Z) : Prop :=
  (s + length t = es)%nat /\ exists junk, drop s buf = t ++ 0 :: junk.

Lemma view_app s l t : view s (l ++ t) -> view (s + length l) t.
Proof.
  intros [Hlen [junk Hd]]. rewrite length_app in Hlen. split; [lia|]. exists junk.
  by rewrite <- drop_drop, Hd, <- app_assoc, drop_app_length.
Qed.

Lemma view_head s c t : view s (c :: t) -> aget buf s = c.
Proof. intros [_ [junk Hd]]. apply aget_lookup. rewrite <- (Nat.add_0_r s), <- lookup_drop, Hd. done. Qed.

Lemma view_end s : view s [] -> s = es /\ aget buf s = 0.
Proof.
  intros [Hlen [junk Hd]]. simpl in Hlen. split; [lia|]. apply aget_lookup.
  rewrite <- (Nat.add_0_r s), <- lookup_drop, Hd. done.
Qed.

Lemma skip_view s ws t :
  view s (ws ++ t) -> white ws -> match t with [] => True | c :: _ => is_white c = false end ->
  skip buf es s = (s + length ws)%nat /\ view (s + length ws) t.
Proof.
  intros Hv Hws Ht. split; [|by apply view_app]. pose proof Hv as [Hlen [junk Hd]]. rewrite <- app_assoc in Hd.
  rewrite length_app in Hlen. unfold skip. apply (advance_over is_white buf _ s ws (t ++ 0 :: junk)); [done|done|lia|].
  destruct t as [|c t]; [left; simpl in Hlen; lia|by right].
Qed.

Lemma skip_lexes s t toks :
  view s t -> lexes t toks ->
  exists t', view (skip buf es s) t' /\ lexes t' toks /\ (s <= skip buf es s)%nat /\
    match t' with [] => True | c :: _ => c <> 0 /\ is_white c = false end.
Proof.
  intros Hv Hl. destruct (lexes_strip t toks Hl) as (ws & t' & -> & Hws & Hl' & Hh).
  destruct (skip_view s ws t' Hv Hws) as [-> Hv']; [by destruct t'; [|apply Hh]|]. exists t'. split_and!; try done. lia.
Qed.

(** The word [x] lies between the two ends of [w]. *)
Definition wordat (w : word) (x : list Z) : Prop :=
  slice buf w = x /\ (w.1 < w.2 <= es)%nat /\ Forall plain x /\ (w.2 = es \/ word_char (aget buf w.2) = false).

Definition tok_ret (k : tok) : Z :=
  match k with Sym c => c | App => 43 | Word _ => 97 end.

Lemma lexes_nows t k toks :
  lexes t (k :: toks) -> match t with [] => True | c :: _ => is_white c = false end ->
  (exists c t', k = Sym c /\ c ∈ chars "|();&<" /\ t = c :: t' /\ lexes t' toks) \/
  (exists t', k = Sym 62 /\ head t' <> Some 62 /\ t = 62 :: t' /\ lexes t' toks) \/
  (exists t', k = App /\ t = 62 :: 62 :: t' /\ lexes t' toks) \/
  (exists w t', k = Word w /\ w <> [] /\ Forall plain w /\ stops t' /\ t = w ++ t' /\ lexes t' toks).
Proof.
  assert (forall ws t', white ws -> match ws ++ t' with [] => True | c :: _ => is_white c = false end -> ws = []) as Hnil.
  { intros [|c ws] t' Hws; [done|]. apply Forall_cons in Hws as [Hc _]. cbn [app]. congruence. }
  intros H Hh.
  inversion H as [|ws c t' toks' Hws Hc Ht|ws t' toks' Hws Hd Ht|ws t' toks' Hws Ht|ws w t' toks' Hws Hne Hw Hst Ht]; subst.
  all: apply Hnil in Hh as ->; [|done]; cbn [app].
  - left. by exists c, t'.
  - right. left. by exists t'.
  - right. right. left. by exists t'.
  - right. right. right. by exists w, t'.
Qed.

Lemma gettoken_lexes s t k toks :
  view s t -> lexes t (k :: toks) ->
  exists q eq s' t', gettoken buf es s = (tok_ret k, q, eq, s') /\ view s' t' /\ lexes t' toks /\
    forall w, k = Word w -> wordat (q, eq) w.
Proof.
  intros Hv Hl. destruct (skip_lexes s t (k :: toks) Hv Hl) as (t1 & Hv1 & Hl1 & _ & Hh).
  unfold gettoken. set (q := skip buf es s) in *. clearbody q. clear Hv Hl.
  assert (forall ret eq t2, view eq t2 -> lexes t2 toks -> ret = tok_ret k -> (forall w, k = Word w -> wordat (q, eq) w) ->
    exists q0 eq0 s' t', (ret, q, eq, skip buf es eq) = (tok_ret k, q0, eq0, s') /\ view s' t' /\ lexes t' toks /\
      forall w, k = Word w -> wordat (q0, eq0) w) as Hfin.
  { intros ret eq t2 Hv2 Hl2 -> Hw. destruct (skip_lexes eq t2 toks Hv2 Hl2) as (t3 & Hv3 & Hl3 & _ & _).
    by exists q, eq, (skip buf es eq), t3. }
  destruct (lexes_nows t1 k toks Hl1) as [(c & t2 & -> & Hc & -> & Hl2)|[(t2 & -> & Hn & -> & Hl2)|[(t2 & -> & -> & Hl2)|
    (w & t2 & -> & Hne & Hw & Hst & -> & Hl2)]]].
  { by destruct t1; [|apply Hh]. }
  - destruct (symbol_plain c Hc) as (Hz & _ & _ & Hin). rewrite (view_head _ _ _ Hv1), (proj2 (Z.eqb_neq c 0)), Hin by done.
    apply (Hfin c (q + 1)%nat t2); [by apply (view_app q [c])|done|done|done].
  - rewrite (view_head _ _ _ Hv1). change (62 =? 0) with false. change (in_str (chars "|();&<") 62) with false.
    cbn [Z.eqb Pos.eqb]. pose proof (view_app q [62] t2 Hv1) as Hv2. cbn [length] in Hv2.
    assert ((aget buf (q + 1) =? 62) = false) as ->; [|by apply (Hfin 62 (q + 1)%nat t2)].
    apply Z.eqb_neq. destruct t2 as [|d t2]; [destruct (view_end _ Hv2) as [_ ->]; done|].
    rewrite (view_head _ _ _ Hv2). by intros ->.
  - rewrite (view_head _ _ _ Hv1). change (62 =? 0) with false. change (in_str (chars "|();&<") 62) with false.
    cbn [Z.eqb Pos.eqb]. pose proof (view_app q [62] (62 :: t2) Hv1) as Hv2. cbn [length] in Hv2.
    rewrite (view_head _ _ _ Hv2). cbn [Z.eqb Pos.eqb]. by apply (Hfin 43 (q + 2)%nat t2); [apply (view_app q [62; 62])|..].
  - destruct w as [|c w]; [done|]. pose proof Hw as [[Hc0 Hcw] _]%Forall_cons.
    rewrite (view_head _ _ _ Hv1 : aget buf q = c), (proj2 (Z.eqb_neq c 0)) by done.
    assert (in_str (chars "|();&<") c = false /\ (c =? 62) = false) as [-> ->].
    { unfold word_char in Hcw. apply andb_true_iff in Hcw as [_ Hs%negb_true_iff]. rewrite is_symbol_char in Hs.
      by apply orb_false_iff in Hs. }
    pose proof Hv1 as [Hlen [junk Hd]]. rewrite length_app in Hlen. rewrite <- app_assoc in Hd.
    assert (advance (es - q) word_char buf q = (q + length (c :: w))%nat) as ->.
    { apply (advance_over word_char buf _ q (c :: w) (t2 ++ 0 :: junk)); [done| |lia|].
      - eapply Forall_impl; [exact Hw|]. by intros x [_ ?].
      - destruct t2 as [|d t2]; [left; simpl in *; lia|right; exact Hst]. }
    apply (Hfin 97 (q + length (c :: w))%nat t2); [by apply view_app|done|done|].
    intros w' [= <-]. split_and!; try done; cbn [fst snd].
    + unfold slice. cbn [fst snd]. rewrite Nat.add_comm, Nat.add_sub, Hd, take_app_length. done.
    + simpl. lia.
    + lia.
    + destruct t2 as [|d t2]; [left; simpl in *; lia|right]. rewrite (view_head _ d t2) by (by apply view_app). exact Hst.
Qed.

(** The end of the line. *)
Lemma gettoken_end s t : view s t -> lexes t [] -> exists q eq s', gettoken buf es s = (0, q, eq, s') /\ view s' [].
Proof.
  intros Hv Hl. destruct (skip_lexes s t [] Hv Hl) as (t1 & Hv1 & Hl1 & _ & Hh).
  assert (t1 = []) as ->.
  { inversion Hl1 as [ws Hws| | | |]; subst. destruct t1 as [|c t1]; [done|]. apply Forall_cons in Hws as [Hc _].
    destruct Hh as [_ Hh]. congruence. }
  destruct (view_end _ Hv1) as [He H0]. unfold gettoken. rewrite H0. cbn [Z.eqb].
  exists (skip buf es s), (skip buf es s), (skip buf es (skip buf es s)). split; [done|].
  assert (skip buf es (skip buf es s) = skip buf es s) as ->; [|done].
  rewrite He. unfold skip. by rewrite Nat.sub_diag.
Qed.

(** The first character of what comes next. *)
Definition first_char (toks : list tok) : option Z :=
  match toks with
  | Sym c :: _ => Some c
  | App :: _ => Some 62
  | _ => None
  end.

Lemma peek_lexes s t toks str :
  view s t -> lexes t toks -> (forall c, in_str (chars str) c = true -> is_symbol c = true) ->
  exists s' t', peek buf es s str = (match first_char toks with Some c => in_str (chars str) c | None => false end, s') /\
    view s' t' /\ lexes t' toks.
Proof.
  intros Hv Hl Hstr. destruct (skip_lexes s t toks Hv Hl) as (t1 & Hv1 & Hl1 & _ & Hh). unfold peek.
  exists (skip buf es s), t1. split; [|done]. f_equal.
  destruct toks as [|k toks].
  { assert (t1 = []) as ->.
    { inversion Hl1 as [ws Hws| | | |]; subst. destruct t1 as [|c t1]; [done|]. apply Forall_cons in Hws as [Hc _].
      destruct Hh as [_ Hh]. congruence. }
    destruct (view_end _ Hv1) as [_ ->]. done. }
  destruct (lexes_nows t1 k toks Hl1) as [(c & t2 & -> & Hc & -> & Hl2)|[(t2 & -> & Hn & -> & Hl2)|[(t2 & -> & -> & Hl2)|
    (w & t2 & -> & Hne & Hw & Hst & -> & Hl2)]]].
  { by destruct t1; [|apply Hh]. }
  - rewrite (view_head _ _ _ Hv1). destruct (symbol_plain c Hc) as (Hz & _). by rewrite (proj2 (Z.eqb_neq c 0)).
  - by rewrite (view_head _ _ _ Hv1).
  - by rewrite (view_head _ _ _ Hv1).
  - destruct w as [|c w]; [done|]. apply Forall_cons in Hw as [[Hc0 Hcw] _].
    rewrite (view_head _ _ _ Hv1 : aget buf _ = c), (proj2 (Z.eqb_neq c 0)) by done. cbn [negb andb first_char].
    destruct (in_str (chars str) c) eqn:Hin; [|done]. apply Hstr in Hin. unfold word_char in Hcw.
    rewrite Hin in Hcw. by rewrite andb_false_r in Hcw.
Qed.

Lemma symbols_in str :
  Forall (fun c => c <> 0 /\ is_symbol c = true) (chars str) -> forall c, in_str (chars str) c = true -> is_symbol c = true.
Proof.
  intros H c Hc. rewrite in_str_spec in Hc by (eapply Forall_impl; [exact H|by intros ? [? _]]).
  apply bool_decide_eq_true in Hc as [_ Hc]. rewrite Forall_forall in H. by apply H.
Qed.

(** ** The parser *)

Definition redir_at (g : gredir) (r : redir) : Prop :=
  wordat (r_file r) (g_file g) /\ r = make_redir (g_kind g) (r_file r).

Definition good (c : cmd) : Prop := Forall (fun w => wordat w (slice buf w)) (words_of c).

Lemma wordat_good w x : wordat w x -> slice buf w = x /\ wordat w (slice buf w).
Proof. intros H. pose proof H as [-> _]. done. Qed.

Lemma wrap_slices grs rs c gc :
  Forall2 redir_at grs rs -> good c -> slices buf c = gc ->
  slices buf (wrap rs c) = add_redirs grs gc /\ good (wrap rs c).
Proof.
  intros H. revert c gc. induction H as [|g r grs rs [Hw Hr] H IH]; intros c gc Hg Hs; [done|].
  destruct (wordat_good _ _ Hw) as [Hsl Hwa]. apply (IH (REDIR c r) (add_redir gc g)).
  - unfold good. cbn [words_of]. apply Forall_app. split; [done|]. by constructor.
  - cbn [slices]. rewrite Hs, Hsl, Hr. unfold add_redir, make_redir. by destruct (g_kind g =? 60).
Qed.

Lemma parseredirs_ok grs fuel s t rest :
  redirs_ok grs -> view s t -> lexes t (redirs_toks grs ++ rest) ->
  (forall c, first_char rest = Some c -> in_str (chars "<>") c = false) -> (length grs <= fuel)%nat ->
  exists rs s' t', parseredirs buf es fuel s = POk rs s' /\ view s' t' /\ lexes t' rest /\ Forall2 redir_at grs rs.
Proof.
  assert (forall c, in_str (chars "<>") c = true -> is_symbol c = true) as Hstr
    by (apply symbols_in, (bool_decide_unpack _); by vm_compute).
  intros Hok. revert fuel s t. induction Hok as [|g grs Hg Hok IH]; intros fuel s t Hv Hl Hrest Hf.
  - destruct (peek_lexes s t rest "<>" Hv Hl Hstr) as (s1 & t1 & Hp & Hv1 & Hl1).
    exists [], s1, t1. split; [|by split_and!]. destruct fuel; cbn [parseredirs]; rewrite Hp;
      (destruct (first_char rest) as [c|]; [rewrite (Hrest c eq_refl)|]; done).
  - destruct fuel as [|fuel]; [simpl in Hf; lia|]. cbn [parseredirs].
    change (redirs_toks (g :: grs)) with (redir_toks g ++ redirs_toks grs) in Hl. rewrite <- app_assoc in Hl.
    unfold redir_toks in Hl. cbn [app] in Hl.
    destruct (peek_lexes s t _ "<>" Hv Hl Hstr) as (s1 & t1 & Hp & Hv1 & Hl1). rewrite Hp. clear Hp.
    destruct (gettoken_lexes s1 t1 _ _ Hv1 Hl1) as (q0 & eq0 & s2 & t2 & Hg1 & Hv2 & Hl2 & _). rewrite Hg1.
    destruct (gettoken_lexes s2 t2 _ _ Hv2 Hl2) as (q & eq & s3 & t3 & Hg2 & Hv3 & Hl3 & Hw). rewrite Hg2.
    destruct (IH fuel s3 t3 Hv3 Hl3 Hrest) as (rs & s4 & t4 & Hpr & Hv4 & Hl4 & Hrs); [simpl in Hf; lia|].
    exists (make_redir (g_kind g) (q, eq) :: rs), s4, t4. split; [|split_and!; try done; constructor; [|done]].
    + repeat (apply elem_of_cons in Hg as [Hg|Hg]); [rewrite Hg; cbn -[parseredirs make_redir]; by rewrite Hpr..|].
      by apply elem_of_nil in Hg.
    + split; [|by destruct g as [k f]; unfold make_redir; simpl; destruct (k =? 60)].
      unfold make_redir. destruct (g_kind g =? 60); by apply Hw.
Qed.

Lemma parseargs_ok ws fuel s t rest argv rs :
  Forall (fun x => redirs_ok x.2) ws -> view s t -> lexes t (words_toks ws ++ rest) ->
  (rest = [] \/ exists c, first_char rest = Some c /\ in_str (chars "|)&;") c = true) ->
  (length argv + length ws < MAXARGS)%nat -> (length ws <= fuel)%nat ->
  Forall (fun x => length x.2 <= S es)%nat ws ->
  exists ws' rs' s' t', parseargs buf es fuel s argv rs = POk (argv ++ ws', rs ++ rs') s' /\ view s' t' /\ lexes t' rest /\
    Forall2 wordat ws' ws.*1 /\ Forall2 redir_at (concat ws.*2) rs'.
Proof.
  assert (forall c, in_str (chars "|)&;") c = true -> is_symbol c = true) as Hstr
    by (apply symbols_in, (bool_decide_unpack _); by vm_compute).
  intros Hok. revert fuel s t argv rs. induction Hok as [|[w grs] ws Hw Hok IH]; intros fuel s t argv rs Hv Hl Hrest Hmax Hf Hlen.
  - destruct (peek_lexes s t rest _ Hv Hl Hstr) as (s1 & t1 & Hp & Hv1 & Hl1). destruct Hrest as [->|(c & Hc & Hin)].
    + destruct (gettoken_end s1 t1 Hv1 Hl1) as (q & eq & s2 & Hg & Hv2). exists [], [], s2, []. rewrite !app_nil_r.
      split; [destruct fuel; cbn [parseargs]; rewrite Hp; cbn [first_char]; rewrite Hg; done|].
      split_and!; try done; try constructor. constructor.
    + exists [], [], s1, t1. rewrite !app_nil_r. rewrite Hc, Hin in Hp.
      split; [destruct fuel; cbn [parseargs]; rewrite Hp; done|]. split_and!; try done; constructor.
  - destruct fuel as [|fuel]; [simpl in Hf; lia|]. cbn [parseargs].
    change (words_toks ((w, grs) :: ws)) with ((Word w :: redirs_toks grs) ++ words_toks ws) in Hl.
    rewrite <- app_assoc in Hl. cbn [app] in Hl. apply Forall_cons in Hlen as [Hg Hlen]. cbn [fst snd] in *.
    destruct (peek_lexes s t _ _ Hv Hl Hstr) as (s1 & t1 & Hp & Hv1 & Hl1). rewrite Hp. cbn [first_char].
    destruct (gettoken_lexes s1 t1 _ _ Hv1 Hl1) as (q & eq & s2 & t2 & Hg1 & Hv2 & Hl2 & Hwa). rewrite Hg1.
    cbn [tok_ret Z.eqb Pos.eqb negb]. rewrite length_app. cbn [length] in *.
    rewrite (proj2 (Nat.leb_gt MAXARGS _)) by lia.
    destruct (parseredirs_ok grs (S es) s2 t2 (words_toks ws ++ rest) Hw Hv2 Hl2) as (rs1 & s3 & t3 & Hpr & Hv3 & Hl3 & Hrs).
    { intros c Hc. destruct ws as [|[w2 g2] ws]; [|done]. cbn [words_toks fmap list_fmap concat app] in Hc.
      destruct Hrest as [->|(c' & Hc' & Hin)]; [done|]. rewrite Hc in Hc'. injection Hc' as <-. by str_cases Hin. }
    { done. }
    rewrite Hpr. cbn [ptry].
    destruct (IH fuel s3 t3 (argv ++ [(q, eq)]) (rs ++ rs1)) as (ws' & rs' & s4 & t4 & Hpa & Hv4 & Hl4 & H1 & H2); try done.
    { rewrite length_app. simpl. lia. }
    { lia. }
    exists ((q, eq) :: ws'), (rs1 ++ rs'), s4, t4. rewrite Hpa, <- !app_assoc. split_and!; try done.
    + cbn [fmap list_fmap fst]. constructor; [by apply Hwa|done].
    + cbn [fmap list_fmap snd concat]. by apply Forall2_app.
Qed.

Lemma parsebacks_ok n fuel s t rest c :
  view s t -> lexes t (replicate n (Sym 38) ++ rest) -> first_char rest <> Some 38 -> (n <= fuel)%nat ->
  exists s' t', parsebacks buf es fuel s c = POk (Nat.iter n BACK c) s' /\ view s' t' /\ lexes t' rest.
Proof.
  assert (forall c, in_str (chars "&") c = true -> is_symbol c = true) as Hstr
    by (apply symbols_in, (bool_decide_unpack _); by vm_compute).
  revert fuel s t c. induction n as [|n IH]; intros fuel s t c Hv Hl Hrest Hf.
  - destruct (peek_lexes s t rest "&" Hv Hl Hstr) as (s1 & t1 & Hp & Hv1 & Hl1). exists s1, t1. split; [|done].
    assert (match first_char rest with Some c => in_str (chars "&") c | None => false end = false) as Hb.
    { destruct (first_char rest) as [d|]; [|done]. rewrite in_str_spec by (apply (bool_decide_unpack _); by vm_compute).
      apply bool_decide_eq_false. cbn. set_unfold. naive_solver. }
    rewrite Hb in Hp. destruct fuel; cbn [parsebacks]; by rewrite Hp.
  - destruct fuel as [|fuel]; [lia|]. cbn [parsebacks replicate app] in *.
    destruct (peek_lexes s t _ "&" Hv Hl Hstr) as (s1 & t1 & Hp & Hv1 & Hl1). rewrite Hp.
    change (in_str (chars "&") 38) with true. cbn [first_char].
    destruct (gettoken_lexes s1 t1 _ _ Hv1 Hl1) as (q & eq & s2 & t2 & Hg & Hv2 & Hl2 & _). rewrite Hg.
    destruct (IH fuel s2 t2 (BACK c) Hv2 Hl2 Hrest) as (s3 & t3 & Hpb & Hv3 & Hl3); [lia|]. exists s3, t3.
    split; [|done]. by rewrite Hpb, Nat.iter_succ_r.
Qed.

Lemma lexes_length t toks : lexes t toks -> (length toks <= length t)%nat.
Proof.
  induction 1 as [ws Hws|ws c t toks Hws Hc Ht IH|ws t toks Hws Hh Ht IH|ws t toks Hws Ht IH|ws w t toks Hws Hne Hw Hst Ht IH];
    rewrite ?length_app; simpl; rewrite ?length_app; try lia. destruct w; [done|]. simpl. lia.
Qed.

Lemma redirs_toks_length rs : length (redirs_toks rs) = (2 * length rs)%nat.
Proof. induction rs as [|r rs IH]; [done|]. change (redirs_toks (r :: rs)) with (redir_toks r ++ redirs_toks rs). rewrite length_app, IH. simpl. lia. Qed.

Lemma words_toks_length ws : (length ws <= length (words_toks ws))%nat /\ Forall (fun x => length x.2 <= length (words_toks ws))%nat ws.
Proof.
  induction ws as [|[w rs] ws [IH1 IH2]]; [by split|].
  assert (length (words_toks ((w, rs) :: ws)) = S (2 * length rs + length (words_toks ws)))%nat as Hl.
  { change (words_toks ((w, rs) :: ws)) with ((Word w :: redirs_toks rs) ++ words_toks ws).
    rewrite length_app. simpl. rewrite redirs_toks_length. lia. }
  rewrite Hl. split; [simpl; lia|]. constructor; [simpl; lia|]. eapply Forall_impl; [exact IH2|]. intros x. simpl. lia.
Qed.

(** What may come after a line, a pipe and a command. *)
Definition follows (str : string) (rest : list tok) : Prop :=
  rest = [] \/ exists c, first_char rest = Some c /\ in_str (chars str) c = true.

(** [p] parses [toks] to the command [sc]. *)
Definition parses (p : nat -> presult cmd) (toks : list tok) (sc : scmd) (rest : list tok) : Prop :=
  forall s t, view s t -> lexes t (toks ++ rest) ->
  exists c s' t', p s = POk c s' /\ view s' t' /\ lexes t' rest /\ slices buf c = sc /\ good c.

Lemma view_length s t : view s t -> (length t <= es)%nat.
Proof. intros [H _]. lia. Qed.

Lemma parsesimple_ok rs ws rest :
  exec_ok (GSimple rs ws) -> follows "|)&;" rest ->
  parses (parsesimple buf es) (exec_toks (GSimple rs ws)) (exec_cmd (GSimple rs ws)) rest.
Proof.
  intros (Hrs & Hws & Hmax) Hfol s t Hv Hl. cbn [exec_toks] in Hl. pose proof (lexes_length _ _ Hl) as Hlen.
  pose proof (view_length _ _ Hv) as Hes. rewrite !length_app, redirs_toks_length in Hlen.
  destruct (words_toks_length ws) as [Hw1 Hw2]. rewrite <- app_assoc in Hl. unfold parsesimple.
  destruct (parseredirs_ok rs (S es) s t (words_toks ws ++ rest) Hrs Hv Hl) as (rs1 & s1 & t1 & Hp1 & Hv1 & Hl1 & Hr1); [|lia|].
  { intros c Hc. destruct ws as [|[w2 g2] ws]; [|done]. cbn [words_toks fmap list_fmap concat app] in Hc.
    destruct Hfol as [->|(c' & Hc' & Hin)]; [done|]. rewrite Hc in Hc'. injection Hc' as <-. by str_cases Hin. }
  rewrite Hp1. cbn [ptry].
  destruct (parseargs_ok ws (S es) s1 t1 rest [] rs1) as (ws' & rs' & s2 & t2 & Hp2 & Hv2 & Hl2 & Hwa & Hra); try done.
  { lia. }
  { eapply Forall_impl; [exact Hw2|]. intros x. simpl. lia. }
  rewrite Hp2. cbn [ptry fst snd app].
  destruct (wrap_slices (rs ++ concat ws.*2) (rs1 ++ rs') (EXEC ws') (SExec ws.*1)) as [Hs Hg].
  - by apply Forall2_app.
  - unfold good. cbn [words_of]. clear -Hwa. remember ws.*1 as xs eqn:Hxs. clear Hxs. induction Hwa as [|w x ws' xs Hw H IH]; [done|].
    constructor; [by apply wordat_good in Hw as [_ ?]|done].
  - cbn [slices]. f_equal. clear -Hwa. induction Hwa as [|w x ws' xs Hw H IH]; [done|].
    cbn [fmap list_fmap]. by rewrite IH, (proj1 (wordat_good _ _ Hw)).
  - by exists (wrap (rs1 ++ rs') (EXEC ws')), s2, t2.
Qed.

Definition symbols (str : string) : Prop := Forall (fun c => c <> 0 /\ is_symbol c = true) (chars str).

(** The parser looks for a symbol: it is there and is read. *)
Lemma accept str s t c toks :
  symbols str -> view s t -> lexes t (Sym c :: toks) -> in_str (chars str) c = true ->
  exists s1 q eq s2 t2, peek buf es s str = (true, s1) /\ gettoken buf es s1 = (c, q, eq, s2) /\ view s2 t2 /\ lexes t2 toks.
Proof.
  intros Hstr Hv Hl Hc. destruct (peek_lexes s t _ str Hv Hl (symbols_in str Hstr)) as (s1 & t1 & Hp & Hv1 & Hl1).
  cbn [first_char] in Hp. rewrite Hc in Hp.
  destruct (gettoken_lexes s1 t1 _ _ Hv1 Hl1) as (q & eq & s2 & t2 & Hg & Hv2 & Hl2 & _). by exists s1, q, eq, s2, t2.
Qed.

(** Or something else comes next. *)
Lemma reject str s t toks :
  symbols str -> view s t -> lexes t toks -> (forall c, first_char toks = Some c -> in_str (chars str) c = false) ->
  exists s1 t1, peek buf es s str = (false, s1) /\ view s1 t1 /\ lexes t1 toks.
Proof.
  intros Hstr Hv Hl Hc. destruct (peek_lexes s t _ str Hv Hl (symbols_in str Hstr)) as (s1 & t1 & Hp & Hv1 & Hl1).
  exists s1, t1. split; [|done]. rewrite Hp. destruct (first_char toks) as [c|]; [by rewrite Hc|done].
Qed.

Lemma follows_not str str' rest :
  follows str rest -> (forall c, in_str (chars str) c = true -> in_str (chars str') c = false) ->
  forall c, first_char rest = Some c -> in_str (chars str') c = false.
Proof. intros [->|(c & Hc & Hin)] H d Hd; [done|]. rewrite Hc in Hd. injection Hd as <-. by apply H. Qed.

Lemma follows_weaken str str' rest :
  follows str rest -> (forall c, in_str (chars str) c = true -> in_str (chars str') c = true) -> follows str' rest.
Proof. intros [->|(c & Hc & Hin)] H; [by left|right; exists c; split; [done|by apply H]]. Qed.

(** A command starts with a parenthesis or not. *)
Lemma exec_first rs ws rest : follows "|)&;" rest -> redirs_ok rs ->
  forall c, first_char (exec_toks (GSimple rs ws) ++ rest) = Some c -> in_str (chars "(") c = false.
Proof.
  intros Hfol Hrs c Hc. destruct Hrs as [|g rs Hg _].
  - destruct ws as [|[w g] ws]; [|done]. cbn in Hc. revert c Hc. apply (follows_not "|)&;"); [done|].
    intros c Hc. by str_cases Hc.
  - cbn in Hc. repeat (apply elem_of_cons in Hg as [Hg|Hg]); [rewrite Hg in Hc; by injection Hc as <-..|].
    by apply elem_of_nil in Hg.
Qed.

Lemma iter_back k c sc : slices buf c = sc -> good c -> slices buf (Nat.iter k BACK c) = Nat.iter k SBack sc /\ good (Nat.iter k BACK c).
Proof. intros Hs Hg. induction k as [|k [IH1 IH2]]; [done|]. simpl. rewrite IH1. done. Qed.

(** The pipe of a line and the ampersands after it. *)
Lemma pipe_backs p k rest n s t :
  parses (parsepipe buf es n) (pipe_toks p) (pipe_cmd p) (replicate k (Sym 38) ++ rest) ->
  first_char rest <> Some 38 -> view s t -> lexes t (pipe_toks p ++ replicate k (Sym 38) ++ rest) ->
  exists c0 s0 c s' t', parsepipe buf es n s = POk c0 s0 /\ parsebacks buf es (S es) s0 c0 = POk c s' /\
    view s' t' /\ lexes t' rest /\ slices buf c = Nat.iter k SBack (pipe_cmd p) /\ good c.
Proof.
  intros Hp Hrest Hv Hl. pose proof (lexes_length _ _ Hl) as Hlen. rewrite !length_app, length_replicate in Hlen.
  pose proof (view_length _ _ Hv) as Hes. destruct (Hp s t Hv Hl) as (c & s1 & t1 & Hp1 & Hv1 & Hl1 & Hs & Hg).
  destruct (parsebacks_ok k (S es) s1 t1 rest c Hv1 Hl1 Hrest) as (s2 & t2 & Hp2 & Hv2 & Hl2); [lia|].
  destruct (iter_back k c _ Hs Hg) as [Hs' Hg']. by exists c, s1, (Nat.iter k BACK c), s2, t2.
Qed.

Lemma line_case p k n rest :
  (forall rest n, pipe_ok p -> follows ")&;" rest -> (pipe_depth p <= n)%nat ->
     parses (parsepipe buf es n) (pipe_toks p) (pipe_cmd p) rest) ->
  line_ok (GLine p k) -> follows ")" rest -> (line_depth (GLine p k) <= n)%nat ->
  parses (parseline buf es n) (line_toks (GLine p k)) (line_cmd (GLine p k)) rest.
Proof.
  intros IH Hok Hfol Hn s t Hv Hl. destruct n as [|n]; [simpl in Hn; lia|]. rewrite parseline_S. cbn [line_toks] in *.
  rewrite <- app_assoc in Hl.
  destruct (pipe_backs p k rest n s t) as (c0 & s0 & c & s1 & t1 & Hp1 & Hp2 & Hv1 & Hl1 & Hs & Hg); [|..|done|done|].
  - apply IH; [done| |simpl in Hn; lia]. destruct k as [|k]; [|right; by exists 38].
    apply (follows_weaken ")"); [done|]. intros c Hc. by str_cases Hc.
  - intros Hc. by pose proof (follows_not ")" "&" rest Hfol ltac:(intros c Hin; by str_cases Hin) 38 Hc).
  - destruct (reject ";" s1 t1 rest) as (s2 & t2 & Hp & Hv2 & Hl2); [by apply (bool_decide_unpack _); vm_compute|done|done| |].
    { apply (follows_not ")"); [done|]. intros c' Hc. by str_cases Hc. }
    rewrite Hp1. cbn [ptry]. rewrite Hp2. cbn [ptry]. rewrite Hp. by exists c, s2, t2.
Qed.

Lemma seq_case p k l n rest :
  (forall rest n, pipe_ok p -> follows ")&;" rest -> (pipe_depth p <= n)%nat ->
     parses (parsepipe buf es n) (pipe_toks p) (pipe_cmd p) rest) ->
  (forall rest n, line_ok l -> follows ")" rest -> (line_depth l <= n)%nat ->
     parses (parseline buf es n) (line_toks l) (line_cmd l) rest) ->
  line_ok (GSeq p k l) -> follows ")" rest -> (line_depth (GSeq p k l) <= n)%nat ->
  parses (parseline buf es n) (line_toks (GSeq p k l)) (line_cmd (GSeq p k l)) rest.
Proof.
  intros IHp IHl [Hok1 Hok2] Hfol Hn s t Hv Hl. destruct n as [|n]; [simpl in Hn; lia|]. rewrite parseline_S. cbn [line_toks line_depth] in *.
  rewrite <- !app_assoc in Hl. cbn [app] in Hl.
  destruct (pipe_backs p k (Sym 59 :: line_toks l ++ rest) n s t)
    as (c0 & s0 & c & s1 & t1 & Hp1 & Hp2 & Hv1 & Hl1 & Hs & Hg); [|done|done|done|].
  - apply IHp; [done| |lia]. right. destruct k; [by exists 59|by exists 38].
  - destruct (accept ";" s1 t1 59 (line_toks l ++ rest)) as (s2 & q & eq & s3 & t3 & Hp & Hgt & Hv3 & Hl3); try done.
    { by apply (bool_decide_unpack _); vm_compute. }
    rewrite Hp1. cbn [ptry]. rewrite Hp2. cbn [ptry]. rewrite Hp, Hgt. destruct (IHl rest n Hok2 Hfol ltac:(lia) s3 t3 Hv3 Hl3) as (c' & s4 & t4 & -> & Hv4 & Hl4 & Hs4 & Hg4).
    cbn [ptry]. exists (LIST c c'), s4, t4. split_and!; try done; [cbn [slices line_cmd]; by rewrite Hs, Hs4|].
    unfold good. cbn [words_of]. by apply Forall_app.
Qed.

Lemma pipe1_case e n rest :
  (forall rest n, exec_ok e -> follows "|)&;" rest -> (exec_depth e <= n)%nat ->
     parses (parseexec buf es n) (exec_toks e) (exec_cmd e) rest) ->
  pipe_ok (GPipe1 e) -> follows ")&;" rest -> (pipe_depth (GPipe1 e) <= n)%nat ->
  parses (parsepipe buf es n) (pipe_toks (GPipe1 e)) (pipe_cmd (GPipe1 e)) rest.
Proof.
  intros IH Hok Hfol Hn s t Hv Hl. destruct n as [|n]; [simpl in Hn; lia|]. rewrite parsepipe_S. cbn [pipe_toks pipe_depth] in *.
  destruct (IH rest n Hok) with s t as (c & s1 & t1 & -> & Hv1 & Hl1 & Hs & Hg); try done; [|lia|].
  { apply (follows_weaken ")&;"); [done|]. intros c Hc. by str_cases Hc. }
  destruct (reject "|" s1 t1 rest) as (s2 & t2 & Hp & Hv2 & Hl2); [by apply (bool_decide_unpack _); vm_compute|done|done| |].
  { apply (follows_not ")&;"); [done|]. intros c' Hc. by str_cases Hc. }
  cbn [ptry]. rewrite Hp. by exists c, s2, t2.
Qed.

Lemma pipe_case e p n rest :
  (forall rest n, exec_ok e -> follows "|)&;" rest -> (exec_depth e <= n)%nat ->
     parses (parseexec buf es n) (exec_toks e) (exec_cmd e) rest) ->
  (forall rest n, pipe_ok p -> follows ")&;" rest -> (pipe_depth p <= n)%nat ->
     parses (parsepipe buf es n) (pipe_toks p) (pipe_cmd p) rest) ->
  pipe_ok (GPipe e p) -> follows ")&;" rest -> (pipe_depth (GPipe e p) <= n)%nat ->
  parses (parsepipe buf es n) (pipe_toks (GPipe e p)) (pipe_cmd (GPipe e p)) rest.
Proof.
  intros IHe IHp [Hok1 Hok2] Hfol Hn s t Hv Hl. destruct n as [|n]; [simpl in Hn; lia|]. rewrite parsepipe_S. cbn [pipe_toks pipe_depth] in *.
  rewrite <- app_assoc in Hl. cbn [app] in Hl.
  destruct (IHe (Sym 124 :: pipe_toks p ++ rest) n Hok1) with s t as (c & s1 & t1 & -> & Hv1 & Hl1 & Hs & Hg); try done; [|lia|].
  { right. by exists 124. }
  destruct (accept "|" s1 t1 124 (pipe_toks p ++ rest)) as (s2 & q & eq & s3 & t3 & Hp & Hgt & Hv3 & Hl3); try done.
  { by apply (bool_decide_unpack _); vm_compute. }
  cbn [ptry]. rewrite Hp, Hgt. destruct (IHp rest n Hok2 Hfol ltac:(lia) s3 t3 Hv3 Hl3) as (c' & s4 & t4 & -> & Hv4 & Hl4 & Hs4 & Hg4).
  cbn [ptry]. exists (PIPE c c'), s4, t4. split_and!; try done; [cbn [slices pipe_cmd]; by rewrite Hs, Hs4|].
  unfold good. cbn [words_of]. by apply Forall_app.
Qed.

Lemma block_case l rs n rest :
  (forall rest n, line_ok l -> follows ")" rest -> (line_depth l <= n)%nat ->
     parses (parseline buf es n) (line_toks l) (line_cmd l) rest) ->
  exec_ok (GBlock l rs) -> follows "|)&;" rest -> (exec_depth (GBlock l rs) <= n)%nat ->
  parses (parseexec buf es n) (exec_toks (GBlock l rs)) (exec_cmd (GBlock l rs)) rest.
Proof.
  intros IH [Hok Hrs] Hfol Hn s t Hv Hl. cbn [exec_toks exec_depth] in *. destruct n as [|[|n]]; [lia|lia|]. rewrite parseexec_S.
  cbn [app] in Hl. rewrite <- app_assoc in Hl. cbn [app] in Hl.
  assert (symbols "(" /\ symbols ")") as [Hs1 Hs2] by (split; apply (bool_decide_unpack _); by vm_compute).
  destruct (peek_lexes s t _ "(" Hv Hl (symbols_in "(" Hs1)) as (s1 & t1 & Hp & Hv1 & Hl1). rewrite Hp. clear Hp.
  change (in_str (chars "(") 40) with true. cbn [first_char]. rewrite parseblock_S.
  destruct (accept "(" s1 t1 40 _ Hs1 Hv1 Hl1) as (s2 & q & eq & s3 & t3 & Hp & Hgt & Hv3 & Hl3); [done|]. rewrite Hp, Hgt.
  cbn [negb]. destruct (IH (Sym 41 :: redirs_toks rs ++ rest) n Hok) with s3 t3 as (c & s4 & t4 & -> & Hv4 & Hl4 & Hs & Hg); try done.
  { right. by exists 41. }
  { lia. }
  cbn [ptry]. destruct (accept ")" s4 t4 41 _ Hs2 Hv4 Hl4) as (s5 & q' & eq' & s6 & t6 & Hp6 & Hgt6 & Hv6 & Hl6); [done|].
  rewrite Hp6, Hgt6. cbn [negb]. pose proof (lexes_length _ _ Hl6) as Hlen. rewrite length_app, redirs_toks_length in Hlen.
  pose proof (view_length _ _ Hv6) as Hes.
  destruct (parseredirs_ok rs (S es) s6 t6 rest Hrs Hv6 Hl6) as (rs1 & s7 & t7 & -> & Hv7 & Hl7 & Hr7); [|lia|].
  { apply (follows_not "|)&;"); [done|]. intros c' Hc. by str_cases Hc. }
  cbn [ptry]. destruct (wrap_slices rs rs1 c (line_cmd l) Hr7 Hg Hs) as [Hs8 Hg8]. by exists (wrap rs1 c), s7, t7.
Qed.

Lemma simple_case rs ws n rest :
  exec_ok (GSimple rs ws) -> follows "|)&;" rest -> (exec_depth (GSimple rs ws) <= n)%nat ->
  parses (parseexec buf es n) (exec_toks (GSimple rs ws)) (exec_cmd (GSimple rs ws)) rest.
Proof.
  intros Hok Hfol Hn s t Hv Hl. destruct n as [|n]; [simpl in Hn; lia|]. rewrite parseexec_S.
  destruct (reject "(" s t (exec_toks (GSimple rs ws) ++ rest)) as (s1 & t1 & Hp & Hv1 & Hl1); [by apply (bool_decide_unpack _); vm_compute|done|exact Hl| |].
  { apply exec_first; [done|apply Hok]. }
  rewrite Hp. by apply (parsesimple_ok rs ws rest Hok Hfol s1 t1).
Qed.

Lemma parser_ok :
  (forall g rest n, line_ok g -> follows ")" rest -> (line_depth g <= n)%nat ->
     parses (parseline buf es n) (line_toks g) (line_cmd g) rest) /\
  (forall g rest n, pipe_ok g -> follows ")&;" rest -> (pipe_depth g <= n)%nat ->
     parses (parsepipe buf es n) (pipe_toks g) (pipe_cmd g) rest) /\
  (forall g rest n, exec_ok g -> follows "|)&;" rest -> (exec_depth g <= n)%nat ->
     parses (parseexec buf es n) (exec_toks g) (exec_cmd g) rest).
Proof.
  apply grammar_ind; intros.
  - by apply line_case.
  - by apply seq_case.
  - by apply pipe1_case.
  - by apply pipe_case.
  - by apply block_case.
  - by apply simple_case.
Qed.

Lemma depth_toks :
  (forall g, line_depth g <= 4 * length (line_toks g) + 3)%nat /\
  (forall g, pipe_depth g <= 4 * length (pipe_toks g) + 2)%nat /\
  (forall g, exec_depth g <= 4 * length (exec_toks g) + 1)%nat.
Proof.
  apply grammar_ind; intros; cbn [line_depth pipe_depth exec_depth line_toks pipe_toks exec_toks];
    repeat (rewrite ?length_app; cbn [length]); lia.
Qed.

(** ** nulterminate *)

(** The array after NULs at the ends [ends]. *)
Definition nuls (ends : list nat) (b : list Z) : list Z := foldl (fun b i => <[i := 0]> b) b ends.

Lemma nuls_app l1 l2 b : nuls (l1 ++ l2) b = nuls l2 (nuls l1 b).
Proof. apply foldl_app. Qed.

Lemma nulterminate_nuls c b : nulterminate c b = nuls (words_of c).*2 b.
Proof.
  revert b. induction c as [argv|c IH r|l IHl r IHr|l IHl r IHr|c IH]; intros b; cbn [nulterminate words_of].
  - unfold terminate_words, nuls. revert b. induction argv as [|w argv IH]; intros b; [done|]. apply IH.
  - rewrite fmap_app, nuls_app, IH. done.
  - by rewrite fmap_app, nuls_app, IHl, IHr.
  - by rewrite fmap_app, nuls_app, IHl, IHr.
  - apply IH.
Qed.

Lemma nuls_lookup ends b i : (i < length b)%nat -> nuls ends b !! i = if decide (i ∈ ends) then Some 0 else b !! i.
Proof.
  revert b. induction ends as [|j ends IH]; intros b Hi; [by rewrite decide_False by set_solver|].
  change (nuls (j :: ends) b) with (nuls ends (<[j := 0]> b)). rewrite IH by (by rewrite length_insert).
  destruct (decide (i = j)) as [->|Hne].
  - rewrite list_lookup_insert_eq by done. rewrite (decide_True (P := j ∈ j :: ends)) by set_solver. by case_decide.
  - rewrite list_lookup_insert_ne by done. apply decide_ext. set_solver.
Qed.

(** The ends of words are not inside words, so that every word keeps its
    characters and gets its NUL. *)
Lemma nuls_word ws w :
  (es < length buf)%nat -> Forall (fun w => wordat w (slice buf w)) ws -> w ∈ ws ->
  cstr (drop w.1 (nuls ws.*2 buf)) = Some (slice buf w).
Proof.
  intros Hbuf Hws Hw. pose proof Hws as Hall. rewrite Forall_forall in Hws.
  destruct (Hws w Hw) as (_ & Hr & Hpl & _). apply cstr_spec. split; [eapply Forall_impl; [exact Hpl|by intros c [? _]]|].
  assert (length (nuls ws.*2 buf) = length buf) as Hlen.
  { clear. generalize ws.*2 as l. intros l. revert buf. induction l as [|i l IH]; intros b; [done|].
    change (nuls (i :: l) b) with (nuls l (<[i := 0]> b)). rewrite IH. apply length_insert. }
  exists (drop (S (w.2 - w.1)) (drop w.1 (nuls ws.*2 buf))).
  assert (length (slice buf w) = (w.2 - w.1)%nat) as Hsl by (unfold slice; rewrite length_take, length_drop; lia).
  rewrite <- (take_drop (w.2 - w.1) (drop w.1 (nuls ws.*2 buf))) at 1. f_equal.
  - apply list_eq. intros i. destruct (decide (i < w.2 - w.1)%nat) as [Hi|Hi].
    + unfold slice. rewrite !lookup_take_lt by done. rewrite !lookup_drop, nuls_lookup by lia.
      rewrite decide_False; [done|]. intros (w' & He & Hw')%list_elem_of_fmap.
      destruct (Hws w' Hw') as (_ & Hr' & _ & Hst). assert (slice buf w !! i = Some (aget buf (w.1 + i))) as Hc.
      { unfold slice. rewrite lookup_take_lt, lookup_drop by done. unfold aget.
        destruct (buf !! (w.1 + i)%nat) as [c|] eqn:Hc; [done|]. apply lookup_ge_None in Hc. lia. }
      eapply Forall_lookup_1 in Hc; [|exact Hpl]. destruct Hc as [_ Hc].
      destruct Hst as [He'|Hst]; [lia|]. rewrite <- He in Hst. congruence.
    + rewrite !lookup_ge_None_2; [done|rewrite Hsl; lia|rewrite length_take; lia].
  - apply drop_S. rewrite lookup_drop. replace (w.1 + (w.2 - w.1))%nat with w.2 by lia. rewrite nuls_lookup by lia.
    rewrite decide_True; [done|]. by apply (list_elem_of_fmap_2 snd).
Qed.

(** After nulterminate runcmd finds the strings of the command. *)
Lemma strings_slices c b :
  Forall (fun w => cstr (drop w.1 b) = Some (slice buf w)) (words_of c) -> strings b c = Some (slices buf c).
Proof.
  induction c as [argv|c IH r|l IHl r IHr|l IHl r IHr|c IH]; cbn [words_of strings slices]; intros H.
  - assert (mapM (fun w => cstr (drop w.1 b)) argv = Some (slice buf <$> argv)) as ->; [|done].
    apply mapM_Some. apply Forall2_fmap_r. induction H as [|w argv Hw H IH]; [constructor|]. by constructor.
  - apply Forall_app in H as [H [Hr _]%Forall_cons]. by rewrite (IH H), Hr.
  - apply Forall_app in H as [Hl Hr]. by rewrite (IHl Hl), (IHr Hr).
  - apply Forall_app in H as [Hl Hr]. by rewrite (IHl Hl), (IHr Hr).
  - by rewrite (IH H).
Qed.
End line.

Lemma parsetop_ok g t junk :
  line_ok g -> lexes t (line_toks g) ->
  let buf := t ++ 0 :: junk in
  exists c s, parsetop buf (length t) = POk (inl c) s /\ strings (nulterminate c buf) c = Some (line_cmd g).
Proof.
  intros Hok Hl buf. assert (view buf (length t) 0 t) as Hv by (split; [done|by exists junk]).
  destruct (parser_ok buf (length t)) as (Hline & _ & _). destruct depth_toks as (Hdep & _ & _).
  specialize (Hdep g). pose proof (lexes_length _ _ Hl) as Hlen.
  destruct (Hline g [] (4 * length t + 8)%nat Hok (or_introl eq_refl) ltac:(lia) 0%nat t Hv) as (c & s & t' & Hp & Hv' & Hl' & Hs & Hg).
  { by rewrite app_nil_r. }
  destruct (skip_lexes buf (length t) s t' [] Hv' Hl') as (t2 & Hv2 & Hl2 & _ & Hh).
  assert (t2 = []) as ->.
  { inversion Hl2 as [ws Hws| | | |]; subst. destruct t2 as [|d t2]; [done|]. apply Forall_cons in Hws as [Hd _].
    destruct Hh as [_ Hh]. congruence. }
  destruct (view_end _ _ _ Hv2) as [He _]. exists c, (skip buf (length t) s). split.
  - unfold parsetop. rewrite Hp. cbn [ptry]. unfold peek. rewrite He, Nat.eqb_refl. done.
  - rewrite nulterminate_nuls. rewrite <- Hs. apply strings_slices. apply Forall_forall. intros w Hw.
    apply (nuls_word buf (length t)); [unfold buf; rewrite length_app; simpl; lia|exact Hg|done].
Qed.

(** C15: the shell's parser builds what the line says.  For every line of the
    grammar (words, redirections in any place, blocks in parentheses, pipes, &,
    ;, at most nine words to a command), written with any white space around
    its tokens, the parser accepts the whole line within its fuel, and after
    nulterminate the command in memory, read through its pointers, is the
    command the line stands for, with each word's string complete. *)
Theorem parse_roundtrip g t junk :
  line_ok g -> lexes t (line_toks g) ->
  let buf := t ++ 0 :: junk in
  exists c s, parsetop buf (length t) = POk (inl c) s /\ strings (nulterminate c buf) c = Some (line_cmd g).
Proof. apply parsetop_ok. Qed.

(** cat<in | wc & *)
Definition sample_line : gline :=
  GLine (GPipe (GSimple [] [(chars "cat", [mk_gredir 60 (chars "in")])]) (GPipe1 (GSimple [] [(chars "wc", [])]))) 1.

Lemma sample_lexes : lexes (chars "cat<in | wc &") (line_toks sample_line).
Proof.
  refine (lexes_word [] (chars "cat") (chars "<in | wc &") _ _ _ _ _ _);
    [by constructor|done|apply (bool_decide_unpack _); vm_compute; exact I|reflexivity|].
  refine (lexes_sym [] 60 (chars "in | wc &") _ _ _ _); [by constructor|apply (bool_decide_unpack _); vm_compute; exact I|].
  refine (lexes_word [] (chars "in") (chars " | wc &") _ _ _ _ _ _);
    [by constructor|done|apply (bool_decide_unpack _); vm_compute; exact I|reflexivity|].
  refine (lexes_sym [32] 124 (chars " wc &") _ _ _ _); [by repeat constructor|apply (bool_decide_unpack _); vm_compute; exact I|].
  refine (lexes_word [32] (chars "wc") (chars " &") _ _ _ _ _ _);
    [by repeat constructor|done|apply (bool_decide_unpack _); vm_compute; exact I|reflexivity|].
  refine (lexes_sym [32] 38 [] _ _ _ _); [by repeat constructor|apply (bool_decide_unpack _); vm_compute; exact I|].
  apply lexes_end. constructor.
Qed.

Lemma parse_roundtrip_witness :
  exists c s, parsetop (chars "cat<in | wc &" ++ [0]) 13 = POk (inl c) s /\
    strings (nulterminate c (chars "cat<in | wc &" ++ [0])) c =
      Some (SBack (SPipe (SRedir (SExec [chars "cat"]) (chars "in") 0 0) (SExec [chars "wc"]))).
Proof.
  apply (parse_roundtrip sample_line (chars "cat<in | wc &") []).
  - repeat constructor.
  - exact sample_lexes.
Defined.

(** C35: the parser terminates on every line: whatever the characters are, it
    returns a command or the place of what is left over, inside the line, or
    panics with a message; the depth of its recursion is bounded by the length
    of the line. *)
Theorem parse_terminates t junk :
  match parsetop (t ++ 0 :: junk) (length t) with
  | POk _ s => (s <= length t)%nat
  | PPanic _ => True
  | PHang => False
  end.
Proof.
  set (buf := t ++ 0 :: junk). set (es := length t).
  assert (aget buf es = 0) as Hend by (apply aget_lookup; unfold buf, es; by rewrite list_lookup_middle).
  destruct (parser_total buf es Hend (4 * es + 8)) as (Hl & _). specialize (Hl 0%nat ltac:(lia) ltac:(lia)).
  unfold parsetop. destruct (parseline buf es (4 * es + 8) 0) as [c s|m|] eqn:Hp; cbn [ptry] in *; [|done|done].
  unfold total in Hl. destruct (peek buf es s "") as [b s'] eqn:Hpk. apply (peek_range buf es) in Hpk; lia.
Qed.
