(* ===== verification/Shellrun.v ===== *)
(** * Running commands (sh.c, runcmd and main)

    The shell as a tree of system calls.  runcmd never returns; its child
    processes are the branches of the tree where fork answers 0. *)

From S2P Require Import Prelude Cstring Kernel Spinlock Console ProcCore Bio Inode User Ulib Programs Login Shell Grammar.

Section sh.
Context {G : Type}.

Definition sh_panic {A} (msg : string) : U G A :=
  printf 2 (line "%s") [AStr (Some (chars msg))] ;;;
  uexit.

Definition fork1 : U G Z :=
  pid <- sys Fork ;;
  if pid =? -1 then sh_panic "fork" else uret pid.

(** The string at an index of buf. *)
Definition str (buf : list Z) (q : nat) : U G (list Z) := deref (cstr (drop q buf)).

Fixpoint strs (buf : list Z) (ws : list word) : U G (list (list Z)) :=
  match ws with
  | [] => uret []
  | w :: ws' => a <- str buf w.1 ;; l <- strs buf ws' ;; uret (a :: l)
  end.

Fixpoint runcmd (buf : list Z) (c : cmd) : U G unit :=
  match c with
  | EXEC [] => uexit
  | EXEC (w :: ws) =>
      argv <- strs buf (w :: ws) ;;
      path <- str buf w.1 ;;
      sys (Exec path argv) ;;;
      printf 2 (line "exec %s failed") [AStr (Some path)] ;;;
      uexit
  | REDIR c r =>
      sys (Close (r_fd r)) ;;;
      f <- str buf (r_file r).1 ;;
      fd <- sys (Open f (r_mode r)) ;;
      if fd <? 0 then
        printf 2 (line "open %s failed") [AStr (Some f)] ;;;
        uexit
      else runcmd buf c ;;; uexit
  | LIST l r =>
      pid <- fork1 ;;
      uwhen (pid =? 0) (runcmd buf l) ;;;
      sys Wait ;;;
      runcmd buf r ;;;
      uexit
  | PIPE l r =>
      p <- sys Pipe ;;
      match p with
      | None => sh_panic "pipe"
      | Some (p0, p1) =>
          pid <- fork1 ;;
          uwhen (pid =? 0)
            (sys (Close 1) ;;; sys (Dup p1) ;;; sys (Close p0) ;;; sys (Close p1) ;;; runcmd buf l) ;;;
          pid <- fork1 ;;
          uwhen (pid =? 0)
            (sys (Close 0) ;;; sys (Dup p0) ;;; sys (Close p0) ;;; sys (Close p1) ;;; runcmd buf r) ;;;
          sys (Close p0) ;;;
          sys (Close p1) ;;;
          sys Wait ;;;
          sys Wait ;;;
          uexit
      end
  | BACK c =>
      pid <- fork1 ;;
      uwhen (pid =? 0) (runcmd buf c) ;;;
      uexit
  end.

(** parsecmd: the command and the line with its NULs *)
Definition parsecmd (buf : list Z) : U G (cmd * list Z) :=
  es <- deref (strlen buf) ;;
  match parsetop buf (idx es) with
  | POk (inl c) _ => uret (c, nulterminate c buf)
  | POk (inr s) _ =>
      l <- str buf s ;;
      printf 2 (line "leftovers: %s") [AStr (Some l)] ;;;
      sh_panic "syntax"
  | PPanic m => sh_panic m
  | PHang => fault (Hang "parse")
  end.

(** runcmd(parsecmd(buf)) *)
Definition run_line (buf : list Z) : U G unit := r <- parsecmd buf ;; runcmd r.2 r.1.

(** getcmd: buf, or [None] at the end of the input *)
Definition getcmd (nbuf : nat) : U G (option (list Z)) :=
  printf 2 (chars "$ ") [] ;;;
  buf <- gets (replicate nbuf 0) (Z.of_nat nbuf) ;;
  uret (if aget buf 0 =? 0 then None else Some buf).

(** while((fd = open("console", O_RDWR)) >= 0) if(fd >= 3){ close(fd); break; } *)
Fixpoint open_console (fuel : nat) : U G Z :=
  fd <- sys (Open (chars "console") 2) ;;
  if negb (0 <=? fd) then uret fd
  else if 3 <=? fd then sys (Close fd) ;;; uret fd
  else
    match fuel with
    | O => fault (Hang "open")
    | S fuel' => open_console fuel'
    end.

Fixpoint sh_loop (fuel : nat) (curuser : list Z) : U G unit :=
  r <- getcmd 100 ;;
  match r with
  | None => uret tt
  | Some buf =>
      let next :=
        match fuel with
        | O => fault (Hang "sh")
        | S fuel' => sh_loop fuel' curuser
        end in
      if decide (take 3 buf = chars "cd ") then
        n <- deref (strlen buf) ;;
        buf <- store buf (idx (n - 1)) 0 ;;
        d <- str buf 3 ;;
        r <- sys (Chdir d) ;;
        uwhen (r <? 0) (printf 2 (line "cannot cd %s") [AStr (Some d)]) ;;;
        next
      else if decide (take 7 buf = line "logout") then
        printf 1 (line "sh: See you later!") [] ;;;
        sys Wait ;;;
        uexit
      else if decide (take 7 buf = line "whoami") then
        printf 1 (line "%s") [AStr (Some curuser)] ;;;
        next
      else
        pid <- fork1 ;;
        uwhen (pid =? 0) (run_line buf) ;;;
        sys Wait ;;;
        next
  end.

Definition sh_main (fuel : nat) : U G unit :=
  open_console 3 ;;;
  curuser <- sys Whoami ;;
  printf 1 (line "sh: Hello, %s!") [AStr (Some curuser)] ;;;
  sh_loop fuel curuser ;;;
  uexit.
End sh.

(** ** File descriptors *)

(** What a descriptor stands for; pipes are numbered. *)
Inductive obj :=
| OInit (k : Z)
| OFile (path : list Z) (mode : Z)
| OPipeR (k : nat)
| OPipeW (k : nat).

Record fdw := mk_fdw { w_fds : gmap Z obj; w_pipes : nat }.

(** fdalloc: the lowest free descriptor of the 16. *)
Definition lowest (m : gmap Z obj) (fd : Z) : Prop :=
  0 <= fd < 16 /\ m !! fd = None /\ forall k, 0 <= k < fd -> is_Some (m !! k).

Definition full (m : gmap Z obj) : Prop := forall k, 0 <= k < 16 -> is_Some (m !! k).

(** The kernel's descriptor table. *)
Definition fd_step : kernel fdw := fun X c =>
  match c in call X return fdw -> X -> fdw -> Prop with
  | Close fd => fun e x e' => e' = mk_fdw (delete fd (w_fds e)) (w_pipes e)
  | Open path mode => fun e x e' =>
      (x = -1 /\ e' = e) \/ (lowest (w_fds e) x /\ e' = mk_fdw (<[x := OFile path mode]> (w_fds e)) (w_pipes e))
  | Dup fd => fun e x e' =>
      (x = -1 /\ e' = e /\ (w_fds e !! fd = None \/ full (w_fds e))) \/
      (exists o, w_fds e !! fd = Some o /\ lowest (w_fds e) x /\ e' = mk_fdw (<[x := o]> (w_fds e)) (w_pipes e))
  | Pipe => fun e x e' =>
      (x = None /\ e' = e) \/
      (exists p0 p1 n, x = Some (p0, p1) /\ n = w_pipes e /\ lowest (w_fds e) p0 /\ lowest (<[p0 := OPipeR n]> (w_fds e)) p1 /\
         e' = mk_fdw (<[p1 := OPipeW n]> (<[p0 := OPipeR n]> (w_fds e))) (S n))
  | _ => fun e _ e' => e' = e
  end.

Definition exec_is (P : list Z -> list (list Z) -> Prop) {X : Set} (c : call X) : Prop :=
  match c with Exec path argv => P path argv | _ => False end.

(** The same with a condition on every exec. *)
Definition fd_monitor (P : list Z -> list (list Z) -> gmap Z obj -> Prop) : monitor fdw := {|
  may X c e := match c with Exec path argv => P path argv (w_fds e) | _ => True end;
  step := fd_step
|}.

#[export] Instance fd_pass P : PassIO (fd_monitor P).
Proof. by split. Qed.

(** The three descriptors of a command. *)
Definition std (i o er : obj) : gmap Z obj := {[ 0 := i; 1 := o; 2 := er ]}.

(** [stage sc n i o argv i' o']: the command [sc], with input [i] and output [o],
    has a program [argv] with input [i'] and output [o']; [n] is the number of
    the next pipe. *)
Inductive stage : scmd -> nat -> obj -> obj -> list (list Z) -> obj -> obj -> Prop :=
| stage_exec argv n i o : stage (SExec argv) n i o argv i o
| stage_in c f m n i o a i' o' : stage c n (OFile f m) o a i' o' -> stage (SRedir c f m 0) n i o a i' o'
| stage_out c f m n i o a i' o' : stage c n i (OFile f m) a i' o' -> stage (SRedir c f m 1) n i o a i' o'
| stage_left l r n i o a i' o' : stage l (S n) i (OPipeW n) a i' o' -> stage (SPipe l r) n i o a i' o'
| stage_right l r n i o a i' o' : stage r (S n) (OPipeR n) o a i' o' -> stage (SPipe l r) n i o a i' o'
| stage_first l r n i o a i' o' : stage l n i o a i' o' -> stage (SList l r) n i o a i' o'
| stage_second l r n i o a i' o' : stage r n i o a i' o' -> stage (SList l r) n i o a i' o'
| stage_back c n i o a i' o' : stage c n i o a i' o' -> stage (SBack c) n i o a i' o'.

(** The parser redirects descriptors 0 and 1 only. *)
Fixpoint redirects_std (c : scmd) : Prop :=
  match c with
  | SExec _ => True
  | SRedir c _ _ fd => (fd = 0 \/ fd = 1) /\ redirects_std c
  | SPipe l r | SList l r => redirects_std l /\ redirects_std r
  | SBack c => redirects_std c
  end.

(** A process of the tree [m] executes [path] with arguments [argv] and the
    descriptors [F]. *)
Fixpoint preach {A} (path : list Z) (argv : list (list Z)) (F : gmap Z obj) (m : prog A) (e : fdw) : Prop :=
  match m with
  | Call c k =>
      exec_is (fun p a => p = path /\ a = argv) c /\ w_fds e = F \/
      exists x e', fd_step _ c e x e' /\ preach path argv F (k x) e'
  | _ => False
  end.

Definition reach {S A} path argv F (m : U S A) (s : S) (e : fdw) : Prop := preach path argv F (m s) e.

(** ** Lemmas *)

Lemma preach_psafe {A} P path argv F (m : prog A) Q e :
  psafe (fd_monitor P) m Q e -> preach path argv F m e -> P path argv F.
Proof.
  revert e. induction m as [a|X c k IH| |w]; intros e; try done. intros [Hc Hk] [[Hm HF]|(x & e' & Hs & Hr)].
  - destruct c; try done. by destruct Hm as [-> ->]; subst F.
  - apply (IH x e'); [|done]. by apply Hk.
Qed.

Lemma strs_ok {G} buf ws l (s : G) :
  mapM (fun w : word => cstr (drop w.1 buf)) ws = Some l -> strs buf ws s = Ret (l, s).
Proof.
  revert l. induction ws as [|w ws IH]; intros l H; [by injection H as <-|].
  apply mapM_Some in H. inversion H as [|? a ? l' Ha Hl]; subst. cbn [strs]. unfold str, ubind, deref. rewrite Ha. cbn.
  by rewrite (IH l') by (by apply mapM_Some).
Qed.

Section reach.
Context {G : Type} (path : list Z) (argv : list (list Z)) (F : gmap Z obj).

Lemma reach_bind {A B} (m : U G A) (f : A -> U G B) s e : reach path argv F m s e -> reach path argv F (ubind m f) s e.
Proof.
  unfold reach, ubind. generalize (m s) as p. intros p. revert e.
  induction p as [a|X c k IH| |w]; intros e; try done. intros [H|(x & e' & Hs & Hr)]; [by left|right; eauto].
Qed.

Lemma reach_sys {X : Set} {B} (c : call X) (f : X -> U G B) s e x e' :
  fd_step _ c e x e' -> reach path argv F (f x) s e' -> reach path argv F (ubind (sys c) f) s e.
Proof. intros Hs Hr. right. by exists x, e'. Qed.

Lemma reach_fork {B} (f : Z -> U G B) pid s e :
  pid <> -1 -> reach path argv F (f pid) s e -> reach path argv F (ubind fork1 f) s e.
Proof.
  intros Hp Hr. right. exists pid, e. split; [done|]. change (reach path argv F (ubind (if pid =? -1 then sh_panic "fork" else uret pid) f) s e).
  by rewrite (proj2 (Z.eqb_neq _ _) Hp).
Qed.

Lemma reach_strs {B} buf ws l (f : _ -> U G B) s e :
  mapM (fun w : word => cstr (drop w.1 buf)) ws = Some l -> reach path argv F (f l) s e -> reach path argv F (ubind (strs buf ws) f) s e.
Proof. intros H Hr. unfold reach, ubind. by rewrite (strs_ok _ _ _ _ H). Qed.

Lemma reach_str {B} buf q a (f : _ -> U G B) s e :
  cstr (drop q buf) = Some a -> reach path argv F (f a) s e -> reach path argv F (ubind (str buf q) f) s e.
Proof. intros H Hr. unfold str. by rewrite H. Qed.

Lemma reach_exec {B} (f : Z -> U G B) s e : w_fds e = F -> reach path argv F (ubind (sys (Exec path argv)) f) s e.
Proof. by left. Qed.
End reach.

(** *** The descriptors of a pipe *)

Lemma std_lookup i o er k : std i o er !! k = if k =? 0 then Some i else if k =? 1 then Some o else if k =? 2 then Some er else None.
Proof.
  unfold std. destruct (Z.eqb_spec k 0) as [->|H0]; [by simplify_map_eq|]. destruct (Z.eqb_spec k 1) as [->|H1]; [by simplify_map_eq|].
  destruct (Z.eqb_spec k 2) as [->|H2]; [by simplify_map_eq|]. by simplify_map_eq.
Qed.

(** The lowest free descriptor is unique. *)
Lemma lowest_unique m a b : lowest m a -> lowest m b -> a = b.
Proof.
  intros (Ha & Hna & Hla) (Hb & Hnb & Hlb). destruct (Z.lt_trichotomy a b) as [H|[H|H]]; [|done|].
  - destruct (Hlb a ltac:(lia)) as [x Hx]. congruence.
  - destruct (Hla b ltac:(lia)) as [x Hx]. congruence.
Qed.

Lemma lowest_not_full m a : lowest m a -> ~ full m.
Proof. intros (Ha & Hn & _) Hf. destruct (Hf a Ha) as [x Hx]. congruence. Qed.

(** The table after pipe: 3 is the read end and 4 the write end. *)
Definition piped (i o er : obj) (n : nat) : gmap Z obj := <[4 := OPipeW n]> (<[3 := OPipeR n]> (std i o er)).

Lemma std_lowest i o er : lowest (std i o er) 3.
Proof.
  split; [lia|]. split; [by rewrite std_lookup|]. intros k Hk. assert (k = 0 \/ k = 1 \/ k = 2) as [->|[->| ->]] by lia; by rewrite std_lookup.
Qed.

Lemma std_lowest2 i o er n : lowest (<[3 := OPipeR n]> (std i o er)) 4.
Proof.
  split; [lia|]. split; [by rewrite lookup_insert_ne, std_lookup by lia|]. intros k Hk.
  assert (k = 3 \/ k = 0 \/ k = 1 \/ k = 2) as [->|[->|[->| ->]]] by lia; [by rewrite lookup_insert_eq|..];
    by rewrite lookup_insert_ne, std_lookup by lia.
Qed.

Lemma std_close i o er k : (k = 0 \/ k = 1) -> lowest (delete k (std i o er)) k.
Proof.
  intros Hk. split; [lia|]. split; [by rewrite lookup_delete_eq|]. intros j Hj. assert (j = 0) as -> by lia.
  rewrite lookup_delete_ne by lia. by rewrite std_lookup.
Qed.

Lemma piped_close i o er n k : (k = 0 \/ k = 1) -> lowest (delete k (piped i o er n)) k.
Proof.
  intros Hk. split; [lia|]. split; [by rewrite lookup_delete_eq|]. intros j Hj. assert (j = 0) as -> by lia.
  unfold piped. rewrite lookup_delete_ne, !lookup_insert_ne by lia. by rewrite std_lookup.
Qed.

(** Reopening descriptor 0 or 1. *)
Definition with_fd (k : Z) (x : obj) (i o er : obj) : gmap Z obj := if k =? 0 then std x o er else std i x er.

Lemma std_reopen i o er k x : (k = 0 \/ k = 1) -> <[k := x]> (delete k (std i o er)) = with_fd k x i o er.
Proof.
  intros Hk. rewrite insert_delete_eq. unfold with_fd. apply map_eq. intros j. destruct Hk as [->| ->]; cbn [Z.eqb];
    rewrite lookup_insert, !std_lookup; repeat case_match; lia || done.
Qed.

Lemma piped_reopen i o er n k x : (k = 0 \/ k = 1) ->
  delete 4 (delete 3 (<[k := x]> (delete k (piped i o er n)))) = with_fd k x i o er.
Proof.
  intros Hk. rewrite <- std_reopen by done. rewrite !insert_delete_eq. unfold piped. apply map_eq. intros j.
  rewrite !lookup_delete, !lookup_insert, !std_lookup. repeat case_match; lia || done || (subst; congruence).
Qed.

(** The end of the pipe that replaces descriptor [k]. *)
Definition pipe_end (k : Z) (n : nat) : obj := if k =? 0 then OPipeR n else OPipeW n.

Lemma piped_end i o er n k : (k = 0 \/ k = 1) -> delete k (piped i o er n) !! (3 + k) = Some (pipe_end k n).
Proof. intros [->| ->]; rewrite lookup_delete_ne by lia; unfold piped; by simplify_map_eq. Qed.

(** *** Every exec is a stage *)

Section safe.
Context {G : Type} (P : list Z -> list (list Z) -> gmap Z obj -> Prop).
Definition never (_ : unit) (_ : G) (_ : fdw) : Prop := False.

Lemma fork_safe {B} (f : Z -> U G B) Q s e : (forall pid, usafe (fd_monitor P) (f pid) Q s e) -> usafe (fd_monitor P) (ubind fork1 f) Q s e.
Proof.
  intros Hf. apply usafe_bind, usafe_bind, usafe_sys; [done|]. intros pid e' ->. case_match.
  - apply usafe_bind; pass_printf. apply usafe_exit.
  - by apply usafe_ret.
Qed.

(** A child that runs [m] and never comes back. *)
Lemma child_safe {B} pid (m : U G unit) (k : U G B) Q s e :
  usafe (fd_monitor P) m never s e -> usafe (fd_monitor P) k Q s e ->
  usafe (fd_monitor P) (ubind (uwhen (pid =? 0) m) (fun _ => k)) Q s e.
Proof.
  intros Hm Hk. apply usafe_bind. unfold uwhen. case_match; [|by apply usafe_ret]. by eapply usafe_mono; [exact Hm|].
Qed.

Lemma call_safe {X : Set} {B} (c : call X) (k : U G B) Q s e e' :
  may (fd_monitor P) c e -> (forall x e2, fd_step _ c e x e2 -> e2 = e') -> usafe (fd_monitor P) k Q s e' ->
  usafe (fd_monitor P) (ubind (sys c) (fun _ => k)) Q s e.
Proof. intros Hm Hs Hk. apply usafe_bind, usafe_sys; [done|]. by intros x e2 ->%Hs. Qed.

(** A side of a pipe: close(k); dup(p[k]); close(p[0]); close(p[1]). *)
Lemma side_safe (m : U G unit) k i o er n s :
  k = 0 \/ k = 1 -> usafe (fd_monitor P) m never s (mk_fdw (with_fd k (pipe_end k n) i o er) (S n)) ->
  usafe (fd_monitor P)
    (sys (Close k) ;;; sys (Dup (3 + k)) ;;; sys (Close 3) ;;; sys (Close 4) ;;; m) never s (mk_fdw (piped i o er n) (S n)).
Proof.
  intros Hk Hm. rewrite <- (piped_reopen i o er n) in Hm by done. pose proof (piped_close i o er n k Hk) as Hlow.
  apply (call_safe _ _ _ _ _ (mk_fdw (delete k (piped i o er n)) (S n))); [done|by intros x e' ->|].
  apply (call_safe _ _ _ _ _ (mk_fdw (<[k := pipe_end k n]> (delete k (piped i o er n))) (S n))); [done| |].
  - intros x e' [(_ & _ & [Hno|Hfull])|(ob & Hob & Hx & ->)]; cbn [w_fds w_pipes] in *.
    + rewrite piped_end in Hno by done. congruence.
    + by destruct (lowest_not_full _ _ Hlow).
    + rewrite (lowest_unique _ _ _ Hx Hlow). rewrite piped_end in Hob by done. by injection Hob as ->.
  - by do 2 (eapply call_safe; [done|by intros x e' ->|]).
Qed.

Lemma strs_safe {B} buf ws l (f : _ -> U G B) Q s e :
  mapM (fun w : word => cstr (drop w.1 buf)) ws = Some l -> usafe (fd_monitor P) (f l) Q s e ->
  usafe (fd_monitor P) (ubind (strs buf ws) f) Q s e.
Proof.
  intros H Hf. apply usafe_bind. enough (strs buf ws s = Ret (l, s)) as Heq by (unfold usafe; by rewrite Heq).
  by apply strs_ok.
Qed.

Lemma runcmd_safe buf er c sc n i o s :
  strings buf c = Some sc -> redirects_std sc ->
  (forall path rest i' o', stage sc n i o (path :: rest) i' o' -> P path (path :: rest) (std i' o' er)) ->
  usafe (fd_monitor P) (runcmd buf c) never s (mk_fdw (std i o er) n).
Proof.
  revert sc n i o. induction c as [argv|c IH r|l IHl r IHr|l IHl r IHr|c IH]; intros sc n i o Hc Hw HP; cbn [strings] in Hc.
  - destruct argv as [|w ws]; [apply usafe_exit|]. apply fmap_Some in Hc as (l & Hl & ->). cbn [runcmd].
    eapply strs_safe; [exact Hl|]. apply mapM_Some in Hl. inversion Hl as [|? a ? l' Ha Hl']; subst.
    apply usafe_bind. unfold str. rewrite Ha. apply usafe_ret, usafe_bind, usafe_sys; [apply HP; constructor|]. intros x e' ->.
    apply usafe_bind; pass_printf. apply usafe_exit.
  - repeat case_match; simplify_eq. destruct Hw as [Hfd Hw]. cbn [runcmd]. unfold str. rewrite H0.
    eapply call_safe; [done|by intros x e' ->|]. apply usafe_bind, usafe_ret, usafe_bind, usafe_sys; [done|].
    intros x e' [[-> ->]|[Hx ->]]; cbn [w_fds w_pipes] in *; [apply usafe_bind; pass_printf; apply usafe_exit|].
    rewrite (lowest_unique _ _ _ Hx (std_close i o er _ Hfd)). rewrite (proj2 (Z.ltb_ge _ _)) by lia. apply usafe_bind.
    rewrite std_reopen by done. apply usafe_mono with never; [|by intros ??? []]. destruct r as [f m fd]; cbn [r_fd r_mode] in *.
    destruct Hfd as [->| ->]; (eapply IH; [done|done|]); intros path rest i' o' Hst; apply HP; by constructor.
  - repeat case_match; simplify_eq. destruct Hw as [Hwl Hwr]. cbn [runcmd].
    apply usafe_bind, usafe_sys; [done|]. intros x e' [[-> ->]|(p0 & p1 & n' & -> & -> & H0' & H1' & ->)].
    { apply usafe_bind; pass_printf. apply usafe_exit. }
    cbn [w_fds w_pipes] in *. pose proof (lowest_unique _ _ _ H0' (std_lowest i o er)) as ->.
    pose proof (lowest_unique _ _ _ H1' (std_lowest2 i o er n)) as ->. fold (piped i o er n).
    apply fork_safe. intros pid. apply child_safe.
    { apply (side_safe _ 1); [by right|]. eapply IHl; [done|done|]. intros path rest i' o' Hst. apply HP. by apply stage_left. }
    apply fork_safe. intros pid'. apply child_safe.
    { apply (side_safe _ 0); [by left|]. eapply IHr; [done|done|]. intros path rest i' o' Hst. apply HP. by apply stage_right. }
    do 4 (eapply call_safe; [done|by intros x e' ->|]). apply usafe_exit.
  - repeat case_match; simplify_eq. destruct Hw as [Hwl Hwr]. cbn [runcmd]. apply fork_safe. intros pid. apply child_safe.
    { eapply IHl; [done|done|]. intros path rest i' o' Hst. apply HP. by apply stage_first. }
    eapply call_safe; [done|by intros x e' ->|]. apply usafe_bind. apply usafe_mono with never; [|by intros ??? []].
    eapply IHr; [done|done|]. intros path rest i' o' Hst. apply HP. by apply stage_second.
  - apply fmap_Some in Hc as (sc' & Hc & ->). cbn [runcmd]. apply fork_safe. intros pid. apply child_safe.
    { eapply IH; [done|done|]. intros path rest i' o' Hst. apply HP. by apply stage_back. }
    apply usafe_exit.
Qed.
End safe.

(** *** Every stage is executed *)

Section run.
Context {G : Type} (path : list Z) (rest : list (list Z)) (F : gmap Z obj).

Lemma child_reach {B} (m : U G unit) (k : U G B) s e :
  reach path (path :: rest) F m s e -> reach path (path :: rest) F (pid <- fork1 ;; uwhen (pid =? 0) m ;;; k) s e.
Proof. intros Hm. apply (reach_fork _ _ _ _ 0); [done|]. by apply reach_bind. Qed.

Lemma parent_reach {B} (m : U G unit) (k : U G B) s e :
  reach path (path :: rest) F k s e -> reach path (path :: rest) F (pid <- fork1 ;; uwhen (pid =? 0) m ;;; k) s e.
Proof. intros Hk. by apply (reach_fork _ _ _ _ 1). Qed.

Lemma side_reach (m : U G unit) k i o er n s :
  k = 0 \/ k = 1 -> reach path (path :: rest) F m s (mk_fdw (with_fd k (pipe_end k n) i o er) (S n)) ->
  reach path (path :: rest) F
    (sys (Close k) ;;; sys (Dup (3 + k)) ;;; sys (Close 3) ;;; sys (Close 4) ;;; m) s (mk_fdw (piped i o er n) (S n)).
Proof.
  intros Hk Hm. rewrite <- (piped_reopen i o er n) in Hm by done.
  eapply (reach_sys _ _ _ _ _ _ _ 0); [done|]. eapply (reach_sys _ _ _ _ _ _ _ k).
  - right. exists (pipe_end k n). by split; [apply piped_end|split; [apply piped_close|]].
  - by do 2 (eapply (reach_sys _ _ _ _ _ _ _ 0); [done|]).
Qed.

End run.

Lemma runcmd_reach {G} path rest F buf er c sc n i o i' o' (s : G) :
  strings buf c = Some sc -> stage sc n i o (path :: rest) i' o' -> F = std i' o' er ->
  reach path (path :: rest) F (runcmd buf c) s (mk_fdw (std i o er) n).
Proof.
  intros Hc Hst HF. revert sc n i o Hc Hst.
  induction c as [ws|c IH r|l IHl r IHr|l IHl r IHr|c IH]; intros sc n i o Hc Hst; cbn [strings] in Hc.
  - apply fmap_Some in Hc as (argv & Hl & ->). inversion Hst; subst. destruct ws as [|w ws]; [done|].
    cbn [runcmd]. eapply reach_strs; [exact Hl|]. apply mapM_Some in Hl. inversion Hl as [|? p ? l' Hp Hl']; subst.
    eapply reach_str; [exact Hp|]. by apply reach_exec.
  - repeat case_match; simplify_eq. cbn [runcmd].
    eapply (reach_sys _ _ _ _ _ _ _ 0); [done|]. eapply reach_str; [done|]. destruct r as [f m fd]; cbn [r_fd r_mode] in *.
    assert (fd = 0 \/ fd = 1) as Hfd by (inversion Hst; auto).
    eapply (reach_sys _ _ _ (Open _ _) _ _ _ fd); [right; split; [by apply std_close|reflexivity]|].
    rewrite (proj2 (Z.ltb_ge _ _)) by lia. apply reach_bind. cbn [w_fds w_pipes]. rewrite std_reopen by done.
    inversion Hst; subst; by eapply IH.
  - repeat case_match; simplify_eq. cbn [runcmd].
    eapply (reach_sys _ _ _ Pipe _ _ _ (Some (3, 4)) (mk_fdw (piped i o er n) (S n))).
    { right. exists 3, 4, n. split; [done|]. split; [done|]. split; [apply std_lowest|]. split; [apply std_lowest2|done]. }
    inversion Hst; subst.
    + apply child_reach, (side_reach _ _ _ _ 1); [by right|]. by eapply IHl.
    + apply parent_reach, child_reach, (side_reach _ _ _ _ 0); [by left|]. by eapply IHr.
  - repeat case_match; simplify_eq. cbn [runcmd]. inversion Hst; subst.
    + apply child_reach. by eapply IHl.
    + apply parent_reach. eapply (reach_sys _ _ _ _ _ _ _ 0); [done|]. apply reach_bind. by eapply IHr.
  - apply fmap_Some in Hc as (sc' & Hc & ->). cbn [runcmd]. inversion Hst; subst. apply child_reach. by eapply IH.
Qed.

(** ** A line of the shell *)

Lemma add_redirs_std rs c : redirects_std c -> redirects_std (add_redirs rs c).
Proof.
  revert c. induction rs as [|r rs IH]; intros c Hc; [done|]. apply IH. unfold add_redir. case_match; simpl; auto.
Qed.

Lemma backs_std k c : redirects_std c -> redirects_std (Nat.iter k SBack c).
Proof. intros Hc. by induction k. Qed.

Lemma line_cmd_std :
  (forall g, redirects_std (line_cmd g)) /\ (forall g, redirects_std (pipe_cmd g)) /\ (forall g, redirects_std (exec_cmd g)).
Proof.
  apply grammar_ind; intros; cbn [line_cmd pipe_cmd exec_cmd redirects_std]; auto using add_redirs_std, backs_std.
  by apply add_redirs_std.
Qed.

Lemma lexes_nonzero t toks : lexes t toks -> Forall (fun c => c <> 0) t.
Proof.
  assert (forall ws, white ws -> Forall (fun c => c <> 0) ws) as Hw.
  { intros ws H. eapply Forall_impl; [exact H|]. by intros c Hc ->. }
  induction 1 as [ws H|ws c t toks H Hc Hl IH|ws t toks H Hh Hl IH|ws t toks H Hl IH|ws w t toks H Hne Hp Hs Hl IH].
  - by apply Hw.
  - apply Forall_app. split; [by apply Hw|]. constructor; [|done]. by destruct (symbol_plain c Hc).
  - apply Forall_app. split; [by apply Hw|]. by constructor.
  - apply Forall_app. split; [by apply Hw|]. by repeat constructor.
  - apply Forall_app. split; [by apply Hw|]. apply Forall_app. split; [|done]. eapply Forall_impl; [exact Hp|]. by intros c [Hc _].
Qed.

Lemma run_line_ok {G} g t junk (s : G) :
  line_ok g -> lexes t (line_toks g) ->
  exists c b, strings b c = Some (line_cmd g) /\ run_line (t ++ 0 :: junk) s = runcmd b c s.
Proof.
  intros Hok Hl. destruct (parsetop_ok g t junk Hok Hl) as (c & s' & Hp & Hs). exists c, (nulterminate c (t ++ 0 :: junk)). split; [done|].
  assert (strlen (t ++ 0 :: junk) = Some (Z.of_nat (length t))) as Hlen.
  { rewrite strlen_cstr. rewrite (proj2 (cstr_spec (t ++ 0 :: junk) t)); [done|]. split; [by eapply lexes_nonzero|by exists junk]. }
  unfold run_line, parsecmd, ubind. rewrite Hlen. cbn [deref uret pbind fst snd]. unfold idx. rewrite Nat2Z.id, Hp. done.
Qed.

(** C9: the shell runs exactly the programs of its line, with their plumbing.
    For every line of the grammar, parsed from its text, the tree of processes
    that runcmd makes, with pipe, dup and open giving the lowest free
    descriptors and any outcome of fork, wait and open, never returns, and it
    executes a program with the descriptors [F] if and only if the line has
    that program with that input and output: of the redirection or the end of
    the pipe the line says, on 0 and 1, the error stream on 2, and no other
    descriptor open. *)
Theorem runcmd_plumbing {G} g t junk i o er n (s : G) :
  line_ok g -> lexes t (line_toks g) ->
  let e := mk_fdw (std i o er) n in
  usafe (fd_monitor (fun _ _ _ => True)) (run_line (t ++ 0 :: junk)) never s e /\
  (forall path argv F, reach path argv F (run_line (t ++ 0 :: junk)) s e <->
    (exists rest i' o', argv = path :: rest /\ stage (line_cmd g) n i o argv i' o' /\ F = std i' o' er)).
Proof.
  intros Hok Hl e. destruct (run_line_ok g t junk s Hok Hl) as (c & b & Hs & Hrun). unfold reach, usafe. rewrite Hrun.
  destruct line_cmd_std as (Hstd & _ & _). specialize (Hstd g). split.
  - by eapply (runcmd_safe (fun _ _ _ => True)).
  - intros path argv F. split.
    + apply (preach_psafe (fun p a f => exists rest i' o', a = p :: rest /\ stage (line_cmd g) n i o a i' o' /\ f = std i' o' er) _ _ _ _ (fun r => never r.1 r.2)).
      eapply (runcmd_safe (fun p a f => exists rest i' o', a = p :: rest /\ stage (line_cmd g) n i o a i' o' /\ f = std i' o' er));
        [exact Hs|exact Hstd|]. intros p rest i' o' Hst. by exists rest, i', o'.
    + intros (rest & i' & o' & -> & Hst & HF). by eapply runcmd_reach.
Qed.

(** For cat<in | wc & the shell runs wc with the read end of the pipe. *)
Lemma runcmd_plumbing_witness :
  reach (chars "wc") [chars "wc"] (std (OPipeR 0) (OInit 1) (OInit 2))
    (run_line (chars "cat<in | wc &" ++ [0])) tt (mk_fdw (std (OInit 0) (OInit 1) (OInit 2)) 0).
Proof.
  refine (proj2 (proj2 (runcmd_plumbing sample_line (chars "cat<in | wc &") [] (OInit 0) (OInit 1) (OInit 2) 0 tt _ sample_lexes)
    (chars "wc") [chars "wc"] (std (OPipeR 0) (OInit 1) (OInit 2))) _); [repeat constructor|].
  exists [], (OPipeR 0), (OInit 1). split; [reflexivity|]. split; [|reflexivity].
  apply stage_back, stage_right, stage_exec.
Defined.
