(* ===== verification/Pmanager.v ===== *)
(** * The process manager (pmanager.c)

    The command loop of pmanager: strtok1 and the parser on the line buffer,
    pointers as indices, and the commands as a tree of system calls.  The
    struct child is 101 words, pid[100] followed by head, so that a store to
    pid[100] is a store to head.  As in the shell, the malloc of a command
    succeeds. *)

From S2P Require Import Prelude Cstring Kernel Spinlock Console ProcCore Bio Inode User Ulib Programs Login Shell Grammar Shellrun.

(** ** Tokens *)

(** The loop of strtok1 from [b] on: the buffer, _buffer and ret. *)
Fixpoint strtok_loop (fuel : nat) (delim : list Z) (buf : list Z) (nxt ret b : nat) : list Z * nat * nat :=
  match fuel with
  | O => (buf, nxt, ret)
  | S fuel' =>
      if aget buf b =? 0 then (buf, nxt, ret)
      else if in_str delim (aget buf b) then
        let buf := <[b := 0]> buf in
        if (b =? ret)%nat then strtok_loop fuel' delim buf (S b) (S ret) (S b)
        else (buf, S b, ret)
      else strtok_loop fuel' delim buf nxt ret (S b)
  end.

(** strtok1: the buffer, _buffer and the result; [nxt] is _buffer, which str
    replaces if it is not 0 *)
Definition strtok1 (buf : list Z) (nxt : nat) (str : option nat) (delim : list Z) : list Z * nat * option nat :=
  let nxt := default nxt str in
  if aget buf nxt =? 0 then (buf, nxt, None)
  else
    let '(buf, nxt, ret) := strtok_loop (length buf) delim buf nxt nxt nxt in
    (buf, nxt, Some ret).

Definition PM_MAXARGS : nat := 3.

(** for(int i = 0; i < MAXARGS + 1 && ptr != 0; i++), with [n] turns left *)
Fixpoint pm_args (n : nat) (buf : list Z) (nxt : nat) (ptr : option nat) : list Z * list nat :=
  match n, ptr with
  | S n', Some p =>
      let '(buf, nxt, ptr) := strtok1 buf nxt None (chars " ") in
      let '(buf, l) := pm_args n' buf nxt ptr in
      (buf, p :: l)
  | _, _ => (buf, [])
  end.

Definition pm_parseline (buf : list Z) (s : nat) : list Z * list nat :=
  let '(buf, nxt, ptr) := strtok1 buf 0 (Some s) (chars " ") in
  pm_args (PM_MAXARGS + 1) buf nxt ptr.

(** ** Commands *)

Inductive pmcmd :=
| PLIST
| PKILL (pid : Z)
| PEXEC (path : nat) (stacksize : Z)
| PMLIM (pid : Z) (limit : Z)
| PEXIT.

(** for(int i = 0; i < strlen(p); i++) if(p[i] < 48 || p[i] > 57) return 0; *)
Definition all_digits (p : list Z) : option bool :=
  (fun s => forallb (fun c => (48 <=? c) && (c <=? 57)) s) <$> cstr p.

Section pmanager.

(** arg[i], 0 if there is none *)
Definition arg (l : list nat) (i : nat) : option nat := l !! i.

(** *arg[i] as a string of buf *)
Definition at_arg {G} (buf : list Z) (p : option nat) : U G (list Z) :=
  match p with Some q => uret (drop q buf) | None => fault (UB "null pointer") end.

Definition is_word {G} (buf : list Z) (p : option nat) (w : string) : U G bool :=
  s <- at_arg buf p ;;
  c <- deref (strcmp s (chars w ++ [0])) ;;
  uret (c =? 0).

(** The if chain of parsecmd on arg[]: the buffer and the command, [None] for 0 *)
Definition pm_command {G} (buf : list Z) (l : list nat) : U G (list Z * option pmcmd) :=
  w <- is_word buf (arg l 0) "list" ;;
  if w then uret (buf, match arg l 1 with Some _ => None | None => Some PLIST end)
  else
    w <- is_word buf (arg l 0) "kill" ;;
    if w then
      match arg l 2 with
      | Some _ => uret (buf, None)
      | None =>
          a <- at_arg buf (arg l 1) ;;
          ok <- deref (all_digits a) ;;
          if negb ok then uret (buf, None)
          else pid <- deref (atoi a) ;; uret (buf, Some (PKILL pid))
      end
    else
      w <- is_word buf (arg l 0) "execute" ;;
      if w then
        match arg l 3 with
        | Some _ => uret (buf, None)
        | None =>
            a <- at_arg buf (arg l 2) ;;
            ok <- deref (all_digits a) ;;
            if negb ok then uret (buf, None)
            else stacksize <- deref (atoi a) ;; uret (buf, Some (PEXEC (default 0%nat (arg l 1)) stacksize))
        end
      else
        w <- is_word buf (arg l 0) "memlim" ;;
        if w then
          match arg l 3 with
          | Some _ => uret (buf, None)
          | None =>
              a <- at_arg buf (arg l 1) ;;
              ok <- deref (all_digits a) ;;
              if negb ok then uret (buf, None)
              else
                b <- at_arg buf (arg l 2) ;;
                ok <- deref (all_digits b) ;;
                if negb ok then uret (buf, None)
                else
                  pid <- deref (atoi a) ;;
                  limit <- deref (atoi b) ;;
                  uret (buf, Some (PMLIM pid (u32 limit)))
          end
        else
          w <- is_word buf (arg l 0) "exit" ;;
          if w then uret (buf, match arg l 1 with Some _ => None | None => Some PEXIT end)
          else uret (buf, None).

Definition pm_parsecmd {G} (s : list Z) : U G (list Z * option pmcmd) :=
  n <- deref (strlen s) ;;
  s <- store s (idx (n - 1)) 32 ;;
  let '(buf, l) := pm_parseline s 0 in
  pm_command buf l.

(** ** The children *)

(** child.pid[i] and child.head in the 101 words of child *)
Definition child_pid (i : Z) : U (list Z) Z :=
  c <- ugets id ;;
  if (0 <=? i) && (i <? 101) then uret (aget c (idx i)) else fault (UB "child.pid").

Definition set_child_pid (i v : Z) : U (list Z) unit :=
  if (0 <=? i) && (i <? 101) then umod (fun c => <[idx i := v]> c) else fault (UB "child.pid").

Definition child_head : U (list Z) Z := ugets (fun c => aget c 100).

Definition set_child_head (v : Z) : U (list Z) unit := umod (fun c => <[100%nat := v]> c).

Definition pm_password : list Z := chars "2016024875".

(** for(int i = 0; i <= child.head; i++){ kill(child.pid[i]); wait(); } *)
Fixpoint kill_children (fuel : nat) (i : Z) : U (list Z) unit :=
  h <- child_head ;;
  if negb (i <=? h) then uret tt
  else
    match fuel with
    | O => fault (Hang "exit")
    | S fuel' =>
        p <- child_pid i ;;
        sys (Kill p) ;;;
        sys Wait ;;;
        kill_children fuel' (i + 1)
    end.

Definition pm_runcmd (buf : list Z) (c : pmcmd) : U (list Z) Z :=
  match c with
  | PLIST => sys Printproclist ;;; uret 0
  | PKILL pid =>
      r <- sys (Kill pid) ;;
      (if (r =? 0) && (0 <? pid) then printf 1 (line "Successfully killed PID %d.") [AInt pid]
       else printf 1 (line "Failed to kill PID %d.") [AInt pid]) ;;;
      uret 0
  | PEXEC path stacksize =>
      ret <- fork1 ;;
      uwhen (ret =? 0)
        (a <- sys (Getadmin pm_password) ;;
         (if negb (a =? 0) then sh_panic "getadmin in execute cmd" else uret tt) ;;;
         p <- str buf path ;;
         r <- sys (Exec2 p [p] stacksize) ;;
         uwhen (r =? -1) (printf 2 (line "Failed to execute '%s'.") [AStr (Some p)])) ;;;
      uret ret
  | PMLIM pid limit =>
      r <- sys (Setmemorylimit pid (i32 limit)) ;;
      (if r =? 0 then printf 1 (line "Successfully set the memory limit of PID %d.") [AInt pid]
       else printf 1 (line "Failed to set the memory limit of PID %d.") [AInt pid]) ;;;
      uret 0
  | PEXIT =>
      kill_children 101 0 ;;;
      uexit
  end.

(** for(int i = 0; i <= child.head; i++) if(child.pid[i] == ret) flag = 1; *)
Fixpoint known_child (fuel : nat) (i : Z) (ret : Z) (flag : bool) : U (list Z) bool :=
  h <- child_head ;;
  if negb (i <=? h) then uret flag
  else
    match fuel with
    | O => fault (Hang "child")
    | S fuel' =>
        p <- child_pid i ;;
        known_child fuel' (i + 1) ret (if p =? ret then true else flag)
    end.

(** if(ret > 0){ ... child.head++; child.pid[child.head] = ret; } *)
Definition add_child (ret : Z) : U (list Z) unit :=
  if 0 <? ret then
    flag <- known_child 101 0 ret false ;;
    if negb flag then
      h <- child_head ;;
      set_child_head (i32 (h + 1)) ;;;
      h <- child_head ;;
      set_child_pid h ret
    else uret tt
  else uret tt.

(** getcmd, with the prompt of pmanager *)
Definition pm_getcmd (nbuf : nat) : U (list Z) (option (list Z)) :=
  printf 2 (chars "> ") [] ;;;
  buf <- gets (replicate nbuf 0) (Z.of_nat nbuf) ;;
  uret (if aget buf 0 =? 0 then None else Some buf).

Fixpoint pm_loop (fuel : nat) : U (list Z) unit :=
  r <- pm_getcmd 100 ;;
  match r with
  | None => uret tt
  | Some buf =>
      c <- pm_parsecmd buf ;;
      (match c.2 with
       | Some cmd => ret <- pm_runcmd c.1 cmd ;; add_child ret
       | None => printf 1 (line "Wrong input! Try again!") []
       end) ;;;
      match fuel with
      | O => fault (Hang "pmanager")
      | S fuel' => pm_loop fuel'
      end
  end.

Definition pm_main (fuel : nat) : U (list Z) unit :=
  fd <- open_console 3 ;;
  r <- sys (Getadmin pm_password) ;;
  (if negb (r =? 0) then sys (Close fd) ;;; sh_panic "getadmin" else uret tt) ;;;
  umod (fun _ => replicate 100 0 ++ [-1]) ;;;
  pm_loop fuel ;;;
  uexit.
End pmanager.

(** ** What a line says *)

(** Words with the spaces in front of them, each followed by one space. *)
Definition ptext (ws : list (nat * list Z)) : list Z := concat ((fun x => replicate x.1 32 ++ x.2 ++ [32]) <$> ws).

(** The line as it is read, with its newline. *)
Definition pline (ws : list (nat * list Z)) : list Z := removelast (ptext ws) ++ [10].

Definition pword (w : list Z) : Prop := w <> [] /\ Forall (fun c => c <> 0 /\ c <> 32) w.

Definition digits (w : list Z) : bool := forallb (fun c => (48 <=? c) && (c <=? 57)) w.

(** The digits as an int, with the wrap-around of int arithmetic. *)
Definition number (w : list Z) : Z := i32 (dec_value 0 w).

(** A command with the path as a string, an input that is refused, or a null
    pointer that is followed. *)
Inductive meaning :=
| MList
| MKill (pid : Z)
| MExec (path : list Z) (stacksize : Z)
| MMlim (pid limit : Z)
| MExit
| MWrong
| MNull.

Definition mean_kill (args : list (list Z)) : meaning :=
  match args with
  | [] => MNull
  | [a] => if digits a then MKill (number a) else MWrong
  | _ => MWrong
  end.

Definition mean_execute (args : list (list Z)) : meaning :=
  match args with
  | [] | [_] => MNull
  | [p; a] => if digits a then MExec p (number a) else MWrong
  | _ => MWrong
  end.

Definition mean_memlim (args : list (list Z)) : meaning :=
  match args with
  | [] => MNull
  | [a] => if digits a then MNull else MWrong
  | [a; b] => if digits a && digits b then MMlim (number a) (u32 (number b)) else MWrong
  | _ => MWrong
  end.

Definition line_meaning (ws : list (list Z)) : meaning :=
  match ws with
  | [] => MWrong
  | w :: args =>
      if decide (w = chars "list") then match args with [] => MList | _ => MWrong end
      else if decide (w = chars "kill") then mean_kill args
      else if decide (w = chars "execute") then mean_execute args
      else if decide (w = chars "memlim") then mean_memlim args
      else if decide (w = chars "exit") then match args with [] => MExit | _ => MWrong end
      else MWrong
  end.

(** The command in memory has the meaning. *)
Definition has_meaning (buf : list Z) (c : option pmcmd) (m : meaning) : Prop :=
  match m, c with
  | MList, Some PLIST | MExit, Some PEXIT | MWrong, None => True
  | MKill p, Some (PKILL q) => p = q
  | MExec p n, Some (PEXEC q k) => cstr (drop q buf) = Some p /\ n = k
  | MMlim p n, Some (PMLIM q k) => p = q /\ n = k
  | _, _ => False
  end.

(** ** strtok1 *)

Lemma aget_mid (pre : list Z) c t : aget (pre ++ c :: t) (length pre) = c.
Proof. apply aget_lookup. by rewrite list_lookup_middle. Qed.

Lemma insert_mid (pre : list Z) c d t : <[length pre := d]> (pre ++ c :: t) = pre ++ d :: t.
Proof. rewrite insert_app_r_alt by lia. by rewrite Nat.sub_diag. Qed.

(** Spaces in front of the word. *)
Lemma strtok_spaces k fuel pre t nxt :
  strtok_loop (k + fuel) (chars " ") (pre ++ replicate k 32 ++ t) nxt (length pre) (length pre) =
  strtok_loop fuel (chars " ") (pre ++ replicate k 0 ++ t) (if (k =? 0)%nat then nxt else length pre + k) (length pre + k) (length pre + k).
Proof.
  revert pre nxt. induction k as [|k IH]; intros pre nxt; [by rewrite Nat.add_0_r|].
  cbn [replicate app Nat.add strtok_loop]. rewrite aget_mid. change (32 =? 0) with false. change (in_str (chars " ") 32) with true.
  rewrite insert_mid, Nat.eqb_refl. cbv match. specialize (IH (pre ++ [0]) (S (length pre))). rewrite length_app in IH. cbn [length] in IH.
  rewrite <- !app_assoc in IH. cbn [app] in IH. rewrite Nat.add_1_r in IH. rewrite IH.
  replace (length pre + S k)%nat with (S (length pre) + k)%nat by lia. cbn [Nat.eqb]. f_equal. destruct k; cbn; lia.
Qed.

(** The word, up to its space; [ret] is before it. *)
Lemma strtok_word w fuel pre t nxt ret :
  Forall (fun c => c <> 0 /\ c <> 32) w -> (ret < length pre + length w)%nat -> (ret <= length pre)%nat ->
  strtok_loop (length w + S fuel) (chars " ") (pre ++ w ++ 32 :: t) nxt ret (length pre) =
    (pre ++ w ++ 0 :: t, S (length pre + length w), ret).
Proof.
  intros Hw. revert pre. induction Hw as [|c w [H0 H32] Hw IH]; intros pre Hr Hle; cbn [length app Nat.add strtok_loop] in *; rewrite aget_mid.
  - change (32 =? 0) with false. change (in_str (chars " ") 32) with true. cbv match.
    rewrite insert_mid, (proj2 (Nat.eqb_neq _ _)) by lia. by rewrite Nat.add_0_r.
  - rewrite (proj2 (Z.eqb_neq _ _) H0). assert (in_str (chars " ") c = false) as ->.
    { unfold in_str, chars. cbn -[Z.eqb]. repeat case_match; bsplit; try done; simplify_eq; lia. }
    specialize (IH (pre ++ [c])). rewrite length_app in IH. cbn [length] in IH. rewrite <- !app_assoc in IH. cbn [app] in IH.
    rewrite Nat.add_1_r in IH. rewrite IH by lia. by replace (S (length pre + S (length w)))%nat with (S (S (length pre) + length w))%nat by lia.
Qed.

(** A call of strtok1 on a word with spaces in front: the spaces before it and
    the one after it are overwritten, and the word is the result. *)
Lemma strtok1_word pre k w t nxt str :
  pword w -> default nxt str = length pre ->
  strtok1 (pre ++ replicate k 32 ++ w ++ 32 :: t) nxt str (chars " ") =
    (pre ++ replicate k 0 ++ w ++ 0 :: t, S (length pre + k + length w), Some (length pre + k)%nat).
Proof.
  intros [Hne Hw] Hs. unfold strtok1. rewrite Hs. rewrite (proj2 (Z.eqb_neq _ _)).
  2:{ destruct k as [|k]; cbn [replicate app]; [|by rewrite aget_mid].
      destruct w as [|c w]; [done|]. cbn [app]. rewrite aget_mid. by apply Forall_cons in Hw as [[? _] _]. }
  replace (length (pre ++ replicate k 32 ++ w ++ 32 :: t)) with (k + (length w + S (length pre + length t)))%nat
    by (rewrite !length_app, length_replicate; cbn [length]; lia).
  rewrite strtok_spaces. assert (0 < length w)%nat by (destruct w; [done|cbn; lia]).
  pose proof (strtok_word w (length pre + length t) (pre ++ replicate k 0) t
    (if (k =? 0)%nat then length pre else length pre + k) (length pre + k) Hw) as Hl.
  rewrite length_app, length_replicate, <- !app_assoc in Hl. by rewrite Hl by lia.
Qed.

Lemma strtok1_end pre junk nxt str :
  default nxt str = length pre -> strtok1 (pre ++ 0 :: junk) nxt str (chars " ") = (pre ++ 0 :: junk, length pre, None).
Proof. intros Hs. unfold strtok1. by rewrite Hs, aget_mid. Qed.

(** ** The arguments *)

(** The word at the pointer. *)
Definition points (buf : list Z) (p : nat) (w : list Z) : Prop := exists rest, drop p buf = w ++ 0 :: rest.

Lemma ptext_cons k w ws t : ptext ((k, w) :: ws) ++ t = replicate k 32 ++ w ++ 32 :: ptext ws ++ t.
Proof. unfold ptext. cbn. by rewrite <- !app_assoc. Qed.

Lemma pm_args_ok n ws pre junk nxt str :
  Forall pword (ws.*2) -> default nxt str = length pre ->
  exists t l,
    (let '(b, x, p) := strtok1 (pre ++ ptext ws ++ 0 :: junk) nxt str (chars " ") in pm_args n b x p) = (pre ++ t, l) /\
    Forall2 (points (pre ++ t)) l (take n (ws.*2)).
Proof.
  revert ws pre nxt str. induction n as [|n IH]; intros [|[k w] ws] pre nxt str Hws Hs.
  - cbn [ptext]. change (ptext [] ++ 0 :: junk) with (0 :: junk). rewrite strtok1_end by done. by exists (0 :: junk), [].
  - apply Forall_cons in Hws as [Hw _]. rewrite ptext_cons, strtok1_word by done. by eexists _, [].
  - change (ptext [] ++ 0 :: junk) with (0 :: junk). rewrite strtok1_end by done. by exists (0 :: junk), [].
  - apply Forall_cons in Hws as [Hw Hws]. rewrite ptext_cons, strtok1_word by done. cbn [pm_args].
    destruct (IH ws (pre ++ replicate k 0 ++ w ++ [0]) (S (length pre + k + length w)) None Hws) as (t & l & Hl & Hp).
    { rewrite !length_app, length_replicate. cbn [length default]. lia. }
    rewrite <- !app_assoc in Hl. cbn [app] in Hl.
    revert Hl. destruct (strtok1 _ _ None _) as [[b x] p]. intros ->.
    exists (replicate k 0 ++ w ++ 0 :: t), ((length pre + k)%nat :: l). split; [by rewrite <- ?app_assoc|].
    rewrite <- ?app_assoc in Hp. cbn [app] in Hp. constructor; [|done].
    exists t. rewrite app_assoc. apply drop_app_length'. by rewrite length_app, length_replicate.
Qed.

(** ** Words and numbers *)

Lemma ubind_eq {G A B} (m : U G A) (f : A -> U G B) s a s' : m s = Ret (a, s') -> ubind m f s = f a s'.
Proof. unfold ubind. by intros ->. Qed.

Lemma points_cstr buf p w : pword w -> points buf p w -> cstr (drop p buf) = Some w.
Proof. intros [_ Hw] [rest ->]. apply cstr_spec. split; [|by exists rest]. eapply Forall_impl; [exact Hw|]. by intros c [? _]. Qed.

Lemma is_word_ok {G} buf p w x (s : G) :
  pword w -> points buf p w -> cstr (chars x ++ [0]) = Some (chars x) ->
  is_word buf (Some p) x s = Ret (bool_decide (w = chars x), s).
Proof.
  intros Hw Hp Hx. unfold is_word, at_arg. rewrite (ubind_eq _ _ s (drop p buf) s) by done.
  destruct (strcmp_spec _ _ _ _ (points_cstr _ _ _ Hw Hp) Hx) as (r & -> & Hr).
  rewrite (ubind_eq _ _ s r s) by done. unfold uret. do 2 f_equal.
  destruct (Z.eqb_spec r 0) as [E|E]; symmetry; [apply bool_decide_eq_true|apply bool_decide_eq_false]; tauto.
Qed.

Lemma i32_wraps n : exists k, i32 n = n + k * 2 ^ 32.
Proof. exists (- ((n + 2 ^ 31) / 2 ^ 32)). unfold i32. rewrite Z.mod_eq by done. lia. Qed.

Lemma i32_step n c : i32 (i32 n * 10 + c - 48) = i32 (n * 10 + c - 48).
Proof.
  destruct (i32_wraps n) as [k ->]. unfold i32. f_equal.
  replace ((n + k * 2 ^ 32) * 10 + c - 48 + 2 ^ 31) with (n * 10 + c - 48 + 2 ^ 31 + (k * 10) * 2 ^ 32) by lia.
  by rewrite Z.mod_add.
Qed.

Lemma atoi_from_number acc w rest :
  digits w = true -> atoi_from (i32 acc) (w ++ 0 :: rest) = Some (i32 (dec_value acc w)).
Proof.
  revert acc. induction w as [|c w IH]; intros acc Hw; [done|]. apply andb_prop in Hw as [Hc Hw].
  cbn [app atoi_from]. rewrite Hc, i32_step. by rewrite IH.
Qed.

Lemma points_digits buf p w : pword w -> points buf p w -> all_digits (drop p buf) = Some (digits w).
Proof. intros Hw Hp. unfold all_digits. by rewrite (points_cstr _ _ w). Qed.

Lemma points_number buf p w : points buf p w -> digits w = true -> atoi (drop p buf) = Some (number w).
Proof. intros [rest ->] Hd. apply (atoi_from_number 0 w rest Hd). Qed.

(** ** The command *)

(** The arguments as parseline leaves them. *)
Lemma pm_parseline_ok ws junk :
  Forall pword (ws.*2) ->
  exists buf l, pm_parseline (ptext ws ++ 0 :: junk) 0 = (buf, l) /\ Forall2 (points buf) l (take 4 (ws.*2)).
Proof.
  intros Hws. destruct (pm_args_ok 4 ws [] junk 0 (Some 0%nat) Hws eq_refl) as (t & l & Hl & Hp).
  by exists t, l.
Qed.

Lemma ptext_text ws : Forall pword (ws.*2) -> Forall (fun c => c <> 0) (ptext ws).
Proof.
  intros Hws. apply Forall_concat, Forall_fmap, Forall_forall. intros [k w] Hkw.
  assert (pword w) as [_ Hw] by (rewrite Forall_fmap, Forall_forall in Hws; exact (Hws _ Hkw)).
  apply Forall_app. split; [by apply Forall_replicate|]. apply Forall_app. split; [|by repeat constructor].
  eapply Forall_impl; [exact Hw|]. by intros c [? _].
Qed.

(** The newline is replaced by a space. *)
Lemma pline_space ws junk : ws <> [] -> Forall pword (ws.*2) ->
  strlen (pline ws ++ 0 :: junk) = Some (Z.of_nat (length (pline ws))) /\
  (0 < length (pline ws))%nat /\
  <[(length (pline ws) - 1)%nat := 32]> (pline ws ++ 0 :: junk) = ptext ws ++ 0 :: junk.
Proof.
  intros Hne Hws. pose proof (ptext_text ws Hws) as Hp. destruct (exists_last Hne) as (ws' & [k w] & ->).
  assert (ptext (ws' ++ [(k, w)]) = (ptext ws' ++ replicate k 32 ++ w) ++ [32]) as Ht.
  { unfold ptext. rewrite fmap_app, concat_app. cbn. by rewrite app_nil_r, <- !app_assoc. }
  unfold pline. rewrite Ht in Hp |- *. rewrite removelast_last. set (p := ptext ws' ++ replicate k 32 ++ w) in *.
  apply Forall_app in Hp as [Hp _]. split; [|split].
  - rewrite strlen_cstr. rewrite (proj2 (cstr_spec _ (p ++ [10]))); [done|]. split; [|by exists junk].
    apply Forall_app. split; [done|by repeat constructor].
  - rewrite length_app. cbn. lia.
  - rewrite length_app, Nat.add_sub. rewrite <- !app_assoc. cbn [app]. apply insert_mid.
Qed.

(** The five words as strings. *)
Lemma pm_words : Forall (fun x => cstr (chars x ++ [0]) = Some (chars x)) ["list"; "kill"; "execute"; "memlim"; "exit"].
Proof. repeat constructor. Qed.

(** An argument that is followed. *)
Lemma digits_step {G B} buf p w (f : bool -> U G B) (s : G) :
  points buf p w -> pword w -> ubind (deref (all_digits (drop p buf))) f s = f (digits w) s.
Proof. intros Hp Hw. by rewrite (points_digits _ _ w). Qed.

Lemma number_step {G B} buf p w (f : Z -> U G B) (s : G) :
  points buf p w -> digits w = true -> ubind (deref (atoi (drop p buf))) f s = f (number w) s.
Proof. intros Hp Hd. by rewrite (points_number _ _ w). Qed.

(** How the parser ends on an input with the meaning [m]. *)
Definition parsed {G} (s : G) (o : prog (list Z * option pmcmd * G)) (m : meaning) : Prop :=
  match m with
  | MNull => exists w, o = Fault w
  | _ => exists buf c, o = Ret ((buf, c), s) /\ has_meaning buf c m
  end.

(** The next comparison with arg[0], decided. *)
Ltac pm_word Hw H0 :=
  let Hx := fresh in
  match goal with
  | |- context [is_word ?buf (Some ?p) ?x] =>
      assert (cstr (chars x ++ [0]) = Some (chars x)) as Hx by reflexivity;
      rewrite (ubind_eq _ _ _ _ _ (is_word_ok buf p _ x _ Hw H0 Hx)); clear Hx
  end.

(** The arguments of a command: each check on a word that is there. *)
Ltac pm_branch :=
  cbn [arg lookup list_lookup at_arg default];
  repeat first
    [ erewrite ubind_eq by reflexivity
    | erewrite digits_step by eassumption
    | erewrite number_step by eassumption
    | match goal with H : digits ?w = _ |- context [digits ?w] => rewrite H; cbn [negb andb] end
    | match goal with |- context [digits ?w] => destruct (digits w) eqn:? end; cbn [negb andb] ];
  try (eexists _, _; split; [reflexivity|]; cbn [has_meaning]); try done; try by eexists.

(** The pointers of the next word, and that word. *)
Ltac pm_next Hl Hws :=
  match type of Hl with
  | Forall2 _ _ (take _ ?ws) =>
      let w := fresh "w" in let H := fresh "Hp" in let Hw := fresh "Hw" in let l := fresh "l" in
      destruct ws as [|w ?]; cbn [take] in Hl;
      [apply Forall2_nil_inv_r in Hl as ->
      |apply Forall2_cons_inv_r in Hl as (? & l & H & Hl & ->); apply Forall_cons in Hws as [Hw Hws]]
  end.

Lemma pm_command_ok {G} buf l ws (s : G) :
  Forall pword ws -> ws <> [] -> Forall2 (points buf) l (take 4 ws) ->
  parsed s (pm_command buf l s) (line_meaning ws).
Proof.
  intros Hws Hne Hl. destruct ws as [|w ws]; [done|]. apply Forall_cons in Hws as [Hw Hws].
  cbn [take] in Hl. apply Forall2_cons_inv_r in Hl as (p & l' & Hp & Hl & ->).
  unfold pm_command, line_meaning. cbn [arg lookup list_lookup].
  pm_word Hw Hp. case_decide as E; rewrite ?bool_decide_true, ?bool_decide_false by done.
  { pm_next Hl Hws; pm_branch. }
  pm_word Hw Hp. case_decide; rewrite ?bool_decide_true, ?bool_decide_false by done.
  { unfold mean_kill. do 2 try pm_next Hl Hws; pm_branch. }
  pm_word Hw Hp. case_decide; rewrite ?bool_decide_true, ?bool_decide_false by done.
  { unfold mean_execute. do 3 try pm_next Hl Hws; pm_branch. split; [|done]. by apply points_cstr. }
  pm_word Hw Hp. case_decide; rewrite ?bool_decide_true, ?bool_decide_false by done.
  { unfold mean_memlim. do 3 try pm_next Hl Hws; pm_branch. }
  pm_word Hw Hp. case_decide; rewrite ?bool_decide_true, ?bool_decide_false by done; [|pm_branch].
  pm_next Hl Hws; pm_branch.
Qed.

(** C36: the manager's parser means what the line says.  For a line of words
    with any number of spaces between them, parsecmd reads back exactly the
    command that the words say: the first word names it, the others are its
    arguments, numbers are decimal with the wrap-around of int, and the path of
    execute is the word itself in the buffer.  A line with a wrong word, a
    wrong number of words or an argument that is not a number is refused, and a
    line with a missing argument follows a null pointer (meaning [MNull]), the
    only lines on which the parser goes wrong. *)
Theorem pm_parse_correct ws junk :
  ws <> [] -> Forall pword (ws.*2) ->
  parsed tt (pm_parsecmd (pline ws ++ 0 :: junk) tt) (line_meaning (ws.*2)).
Proof.
  intros Hne Hws. destruct (pline_space ws junk Hne Hws) as (Hlen & Hpos & Hins). unfold pm_parsecmd.
  rewrite Hlen, (ubind_eq _ _ tt (Z.of_nat (length (pline ws))) tt) by done.
  replace (idx (Z.of_nat (length (pline ws)) - 1)) with (length (pline ws) - 1)%nat by (unfold idx; lia).
  rewrite (ubind_eq _ _ tt (ptext ws ++ 0 :: junk) tt).
  2:{ unfold store. rewrite (proj2 (Nat.ltb_lt _ _)) by (rewrite length_app; cbn; lia). by rewrite Hins. }
  destruct (pm_parseline_ok ws junk Hws) as (buf & l & -> & Hl).
  apply pm_command_ok; [done| |done]. by destruct ws.
Qed.

Lemma pm_parse_correct_witness :
  exists buf, pm_parsecmd (chars "execute   ls 20" ++ [10; 0; 7; 7]) tt = Ret ((buf, Some (PEXEC 10 20)), tt) /\
    cstr (drop 10 buf) = Some (chars "ls").
Proof.
  destruct (pm_parse_correct [(0%nat, chars "execute"); (3%nat, chars "ls"); (1%nat, chars "20")] [7; 7])
    as (buf & c & H & Hm).
  - discriminate.
  - vm_compute. repeat first [apply Forall_nil | apply Forall_cons | split | discriminate].
  - vm_compute in H. injection H as <- <-. eexists. split; [vm_compute; reflexivity|apply Hm].
Defined.
