(* ===== verification/Tests.v ===== *)
(** * Test programs of the processes and schedulers (forktest.c, PRJ01_ml_test.c,
      PRJ01_mlfq_test.c, PRAC_getppid_test.c, PRAC_yield_test.c, PRJ02_admin_test.c)

    The programs as trees of system calls, on a kernel of processes: the pid of
    the process that runs, how many children it has not waited for, and what it
    has written. *)

From S2P Require Import Prelude Cstring Kernel Spinlock Console ProcCore Bio Inode User Ulib Programs.

(** ** forktest.c *)

Section forktest.
Context {G : Type}.

(** printf of forktest.c: write(fd, s, strlen(s)) *)
Definition ft_printf (fd : Z) (s : list Z) : U G unit := sys (Write fd s) ;;; uret tt.

Definition FT_N : nat := Z.to_nat 1000.

(** for(n=0; n<N; n++), with [k] = N - n turns left; the result is n *)
Fixpoint fork_many (k n : nat) : U G nat :=
  match k with
  | O => uret n
  | S k' =>
      pid <- sys Fork ;;
      if pid <? 0 then uret n
      else if pid =? 0 then uexit
      else fork_many k' (S n)
  end.

(** for(; n > 0; n--) *)
Fixpoint wait_many (n : nat) : U G unit :=
  match n with
  | O => uret tt
  | S n' =>
      r <- sys Wait ;;
      if r <? 0 then
        ft_printf 1 (line "wait stopped early") ;;;
        uexit
      else wait_many n'
  end.

Definition forktest : U G unit :=
  ft_printf 1 (line "fork test") ;;;
  n <- fork_many FT_N 0 ;;
  (if (n =? FT_N)%nat then
     ft_printf 1 (line "fork claimed to work N times!") ;;;
     uexit
   else uret tt) ;;;
  wait_many n ;;;
  r <- sys Wait ;;
  (if negb (r =? -1) then
     ft_printf 1 (line "wait got too many") ;;;
     uexit
   else uret tt) ;;;
  ft_printf 1 (line "fork test OK").

Definition forktest_main : U G unit :=
  forktest ;;;
  uexit.
End forktest.

(** ** The scheduler tests *)

(** The globals parent and max_level, and count[] of main. *)
Record tglob := mk_tglob { t_parent : Z; t_max : Z; t_count : list Z }.

(** while (wait() != -1); *)
Fixpoint wait_all {G} (fuel : nat) : U G unit :=
  r <- sys Wait ;;
  if negb (r =? -1) then
    match fuel with
    | O => fault (Hang "wait")
    | S fuel' => wait_all fuel'
    end
  else uret tt.

Definition exit_children (fuel : nat) : U tglob unit :=
  me <- sys Getpid ;;
  parent <- ugets t_parent ;;
  if negb (me =? parent) then uexit else wait_all fuel.

(** *** PRJ01_ml_test.c *)

Definition ML_LOOP : nat := 20.
Definition ML_YIELD : nat := Z.to_nat 50000.
Definition ML_SLEEP : nat := 10.
Definition ML_THREAD : nat := 8.

(** for (i = 0; i < NUM_THREAD; i++) with [k] turns left *)
Fixpoint ml_fork_children (k : nat) : U tglob Z :=
  match k with
  | O => ugets t_parent
  | S k' =>
      p <- sys Fork ;;
      if p =? 0 then
        sys (Sleep 10) ;;;
        sys Getpid
      else ml_fork_children k'
  end.

(** One of the three parts of main: what a child does, and the two messages *)
Definition ml_part (fuel : nat) (title : string) (child : Z -> U tglob unit) (finished : string) : U tglob unit :=
  printf 1 (line title) [] ;;;
  pid <- ml_fork_children ML_THREAD ;;
  parent <- ugets t_parent ;;
  uwhen (negb (pid =? parent)) (child pid) ;;;
  exit_children fuel ;;;
  printf 1 (line finished) [].

Definition ml_main (fuel : nat) : U tglob unit :=
  me <- sys Getpid ;;
  umod (fun g => mk_tglob me (t_max g) (t_count g)) ;;;
  printf 1 (line "Multilevel test start") [] ;;;
  ml_part fuel "[Test 1] without yield / sleep"
    (fun pid => ufor (seq 0 ML_LOOP) (fun _ => printf 1 (line "Process %d") [AInt pid]))
    "[Test 1] finished" ;;;
  ml_part fuel "[Test 2] with yield"
    (fun pid =>
       ufor (seq 0 ML_YIELD) (fun _ => sys Yield ;;; uret tt) ;;;
       printf 1 (line "Process %d finished") [AInt pid])
    "[Test 2] finished" ;;;
  ml_part fuel "[Test 3] with sleep"
    (fun pid =>
       ufor (seq 0 ML_SLEEP) (fun _ =>
         printf 1 (line "Process %d") [AInt pid] ;;;
         sys (Sleep 10) ;;;
         uret tt))
    "[Test 3] finished" ;;;
  uexit.

(** *** PRJ01_mlfq_test.c *)

Definition NUM_LOOP : nat := Z.to_nat 100000.
Definition NUM_YIELD : nat := Z.to_nat 20000.
Definition NUM_SLEEP : nat := 500.
Definition NUM_THREAD : nat := 4.
Definition MAX_LEVEL : nat := 5.

(** fork_children2: child [i] of NUM_THREAD gets priority [i] *)
Fixpoint fork_children2 (js : list Z) : U tglob Z :=
  match js with
  | [] => ugets t_parent
  | i :: js' =>
      p <- sys Fork ;;
      if p =? 0 then
        sys (Sleep 10) ;;;
        sys Getpid
      else
        r <- sys (Setpriority p i) ;;
        (if r <? 0 then
           printf 1 (line "setpriority returned %d") [AInt r] ;;;
           uexit
         else uret tt) ;;;
        fork_children2 js'
  end.

Fixpoint fork_children3 (js : list Z) : U tglob Z :=
  match js with
  | [] => ugets t_parent
  | i :: js' =>
      p <- sys Fork ;;
      if p =? 0 then
        sys (Sleep 10) ;;;
        umod (fun g => mk_tglob (t_parent g) i (t_count g)) ;;;
        sys Getpid
      else fork_children3 js'
  end.

(** int x = getlev(); ...; count[x]++ *)
Definition count_level : U tglob Z :=
  x <- sys Getlev ;;
  (if (x <? 0) || (4 <? x) then
     printf 1 (line "Wrong level: %d") [AInt x] ;;;
     uexit
   else uret tt) ;;;
  c <- ugets t_count ;;
  v <- load c x ;;
  umod (fun g => mk_tglob (t_parent g) (t_max g) (<[idx x := i32 (v + 1)]> (t_count g))) ;;;
  uret x.

(** The loop of a child, with what it does after each count, and its report *)
Definition count_levels (n : nat) (after : Z -> U tglob unit) (pid : Z) : U tglob unit :=
  ufor (seq 0 n) (fun _ => x <- count_level ;; after x) ;;;
  printf 1 (line "Process %d") [AInt pid] ;;;
  ufor (seqZ 0 (Z.of_nat MAX_LEVEL)) (fun i =>
    c <- ugets t_count ;;
    v <- load c i ;;
    printf 1 (line "L%d: %d") [AInt i; AInt v]).

Definition mlfq_part (fuel : nat) (title : string) (forks : U tglob Z) (child : Z -> U tglob unit) (finished : string) : U tglob unit :=
  printf 1 (line title) [] ;;;
  pid <- forks ;;
  parent <- ugets t_parent ;;
  uwhen (negb (pid =? parent)) (child pid) ;;;
  exit_children fuel ;;;
  printf 1 (line finished) [].

(** r = setpriority(pid, prio); if (r != expected) printf(1, msg, r); *)
Definition expect_priority (pid prio expected : Z) (msg : string) : U tglob unit :=
  r <- sys (Setpriority pid prio) ;;
  uwhen (negb (r =? expected)) (printf 1 (line msg) [AInt r]).

(** Test 6, the child *)
Definition mlfq_test6_child : U tglob unit :=
  sys (Sleep 10) ;;;
  grandson <- sys Fork ;;
  (if grandson =? 0 then
     me <- sys Getpid ;;
     expect_priority (i32 (me - 2)) 0 (-1) "wrong: setpriority of parent: expected -1, got %d" ;;;
     me <- sys Getpid ;;
     expect_priority (i32 (me - 3)) 0 (-1) "wrong: setpriority of ancestor: expected -1, got %d"
   else
     expect_priority grandson 0 0 "wrong: setpriority of child: expected 0, got %d" ;;;
     me <- sys Getpid ;;
     expect_priority (i32 (me + 1)) 0 (-1) "wrong: setpriority of other: expected -1, got %d") ;;;
  sys (Sleep 20) ;;;
  sys Wait ;;;
  uret tt.

(** Test 6, the parent of [child] *)
Definition mlfq_test6_parent (child : Z) : U tglob unit :=
  child2 <- sys Fork ;;
  sys (Sleep 20) ;;;
  if child2 =? 0 then sys (Sleep 10) ;;; uret tt
  else
    expect_priority child (-1) (-2) "wrong: setpriority out of range: expected -2, got %d" ;;;
    expect_priority child 11 (-2) "wrong: setpriority out of range: expected -2, got %d" ;;;
    expect_priority child 10 0 "wrong: setpriority of child: expected 0, got %d" ;;;
    expect_priority (i32 (child + 1)) 10 0 "wrong: setpriority of child: expected 0, got %d" ;;;
    expect_priority (i32 (child + 2)) 10 (-1) "wrong: setpriority of grandson: expected -1, got %d" ;;;
    parent <- ugets t_parent ;;
    expect_priority parent 5 (-1) "wrong: setpriority of self: expected -1, got %d".

Definition mlfq_main (fuel : nat) : U tglob unit :=
  umod (fun g => mk_tglob (t_parent g) (t_max g) (replicate MAX_LEVEL 0)) ;;;
  me <- sys Getpid ;;
  umod (fun g => mk_tglob me (t_max g) (t_count g)) ;;;
  printf 1 (line "MLFQ test start") [] ;;;
  mlfq_part fuel "[Test 1] default" (ml_fork_children NUM_THREAD)
    (count_levels NUM_LOOP (fun _ => uret tt)) "[Test 1] finished" ;;;
  mlfq_part fuel "[Test 2] priorities" (fork_children2 (seqZ 0 (Z.of_nat NUM_THREAD)))
    (count_levels NUM_LOOP (fun _ => uret tt)) "[Test 2] finished" ;;;
  mlfq_part fuel "[Test 3] yield" (fork_children2 (seqZ 0 (Z.of_nat NUM_THREAD)))
    (count_levels NUM_YIELD (fun _ => sys Yield ;;; uret tt)) "[Test 3] finished" ;;;
  mlfq_part fuel "[Test 4] sleep" (fork_children2 (seqZ 0 (Z.of_nat NUM_THREAD)))
    (count_levels NUM_SLEEP (fun _ => sys (Sleep 1) ;;; uret tt)) "[Test 4] finished" ;;;
  mlfq_part fuel "[Test 5] max level" (fork_children3 (seqZ 0 (Z.of_nat NUM_THREAD)))
    (count_levels NUM_LOOP (fun x => m <- ugets t_max ;; uwhen (m <? x) (sys Yield ;;; uret tt))) "[Test 5] finished" ;;;
  printf 1 (line "[Test 6] setpriority return value") [] ;;;
  child <- sys Fork ;;
  (if child =? 0 then mlfq_test6_child else mlfq_test6_parent child) ;;;
  exit_children fuel ;;;
  printf 1 (line "done") [] ;;;
  printf 1 (line "[Test 6] finished") [] ;;;
  uexit.

(** *** PRAC_getppid_test.c, PRAC_yield_test.c and PRJ02_admin_test.c *)

Section small_tests.
Context {G : Type}.

Definition getppid_test_main : U G unit :=
  parent <- sys Getpid ;;
  child <- sys Fork ;;
  (if child =? 0 then
     me <- sys Getpid ;;
     pp <- sys Getppid ;;
     printf 1 (line "child: parent=%d child=%d getpid()=%d getppid()=%d") [AInt parent; AInt child; AInt me; AInt pp]
   else
     sys Wait ;;;
     me <- sys Getpid ;;
     pp <- sys Getppid ;;
     printf 1 (line "parent: parent=%d child=%d getpid()=%d getppid()=%d") [AInt parent; AInt child; AInt me; AInt pp]) ;;;
  uexit.

Definition yield_test_main : U G unit :=
  child <- sys Fork ;;
  (if child =? 0 then
     ufor (seq 0 50) (fun _ => printf 1 (line "Child") [] ;;; sys Yield ;;; uret tt)
   else
     ufor (seq 0 50) (fun _ => printf 1 (line "Parent") [] ;;; sys Yield ;;; uret tt)) ;;;
  uexit.

(** [password] is what the array holds before gets. *)
Definition admin_test_main (password : list Z) : U G unit :=
  printf 1 (chars "Input password: ") [] ;;;
  password <- gets password 15 ;;
  n <- deref (strlen password) ;;
  (if n - 1 <? 0 then fault (UB "store") else uret tt) ;;;
  password <- store password (idx (n - 1)) 0 ;;
  typed <- deref (cstr password) ;;
  printf 1 (line "getadmin with password %s") [AStr (Some typed)] ;;;
  ret <- sys (Getadmin typed) ;;
  printf 1 (line "getadmin returned %d") [AInt ret] ;;;
  me <- sys Getpid ;;
  ret <- sys (Setmemorylimit me 1000000) ;;
  printf 1 (line "setmemorylimit returned %d") [AInt ret] ;;;
  ret <- sys (Exec2 (chars "zombie") [chars "zombie"] 10) ;;
  printf 1 (line "exec2 returned %d") [AInt ret] ;;;
  uexit.
End small_tests.

(** ** A kernel of processes

    The process that runs, its children that it has not waited for, and what
    it wrote, call by call. *)

Record pw := mk_pw { w_me : Z; w_kids : nat; w_said : list (list Z) }.

Definition say (l : list Z) (e : pw) : pw := mk_pw (w_me e) (w_kids e) (w_said e ++ [l]).

(** No process has more than [room] children; fork fails when it likes. *)
Definition pk (room : nat) : kernel pw := fun X c =>
  match c in call X return pw -> X -> pw -> Prop with
  | Fork => fun e x e' =>
      (x = -1 /\ e' = e) \/
      (0 < x /\ (w_kids e < room)%nat /\ e' = mk_pw (w_me e) (S (w_kids e)) (w_said e)) \/
      (x = 0 /\ (w_kids e < room)%nat /\ exists pid, pid <> w_me e /\ e' = mk_pw pid 0 (w_said e))
  | Wait => fun e x e' =>
      match w_kids e with
      | O => x = -1 /\ e' = e
      | S k => 0 < x /\ e' = mk_pw (w_me e) k (w_said e)
      end
  | Getpid => fun e x e' => x = w_me e /\ e' = e
  | Write _ l => fun e _ e' => e' = say l e
  | Read _ _ => fun e _ e' => e' = e
  | _ => fun e _ e' => e' = e
  end.

(** *** forktest passes *)

Section forktest_ok.
Context {G : Type} (room : nat) (QX : pw -> Prop) (P : Z).
Hypothesis QX_child : forall e, w_me e <> P -> QX e.

Lemma fork_many_ok k n (Q : nat -> G -> pw -> Prop) s e :
  w_me e = P -> w_kids e = n ->
  (forall n', (n' <= room \/ n' = n)%nat -> (n' <= n + k)%nat ->
     Q n' s (mk_pw P n' (w_said e))) ->
  uwp (pk room) QX (fork_many k n) Q s e.
Proof.
  revert n e. induction k as [|k IH]; intros n e Hme Hn HQ; cbn [fork_many].
  { apply uwp_ret. destruct e as [me kids said]; simpl in *; subst. apply HQ; lia. }
  apply uwp_bind, uwp_sys. intros x e' [[-> ->]|[(Hx & Hr & ->)|(-> & Hr & pid & Hp & ->)]].
  - cbn. destruct e as [me kids said]; simpl in *; subst. apply HQ; lia.
  - rewrite (proj2 (Z.ltb_ge _ _)), (proj2 (Z.eqb_neq _ _)) by lia.
    apply IH; [done|simpl; lia|]. simpl. intros n' H1 H2. apply HQ; lia.
  - apply uwp_exit, QX_child. simpl. congruence.
Qed.

Lemma wait_many_ok n (Q : unit -> G -> pw -> Prop) s e :
  w_kids e = n -> Q tt s (mk_pw (w_me e) 0 (w_said e)) -> uwp (pk room) QX (wait_many n) Q s e.
Proof.
  revert e. induction n as [|n IH]; intros e Hn HQ; cbn [wait_many].
  { apply uwp_ret. by destruct e; simpl in *; subst. }
  apply uwp_bind, uwp_sys. intros x e'. cbn [pk]. rewrite Hn. intros [Hx ->].
  rewrite (proj2 (Z.ltb_ge _ _)) by lia. by apply IH.
Qed.
End forktest_ok.

(** Whatever the moment fork starts to fail, in a process table that has no
    room for N children forktest waits for every child it made and says OK:
    it never hangs, never takes an error branch, and leaves no child. *)
Theorem forktest_passes {G} (room : nat) (P : Z) (s : G) :
  (room < FT_N)%nat ->
  uwp (pk room) (fun e => w_me e = P -> e = mk_pw P 0 [line "fork test"; line "fork test OK"])
    forktest_main (fun _ _ _ => False) s (mk_pw P 0 []).
Proof.
  intros Hroom. unfold forktest_main, forktest. apply uwp_bind, uwp_bind.
  apply uwp_bind, uwp_sys. intros x e ->. apply uwp_ret, uwp_bind.
  apply (fork_many_ok room _ P); [done|done|done|]. intros n Hn _.
  rewrite (proj2 (Nat.eqb_neq _ _)) by lia. apply uwp_bind, uwp_ret, uwp_bind.
  apply wait_many_ok; [done|]. apply uwp_bind, uwp_sys. intros y e' [-> ->].
  apply uwp_bind, uwp_ret, uwp_bind, uwp_sys. intros z e'' ->. by apply uwp_ret, uwp_exit.
Qed.

(** The table has NPROC = 64 entries; init, the shell and the test take some. *)
Lemma forktest_passes_witness :
  uwp (pk 61) (fun e => w_me e = 3 -> e = mk_pw 3 0 [line "fork test"; line "fork test OK"])
    forktest_main (fun _ _ _ => False) tt (mk_pw 3 0 []).
Proof. apply (forktest_passes 61 3 tt). apply (bool_decide_unpack _); vm_compute; exact I. Defined.

(** *** Invariants of a program

    [keeps_inv m]: a process where [I] holds runs [m] without a fault, and [I]
    holds when it returns. *)

Section invariant.
Context {G : Type} (room : nat) (QX : pw -> Prop) (I : G -> pw -> Prop).
Hypothesis I_say : forall l s e, I s e -> I s (say l e).

Definition keeps_inv {A} (m : U G A) : Prop :=
  forall s e, I s e -> uwp (pk room) QX m (fun _ => I) s e.

Lemma keeps_inv_bind {A B} (m : U G A) (f : A -> U G B) :
  keeps_inv m -> (forall a, keeps_inv (f a)) -> keeps_inv (ubind m f).
Proof. intros Hm Hf s e HI. apply uwp_bind. eapply uwp_mono; [by apply Hm|]. intros a s' e'. apply Hf. Qed.

Lemma uwp_keeps {A} (m : U G A) (Q : A -> G -> pw -> Prop) s e :
  keeps_inv m -> I s e -> (forall a s' e', I s' e' -> Q a s' e') -> uwp (pk room) QX m Q s e.
Proof. intros Hm HI HQ. eapply uwp_mono; [by apply Hm|exact HQ]. Qed.

Lemma keeps_inv_ret {A} (a : A) : keeps_inv (uret a).
Proof. by intros s e HI. Qed.

Lemma keeps_inv_gets {A} (f : G -> A) : keeps_inv (ugets f).
Proof. by intros s e HI. Qed.

Lemma keeps_inv_when c m : keeps_inv m -> keeps_inv (uwhen c m).
Proof. intros Hm. destruct c; [exact Hm|apply keeps_inv_ret]. Qed.

Lemma keeps_inv_if {A} (c : bool) (m1 m2 : U G A) : keeps_inv m1 -> keeps_inv m2 -> keeps_inv (if c then m1 else m2).
Proof. by destruct c. Qed.

Lemma keeps_inv_for {X} (l : list X) body : (forall x, keeps_inv (body x)) -> keeps_inv (ufor l body).
Proof.
  intros Hb. induction l as [|x l IH]; [apply keeps_inv_ret|]. by apply keeps_inv_bind.
Qed.

(** The calls that only answer. *)
Lemma keeps_inv_quiet {X : Set} (c : call X) : (forall e x e', pk room X c e x e' -> e' = e) -> keeps_inv (sys c).
Proof. intros Hc s e HI. apply uwp_sys. by intros x e' ->%Hc. Qed.

Lemma keeps_inv_putc fd c : keeps_inv (putc fd c).
Proof. intros s e HI. apply uwp_bind, uwp_sys. intros x e' ->. by apply uwp_ret, I_say. Qed.

Lemma keeps_inv_conversion fd d fmt ap l ap' :
  conversion d ap = Some (l, ap') -> keeps_inv (printf_loop fd false fmt ap') -> keeps_inv (printf_loop fd true (d :: fmt) ap).
Proof.
  unfold conversion. intros Hc Hk. cbn [printf_loop negb].
  repeat case_match; simplify_eq;
    repeat first [exact Hk | apply keeps_inv_putc | apply keeps_inv_for; intros ? | apply keeps_inv_bind; [|intros _]].
Qed.

Lemma keeps_inv_printf fd fmt ap : is_Some (format fmt ap) -> keeps_inv (printf fd fmt ap).
Proof.
  unfold printf. remember (length fmt) as n eqn:Hn. revert fmt ap Hn.
  induction n as [n IH] using lt_wf_ind. intros [|c fmt] ap -> [txt Hf]; [apply keeps_inv_ret|].
  cbn [format] in Hf. destruct (Z.eqb_spec c 37) as [->|Hne].
  - change (printf_loop fd false (37 :: fmt) ap) with (printf_loop (S := G) fd true fmt ap).
    destruct fmt as [|d fmt]; [apply keeps_inv_ret|]. destruct (conversion d ap) as [[l ap']|] eqn:Hc; [|done].
    apply (keeps_inv_conversion _ _ _ _ _ _ Hc). apply (IH (length fmt)); [simpl; lia|done|].
    destruct (format fmt ap'); [by eexists|done].
  - cbn [printf_loop negb]. rewrite (proj2 (Z.eqb_neq _ _) Hne). apply keeps_inv_bind; [apply keeps_inv_putc|intros _].
    apply (IH (length fmt)); [simpl; lia|done|]. destruct (format fmt ap); [by eexists|done].
Qed.
End invariant.

(** Follow a program, leaving what is particular to it. *)
Ltac keep_inv :=
  repeat lazymatch goal with
  | |- keeps_inv _ _ _ (uret _) => apply keeps_inv_ret
  | |- keeps_inv _ _ _ (ugets _) => apply keeps_inv_gets
  | |- keeps_inv _ _ _ (printf _ _ _) => apply keeps_inv_printf; [assumption|by eexists]
  | |- keeps_inv _ _ _ (sys _) => first [apply keeps_inv_quiet; by intros ??? ? | apply keeps_inv_quiet; by intros ??? [_ ?]]
  | |- keeps_inv _ _ _ (ubind _ _) => apply keeps_inv_bind; [|intros ?]
  | |- keeps_inv _ _ _ (uwhen _ _) => apply keeps_inv_when
  | |- keeps_inv _ _ _ (if _ then _ else _) => apply keeps_inv_if
  | |- keeps_inv _ _ _ (ufor _ _) => apply keeps_inv_for; intros ?
  end.

Lemma wait_all_ok {G} room QX fuel (Q : unit -> G -> pw -> Prop) s e :
  (w_kids e <= fuel)%nat -> Q tt s (mk_pw (w_me e) 0 (w_said e)) -> uwp (pk room) QX (wait_all fuel) Q s e.
Proof.
  revert e. induction fuel as [|fuel IH]; intros e Hf HQ; cbn [wait_all]; apply uwp_bind, uwp_sys; intros x e'; cbn [pk];
    destruct e as [me [|k] said]; simpl in *; intros [Hx ->]; try lia.
  1, 2: by subst x; apply uwp_ret.
  rewrite (proj2 (Z.eqb_neq _ _)) by lia. apply IH; simpl; [lia|done].
Qed.

(** *** The multilevel test *)

Section ml.
Context (room : nat) (P : Z).

(** The test process with its children, and a child. *)
Definition ml_parent (g : tglob) (e : pw) : Prop := t_parent g = P /\ w_me e = P /\ (w_kids e <= room)%nat.
Definition ml_child (g : tglob) (e : pw) : Prop := t_parent g = P /\ w_me e <> P.

Lemma ml_child_say l g e : ml_child g e -> ml_child g (say l e).
Proof. done. Qed.

(** The test leaves no child; its children may end as they like. *)
Definition ml_end (e : pw) : Prop := w_me e = P -> w_kids e = O.

Lemma ml_fork_children_ok k s e :
  ml_parent s e ->
  uwp (pk room) ml_end (ml_fork_children k)
    (fun pid s' e' => (pid = P /\ ml_parent s' e') \/ (pid <> P /\ ml_child s' e')) s e.
Proof.
  revert e. induction k as [|k IH]; intros e (Hp & Hme & Hk); cbn [ml_fork_children].
  { apply uwp_gets. by left. }
  apply uwp_bind, uwp_sys. intros x e' [[-> ->]|[(Hx & Hr & ->)|(-> & Hr & pid & Hpid & ->)]].
  - by apply IH.
  - rewrite (proj2 (Z.eqb_neq _ _)) by lia. by apply IH.
  - apply uwp_bind, uwp_sys. intros y e' ->. apply uwp_sys. intros z e' [-> ->].
    right. unfold ml_child. simpl. split_and!; congruence.
Qed.

Lemma ml_part_ok fuel title child finished s e :
  (room <= fuel)%nat -> is_Some (format (line title) []) -> is_Some (format (line finished) []) ->
  (forall pid, keeps_inv room ml_end ml_child (child pid)) ->
  ml_parent s e ->
  uwp (pk room) ml_end (ml_part fuel title child finished) (fun _ s' e' => ml_parent s' e' /\ w_kids e' = O) s e.
Proof.
  intros Hfuel Ht Hfin Hc HI. apply uwp_bind.
  eapply uwp_keeps; [by apply (keeps_inv_printf room ml_end ml_parent)|done|]. intros _ s1 e1 H1. apply uwp_bind.
  eapply uwp_mono; [by apply ml_fork_children_ok|]. intros pid s2 e2 Hpid. apply uwp_bind, uwp_gets, uwp_bind.
  destruct Hpid as [[-> (Hp & Hme & Hk)]|[Hne H2]].
  - rewrite Hp, Z.eqb_refl. apply uwp_ret, uwp_bind, uwp_bind, uwp_sys. intros x e' [-> ->].
    apply uwp_bind, uwp_gets. rewrite Hp, Hme, Z.eqb_refl. apply wait_all_ok; [lia|].
    apply (keeps_inv_printf room ml_end (fun g e => ml_parent g e /\ w_kids e = O)); [done|done|].
    unfold ml_parent. simpl. split_and!; [done|done|lia|done].
  - rewrite (proj1 H2), (proj2 (Z.eqb_neq _ _) Hne). eapply uwp_keeps; [by apply Hc|exact H2|]. intros _ s3 e3 [Hp3 Hm3].
    apply uwp_bind, uwp_bind, uwp_sys. intros x e' [-> ->]. apply uwp_bind, uwp_gets.
    rewrite Hp3, (proj2 (Z.eqb_neq _ _) Hm3). apply uwp_exit. by intros ?.
Qed.
End ml.

(** The multilevel test ends, in the test process and in every child it makes,
    whether or not its forks succeed, and the test process has then waited for
    every child, with as many turns of its wait loop as children. *)
Theorem ml_test_reaps room fuel g P said :
  (room <= fuel)%nat ->
  uwp (pk room) (ml_end P) (ml_main fuel) (fun _ _ _ => False) g (mk_pw P 0 said).
Proof.
  intros Hfuel. apply uwp_bind, uwp_sys. intros x e [-> ->]. apply uwp_bind, uwp_mod, uwp_bind.
  eapply uwp_keeps; [apply (keeps_inv_printf room (ml_end P) (ml_parent room P)); [done|by eexists]| |].
  { unfold ml_parent. simpl. split_and!; [done|done|lia]. }
  intros _ s1 e1 H1. apply uwp_bind. eapply uwp_mono; [apply ml_part_ok; [done|by eexists|by eexists| |exact H1]|].
  { intros pid. pose proof (ml_child_say P). keep_inv. }
  intros _ s2 e2 [H2 _]. apply uwp_bind. eapply uwp_mono; [apply ml_part_ok; [done|by eexists|by eexists| |exact H2]|].
  { intros pid. pose proof (ml_child_say P). keep_inv. }
  intros _ s3 e3 [H3 _]. apply uwp_bind. eapply uwp_mono; [apply ml_part_ok; [done|by eexists|by eexists| |exact H3]|].
  { intros pid. pose proof (ml_child_say P). keep_inv. }
  intros _ s4 e4 [_ Hk]. apply uwp_exit. by intros _.
Qed.

Lemma ml_test_reaps_witness :
  uwp (pk 61) (ml_end 3) (ml_main 61) (fun _ _ _ => False) (mk_tglob 0 0 []) (mk_pw 3 0 []).
Proof. apply (ml_test_reaps 61 61 (mk_tglob 0 0 []) 3 []). apply (bool_decide_unpack _); vm_compute; exact I. Defined.

(** *** The MLFQ test *)

Section mlfq.
Context (room : nat).

(** The counters are there, and a process has at most [room] children. *)
Definition counters (g : tglob) (e : pw) : Prop := length (t_count g) = MAX_LEVEL /\ (w_kids e <= room)%nat.

Abbreviation keeps_counters := (keeps_inv room (fun _ => True) counters).

Lemma counters_say l g e : counters g e -> counters g (say l e).
Proof. done. Qed.

Lemma fork_counters : keeps_counters (sys Fork).
Proof.
  intros s e [Hc Hk]. apply uwp_sys. intros x e' [[-> ->]|[(Hx & Hr & ->)|(-> & Hr & pid & Hp & ->)]];
    (split; [done|simpl; lia]).
Qed.

Lemma wait_counters : keeps_counters (sys Wait).
Proof.
  intros s e [Hc Hk]. apply uwp_sys. intros x e'. cbn [pk].
  destruct e as [me [|k] said]; simpl in *; intros [_ ->]; (split; [done|simpl; lia]).
Qed.

Lemma exit_counters {A} : keeps_counters (@uexit _ A).
Proof. done. Qed.

Lemma wait_all_counters fuel : (room <= fuel)%nat -> keeps_counters (wait_all fuel).
Proof. intros Hf s e [Hc Hk]. apply wait_all_ok; [lia|]. split; [done|simpl; lia]. Qed.

Lemma set_counters f : (forall g, length (t_count (f g)) = length (t_count g)) -> keeps_counters (umod f).
Proof. intros Hf s e [Hc Hk]. apply uwp_mod. split; [by rewrite Hf|done]. Qed.

(** Follow a program under the invariant of the counters. *)
Ltac keep_counters :=
  repeat (keep_inv;
    try lazymatch goal with
    | |- keeps_inv _ _ _ (sys Fork) => apply fork_counters
    | |- keeps_inv _ _ _ (sys Wait) => apply wait_counters
    | |- keeps_inv _ _ _ uexit => apply exit_counters
    | |- keeps_inv _ _ _ (umod _) => by apply set_counters
    end).

(** getlev may answer anything: count[x]++ stays in the array. *)
Lemma count_level_counters : keeps_counters count_level.
Proof.
  pose proof counters_say. apply keeps_inv_bind; [keep_inv|intros x].
  intros s e HI. apply uwp_bind. destruct ((x <? 0) || (4 <? x)) eqn:Hx.
  { apply uwp_bind. eapply uwp_keeps; [by apply keeps_inv_printf; [exact H|by eexists]|exact HI|done]. }
  apply orb_false_iff in Hx as [H0%Z.ltb_ge H4%Z.ltb_ge]. destruct HI as [Hc Hk]. apply uwp_ret, uwp_bind, uwp_gets, uwp_bind.
  unfold load. rewrite Hc, (proj2 (Z.leb_le 0 x) H0), (proj2 (Z.ltb_lt x _)) by (unfold MAX_LEVEL; lia).
  apply uwp_ret, uwp_bind, uwp_mod, uwp_ret. split; [|done]. simpl. by rewrite length_insert.
Qed.

Lemma print_level_counters i :
  0 <= i < Z.of_nat MAX_LEVEL ->
  keeps_counters (c <- ugets t_count ;; v <- load c i ;; printf 1 (line "L%d: %d") [AInt i; AInt v]).
Proof.
  intros Hi s e [Hc Hk]. apply uwp_bind, uwp_gets, uwp_bind. unfold load.
  rewrite Hc, (proj2 (Z.leb_le 0 i)), (proj2 (Z.ltb_lt i _)) by lia. apply uwp_ret.
  by apply (keeps_inv_printf _ _ _ counters_say); [by eexists|].
Qed.

Lemma count_levels_counters n after pid : (forall x, keeps_counters (after x)) -> keeps_counters (count_levels n after pid).
Proof.
  pose proof counters_say. intros Ha. apply keeps_inv_bind; [|intros _; apply keeps_inv_bind; [keep_inv|intros _]].
  - apply keeps_inv_for. intros _. apply keeps_inv_bind; [apply count_level_counters|exact Ha].
  - change (seqZ 0 (Z.of_nat MAX_LEVEL)) with [0; 1; 2; 3; 4]. cbn [ufor].
    repeat (apply keeps_inv_bind; [apply print_level_counters; unfold MAX_LEVEL; lia|intros _]). apply keeps_inv_ret.
Qed.

Lemma exit_children_counters fuel : (room <= fuel)%nat -> keeps_counters (exit_children fuel).
Proof. intros Hf. unfold exit_children. keep_counters. by apply wait_all_counters. Qed.

Lemma ml_fork_children_counters k : keeps_counters (ml_fork_children k).
Proof. induction k as [|k IH]; cbn [ml_fork_children]; keep_counters; exact IH. Qed.

Lemma fork_children2_counters js : keeps_counters (fork_children2 js).
Proof. pose proof counters_say. induction js as [|i js IH]; cbn [fork_children2]; keep_counters; exact IH. Qed.

Lemma fork_children3_counters js : keeps_counters (fork_children3 js).
Proof. induction js as [|i js IH]; cbn [fork_children3]; keep_counters; exact IH. Qed.

Lemma mlfq_part_counters fuel title forks child finished :
  (room <= fuel)%nat -> is_Some (format (line title) []) -> is_Some (format (line finished) []) ->
  keeps_counters forks -> (forall pid, keeps_counters (child pid)) -> keeps_counters (mlfq_part fuel title forks child finished).
Proof.
  pose proof counters_say. intros Hf Ht Hfin Hforks Hc. unfold mlfq_part.
  apply keeps_inv_bind; [by apply keeps_inv_printf|intros _]. apply keeps_inv_bind; [exact Hforks|intros pid].
  apply keeps_inv_bind; [apply keeps_inv_gets|intros parent]. apply keeps_inv_bind; [apply keeps_inv_when, Hc|intros _].
  apply keeps_inv_bind; [by apply exit_children_counters|intros _]. by apply keeps_inv_printf.
Qed.

Lemma expect_priority_counters pid prio expected msg :
  (forall r, is_Some (format (line msg) [AInt r])) -> keeps_counters (expect_priority pid prio expected msg).
Proof.
  pose proof counters_say. intros Hm. apply keeps_inv_bind; [keep_inv|intros r].
  apply keeps_inv_when. by apply keeps_inv_printf.
Qed.

Lemma mlfq_test6_counters child :
  keeps_counters (if child =? 0 then mlfq_test6_child else mlfq_test6_parent child).
Proof.
  unfold mlfq_test6_child, mlfq_test6_parent.
  repeat (keep_counters; try (apply expect_priority_counters; intros ?; by eexists)).
Qed.
End mlfq.

(** One step of main under the invariant. *)
Ltac mlfq_step HI :=
  apply uwp_bind; eapply (uwp_keeps _ _ (counters _)); [|exact HI|clear HI; intros ? ? ? HI].

Ltac mlfq_part_done :=
  apply mlfq_part_counters;
    [assumption|by eexists|by eexists
    |first [apply ml_fork_children_counters|apply fork_children2_counters|apply fork_children3_counters]
    |intros ?; apply count_levels_counters; intros ?; keep_inv].

(** The MLFQ test ends in every process it makes, whatever fork, getlev and
    setpriority answer: its counters are never indexed out of their array and
    its wait loop ends, with as many turns as a process has children. *)
Theorem mlfq_test_safe room fuel g P said :
  (room <= fuel)%nat ->
  uwp (pk room) (fun _ => True) (mlfq_main fuel) (fun _ _ _ => False) g (mk_pw P 0 said).
Proof.
  intros Hf. pose proof (counters_say room). apply uwp_bind, uwp_mod.
  assert (counters room (mk_tglob (t_parent g) (t_max g) (replicate MAX_LEVEL 0)) (mk_pw P 0 said)) as HI
    by (split; [done|simpl; lia]).
  mlfq_step HI; [keep_inv|]. mlfq_step HI; [by apply set_counters|]. mlfq_step HI; [keep_inv|].
  do 5 (mlfq_step HI; [mlfq_part_done|]).
  mlfq_step HI; [keep_inv|]. mlfq_step HI; [apply fork_counters|]. mlfq_step HI; [apply mlfq_test6_counters|].
  mlfq_step HI; [by apply exit_children_counters|]. do 2 (mlfq_step HI; [keep_inv|]). by apply uwp_exit.
Qed.

Lemma mlfq_test_safe_witness :
  uwp (pk 61) (fun _ => True) (mlfq_main 61) (fun _ _ _ => False) (mk_tglob 0 0 []) (mk_pw 3 0 []).
Proof. apply (mlfq_test_safe 61 61 (mk_tglob 0 0 []) 3 []). apply (bool_decide_unpack _); vm_compute; exact I. Defined.

(** At end of file gets leaves the empty string, and the program writes
    password[-1]. *)
Definition eof_answers : answerer unit := fun X c =>
  match c in call X return unit -> option (X * unit) with
  | Write _ l => fun e => Some (Z.of_nat (length l), e)
  | Read _ _ => fun e => Some (Some [], e)
  | _ => fun _ => None
  end.

Lemma admin_test_eof : (prun eof_answers (admin_test_main (G := unit) (replicate 15 0) tt) tt).1 = Faulted (UB "store").
Proof. vm_compute. reflexivity. Qed.
