(* ===== verification/Mkfs.v ===== *)
(** * Building the first file system (mkfs.c)

    mkfs runs on the host and writes the image the kernel boots from.  Its
    state is the image, a map from sector numbers to blocks, with the counters
    of mkfs.c; what it reads of the host's files is an argument.  The theorems
    read the image with the definitions of the kernel. *)

From S2P Require Import Prelude Cstring Kernel Spinlock ProcCore Console Bio Quiet Cache Log Crash Inode Fs Files.

(** ** The program *)

Record mfs := mk_mfs {
  m_img : gmap Z (list Z);      (* the file fsfd, by sectors *)
  m_sb : superblock;
  m_freeinode : Z;
  m_freeblock : Z
}.

(** exit(1) with its message, or an assertion that failed *)
Inductive merror :=
| Perror (what : string)
| Assert (what : string).

Definition mkfs (A : Type) : Type := mfs -> merror + (A * mfs).

Definition kret {A} (a : A) : mkfs A := fun m => inr (a, m).

Definition kbind {A B} (f : mkfs A) (g : A -> mkfs B) : mkfs B :=
  fun m => match f m with inl e => inl e | inr (a, m') => g a m' end.

Definition kfail {A} (e : merror) : mkfs A := fun _ => inl e.

Definition kgets {A} (f : mfs -> A) : mkfs A := fun m => inr (f m, m).

Definition kmod (f : mfs -> mfs) : mkfs unit := fun m => inr (tt, f m).

Definition kassert (b : bool) (what : string) : mkfs unit := if b then kret tt else kfail (Assert what).

Declare Scope mkfs_scope.
Delimit Scope mkfs_scope with mkfs.
Notation "x <- m ;; k" := (kbind m (fun x => k)) (at level 100, m at next level, right associativity) : mkfs_scope.
Notation "m ;;; k" := (kbind m (fun _ => k)) (at level 100, right associativity) : mkfs_scope.
Open Scope mkfs_scope.

Fixpoint kfor {A} (l : list A) (f : A -> mkfs unit) : mkfs unit :=
  match l with
  | [] => kret tt
  | x :: l' => f x ;;; kfor l' f
  end.

Definition NINODES : Z := 200.
Definition nbitmap : Z := FSSIZE / (BSIZE * 8) + 1.
Definition ninodeblocks : Z := NINODES / IPB + 1.
Definition nlog : Z := 30.

(** A value of [n] bytes in memory. *)
Definition word (n : nat) (v : Z) : list Z := le_store n (replicate n 0) 0 v.

(** The bytes a[0], a[1], ... of y, and y as the host reads them. *)
Definition xshort (x : Z) : Z := le_load 2 [u8 x; u8 (Z.shiftr x 8)] 0.

Definition xint (x : Z) : Z :=
  le_load 4 [u8 x; u8 (Z.shiftr x 8); u8 (Z.shiftr x 16); u8 (Z.shiftr x 24)] 0.

(** struct dinode *)
Record dinode := mk_dinode {
  d_type : Z; d_major : Z; d_minor : Z; d_nlink : Z; d_size : Z;
  d_addrs : list Z; d_userid : list Z; d_mode : Z
}.

Definition dinode_bytes (d : dinode) : list Z :=
  word 2 (d_type d) ++ word 2 (d_major d) ++ word 2 (d_minor d) ++ word 2 (d_nlink d) ++ word 4 (d_size d) ++
  concat (word 4 <$> d_addrs d) ++ d_userid d ++ word 4 (d_mode d).

Definition dinode_of (l : list Z) : dinode :=
  mk_dinode (i16 (le_load 2 l 0)) (i16 (le_load 2 l 2)) (i16 (le_load 2 l 4)) (i16 (le_load 2 l 6)) (le_load 4 l 8)
    (map (fun k => le_load 4 l (12 + 4 * k)) (seq 0 8)) (take 16 (drop 44 l)) (le_load 4 l 60).

Definition wsect (sec : Z) (buf : list Z) : mkfs unit :=
  kmod (fun m => mk_mfs (<[sec := buf]> (m_img m)) (m_sb m) (m_freeinode m) (m_freeblock m)).

(** A read past the end of the image is short. *)
Definition rsect (sec : Z) : mkfs (list Z) :=
  d <- kgets (fun m => m_img m !! sec) ;;
  match d with Some buf => kret buf | None => kfail (Perror "read") end.

Definition winode (inum : Z) (ip : dinode) : mkfs unit :=
  sb <- kgets m_sb ;;
  let bn := IBLOCK inum sb in
  buf <- rsect bn ;;
  wsect bn (splice (dinode_off inum) (dinode_bytes ip) buf).

Definition rinode (inum : Z) : mkfs dinode :=
  sb <- kgets m_sb ;;
  buf <- rsect (IBLOCK inum sb) ;;
  kret (dinode_of (take 64 (drop (dinode_off inum) buf))).

(** freeinode++ and freeblock++ *)
Definition next_inode : mkfs Z :=
  n <- kgets m_freeinode ;;
  kmod (fun m => mk_mfs (m_img m) (m_sb m) (u32 (n + 1)) (m_freeblock m)) ;;;
  kret n.

Definition next_block : mkfs Z :=
  b <- kgets m_freeblock ;;
  kmod (fun m => mk_mfs (m_img m) (m_sb m) (m_freeinode m) (u32 (b + 1))) ;;;
  kret b.

Definition mkfs_mode : Z := Z.lor (Z.lor (Z.lor (Z.lor MODE_RUSR MODE_WUSR) MODE_XUSR) MODE_ROTH) MODE_XOTH.

Definition mkfs_ialloc (type : Z) : mkfs Z :=
  inum <- next_inode ;;
  winode inum (mk_dinode (xshort type) 0 0 (xshort 1) (xint 0) (replicate 8 0)
                 (chars "root" ++ replicate 12 0) mkfs_mode) ;;;
  kret inum.

Definition mkfs_balloc (used : Z) : mkfs unit :=
  kassert (used <? BSIZE * 8) "used" ;;;
  sb <- kgets m_sb ;;
  wsect (sb_bmapstart sb) (foldl set_bit (replicate 512 0) (seq 0 (idx used))).

(** A block as an array of uint, and back. *)
Definition block_ints (d : list Z) : list Z := map (fun k => le_load 4 d (4 * k)) (seq 0 128).

Definition ints_block (l : list Z) : list Z := concat (word 4 <$> l).

Definition set_addr (d : dinode) (k : nat) (a : Z) : dinode :=
  mk_dinode (d_type d) (d_major d) (d_minor d) (d_nlink d) (d_size d) (<[k := a]> (d_addrs d)) (d_userid d) (d_mode d).

Definition set_dsize (d : dinode) (n : Z) : dinode :=
  mk_dinode (d_type d) (d_major d) (d_minor d) (d_nlink d) n (d_addrs d) (d_userid d) (d_mode d).

(** if(xint(din.addrs[k]) == 0) din.addrs[k] = xint(freeblock++); *)
Definition fill_addr (din : dinode) (k : nat) : mkfs dinode :=
  if xint (aget (d_addrs din) k) =? 0 then
    b <- next_block ;;
    kret (set_addr din k (xint b))
  else kret din.

(** The entry [k] of the indirect block, filled if it is 0. *)
Definition indirect_at (ind : Z) (k : nat) : mkfs Z :=
  d <- rsect ind ;;
  let indirect := block_ints d in
  if aget indirect k =? 0 then
    b <- next_block ;;
    let indirect := <[k := xint b]> indirect in
    wsect ind (ints_block indirect) ;;;
    kret (xint (aget indirect k))
  else kret (xint (aget indirect k)).

(** The block of the file with number fbn, and the inode with its address. *)
Definition block_at (din : dinode) (fbn : Z) : mkfs (Z * dinode) :=
  if fbn <? NDIRECT then
    din <- fill_addr din (idx fbn) ;;
    kret (xint (aget (d_addrs din) (idx fbn)), din)
  else
    din <- fill_addr din (idx NDIRECT) ;;
    x <- indirect_at (xint (aget (d_addrs din) (idx NDIRECT))) (idx (fbn - NDIRECT)) ;;
    kret (x, din).

(** while(n > 0) of iappend; [p] holds the n bytes that are left. *)
Fixpoint iappend_loop (fuel : nat) (din : dinode) (off : Z) (p : list Z) : mkfs (dinode * Z) :=
  if Z.of_nat (length p) <=? 0 then kret (din, off)
  else
    match fuel with
    | O => kfail (Assert "fuel")
    | S fuel' =>
        let fbn := off / BSIZE in
        kassert (fbn <? MAXFILE) "fbn" ;;;
        r <- block_at din fbn ;;
        let n1 := Z.min (Z.of_nat (length p)) ((fbn + 1) * BSIZE - off) in
        buf <- rsect r.1 ;;
        wsect r.1 (splice (idx (off - fbn * BSIZE)) (take (idx n1) p) buf) ;;;
        iappend_loop fuel' r.2 (u32 (off + n1)) (drop (idx n1) p)
    end.

Definition iappend (inum : Z) (p : list Z) : mkfs unit :=
  din <- rinode inum ;;
  r <- iappend_loop (length p) din (xint (d_size din)) p ;;
  winode inum (set_dsize r.1 (xint r.2)).

(** bzero(&de, sizeof(de)); de.inum = xshort(inum); strncpy(de.name, name, DIRSIZ); *)
Definition dirent (inum : Z) (name : list Z) : list Z :=
  word 2 (xshort inum) ++ take 14 (name ++ replicate 14 0).

Definition sb_bytes (sb : superblock) : list Z :=
  word 4 (sb_size sb) ++ word 4 (sb_nblocks sb) ++ word 4 (sb_ninodes sb) ++ word 4 (sb_nlog sb) ++
  word 4 (sb_logstart sb) ++ word 4 (sb_inodestart sb) ++ word 4 (sb_bmapstart sb).

(** An argument: its name, and what the reads of the file return, or [None] if
    open fails. *)
Record hostfile := mk_hostfile { h_name : list Z; h_reads : option (list (list Z)) }.

Definition skip_underscore (name : list Z) : list Z :=
  match name with
  | c :: l => if c =? 95 then l else name
  | [] => []
  end.

(** while((cc = read(fd, buf, sizeof(buf))) > 0): the reads that are appended *)
Fixpoint until_empty (reads : list (list Z)) : list (list Z) :=
  match reads with
  | [] :: _ | [] => []
  | r :: reads' => r :: until_empty reads'
  end.

Definition add_file (rootino : Z) (h : hostfile) : mkfs unit :=
  kassert (bool_decide (47 ∉ h_name h)) "index" ;;;
  match h_reads h with
  | None => kfail (Perror "open")
  | Some reads =>
      let name := skip_underscore (h_name h) in
      inum <- mkfs_ialloc T_FILE ;;
      iappend rootino (dirent inum name) ;;;
      kfor (until_empty reads) (iappend inum)
  end.

(** main up to the loop over the files: the empty image with its root directory *)
Definition mkfs_format : mkfs Z :=
  let nmeta := 2 + nlog + ninodeblocks + nbitmap in
  let nblocks := FSSIZE - nmeta in
  let sb := mk_sb (xint FSSIZE) (xint nblocks) (xint NINODES) (xint nlog) (xint 2) (xint (2 + nlog))
              (xint (2 + nlog + ninodeblocks)) in
  kmod (fun m => mk_mfs (m_img m) sb (m_freeinode m) nmeta) ;;;
  kfor (seqZ 0 FSSIZE) (fun i => wsect i (replicate 512 0)) ;;;
  wsect 1 (splice 0 (sb_bytes sb) (replicate 512 0)) ;;;
  rootino <- mkfs_ialloc T_DIR ;;
  kassert (rootino =? 1) "rootino" ;;;
  iappend rootino (dirent rootino (chars ".")) ;;;
  iappend rootino (dirent rootino (chars "..")) ;;;
  kret rootino.

(** and after it: the size of the root directory and the bitmap *)
Definition mkfs_finish (rootino : Z) : mkfs unit :=
  din <- rinode rootino ;;
  let off := xint (d_size din) in
  let off := u32 ((off / BSIZE + 1) * BSIZE) in
  winode rootino (set_dsize din (xint off)) ;;;
  used <- kgets m_freeblock ;;
  mkfs_balloc used.

Definition mkfs_main (files : list hostfile) : mkfs unit :=
  rootino <- mkfs_format ;;
  kfor files (add_file rootino) ;;;
  mkfs_finish rootino.

(** The new image, and the globals as the program starts. *)
Definition mfs0 : mfs := mk_mfs ∅ (mk_sb 0 0 0 0 0 0 0) 1 0.

(** ** Values in memory *)

Lemma length_word n v : length (word n v) = n.
Proof. unfold word. by rewrite length_le_store, length_replicate. Qed.

Lemma le_load_app_r n l l' o : le_load n (l ++ l') (length l + o) = le_load n l' o.
Proof.
  revert o. induction n as [|n IH]; intros o; [done|]. cbn [le_load]. rewrite <- Nat.add_succ_r, IH. f_equal.
  unfold aget. by rewrite lookup_app_r, Nat.add_comm, Nat.add_sub by lia.
Qed.

Lemma le_load_app_l n l l' o : (o + n <= length l)%nat -> le_load n (l ++ l') o = le_load n l o.
Proof. intros H. apply le_load_ext. intros j Hj. unfold aget. by rewrite lookup_app_l by lia. Qed.

(** The word after [l]. *)
Lemma le_load_word n l v l' o : length l = o -> le_load n (l ++ word n v ++ l') o = v mod 256 ^ Z.of_nat n.
Proof.
  intros <-. rewrite <- (Nat.add_0_r (length l)), le_load_app_r, le_load_app_l by (rewrite length_word; lia).
  apply le_load_store. rewrite length_replicate. lia.
Qed.

Lemma length_words n l : length (concat (word n <$> l)) = (n * length l)%nat.
Proof. induction l as [|a l IH]; [cbn; lia|]. cbn. rewrite length_app, length_word, IH. lia. Qed.

Lemma le_load_words n l k v l' : l !! k = Some v -> 
  le_load n (concat (word n <$> l) ++ l') (n * k) = v mod 256 ^ Z.of_nat n.
Proof.
  intros Hk. rewrite <- (take_drop_middle l k v Hk), fmap_app, fmap_cons, concat_app. cbn [concat]. rewrite <- !app_assoc.
  apply le_load_word. rewrite length_words, length_take. apply lookup_lt_Some in Hk. nia.
Qed.

Definition u32s (l : list Z) : Prop := Forall (fun a => 0 <= a < 2 ^ 32) l.

Lemma u32s_at l k v : u32s l -> l !! k = Some v -> v mod 256 ^ Z.of_nat 4 = v.
Proof. intros Hl Hk. apply u32_load. by eapply Forall_lookup_1 in Hl. Qed.

Lemma load_words l l' n : n = length l -> u32s l -> map (fun k => le_load 4 (concat (word 4 <$> l) ++ l') (4 * k)) (seq 0 n) = l.
Proof.
  intros -> Hl. apply list_eq_same_length with (length l); [done|by rewrite length_map, length_seq|].
  intros k b c Hk Hb Hc. change (map ?f ?l) with (f <$> l) in Hb. rewrite list_lookup_fmap, lookup_seq_lt in Hb by done.
  injection Hb as <-. etransitivity; [apply (le_load_words 4 l k c l' Hc)|]. by eapply u32s_at.
Qed.

Lemma block_ints_block l : length l = 128%nat -> u32s l -> block_ints (ints_block l) = l.
Proof. intros Hl Hu. unfold block_ints, ints_block. rewrite <- (app_nil_r (concat _)). by apply load_words. Qed.

Lemma length_ints_block l : length l = 128%nat -> length (ints_block l) = 512%nat.
Proof. intros Hl. unfold ints_block. rewrite length_words. lia. Qed.

Lemma xint_id x : 0 <= x < 2 ^ 32 -> xint x = x.
Proof.
  intros Hx. unfold xint, u8. rewrite !Z.shiftr_div_pow2 by lia. cbn.
  change (2 ^ 8) with 256. change (2 ^ 16) with (256 * 256). change (2 ^ 24) with (256 * (256 * 256)).
  rewrite <- !Z.div_div by lia.
  pose proof (Z.div_mod x 256). pose proof (Z.div_mod (x / 256) 256). pose proof (Z.div_mod (x / 256 / 256) 256).
  rewrite (Z.mod_small (x / 256 / 256 / 256)); [lia|]. rewrite !Z.div_div by lia. split; [apply Z.div_pos; lia|].
  apply Z.div_lt_upper_bound; lia.
Qed.

Lemma xshort_id x : 0 <= x < 2 ^ 16 -> xshort x = x.
Proof.
  intros Hx. unfold xshort, u8. rewrite !Z.shiftr_div_pow2 by lia. cbn. change (2 ^ 8) with 256.
  pose proof (Z.div_mod x 256). rewrite (Z.mod_small (x / 256)); [lia|]. split; [apply Z.div_pos; lia|].
  apply Z.div_lt_upper_bound; lia.
Qed.

(** *** The inode as bytes *)

Record dinode_fits (d : dinode) : Prop := {
  df_type : - 2 ^ 15 <= d_type d < 2 ^ 15;
  df_major : - 2 ^ 15 <= d_major d < 2 ^ 15;
  df_minor : - 2 ^ 15 <= d_minor d < 2 ^ 15;
  df_nlink : - 2 ^ 15 <= d_nlink d < 2 ^ 15;
  df_size : 0 <= d_size d < 2 ^ 32;
  df_mode : 0 <= d_mode d < 2 ^ 32;
  df_addrs : length (d_addrs d) = 8%nat /\ u32s (d_addrs d);
  df_user : length (d_userid d) = 16%nat
}.

Lemma length_dinode_bytes d : length (d_addrs d) = 8%nat -> length (d_userid d) = 16%nat -> length (dinode_bytes d) = 64%nat.
Proof. intros Ha Hu. unfold dinode_bytes. rewrite !length_app, !length_word, length_words. lia. Qed.

(** What the loads of the kernel see of it, in front of any bytes. *)
Lemma dinode_loads d l : dinode_fits d -> let b := dinode_bytes d ++ l in
  i16 (le_load 2 b 0) = d_type d /\ i16 (le_load 2 b 2) = d_major d /\ i16 (le_load 2 b 4) = d_minor d /\
  i16 (le_load 2 b 6) = d_nlink d /\ le_load 4 b 8 = d_size d /\
  map (fun k => le_load 4 b (12 + 4 * k)) (seq 0 8) = d_addrs d /\
  drop 44 b = d_userid d ++ word 4 (d_mode d) ++ l /\ le_load 4 b 60 = d_mode d.
Proof.
  intros [Hty Hma Hmi Hnl Hsz Hmo [Ha Hau] Hu] b. unfold b, dinode_bytes. rewrite <- !app_assoc.
  set (l1 := word 2 (d_type d)). set (l2 := word 2 (d_major d)). set (l3 := word 2 (d_minor d)). set (l4 := word 2 (d_nlink d)).
  set (l5 := word 4 (d_size d)). set (l6 := concat _).
  assert (length l1 = 2 /\ length l2 = 2 /\ length l3 = 2 /\ length l4 = 2 /\ length l5 = 4 /\ length l6 = 32)%nat as (L1 & L2 & L3 & L4 & L5 & L6).
  { repeat split; try apply length_word. unfold l6. rewrite length_words. lia. }
  split_and!.
  - etransitivity; [|by apply i16_load]. f_equal. by apply (le_load_word 2 []).
  - unfold l2. rewrite (le_load_word 2 l1) by lia. by apply i16_load.
  - unfold l3. rewrite (app_assoc l1). rewrite (le_load_word 2 (l1 ++ l2)) by (rewrite length_app; lia). by apply i16_load.
  - unfold l4. rewrite (app_assoc l1), (app_assoc (l1 ++ l2)).
    rewrite (le_load_word 2 ((l1 ++ l2) ++ l3)) by (rewrite !length_app; lia). by apply i16_load.
  - unfold l5. rewrite (app_assoc l1), (app_assoc (l1 ++ l2)), (app_assoc ((l1 ++ l2) ++ l3)).
    rewrite (le_load_word 4 (((l1 ++ l2) ++ l3) ++ l4)) by (rewrite !length_app; lia). by apply u32_load.
  - etransitivity; [|by apply (load_words (d_addrs d) (d_userid d ++ word 4 (d_mode d) ++ l))].
    apply map_ext. intros k. replace 12%nat with (length (l1 ++ l2 ++ l3 ++ l4 ++ l5)) by (rewrite !length_app; lia).
    rewrite <- (le_load_app_r 4 (l1 ++ l2 ++ l3 ++ l4 ++ l5)). by rewrite <- !app_assoc.
  - replace 44%nat with (length (l1 ++ l2 ++ l3 ++ l4 ++ l5 ++ l6)) by (rewrite !length_app; lia).
    etransitivity; [|apply (drop_app_length (l1 ++ l2 ++ l3 ++ l4 ++ l5 ++ l6))]. by rewrite <- !app_assoc.
  - rewrite !app_assoc, <- (app_assoc _ _ l). rewrite le_load_word by (rewrite !length_app; lia). by apply u32_load.
Qed.

Lemma dinode_of_bytes d : dinode_fits d -> dinode_of (dinode_bytes d) = d.
Proof.
  intros Hd. destruct (dinode_loads d [] Hd) as (H1 & H2 & H3 & H4 & H5 & H6 & H7 & H8). rewrite app_nil_r in *.
  unfold dinode_of. rewrite H1, H2, H3, H4, H5, H6, H7, H8, take_app_length' by (by destruct Hd). by destruct d.
Qed.

(** ** What an image holds *)

Definition the_sb : superblock := mk_sb 2000 1941 200 30 2 32 58.

Definition nmeta : Z := 59.

Definition zeros : list Z := replicate 512 0.

Definition pad (n : nat) (l : list Z) : list Z := take n (l ++ replicate n 0).

(** Block [k] of a file with the contents [data]. *)
Definition blk (data : list Z) (k : nat) : list Z := pad 512 (drop (512 * k) data).

(** A file of the image: its contents, its blocks in order, and its indirect
    block, 0 if it has none. *)
Record finfo := mk_finfo { fi_type : Z; fi_data : list Z; fi_blocks : list Z; fi_ind : Z }.

Definition addrs_of (f : finfo) : list Z := pad 7 (fi_blocks f) ++ [fi_ind f].

Definition ints_of (f : finfo) : list Z := pad 128 (drop 7 (fi_blocks f)).

(** Block [b] is block [k] of the file, or its indirect block. *)
Definition has (f : finfo) (r : option nat) (b : Z) : Prop :=
  match r with
  | Some k => fi_blocks f !! k = Some b
  | None => fi_ind f = b /\ b <> 0
  end.

Definition fsize (f : finfo) : nat := (length (fi_blocks f) + if (fi_ind f =? 0)%Z then 0 else 1)%nat.

Definition used (fs : list finfo) : nat := sum_list (fsize <$> fs).

Record file_rep (img : gmap Z (list Z)) (f : finfo) : Prop := {
  fr_len : (length (fi_data f) <= 512 * length (fi_blocks f))%nat;
  fr_max : (length (fi_blocks f) <= 135)%nat;
  fr_ind : (7 < length (fi_blocks f))%nat -> fi_ind f <> 0;
  fr_ints : fi_ind f <> 0 -> img !! fi_ind f = Some (ints_block (ints_of f));
  fr_blocks k b : fi_blocks f !! k = Some b -> img !! b = Some (blk (fi_data f) k)
}.

Record data_ok (fs : list finfo) (m : mfs) : Prop := {
  do_sb : m_sb m = the_sb;
  do_img b d : m_img m !! b = Some d -> 0 <= b < FSSIZE /\ length d = 512%nat;
  do_all b : 0 <= b < FSSIZE -> is_Some (m_img m !! b);
  do_free : m_freeblock m = nmeta + Z.of_nat (used fs);
  do_zero b : m_freeblock m <= b < FSSIZE -> m_img m !! b = Some zeros;
  do_range k f r b : fs !! k = Some f -> has f r b -> nmeta <= b < m_freeblock m;
  do_inj k f r k' f' r' b : fs !! k = Some f -> has f r b -> fs !! k' = Some f' -> has f' r' b -> k = k' /\ r = r';
  do_files k f : fs !! k = Some f -> file_rep (m_img m) f
}.

Local Arguments blk : simpl never.
Local Arguments pad : simpl never.
Local Arguments ints_of : simpl never.

Lemma length_pad n l : length (pad n l) = n.
Proof. unfold pad. rewrite length_take, length_app, length_replicate. lia. Qed.

Lemma pad_lookup n l k : (k < n)%nat -> pad n l !! k = Some (if decide (k < length l)%nat then aget l k else 0).
Proof.
  intros Hk. unfold pad. rewrite lookup_take_lt by done. case_decide.
  - rewrite lookup_app_l by done. by apply lookup_aget.
  - rewrite lookup_app_r by lia. apply lookup_replicate_2. lia.
Qed.

Lemma aget_pad n l k : (k < n)%nat -> aget (pad n l) k = if decide (k < length l)%nat then aget l k else 0.
Proof. intros Hk. apply aget_lookup. by apply pad_lookup. Qed.

Lemma pad_nil n : pad n [] = replicate n 0.
Proof. unfold pad. by rewrite app_nil_l, take_replicate, Nat.min_id. Qed.

Lemma pad_snoc n l a : (length l < n)%nat -> pad n (l ++ [a]) = <[length l := a]> (pad n l).
Proof.
  intros Hl. apply list_eq_same_length with n; [by rewrite length_insert, length_pad|by rewrite length_pad|].
  intros k x y Hk Hx Hy. rewrite pad_lookup in Hx by done. destruct (decide (k = length l)) as [->|Hne].
  - rewrite list_lookup_insert_eq in Hy by (rewrite length_pad; lia). rewrite decide_True in Hx by (rewrite length_app; simpl; lia).
    simplify_eq. apply aget_lookup. by rewrite list_lookup_middle.
  - rewrite list_lookup_insert_ne, pad_lookup in Hy by lia. simplify_eq. rewrite length_app. cbn [length].
    do 2 case_decide; try lia. unfold aget. by rewrite lookup_app_l by lia.
Qed.

Lemma blk_end data k : (length data <= 512 * k)%nat -> blk data k = zeros.
Proof. intros Hl. unfold blk. rewrite drop_ge by lia. apply pad_nil. Qed.

Lemma used_insert fs k f f' : fs !! k = Some f -> (used (<[k := f']> fs) + fsize f = used fs + fsize f')%nat.
Proof.
  intros Hk. unfold used. revert k Hk. induction fs as [|g fs IH]; intros [|k] Hk; simplify_eq/=; [lia|].
  specialize (IH k Hk). lia.
Qed.

(** A step that changes one file. *)
Lemma data_ok_update fs m k f f' m' :
  data_ok fs m -> fs !! k = Some f -> m_sb m' = m_sb m ->
  (forall b d, m_img m' !! b = Some d -> 0 <= b < FSSIZE /\ length d = 512%nat) ->
  (forall b, 0 <= b < FSSIZE -> is_Some (m_img m' !! b)) ->
  m_freeblock m' = m_freeblock m + Z.of_nat (fsize f') - Z.of_nat (fsize f) -> m_freeblock m <= m_freeblock m' ->
  (forall b, ~ (exists r, has f' r b) -> m_img m' !! b = m_img m !! b) ->
  (forall r b, has f' r b -> has f r b \/ m_freeblock m <= b < m_freeblock m') ->
  (forall r r' b, has f' r b -> has f' r' b -> r = r') ->
  file_rep (m_img m') f' ->
  data_ok (<[k := f']> fs) m'.
Proof.
  intros [Hsb Himg Hall Hfree Hzero Hrange Hinj Hfiles] Hk Hsb' Himg' Hall' Hfr Hle Hsame Hhas Hown Hf'.
  pose proof (lookup_lt_Some _ _ _ Hk) as Hlen. pose proof (used_insert fs k f f' Hk) as Hu.
  assert (forall k2 g r b, k2 <> k -> fs !! k2 = Some g -> has g r b -> ~ exists r', has f' r' b) as Hother.
  { intros k2 g r b Hne Hg Hb [r' Hr']. destruct (Hhas r' b Hr') as [Hb'|Hb'].
    - by destruct (Hinj _ _ _ _ _ _ _ Hg Hb Hk Hb').
    - specialize (Hrange _ _ _ _ Hg Hb). lia. }
  assert (forall r b, has f' r b -> nmeta <= b < m_freeblock m') as Hr'.
  { intros r b Hb. destruct (Hhas r b Hb) as [Hb'|Hb']; [specialize (Hrange _ _ _ _ Hk Hb')|]; lia. }
  split; try done.
  - congruence.
  - lia.
  - intros b Hb. rewrite Hsame; [apply Hzero; lia|]. intros [r Hr]. specialize (Hr' _ _ Hr). lia.
  - intros k2 g r b Hg Hb. apply list_lookup_insert_Some in Hg as [(-> & <- & _)|[Hne Hg]]; [by eapply Hr'|].
    specialize (Hrange _ _ _ _ Hg Hb). lia.
  - intros k1 g1 r1 k2 g2 r2 b Hg1 Hb1 Hg2 Hb2.
    apply list_lookup_insert_Some in Hg1 as [(<- & <- & _)|[Hne1 Hg1]]; apply list_lookup_insert_Some in Hg2 as [(<- & <- & _)|[Hne2 Hg2]].
    + split; [done|]. by eapply Hown.
    + exfalso. eapply Hother; [exact (not_eq_sym Hne2)|done|done|]. by exists r1.
    + exfalso. eapply Hother; [exact (not_eq_sym Hne1)|done|done|]. by exists r2.
    + by eapply Hinj.
  - intros k2 g Hg. apply list_lookup_insert_Some in Hg as [(<- & <- & _)|[Hne Hg]]; [done|].
    destruct (Hfiles _ _ Hg) as [H1 H2 H3 H4 H5]. split; try done.
    + intros Hi. rewrite Hsame; [by apply H4|]. by apply (Hother k2 g None).
    + intros j b Hb. rewrite Hsame; [by apply H5|]. by apply (Hother k2 g (Some j)).
Qed.

(** *** Taking a block *)

Definition add_block (f : finfo) (b : Z) : finfo := mk_finfo (fi_type f) (fi_data f) (fi_blocks f ++ [b]) (fi_ind f).

Definition add_ind (f : finfo) (b : Z) : finfo := mk_finfo (fi_type f) (fi_data f) (fi_blocks f) b.

Definition took (m : mfs) : mfs := mk_mfs (m_img m) (m_sb m) (m_freeinode m) (m_freeblock m + 1).

Lemma next_block_ok fs m : data_ok fs m -> m_freeblock m < FSSIZE -> next_block m = inr (m_freeblock m, took m).
Proof.
  intros Hd Hb. unfold next_block, kbind, kgets, kmod, kret, took. cbn. pose proof (do_free _ _ Hd). unfold nmeta, FSSIZE in *.
  unfold u32. by rewrite Z.mod_small by lia.
Qed.

Section take.
Context (fs : list finfo) (m : mfs) (k : nat) (f : finfo).
Hypothesis (Hok : data_ok fs m) (Hk : fs !! k = Some f) (Hroom : m_freeblock m < FSSIZE).

Lemma free_ge : nmeta <= m_freeblock m.
Proof. pose proof (do_free _ _ Hok). lia. Qed.

Lemma has_lt r b : has f r b -> nmeta <= b < m_freeblock m.
Proof. by apply (do_range _ _ Hok _ _ _ _ Hk). Qed.

Lemma has_own r r' b : has f r b -> has f r' b -> r = r'.
Proof. intros H1 H2. by destruct (do_inj _ _ Hok _ _ _ _ _ _ _ Hk H1 Hk H2). Qed.

Lemma add_block_has r b : has (add_block f (m_freeblock m)) r b ->
  has f r b \/ (r = Some (length (fi_blocks f)) /\ b = m_freeblock m).
Proof.
  destruct r as [j|]; cbn; [|by left]. intros Hj. apply lookup_app_Some in Hj as [Hj|[Hj1 Hj2]]; [by left|right].
  apply list_lookup_singleton_Some in Hj2 as [Hj2 ->]. split; [f_equal; lia|done].
Qed.

Lemma add_block_own r r' b :
  has (add_block f (m_freeblock m)) r b -> has (add_block f (m_freeblock m)) r' b -> r = r'.
Proof.
  intros [H1|[-> ->]]%add_block_has [H2|[-> Hb]]%add_block_has; [by eapply has_own| | |done].
  - apply has_lt in H1. lia.
  - apply has_lt in H2. lia.
Qed.

Lemma fsize_add_block b : fsize (add_block f b) = S (fsize f).
Proof. unfold fsize. cbn. rewrite length_app. cbn. case_match; lia. Qed.

(** A direct block. *)
Lemma take_direct : (length (fi_blocks f) < 7)%nat -> data_ok (<[k := add_block f (m_freeblock m)]> fs) (took m).
Proof.
  intros Hl. pose proof free_ge. destruct (do_files _ _ Hok _ _ Hk) as [H1 H2 H3 H4 H5].
  apply (data_ok_update fs m k f); try done.
  - apply (do_img _ _ Hok).
  - apply (do_all _ _ Hok).
  - rewrite fsize_add_block. cbn. lia.
  - cbn. lia.
  - intros r b [Hb|[-> ->]]%add_block_has; [by left|]. right. cbn. lia.
  - apply add_block_own.
  - split; cbn; rewrite ?length_app; cbn [length]; try lia.
    + intros Hi. rewrite H4 by done. f_equal. unfold ints_of. cbn. rewrite !drop_ge; [done|rewrite length_app; simpl; lia|lia].
    + intros j b Hb. apply lookup_app_Some in Hb as [Hb|[Hj Hb]]; [by apply H5|].
      apply list_lookup_singleton_Some in Hb as [Hj' <-]. rewrite blk_end by lia. apply (do_zero _ _ Hok). lia.
Qed.

(** The indirect block. *)
Lemma take_ind : fi_ind f = 0 -> data_ok (<[k := add_ind f (m_freeblock m)]> fs) (took m).
Proof.
  intros Hi. pose proof free_ge as Hge. unfold nmeta in Hge. destruct (do_files _ _ Hok _ _ Hk) as [H1 H2 H3 H4 H5].
  assert (length (fi_blocks f) <= 7)%nat as Hl by (destruct (decide (7 < length (fi_blocks f)))%nat as [Hl|]; [by destruct (H3 Hl)|lia]).
  assert (forall r b, has (add_ind f (m_freeblock m)) r b -> (exists j, r = Some j /\ has f r b) \/ (r = None /\ b = m_freeblock m)) as Hh.
  { intros [j|] b Hb; cbn in Hb; [left; by exists j|right; naive_solver]. }
  apply (data_ok_update fs m k f); try done.
  - apply (do_img _ _ Hok).
  - apply (do_all _ _ Hok).
  - unfold fsize. cbn. rewrite Hi, (proj2 (Z.eqb_neq _ _)) by lia. cbn. lia.
  - cbn. lia.
  - intros r b [(j & -> & Hb)|[-> ->]]%Hh; [by left|]. right. cbn. lia.
  - intros r r' b [(j & -> & Hb)|[-> ->]]%Hh [(j' & -> & Hb')|[-> Hb']]%Hh; [by eapply has_own| | |done].
    + apply has_lt in Hb. lia.
    + apply has_lt in Hb'. lia.
  - split; cbn; try done; [lia|]. intros _. unfold ints_of. cbn. rewrite drop_ge, pad_nil by lia.
    apply (do_zero _ _ Hok). lia.
Qed.

(** A block whose address goes to the indirect block. *)
Definition took_ind (b : Z) : mfs :=
  mk_mfs (<[fi_ind f := ints_block (ints_of (add_block f b))]> (m_img m)) (m_sb m) (m_freeinode m) (m_freeblock m + 1).

Lemma take_indirect : fi_ind f <> 0 -> (7 <= length (fi_blocks f) < 135)%nat ->
  data_ok (<[k := add_block f (m_freeblock m)]> fs) (took_ind (m_freeblock m)).
Proof.
  intros Hi Hl. pose proof free_ge as Hge. unfold nmeta in Hge. destruct (do_files _ _ Hok _ _ Hk) as [H1 H2 H3 H4 H5].
  assert (has f None (fi_ind f)) as Hn by done. pose proof (has_lt _ _ Hn) as Hin. unfold nmeta in Hin.
  apply (data_ok_update fs m k f); try done.
  - intros b d Hb. cbn [took_ind m_img] in Hb. apply lookup_insert_Some in Hb as [[<- <-]|[_ Hb]]; [|by eapply (do_img _ _ Hok)].
    split; [lia|]. apply length_ints_block, length_pad.
  - intros b Hb. cbn [took_ind m_img]. apply lookup_insert_is_Some'. right. by apply (do_all _ _ Hok).
  - rewrite fsize_add_block. cbn. lia.
  - cbn. lia.
  - intros b Hb. cbn. apply lookup_insert_ne. intros <-. apply Hb. by exists None.
  - intros r b [Hb|[-> ->]]%add_block_has; [by left|]. right. cbn. lia.
  - apply add_block_own.
  - split; cbn; rewrite ?length_app; cbn [length]; try lia.
    + intros _. by rewrite lookup_insert_eq.
    + intros j b Hb. assert (b <> fi_ind f) as Hne.
      { intros ->. apply lookup_app_Some in Hb as [Hb|[Hj Hb]].
        - by pose proof (has_own (Some j) None _ Hb Hn).
        - apply list_lookup_singleton_Some in Hb as [_ ?]. lia. }
      rewrite lookup_insert_ne by done. apply lookup_app_Some in Hb as [Hb|[Hj Hb]]; [by apply H5|].
      apply list_lookup_singleton_Some in Hb as [Hj' <-]. rewrite blk_end by lia. apply (do_zero _ _ Hok). lia.
Qed.

(** Bytes added to the last block. *)
Definition add_data (l : list Z) : finfo := mk_finfo (fi_type f) (fi_data f ++ l) (fi_blocks f) (fi_ind f).

Definition wrote (b : Z) (d : list Z) : mfs := mk_mfs (<[b := d]> (m_img m)) (m_sb m) (m_freeinode m) (m_freeblock m).
End take.

Lemma blk_app data l j k : (512 * j <= length data)%nat -> (k < j)%nat -> blk (data ++ l) k = blk data k.
Proof.
  intros Hd Hk. unfold blk, pad. rewrite drop_app_le by lia. rewrite !take_app_le; [done|..];
    rewrite ?length_app, length_drop; lia.
Qed.

Lemma blk_splice data l j :
  (512 * j <= length data)%nat -> (length data + length l <= 512 * S j)%nat ->
  splice (length data - 512 * j) l (blk data j) = blk (data ++ l) j.
Proof.
  intros Hd Hl. unfold splice, blk, pad. rewrite drop_app_le by lia. set (d := drop (512 * j) data).
  assert (length d = length data - 512 * j)%nat as <- by (unfold d; by rewrite length_drop).
  assert (length d + length l <= 512)%nat as Hle by (unfold d; rewrite length_drop; lia).
  rewrite take_take, Nat.min_l, take_app_length by lia. rewrite <- app_assoc. rewrite (take_app_ge d (l ++ _)) by lia. f_equal.
  rewrite (take_app_ge d (replicate 512 0)), (take_app_ge l) by lia. f_equal.
  rewrite drop_app_ge by lia. rewrite !take_replicate, drop_replicate. f_equal. lia.
Qed.

Lemma write_block fs m k f l j b :
  data_ok fs m -> fs !! k = Some f -> fi_blocks f !! j = Some b -> length (fi_blocks f) = S j ->
  (512 * j <= length (fi_data f))%nat -> (length (fi_data f) + length l <= 512 * S j)%nat ->
  data_ok (<[k := add_data f l]> fs) (wrote m b (blk (fi_data f ++ l) j)).
Proof.
  intros Hok Hk Hj Hlen Hd Hl. destruct (do_files _ _ Hok _ _ Hk) as [H1 H2 H3 H4 H5].
  assert (has f (Some j) b) as Hb by done. pose proof (do_free _ _ Hok) as Hfree. unfold nmeta in Hfree.
  pose proof (do_img _ _ Hok b _ (H5 _ _ Hj)) as [Hb2 _].
  apply (data_ok_update fs m k f); try done.
  - intros c d Hc. cbn [wrote m_img] in Hc. apply lookup_insert_Some in Hc as [[<- <-]|[_ Hc]]; [|by eapply (do_img _ _ Hok)].
    split; [done|]. apply length_pad.
  - intros c Hc. cbn [wrote m_img]. apply lookup_insert_is_Some'. right. by apply (do_all _ _ Hok).
  - cbn. unfold fsize. cbn. lia.
  - intros c Hc. cbn. apply lookup_insert_ne. intros <-. apply Hc. by exists (Some j).
  - intros r c Hr. left. by destruct r.
  - intros r r' c Hr Hr'. apply (has_own fs m k f Hok Hk r r' c); [by destruct r|by destruct r'].
  - split; cbn; try done.
    + rewrite length_app. lia.
    + intros Hi. rewrite lookup_insert_ne; [by apply H4|]. intros ->.
      by pose proof (has_own fs m k f Hok Hk _ None _ Hb (conj eq_refl Hi)).
    + intros i c Hc. destruct (decide (i = j)) as [->|Hne].
      * rewrite Hj in Hc. injection Hc as <-. by rewrite lookup_insert_eq.
      * rewrite lookup_insert_ne.
        -- pose proof (lookup_lt_Some _ _ _ Hc). rewrite (blk_app _ _ j) by lia. by apply H5.
        -- intros ->. by pose proof (has_own fs m k f Hok Hk (Some i) (Some j) _ Hc Hb) as [= ->].
Qed.

(** *** iappend *)

Definition nblk (n : nat) : nat := ((n + 511) / 512)%nat.

(** The blocks a file of [n] bytes takes. *)
Definition need (n : nat) : nat := (nblk n + if decide (7 < nblk n) then 1 else 0)%nat.

(** The file has the blocks its size needs. *)
Definition ind_iff (f : finfo) : Prop := fi_ind f = 0 <-> (length (fi_blocks f) <= 7)%nat.

Definition tight (f : finfo) : Prop := length (fi_blocks f) = nblk (length (fi_data f)) /\ ind_iff f.

(** Nothing below the data blocks changed. *)
Definition same_low (m m' : mfs) : Prop :=
  m_freeinode m' = m_freeinode m /\ forall b, b < nmeta -> m_img m' !! b = m_img m !! b.

#[export] Instance same_low_preorder : PreOrder same_low.
Proof.
  split; [done|]. intros m1 m2 m3 [H1 H2] [H3 H4]. split; [congruence|]. intros b Hb. by rewrite H4, H2.
Qed.

Definition with_addrs (d : dinode) (l : list Z) : dinode :=
  mk_dinode (d_type d) (d_major d) (d_minor d) (d_nlink d) (d_size d) l (d_userid d) (d_mode d).

Lemma fsize_need f n : length (fi_blocks f) = nblk n -> ind_iff f -> fsize f = need n.
Proof.
  intros Hl Hi. unfold fsize, need. rewrite Hl in *. unfold ind_iff in Hi. rewrite Hl in Hi.
  destruct (Z.eqb_spec (fi_ind f) 0); case_decide; lia.
Qed.

Lemma addrs_direct f b : (length (fi_blocks f) < 7)%nat -> addrs_of (add_block f b) = <[length (fi_blocks f) := b]> (addrs_of f).
Proof. intros Hl. unfold addrs_of. cbn. rewrite pad_snoc by done. by rewrite insert_app_l by (rewrite length_pad; lia). Qed.

Lemma addrs_ind f b : addrs_of (add_ind f b) = <[7%nat := b]> (addrs_of f).
Proof. unfold addrs_of. cbn. rewrite insert_app_r_alt by (rewrite length_pad; lia). by rewrite length_pad. Qed.

Lemma addrs_indirect f b : (7 <= length (fi_blocks f))%nat -> addrs_of (add_block f b) = addrs_of f.
Proof. intros Hl. unfold addrs_of, pad. cbn. f_equal. rewrite <- app_assoc, !take_app_le by lia. done. Qed.

Lemma ints_indirect f b : (7 <= length (fi_blocks f) < 135)%nat ->
  ints_of (add_block f b) = <[(length (fi_blocks f) - 7)%nat := b]> (ints_of f).
Proof.
  intros Hl. unfold ints_of. cbn. rewrite drop_app_le by lia. rewrite pad_snoc; rewrite length_drop; [done|lia].
Qed.

Lemma addrs_at f k : (k < 7)%nat -> aget (addrs_of f) k = if decide (k < length (fi_blocks f))%nat then aget (fi_blocks f) k else 0.
Proof.
  intros Hk. unfold addrs_of. rewrite <- (aget_pad 7) by done. unfold aget. by rewrite lookup_app_l by (rewrite length_pad; lia).
Qed.

Lemma addrs_at_ind f : aget (addrs_of f) 7 = fi_ind f.
Proof. unfold addrs_of. apply aget_lookup. rewrite lookup_app_r by (rewrite length_pad; lia). by rewrite length_pad. Qed.

Section append.
Context (fs : list finfo) (m : mfs) (k : nat) (f : finfo) (din : dinode).
Hypothesis (Hok : data_ok fs m) (Hk : fs !! k = Some f) (Hdin : d_addrs din = addrs_of f).

Lemma block_id r b : has f r b -> xint b = b /\ b <> 0 /\ m_freeblock m <> 0.
Proof.
  intros Hb. pose proof (has_lt fs m k f Hok Hk r b Hb) as Hr. unfold nmeta in Hr.
  assert (is_Some (m_img m !! b)) as [d Hd].
  { destruct r as [j|]; [eexists; by apply (fr_blocks _ _ (do_files _ _ Hok _ _ Hk))|].
    destruct Hb as [<- Hb]. eexists. by apply (fr_ints _ _ (do_files _ _ Hok _ _ Hk)). }
  apply (do_img _ _ Hok) in Hd as [Hd _]. unfold FSSIZE in Hd. split_and!; [apply xint_id|..]; lia.
Qed.

Lemma ints_u32s : u32s (ints_of f).
Proof.
  apply Forall_lookup. intros j b Hj. pose proof (lookup_lt_Some _ _ _ Hj) as Hl. unfold ints_of in *. rewrite length_pad in Hl.
  rewrite pad_lookup in Hj by done. case_decide as Hd; [|simplify_eq; lia]. injection Hj as <-.
  assert (has f (Some (7 + j)%nat) (aget (drop 7 (fi_blocks f)) j)) as Hh.
  { unfold has. rewrite <- lookup_drop. by apply lookup_aget. }
  pose proof (has_lt fs m k f Hok Hk _ _ Hh) as Hr.
  pose proof (fr_blocks _ _ (do_files _ _ Hok _ _ Hk) _ _ Hh) as Hb. apply (do_img _ _ Hok) in Hb as [Hb _].
  unfold FSSIZE in Hb. lia.
Qed.

Lemma with_addrs_same : with_addrs din (addrs_of f) = din.
Proof. rewrite <- Hdin. by destruct din. Qed.

Lemma set_addr_addrs j b l : <[j := b]> (addrs_of f) = l -> set_addr din j b = with_addrs din l.
Proof. intros <-. unfold set_addr. by rewrite Hdin. Qed.

Lemma fill_old j r b : aget (addrs_of f) j = b -> has f r b -> fill_addr din j m = inr (din, m).
Proof.
  intros Hj Hb. destruct (block_id r b Hb) as (Hx & H0 & _). unfold fill_addr. rewrite Hdin, Hj, Hx.
  by rewrite (proj2 (Z.eqb_neq _ _)).
Qed.

Lemma fill_new j l : aget (addrs_of f) j = 0 -> m_freeblock m < FSSIZE -> <[j := m_freeblock m]> (addrs_of f) = l ->
  fill_addr din j m = inr (with_addrs din l, took m).
Proof.
  intros Hj Hroom Hl. unfold fill_addr. rewrite Hdin, Hj. change (xint 0 =? 0) with true. unfold kbind.
  rewrite (next_block_ok fs) by done.
  pose proof (free_ge fs m Hok). unfold nmeta, FSSIZE in *. unfold kret. rewrite xint_id by lia. by rewrite (set_addr_addrs _ _ l Hl).
Qed.
End append.

(** The result of block_at: file [k] now has block [j], which is [x]. *)
Record block_found (fs : list finfo) (m : mfs) (k : nat) (f : finfo) (j : nat) (x : Z) (f' : finfo) (m' : mfs) : Prop := {
  bf_ok : data_ok (<[k := f']> fs) m';
  bf_data : fi_data f' = fi_data f;
  bf_type : fi_type f' = fi_type f;
  bf_at : fi_blocks f' !! j = Some x;
  bf_len : length (fi_blocks f') = S j;
  bf_ind : ind_iff f';
  bf_low : same_low m m'
}.

Lemma same_low_took m : same_low m (took m).
Proof. done. Qed.

Lemma same_low_insert m b d fb : nmeta <= b -> same_low m (mk_mfs (<[b := d]> (m_img m)) (m_sb m) (m_freeinode m) fb).
Proof. intros Hb. split; [done|]. intros c Hc. cbn. by rewrite lookup_insert_ne by lia. Qed.

Lemma kbind_ok {A B} (f : mkfs A) (g : A -> mkfs B) m a m' : f m = inr (a, m') -> kbind f g m = g a m'.
Proof. intros H. unfold kbind. by rewrite H. Qed.

(** The entry of block [j] in the indirect block. *)
Lemma ints_at f j : (7 <= j < 135)%nat ->
  aget (ints_of f) (j - 7) = if decide (j < length (fi_blocks f))%nat then aget (fi_blocks f) j else 0.
Proof.
  intros Hj. unfold ints_of. rewrite aget_pad, length_drop by lia. do 2 case_decide; try lia. unfold aget. rewrite lookup_drop.
  do 2 f_equal. lia.
Qed.

Section indirect.
Context (fs : list finfo) (m : mfs) (k : nat) (f : finfo).
Hypothesis (Hok : data_ok fs m) (Hk : fs !! k = Some f) (Hind : fi_ind f <> 0).

Lemma read_indirect j : indirect_at (fi_ind f) (j - 7) m =
  (if aget (ints_of f) (j - 7) =? 0 then
     b <- next_block ;;
     wsect (fi_ind f) (ints_block (<[(j - 7)%nat := xint b]> (ints_of f))) ;;;
     kret (xint (aget (<[(j - 7)%nat := xint b]> (ints_of f)) (j - 7)))
   else kret (xint (aget (ints_of f) (j - 7)))) m.
Proof.
  unfold indirect_at, rsect, kgets. unfold kbind at 1 2. pose proof (do_files _ _ Hok _ _ Hk) as Hf. rewrite (fr_ints _ _ Hf Hind).
  unfold kret at 1. rewrite block_ints_block; [done|apply length_pad|by eapply ints_u32s].
Qed.

Lemma indirect_old j x : fi_blocks f !! j = Some x -> (7 <= j < 135)%nat -> indirect_at (fi_ind f) (j - 7) m = inr (x, m).
Proof.
  intros Hx Hj. rewrite read_indirect, ints_at, decide_True by (done || by eapply lookup_lt_Some).
  rewrite (aget_lookup _ _ _ Hx). destruct (block_id fs m k f Hok Hk (Some j) x Hx) as (Hxi & Hx0 & _).
  rewrite (proj2 (Z.eqb_neq _ _)) by done. unfold kret. by rewrite Hxi.
Qed.

Lemma indirect_new j : length (fi_blocks f) = j -> (7 <= j < 135)%nat -> m_freeblock m < FSSIZE ->
  indirect_at (fi_ind f) (j - 7) m = inr (m_freeblock m, took_ind m f (m_freeblock m)).
Proof.
  intros Hl Hj Hroom. rewrite read_indirect, ints_at, decide_False by lia. change (0 =? 0) with true. cbv match.
  rewrite (kbind_ok _ _ _ _ _ (next_block_ok fs m Hok Hroom)). pose proof (free_ge fs m Hok). unfold nmeta, FSSIZE in *.
  rewrite xint_id by lia. unfold kbind, wsect, kmod, kret, took_ind. rewrite ints_indirect by lia. rewrite Hl.
  rewrite aget_insert_eq by (unfold ints_of; rewrite length_pad; lia). rewrite xint_id by lia. done.
Qed.
End indirect.

Lemma block_at_old fs m k f din j :
  data_ok fs m -> fs !! k = Some f -> d_addrs din = addrs_of f -> length (fi_blocks f) = S j -> ind_iff f ->
  exists x, block_at din (Z.of_nat j) m = inr ((x, with_addrs din (addrs_of f)), m) /\ block_found fs m k f j x f m.
Proof.
  intros Hok Hk Hdin Hlen Hi. destruct (lookup_lt_is_Some_2 (fi_blocks f) j ltac:(lia)) as [x Hx]. exists x.
  split; [|by split; rewrite ?list_insert_id]. rewrite (with_addrs_same f) by done.
  destruct (block_id fs m k f Hok Hk (Some j) x Hx) as (Hxi & Hx0 & _). unfold block_at, NDIRECT, idx.
  destruct (Z.ltb_spec (Z.of_nat j) 7) as [Hlt|Hge]; rewrite ?Nat2Z.id.
  - assert (aget (addrs_of f) j = x) as Ha by (rewrite addrs_at, decide_True by lia; by apply aget_lookup).
    rewrite (kbind_ok _ _ _ _ _ (fill_old fs m k f din Hok Hk Hdin _ (Some j) x Ha Hx)). unfold kret. by rewrite Hdin, Ha, Hxi.
  - assert (fi_ind f <> 0) as Hi0 by (unfold ind_iff in Hi; lia).
    destruct (block_id fs m k f Hok Hk None (fi_ind f) (conj eq_refl Hi0)) as (Hii & _ & _).
    rewrite (kbind_ok _ _ _ _ _ (fill_old fs m k f din Hok Hk Hdin _ None (fi_ind f) (addrs_at_ind f) (conj eq_refl Hi0))).
    pose proof (fr_max _ _ (do_files _ _ Hok _ _ Hk)). change (Z.to_nat 7) with 7%nat. rewrite Hdin, addrs_at_ind, Hii.
    replace (Z.to_nat (Z.of_nat j - 7)) with (j - 7)%nat by lia.
    by rewrite (kbind_ok _ _ _ _ _ (indirect_old fs m k f Hok Hk Hi0 j x Hx ltac:(lia))).
Qed.

(** The indirect block is there, or is taken now. *)
Lemma fill_ind fs m k f din j :
  data_ok fs m -> fs !! k = Some f -> d_addrs din = addrs_of f -> length (fi_blocks f) = j -> (7 <= j)%nat -> ind_iff f ->
  m_freeblock m + (if decide (j = 7)%nat then 2 else 1) <= FSSIZE ->
  exists f1 m1, fill_addr din 7 m = inr (with_addrs din (addrs_of f1), m1) /\ data_ok (<[k := f1]> fs) m1 /\
    fi_data f1 = fi_data f /\ fi_type f1 = fi_type f /\ fi_blocks f1 = fi_blocks f /\ fi_ind f1 <> 0 /\
    m_freeblock m1 < FSSIZE /\ same_low m m1.
Proof.
  intros Hok Hk Hdin Hlen Hj Hi Hroom. pose proof (free_ge fs m Hok) as Hge. unfold nmeta in Hge. case_decide as H7.
  - assert (fi_ind f = 0) as Hi0 by (apply Hi; lia). exists (add_ind f (m_freeblock m)), (took m). split_and!; try done.
    + apply (fill_new fs m f din Hok Hdin); [by rewrite addrs_at_ind|lia|by rewrite addrs_ind].
    + apply take_ind; [done|done|lia|done].
    + cbn. lia.
    + cbn. lia.
  - assert (fi_ind f <> 0) as Hi0 by (unfold ind_iff in Hi; lia). exists f, m. rewrite list_insert_id by done.
    rewrite (with_addrs_same f) by done. split_and!; try done; [|lia].
    by apply (fill_old fs m k f din Hok Hk Hdin _ None (fi_ind f)); [apply addrs_at_ind|].
Qed.

Lemma block_at_new fs m k f din j :
  data_ok fs m -> fs !! k = Some f -> d_addrs din = addrs_of f -> length (fi_blocks f) = j -> (j < 135)%nat -> ind_iff f ->
  m_freeblock m + (if decide (j = 7)%nat then 2 else 1) <= FSSIZE ->
  exists x f' m', block_at din (Z.of_nat j) m = inr ((x, with_addrs din (addrs_of f')), m') /\ block_found fs m k f j x f' m'.
Proof.
  intros Hok Hk Hdin Hlen Hj Hi Hroom. pose proof (free_ge fs m Hok) as Hge. unfold nmeta in Hge.
  unfold block_at, NDIRECT, idx. destruct (Z.ltb_spec (Z.of_nat j) 7) as [Hlt|Hge7]; rewrite ?Nat2Z.id.
  - rewrite decide_False in Hroom by lia.
    assert (aget (addrs_of f) j = 0) as Ha by (rewrite addrs_at, decide_False by lia; done).
    exists (m_freeblock m), (add_block f (m_freeblock m)), (took m).
    rewrite (kbind_ok _ _ _ _ _ (fill_new fs m f din Hok Hdin j (addrs_of (add_block f (m_freeblock m))) Ha ltac:(lia)
      ltac:(rewrite addrs_direct by lia; by rewrite Hlen))).
    split.
    + unfold kret. cbn [with_addrs d_addrs]. rewrite addrs_at, decide_True by (cbn; rewrite ?length_app; cbn; lia).
      do 3 f_equal. cbn. rewrite (aget_lookup _ j (m_freeblock m)) by (subst j; by rewrite list_lookup_middle). apply xint_id.
      unfold FSSIZE in *. lia.
    + split; try done.
      * apply take_direct; [done|done|lia|lia].
      * cbn. subst j. by rewrite list_lookup_middle.
      * cbn. rewrite length_app. cbn. lia.
      * unfold ind_iff in *. cbn. rewrite length_app. cbn. lia.
  - change (Z.to_nat 7) with 7%nat. replace (Z.to_nat (Z.of_nat j - 7)) with (j - 7)%nat by lia.
    destruct (fill_ind fs m k f din j Hok Hk Hdin Hlen ltac:(lia) Hi Hroom) as (f1 & m1 & Hfill & Hok1 & Hd1 & Ht1 & Hb1 & Hi1 & Hr1 & Hl1).
    assert (<[k := f1]> fs !! k = Some f1) as Hk1 by (apply list_lookup_insert_eq; by eapply lookup_lt_Some).
    rewrite (kbind_ok _ _ _ _ _ Hfill). cbn [with_addrs d_addrs]. rewrite addrs_at_ind.
    destruct (block_id _ m1 k f1 Hok1 Hk1 None (fi_ind f1) (conj eq_refl Hi1)) as (Hii & _ & _). rewrite Hii.
    exists (m_freeblock m1), (add_block f1 (m_freeblock m1)), (took_ind m1 f1 (m_freeblock m1)).
    rewrite (kbind_ok _ _ _ _ _ (indirect_new _ m1 k f1 Hok1 Hk1 Hi1 j ltac:(congruence) ltac:(lia) Hr1)).
    split; [by rewrite addrs_indirect by (rewrite Hb1; lia)|]. split; try done.
    + rewrite <- (list_insert_insert_eq fs k (add_block f1 (m_freeblock m1)) f1). apply take_indirect; [done|done|done|done|]. rewrite Hb1. lia.
    + cbn. rewrite Hb1, <- Hlen. by rewrite list_lookup_middle.
    + cbn. rewrite length_app, Hb1. cbn. lia.
    + unfold ind_iff in *. cbn. rewrite length_app, Hb1. cbn. lia.
    + etransitivity; [exact Hl1|]. apply same_low_insert.
      by apply (has_lt _ m1 k f1 Hok1 Hk1 None).
Qed.

Lemma nblk_bounds n : (512 * nblk n < n + 512 /\ n <= 512 * nblk n)%nat.
Proof. unfold nblk. pose proof (Nat.div_mod (n + 511) 512 ltac:(lia)). pose proof (Nat.mod_upper_bound (n + 511) 512). lia. Qed.

Lemma nblk_unique n j : (512 * j < n + 512)%nat -> (n <= 512 * j)%nat -> nblk n = j.
Proof. pose proof (nblk_bounds n). nia. Qed.

Lemma need_mono a b : (a <= b)%nat -> (need a <= need b)%nat.
Proof. intros H. pose proof (nblk_bounds a). pose proof (nblk_bounds b). unfold need. do 2 case_decide; lia. Qed.

Lemma freeblock_step fs m k f f' m' :
  data_ok fs m -> data_ok (<[k := f']> fs) m' -> fs !! k = Some f ->
  m_freeblock m' - Z.of_nat (fsize f') = m_freeblock m - Z.of_nat (fsize f).
Proof.
  intros H1 H2 Hk. pose proof (used_insert fs k f f' Hk). pose proof (do_free _ _ H1). pose proof (do_free _ _ H2). lia.
Qed.

Lemma block_at_ok fs m k f din :
  data_ok fs m -> fs !! k = Some f -> d_addrs din = addrs_of f -> tight f -> (length (fi_data f) < 512 * 135)%nat ->
  m_freeblock m - Z.of_nat (fsize f) + Z.of_nat (need (length (fi_data f) + 1)) <= FSSIZE ->
  let j := (length (fi_data f) / 512)%nat in
  exists x f' m', block_at din (Z.of_nat j) m = inr ((x, with_addrs din (addrs_of f')), m') /\ block_found fs m k f j x f' m'.
Proof.
  intros Hok Hk Hdin [Hlen Hi] Hmax Hroom j. pose proof (Nat.div_mod (length (fi_data f)) 512 ltac:(lia)) as Hdm. fold j in Hdm.
  pose proof (Nat.mod_upper_bound (length (fi_data f)) 512 ltac:(lia)).
  destruct (decide (length (fi_data f) mod 512 = 0)%nat) as [H0|H0].
  - assert (length (fi_blocks f) = j) as Hj by (rewrite Hlen; apply nblk_unique; lia). apply block_at_new; try done; [lia|].
    rewrite (fsize_need f _ Hlen Hi) in Hroom. unfold need in Hroom. rewrite <- Hlen, Hj in Hroom.
    rewrite (nblk_unique (length (fi_data f) + 1) (S j)) in Hroom by lia. repeat case_decide; lia.
  - assert (length (fi_blocks f) = S j) as Hj by (rewrite Hlen; apply nblk_unique; lia).
    destruct (block_at_old fs m k f din j Hok Hk Hdin Hj Hi) as (x & Hb & Hf). by exists x, f, m.
Qed.

(** What iappend makes of file [k]. *)
Record appended (fs : list finfo) (m : mfs) (k : nat) (f : finfo) (p : list Z) (f' : finfo) (m' : mfs) : Prop := {
  ap_ok : data_ok (<[k := f']> fs) m';
  ap_data : fi_data f' = fi_data f ++ p;
  ap_type : fi_type f' = fi_type f;
  ap_tight : tight f';
  ap_low : same_low m m'
}.

(** One round of the loop. *)
Lemma iappend_round fs m k f din l :
  data_ok fs m -> fs !! k = Some f -> d_addrs din = addrs_of f -> tight f ->
  let L := length (fi_data f) in let j := (L / 512)%nat in
  (0 < length l)%nat -> (L + length l <= 512 * S j)%nat -> (L < 512 * 135)%nat ->
  m_freeblock m - Z.of_nat (fsize f) + Z.of_nat (need (L + length l)) <= FSSIZE ->
  exists x f' m1 buf, block_at din (Z.of_nat j) m = inr ((x, with_addrs din (addrs_of f')), m1) /\
    m_img m1 !! x = Some buf /\
    appended fs m k f l f' (wrote m1 x (splice (L - 512 * j) l buf)).
Proof.
  intros Hok Hk Hdin Ht L j Hl Hle Hmax Hroom. pose proof (Nat.div_mod L 512 ltac:(lia)) as Hdm. fold j in Hdm.
  destruct (block_at_ok fs m k f din Hok Hk Hdin Ht Hmax) as (x & f1 & m1 & Hb & [Hok1 Hd1 Ht1 Hx1 Hl1 Hi1 Hlow1]).
  { pose proof (need_mono (L + 1) (L + length l) ltac:(lia)). unfold L in *. lia. }
  fold L in Hb, Hx1, Hl1. fold j in Hb, Hx1, Hl1.
  assert (<[k := f1]> fs !! k = Some f1) as Hk1 by (apply list_lookup_insert_eq; by eapply lookup_lt_Some).
  pose proof (fr_blocks _ _ (do_files _ _ Hok1 _ _ Hk1) _ _ Hx1) as Hbuf.
  exists x, (add_data f1 l), m1, (blk (fi_data f1) j). split; [done|]. split; [done|].
  unfold L. rewrite <- Hd1, blk_splice by (rewrite Hd1; fold L; lia).
  pose proof (write_block _ m1 k f1 l j x Hok1 Hk1 Hx1 Hl1 ltac:(rewrite Hd1; fold L; lia) ltac:(rewrite Hd1; fold L; lia)) as Hok2.
  rewrite list_insert_insert_eq in Hok2. split; cbn; [done|by rewrite Hd1|done| |].
  - split; [|done]. cbn. rewrite Hl1, length_app, Hd1. fold L. symmetry. apply nblk_unique; lia.
  - etransitivity; [exact Hlow1|]. apply same_low_insert. by apply (has_lt _ m1 k f1 Hok1 Hk1 (Some j)).
Qed.

Lemma appended_nil fs m k f : data_ok fs m -> fs !! k = Some f -> tight f -> appended fs m k f [] f m.
Proof. intros Hok Hk Ht. split; rewrite ?list_insert_id, ?app_nil_r; done. Qed.

Lemma appended_app fs m k f l f1 m1 p f2 m2 :
  appended fs m k f l f1 m1 -> appended (<[k := f1]> fs) m1 k f1 p f2 m2 -> appended fs m k f (l ++ p) f2 m2.
Proof.
  intros [H1 H2 H3 H4 H5] [K1 K2 K3 K4 K5]. rewrite list_insert_insert_eq in K1. split; try done.
  - by rewrite K2, H2, app_assoc.
  - congruence.
  - by etransitivity.
Qed.

Lemma iappend_loop_ok fuel fs m k f din p :
  data_ok fs m -> fs !! k = Some f -> d_addrs din = addrs_of f -> tight f -> (length p <= fuel)%nat ->
  let L := length (fi_data f) in (L + length p <= 512 * 135)%nat ->
  m_freeblock m - Z.of_nat (fsize f) + Z.of_nat (need (L + length p)) <= FSSIZE ->
  exists f' m', iappend_loop fuel din (Z.of_nat L) p m =
      inr ((with_addrs din (addrs_of f'), Z.of_nat (L + length p)), m') /\ appended fs m k f p f' m'.
Proof.
  revert m fs f din p. induction fuel as [|fuel IH]; intros m fs f din p Hok Hk Hdin Ht Hfuel L Hmax Hroom.
  { destruct p; [|cbn in Hfuel; lia]. exists f, m. split; [|by apply appended_nil]. cbn. by rewrite (with_addrs_same f), Nat.add_0_r. }
  destruct (decide (p = [])) as [->|Hne].
  { exists f, m. split; [|by apply appended_nil]. cbn. by rewrite (with_addrs_same f), Nat.add_0_r. }
  assert (0 < length p)%nat as Hp by (destruct p; [done|cbn; lia]).
  pose proof (Nat.div_mod L 512 ltac:(lia)) as Hdm. pose proof (Nat.mod_upper_bound L 512 ltac:(lia)). set (j := (L / 512)%nat) in *.
  set (n1 := (length p `min` (512 * S j - L))%nat). assert (length (take n1 p) = n1) as Hn1 by (rewrite length_take; lia).
  destruct (iappend_round fs m k f din (take n1 p) Hok Hk Hdin Ht) as (x & f1 & m1 & buf & Hb & Hbuf & Happ);
    [lia|fold L j; lia|fold L; lia| |].
  { pose proof (need_mono (L + length (take n1 p)) (L + length p) ltac:(lia)). unfold L in *. lia. }
  fold L in Hb, Happ. fold j in Hb, Happ. set (m2 := wrote _ _ _) in Happ.
  assert (<[k := f1]> fs !! k = Some f1) as Hk1 by (apply list_lookup_insert_eq; by eapply lookup_lt_Some).
  assert (length (fi_data f1) = L + n1)%nat as HL1 by (rewrite (ap_data _ _ _ _ _ _ _ Happ), length_app, Hn1; done).
  destruct (IH m2 (<[k := f1]> fs) f1 (with_addrs din (addrs_of f1)) (drop n1 p)) as (f2 & m3 & Hrun & Happ2);
    rewrite ?HL1, ?length_drop; try done; try lia; try apply Happ.
  { pose proof (freeblock_step fs m k f f1 m2 Hok ltac:(apply Happ) Hk). replace (L + n1 + (length p - n1))%nat with (L + length p)%nat by lia. lia. }
  exists f2, m3. split; [|rewrite <- (take_drop n1 p); by eapply appended_app].
  rewrite HL1, length_drop in Hrun. replace (L + n1 + (length p - n1))%nat with (L + length p)%nat in Hrun by lia.
  cbn [iappend_loop]. rewrite (proj2 (Z.leb_gt _ _)) by lia.
  assert (Z.of_nat L / BSIZE = Z.of_nat j) as Hj by (symmetry; apply (Nat2Z.inj_div L 512)). rewrite Hj.
  unfold kassert. rewrite (proj2 (Z.ltb_lt _ _)) by (change MAXFILE with 135; lia).
  rewrite (kbind_ok _ _ m tt m eq_refl), (kbind_ok _ _ _ _ _ Hb). cbn [fst snd].
  rewrite (kbind_ok _ _ m1 buf m1) by (unfold rsect, kbind, kgets; by rewrite Hbuf).
  replace (Z.min (Z.of_nat (length p)) ((Z.of_nat j + 1) * BSIZE - Z.of_nat L)) with (Z.of_nat n1) by (unfold BSIZE; lia).
  replace (idx (Z.of_nat L - Z.of_nat j * BSIZE)) with (L - 512 * j)%nat by (unfold idx, BSIZE; lia).
  unfold idx. rewrite Nat2Z.id. rewrite (kbind_ok _ _ m1 tt m2) by done.
  unfold u32. rewrite Z.mod_small by lia. by rewrite <- Nat2Z.inj_add.
Qed.

(** ** The inodes of an image *)

Definition din_of (f : finfo) : dinode :=
  mk_dinode (fi_type f) 0 0 1 (Z.of_nat (length (fi_data f))) (addrs_of f) (chars "root" ++ replicate 12 0) mkfs_mode.

(** Inode [n] of the image is [d]. *)
Definition holds_din (img : gmap Z (list Z)) (n : Z) (d : dinode) : Prop :=
  exists buf, img !! IBLOCK n the_sb = Some buf /\ length buf = 512%nat /\ take 64 (drop (dinode_off n) buf) = dinode_bytes d.

(** The block of the super block. *)
Definition super_block : list Z := splice 0 (sb_bytes the_sb) zeros.

Record image_ok (fs : list finfo) (m : mfs) : Prop := {
  im_data : data_ok fs m;
  im_super : m_img m !! 1 = Some super_block;
  im_tight k f : fs !! k = Some f -> tight f;
  im_type k f : fs !! k = Some f -> fi_type f = T_DIR \/ fi_type f = T_FILE;
  im_inode k f : fs !! k = Some f -> holds_din (m_img m) (Z.of_nat k + 1) (din_of f);
  im_next : m_freeinode m = Z.of_nat (length fs) + 1;
  im_count : (length fs < 200)%nat
}.

Lemma dinode_off_range n : (dinode_off n + 64 <= 512)%nat.
Proof. unfold dinode_off, idx, IPB. pose proof (Z.mod_pos_bound n 8). lia. Qed.

Lemma iblock_range n : 0 <= n < 200 -> 32 <= IBLOCK n the_sb < 58.
Proof. intros Hn. unfold IBLOCK, IPB, the_sb, sb_inodestart. pose proof (Z.div_pos n 8). pose proof (Z.div_lt_upper_bound n 8 26). lia. Qed.

(** Different inodes of one block do not overlap. *)
Lemma dinode_off_apart n n' : 0 <= n -> 0 <= n' -> n <> n' -> IBLOCK n the_sb = IBLOCK n' the_sb ->
  (dinode_off n + 64 <= dinode_off n' \/ dinode_off n' + 64 <= dinode_off n)%nat.
Proof.
  unfold IBLOCK, IPB, dinode_off, idx, IPB. intros H1 H2 Hne Hb. pose proof (Z.div_mod n 8). pose proof (Z.div_mod n' 8).
  pose proof (Z.mod_pos_bound n 8). pose proof (Z.mod_pos_bound n' 8). lia.
Qed.

Lemma field_splice o l d : (o + length l <= length d)%nat -> take (length l) (drop o (splice o l d)) = l.
Proof.
  intros H. unfold splice. rewrite drop_app_length' by (rewrite length_take; lia). by rewrite take_app_length.
Qed.

Lemma field_splice_ne o o' n l d : (o + length l <= length d)%nat -> (o' + n <= length d)%nat ->
  (o' + n <= o \/ o + length l <= o')%nat -> take n (drop o' (splice o l d)) = take n (drop o' d).
Proof.
  intros Hl Hn Hd. apply list_eq_same_length with n; rewrite ?length_take, ?length_drop, ?length_splice; try lia.
  intros i x y Hi Hx Hy. rewrite lookup_take_lt, lookup_drop in Hx, Hy by done.
  apply aget_lookup in Hx, Hy. rewrite aget_splice, decide_False in Hx by lia. congruence.
Qed.

Lemma data_ok_low fs m b d n : data_ok fs m -> 0 <= b < nmeta -> length d = 512%nat ->
  data_ok fs (mk_mfs (<[b := d]> (m_img m)) (m_sb m) n (m_freeblock m)).
Proof.
  intros [Hsb Himg Hall Hfree Hzero Hrange Hinj Hfiles] Hb Hd. unfold nmeta in *. split; cbn [m_img m_sb m_freeblock]; try done.
  - intros c e Hc. apply lookup_insert_Some in Hc as [[<- <-]|[_ Hc]]; [|by apply Himg]. unfold FSSIZE. split; [lia|done].
  - intros c Hc. apply lookup_insert_is_Some'. right. by apply Hall.
  - intros c Hc. rewrite lookup_insert_ne by lia. by apply Hzero.
  - intros k f Hk. destruct (Hfiles k f Hk) as [H1 H2 H3 H4 H5]. split; try done.
    + intros Hi. rewrite lookup_insert_ne; [by apply H4|]. pose proof (Hrange k f None _ Hk (conj eq_refl Hi)). lia.
    + intros j c Hc. rewrite lookup_insert_ne; [by apply H5|]. pose proof (Hrange k f (Some j) _ Hk Hc). lia.
Qed.

Lemma winode_ok fs m n d : data_ok fs m -> 0 <= n < 200 -> length (dinode_bytes d) = 64%nat ->
  exists m', winode n d m = inr (tt, m') /\ data_ok fs m' /\ m_freeinode m' = m_freeinode m /\ m_freeblock m' = m_freeblock m /\
    holds_din (m_img m') n d /\ (forall b, b <> IBLOCK n the_sb -> m_img m' !! b = m_img m !! b) /\
    (forall n' d', 0 <= n' -> n' <> n -> holds_din (m_img m) n' d' -> holds_din (m_img m') n' d').
Proof.
  intros Hok Hn Hd. pose proof (iblock_range n Hn) as Hbn. pose proof (dinode_off_range n) as Hoff.
  destruct (do_all _ _ Hok (IBLOCK n the_sb)) as [buf Hbuf]; [unfold FSSIZE; lia|].
  pose proof (do_img _ _ Hok _ _ Hbuf) as [_ Hlen].
  set (buf' := splice (dinode_off n) (dinode_bytes d) buf). assert (length buf' = 512%nat) as Hlen' by (unfold buf'; rewrite length_splice; lia).
  exists (wrote m (IBLOCK n the_sb) buf'). split_and!; try done.
  - unfold winode, kbind, kgets. rewrite (do_sb _ _ Hok). unfold rsect, kbind, kgets. by rewrite Hbuf.
  - apply data_ok_low; [done|unfold nmeta; lia|done].
  - exists buf'. cbn. rewrite lookup_insert_eq. split_and!; [done|done|]. rewrite <- Hd. unfold buf'. rewrite field_splice; [done|lia].
  - intros b Hb. cbn. by rewrite lookup_insert_ne.
  - intros n' d' Hn' Hne (b & Hb & Hbl & Ht). destruct (decide (IBLOCK n' the_sb = IBLOCK n the_sb)) as [He|He].
    + rewrite He, Hbuf in Hb. injection Hb as <-. exists buf'. cbn [wrote m_img]. rewrite He, lookup_insert_eq. split_and!; [done|done|].
      etransitivity; [|exact Ht]. unfold buf'. apply field_splice_ne; [lia|pose proof (dinode_off_range n'); lia|].
      rewrite Hd. apply dinode_off_apart; lia || done.
    + exists b. cbn. by rewrite lookup_insert_ne.
Qed.

Lemma rinode_ok fs m n d : data_ok fs m -> holds_din (m_img m) n d -> dinode_fits d -> rinode n m = inr (d, m).
Proof.
  intros Hok (buf & Hbuf & _ & Ht) Hd. unfold rinode, kbind, kgets. rewrite (do_sb _ _ Hok). unfold rsect, kbind, kgets.
  rewrite Hbuf. cbn [kret]. unfold kret. by rewrite Ht, dinode_of_bytes.
Qed.
