(* ===== verification/Image.v ===== *)
(** * The image mkfs makes (theorems on mkfs.c)

    mkfs_main as a whole: it succeeds when the files fit, and the kernel finds
    in the image the files with their contents, the root directory and the
    bitmap. *)

From S2P Require Import Prelude Cstring Kernel Spinlock ProcCore Console Bio Quiet Cache Log Crash Inode Fs Files Balloc Mkfs.

(** ** Images by their contents *)

(** The types and contents of the files, inode 1 first. *)
Definition contents (fs : list finfo) : list (Z * list Z) := (fun f => (fi_type f, fi_data f)) <$> fs.

Definition image_is (ex : list (Z * list Z)) (m : mfs) : Prop := exists fs, image_ok fs m /\ contents fs = ex.

(** The blocks the files take. *)
Definition cost (ex : list (Z * list Z)) : nat := sum_list ((fun x => need (length x.2)) <$> ex).

(** The data blocks of the image, and the bytes of the largest file. *)
Definition capacity : nat := 1941.
Definition max_bytes : nat := 512 * 135.

Lemma cost_insert ex k x y : ex !! k = Some x -> (cost (<[k := y]> ex) + need (length x.2) = cost ex + need (length y.2))%nat.
Proof.
  unfold cost. revert k. induction ex as [|z ex IH]; intros [|k] Hk; simplify_eq/=; [lia|]. specialize (IH k Hk). lia.
Qed.

Lemma cost_app ex ex' : cost (ex ++ ex') = (cost ex + cost ex')%nat.
Proof. unfold cost. by rewrite fmap_app, sum_list_with_app. Qed.

Lemma used_cost fs : (forall k f, fs !! k = Some f -> tight f) -> used fs = cost (contents fs).
Proof.
  intros Ht.
  unfold used, cost, contents. induction fs as [|f fs IH]; [done|]. cbn. rewrite IH by (intros k g Hg; by apply (Ht (S k))).
  destruct (Ht 0%nat f eq_refl) as [Hl Hind]. by rewrite (fsize_need f _ Hl Hind).
Qed.

Lemma contents_lookup fs k ty data : contents fs !! k = Some (ty, data) ->
  exists f, fs !! k = Some f /\ fi_type f = ty /\ fi_data f = data.
Proof. unfold contents. rewrite list_lookup_fmap. destruct (fs !! k) as [f|]; [|done]. intros [= <- <-]. by exists f. Qed.

Lemma din_of_fits fs m k f : image_ok fs m -> fs !! k = Some f -> dinode_fits (din_of f).
Proof.
  intros Hi Hk. pose proof (im_data _ _ Hi) as Hok. pose proof (do_files _ _ Hok _ _ Hk) as Hf.
  pose proof (fr_len _ _ Hf). pose proof (fr_max _ _ Hf).
  assert (forall r b, has f r b -> 0 <= b < 2 ^ 32) as Hb.
  { intros r b Hb. pose proof (has_lt _ _ _ _ Hok Hk _ _ Hb). unfold nmeta in *.
    assert (is_Some (m_img m !! b)) as [d Hd].
    { destruct r as [j|]; [eexists; by apply (fr_blocks _ _ Hf)|]. destruct Hb as [<- Hb]. eexists. by apply (fr_ints _ _ Hf). }
    apply (do_img _ _ Hok) in Hd as [Hd _]. unfold FSSIZE in Hd. lia. }
  split; cbn [din_of d_type d_major d_minor d_nlink d_size d_mode d_addrs d_userid]; [|lia|lia|lia|lia|done| |done].
  - destruct (im_type _ _ Hi _ _ Hk) as [-> | ->]; unfold T_DIR, T_FILE; lia.
  - split; [unfold addrs_of; rewrite length_app, length_pad; done|]. apply Forall_app. split; [|apply Forall_singleton].
    + apply Forall_lookup. intros j a Ha. pose proof (lookup_lt_Some _ _ _ Ha) as Hl. rewrite length_pad in Hl.
      rewrite pad_lookup in Ha by done. case_decide; [|simplify_eq; lia]. injection Ha as <-. apply (Hb (Some j)). by apply lookup_aget.
    + destruct (decide (fi_ind f = 0)) as [->|Hn]; [lia|]. by apply (Hb None).
Qed.

Lemma length_din_of f : length (dinode_bytes (din_of f)) = 64%nat.
Proof. apply length_dinode_bytes; [|done]. cbn. unfold addrs_of. by rewrite length_app, length_pad. Qed.

(** *** iappend and ialloc *)

Lemma holds_low img img' n d : 0 <= n < 200 -> (forall b, b < nmeta -> img' !! b = img !! b) -> holds_din img n d -> holds_din img' n d.
Proof. intros Hn Hlow (buf & Hb & Ht). exists buf. split; [|done]. rewrite Hlow; [done|]. pose proof (iblock_range n Hn). unfold nmeta. lia. Qed.

Lemma iappend_ok ex m k ty data p :
  image_is ex m -> ex !! k = Some (ty, data) -> (length data + length p <= max_bytes)%nat ->
  (cost (<[k := (ty, data ++ p)]> ex) <= capacity)%nat ->
  exists m', iappend (Z.of_nat k + 1) p m = inr (tt, m') /\ image_is (<[k := (ty, data ++ p)]> ex) m'.
Proof.
  intros (fs & Hi & <-) Hk Hmax Hcap. destruct (contents_lookup _ _ _ _ Hk) as (f & Hf & <- & <-).
  pose proof (im_data _ _ Hi) as Hok. pose proof (lookup_lt_Some _ _ _ Hf) as Hlt. pose proof (im_count _ _ Hi) as Hcnt.
  pose proof (cost_insert _ _ _ (fi_type f, fi_data f ++ p) Hk) as Hcost. cbn [snd] in Hcost. rewrite length_app in Hcost.
  destruct (im_tight _ _ Hi _ _ Hf) as [Hl Hind]. unfold capacity, max_bytes in *.
  destruct (iappend_loop_ok (length p) fs m k f (din_of f) p Hok Hf eq_refl (conj Hl Hind) ltac:(lia) ltac:(lia)) as (f' & m1 & Hrun & Happ).
  { rewrite (do_free _ _ Hok), (used_cost fs (im_tight _ _ Hi)), (fsize_need f _ Hl Hind). unfold nmeta, FSSIZE. lia. }
  destruct Happ as [Hok1 Hd1 Ht1 Htight1 [Hfi1 Hlow1]].
  destruct (winode_ok _ m1 (Z.of_nat k + 1) (din_of f') Hok1 ltac:(lia) (length_din_of f')) as (m2 & Hw & Hok2 & Hfi2 & Hfb2 & Hd2 & Himg2 & Hoth2).
  exists m2. split.
  - unfold iappend. rewrite (kbind_ok _ _ _ _ _ (rinode_ok fs m _ (din_of f) Hok (im_inode _ _ Hi _ _ Hf) (din_of_fits _ _ _ _ Hi Hf))).
    cbn [din_of d_size]. rewrite xint_id by lia. rewrite (kbind_ok _ _ _ _ _ Hrun). cbn [fst snd]. rewrite xint_id by lia.
    replace (set_dsize _ _) with (din_of f'); [done|]. unfold din_of, set_dsize, with_addrs. cbn. by rewrite Ht1, Hd1, length_app.
  - exists (<[k := f']> fs). split; [|unfold contents; rewrite list_fmap_insert; by rewrite Ht1, Hd1]. split; try done.
    + rewrite Himg2 by (pose proof (iblock_range (Z.of_nat k + 1) ltac:(lia)); lia). rewrite Hlow1 by done. apply (im_super _ _ Hi).
    + intros k2 g Hg. apply list_lookup_insert_Some in Hg as [(<- & <- & _)|[_ Hg]]; [done|by eapply im_tight].
    + intros k2 g Hg. apply list_lookup_insert_Some in Hg as [(<- & <- & _)|[_ Hg]]; [rewrite Ht1|]; by eapply im_type.
    + intros k2 g Hg. apply list_lookup_insert_Some in Hg as [(<- & <- & _)|[Hne Hg]]; [done|].
      pose proof (lookup_lt_Some _ _ _ Hg). apply Hoth2; [lia|lia|].
      apply (holds_low (m_img m)); [lia|done|]. by apply (im_inode _ _ Hi).
    + rewrite Hfi2, Hfi1, length_insert. apply (im_next _ _ Hi).
    + rewrite length_insert. done.
Qed.

(** An empty file takes no block. *)
Definition empty_file (ty : Z) : finfo := mk_finfo ty [] [] 0.

Lemma empty_has ty r b : ~ has (empty_file ty) r b.
Proof. destruct r as [j|]; cbn; [done|]. intros [<- H]. done. Qed.

Lemma data_ok_snoc fs m ty : data_ok fs m -> data_ok (fs ++ [empty_file ty]) m.
Proof.
  intros [Hsb Himg Hall Hfree Hzero Hrange Hinj Hfiles].
  assert (forall k g r b, (fs ++ [empty_file ty]) !! k = Some g -> has g r b -> fs !! k = Some g) as Hold.
  { intros k g r b Hg Hb. apply lookup_app_Some in Hg as [Hg|[_ Hg]]; [done|].
    apply list_lookup_singleton_Some in Hg as [_ <-]. by apply empty_has in Hb. }
  split; try done.
  - rewrite Hfree. unfold used. rewrite fmap_app, sum_list_with_app. cbn. lia.
  - intros k g r b Hg Hb. apply (Hrange k g r); [by eapply Hold|done].
  - intros k g r k' g' r' b Hg Hb Hg' Hb'. by eapply Hinj; [eapply Hold|..|eapply Hold|].
  - intros k g Hg. apply lookup_app_Some in Hg as [Hg|[_ Hg]]; [by eapply Hfiles|].
    apply list_lookup_singleton_Some in Hg as [_ <-]. by split; cbn; try lia.
Qed.

Lemma ialloc_ok ex m ty : image_is ex m -> ty = T_DIR \/ ty = T_FILE -> (length ex < 199)%nat ->
  exists m', mkfs_ialloc ty m = inr (Z.of_nat (length ex) + 1, m') /\ image_is (ex ++ [(ty, [])]) m'.
Proof.
  intros (fs & Hi & <-) Hty Hlen. unfold contents in Hlen |- *. rewrite length_fmap in *. pose proof (im_data _ _ Hi) as Hok.
  set (n := Z.of_nat (length fs) + 1). set (m1 := mk_mfs (m_img m) (m_sb m) (n + 1) (m_freeblock m)).
  assert (data_ok (fs ++ [empty_file ty]) m1) as Hok1.
  { pose proof (data_ok_snoc fs m ty Hok) as []. by split. }
  destruct (winode_ok _ m1 n (din_of (empty_file ty)) Hok1 ltac:(lia) (length_din_of _)) as (m2 & Hw & Hok2 & Hfi2 & Hfb2 & Hd2 & Himg2 & Hoth2).
  exists m2. split.
  - unfold mkfs_ialloc. rewrite (kbind_ok _ _ m n m1).
    + replace (mk_dinode _ _ _ _ _ _ _ _) with (din_of (empty_file ty)); [by rewrite (kbind_ok _ _ _ _ _ Hw)|].
      unfold din_of. by destruct Hty as [-> | ->].
    + unfold next_inode, kbind, kgets, kmod, kret. rewrite (im_next _ _ Hi). fold n. unfold m1, u32. by rewrite Z.mod_small by lia.
  - exists (fs ++ [empty_file ty]). split; [|unfold contents; by rewrite fmap_app]. split; try done.
    + rewrite Himg2 by (pose proof (iblock_range n ltac:(lia)); lia). apply (im_super _ _ Hi).
    + intros k g Hg. apply lookup_app_Some in Hg as [Hg|[_ Hg]]; [by eapply im_tight|].
      apply list_lookup_singleton_Some in Hg as [_ <-]. split; [done|]. split; [cbn; lia|done].
    + intros k g Hg. apply lookup_app_Some in Hg as [Hg|[_ Hg]]; [by eapply im_type|].
      apply list_lookup_singleton_Some in Hg as [_ <-]. done.
    + intros k g Hg. apply lookup_app_Some in Hg as [Hg|[Hk Hg]].
      * pose proof (lookup_lt_Some _ _ _ Hg). apply Hoth2; [lia|lia|]. by apply (im_inode _ _ Hi).
      * apply list_lookup_singleton_Some in Hg as [Hk' <-]. by replace (Z.of_nat k + 1) with n by lia.
    + rewrite Hfi2, length_app. cbn. lia.
    + rewrite length_app. cbn. lia.
Qed.

(** ** What the kernel reads *)

(** Inode [n] of the image as the kernel sees it: ilock() decodes an inode of
    type [ty] and size [size] that belongs to root, and readi() on it returns
    the bytes of [data]. *)
Definition kernel_sees (img : gmap Z (list Z)) (n ty size : Z) (data : list Z) : Prop :=
  forall p s i y, cache_ok p [] s -> room [] s -> (forall b, bview s b = img !! b) ->
    (forall b, is_Some (img !! b) -> is_Some (k_disk s !! b)) -> length (iuserid y) = 16%nat ->
  exists d x, img !! IBLOCK n the_sb = Some d /\ decode_dinode d (dinode_off n) y = Some x /\
    itype x = ty /\ isize x = size /\ inlink x = 1 /\ cstr (iuserid x) = Some (chars "root") /\ imode x = mkfs_mode /\
    (iget_ s i = x -> idev x = 1 -> forall off cnt, 0 <= off -> 0 <= cnt -> off + cnt <= Z.of_nat (length data) ->
       exists u, readi i off cnt s = Done (Ok (cnt, take (idx cnt) (drop (idx off) data))) u /\ looked p s u).

(** The bytes of the blocks of a file. *)
Definition padded (f : finfo) : list Z := pad (512 * length (fi_blocks f)) (fi_data f).

Lemma le_load_at n d o b l k : d = take o d ++ b ++ l -> (o <= length d)%nat -> le_load n d (o + k) = le_load n (b ++ l) k.
Proof. intros Hd Ho. rewrite Hd at 1. rewrite <- (le_load_app_r n (take o d) (b ++ l) k). by rewrite length_take, Nat.min_l. Qed.

Lemma decode_din d o f y : take 64 (drop o d) = dinode_bytes f -> (o + 64 <= length d)%nat -> dinode_fits f ->
  length (iuserid y) = 16%nat -> d_userid f = chars "root" ++ replicate 12 0 ->
  exists x, decode_dinode d o y = Some x /\ itype x = d_type f /\ isize x = d_size f /\ inlink x = d_nlink f /\
    imode x = d_mode f /\ iaddrs x = d_addrs f /\ cstr (iuserid x) = Some (chars "root") /\ idev x = idev y.
Proof.
  intros Ht Ho Hf Hy Hu. destruct (dinode_loads f (drop (o + 64) d) Hf) as (H1 & H2 & H3 & H4 & H5 & H6 & H7 & H8).
  assert (d = take o d ++ dinode_bytes f ++ drop (o + 64) d) as Hd.
  { rewrite <- Ht, <- (drop_drop d 64 o), take_drop, take_drop. done. }
  assert (forall n k, le_load n d (o + k) = le_load n (dinode_bytes f ++ drop (o + 64) d) k) as Hl by (intros; apply le_load_at; [done|lia]).
  assert (cstr (drop (o + 44) d) = Some (chars "root")) as Hc.
  { rewrite <- (drop_drop d 44 o). rewrite Hd at 1. rewrite drop_app_length' by (rewrite length_take; lia). rewrite H7, Hu.
    rewrite <- app_assoc. by apply cstr_spec; split; [apply (bool_decide_unpack _); vm_compute|eexists]. }
  eexists. split.
  { unfold decode_dinode. rewrite (strcpy_spec _ _ _ Hc); [done|]. unfold userid_bytes. rewrite length_app, length_le_store, Hy. cbn. lia. }
  cbn -[le_load di_addrs take cstr]. unfold di_type. rewrite <- (Nat.add_0_r o) at 1. rewrite !Hl, H1, H4, H5, H8. split_and!; try done.
  unfold di_addrs. rewrite <- H6. apply map_ext. intros k. rewrite <- Nat.add_assoc. apply Hl.
Qed.

Section sees.
Context (fs : list finfo) (m : mfs) (k : nat) (f : finfo) (s : kstate) (x : inode).
Hypothesis (Hok : data_ok fs m) (Hk : fs !! k = Some f) (Hx : iaddrs x = addrs_of f).
Hypothesis (Hview : forall b, bview s b = m_img m !! b) (Hdisk : forall b, is_Some (m_img m !! b) -> is_Some (k_disk s !! b)).

Lemma ind_block : (7 < length (fi_blocks f))%nat -> indirect x = fi_ind f /\ fi_ind f <> 0 /\
  m_img m !! fi_ind f = Some (ints_block (ints_of f)).
Proof.
  intros Hl. pose proof (do_files _ _ Hok _ _ Hk) as Hf. unfold indirect, idx, NDIRECT. rewrite Hx. change (Z.to_nat 7) with 7%nat.
  rewrite addrs_at_ind. pose proof (fr_ind _ _ Hf Hl) as Hi. by rewrite (fr_ints _ _ Hf Hi).
Qed.

Lemma addr_block j b : fi_blocks f !! j = Some b -> addr_of s x (Z.of_nat j) = b.
Proof.
  intros Hj. pose proof (lookup_lt_Some _ _ _ Hj) as Hl. pose proof (do_files _ _ Hok _ _ Hk) as Hf. pose proof (fr_max _ _ Hf).
  unfold addr_of, NDIRECT. destruct (Z.ltb_spec (Z.of_nat j) 7) as [Hlt|Hge].
  - unfold idx. rewrite Nat2Z.id, Hx, addrs_at, decide_True by lia. by apply aget_lookup.
  - destruct (ind_block ltac:(lia)) as (-> & _ & Hi). rewrite Hview, Hi. unfold ints_block, idx.
    replace (Z.to_nat (4 * (Z.of_nat j - 7))) with (4 * (j - 7))%nat by lia.
    rewrite <- (app_nil_r (concat _)). assert (ints_of f !! (j - 7)%nat = Some b) as Hb.
    { rewrite lookup_aget by (unfold ints_of; rewrite length_pad; lia). f_equal. rewrite ints_at, decide_True by lia. by apply aget_lookup. }
    rewrite (le_load_words 4 _ _ b) by done. eapply u32s_at; [|exact Hb]. by eapply ints_u32s.
Qed.

Lemma blocks_mapped j : (j < length (fi_blocks f))%nat -> mapped s x (Z.of_nat j).
Proof.
  intros Hj. destruct (lookup_lt_is_Some_2 _ _ Hj) as [b Hb]. pose proof (do_files _ _ Hok _ _ Hk) as Hf. pose proof (fr_max _ _ Hf).
  pose proof (do_range _ _ Hok _ _ (Some j) b Hk Hb) as Hr. unfold nmeta in Hr. unfold mapped. rewrite (addr_block j b Hb).
  split_and!; [lia|change MAXFILE with 135; lia|lia|apply Hdisk; eexists; by apply (fr_blocks _ _ Hf)|].
  intros Hge. unfold NDIRECT in Hge. destruct (ind_block ltac:(lia)) as (-> & Hi & Hs). split; [done|]. by apply Hdisk; eexists.
Qed.

Lemma fbyte_padded j : (j < 512 * length (fi_blocks f))%nat -> fbyte s x (Z.of_nat j) = aget (padded f) j.
Proof.
  intros Hj. pose proof (Nat.div_mod j 512 ltac:(lia)) as Hdm. pose proof (Nat.mod_upper_bound j 512 ltac:(lia)).
  destruct (lookup_lt_is_Some_2 (fi_blocks f) (j / 512)) as [b Hb]; [lia|]. pose proof (do_files _ _ Hok _ _ Hk) as Hf.
  unfold fbyte, block_of, BSIZE, idx. change 512 with (Z.of_nat 512). rewrite <- (Nat2Z.inj_div j 512), <- (Nat2Z.inj_mod j 512), Nat2Z.id.
  rewrite (addr_block _ _ Hb), Hview, (fr_blocks _ _ Hf _ _ Hb). cbn [default from_option id]. unfold blk, padded.
  rewrite !aget_pad, length_drop by lia. do 2 case_decide; try lia. unfold aget. rewrite lookup_drop. do 2 f_equal. lia.
Qed.

Lemma fbytes_padded off n : (off + n <= 512 * length (fi_blocks f))%nat -> fbytes s x (Z.of_nat off) n = take n (drop off (padded f)).
Proof.
  intros Hle. assert (length (padded f) = 512 * length (fi_blocks f))%nat as Hlen by apply length_pad.
  apply list_eq_same_length with n; [rewrite length_take, length_drop; lia|unfold fbytes; by rewrite length_fmap, length_seq|].
  intros j a c Hj Ha Hc. unfold fbytes in Ha. rewrite list_lookup_fmap, lookup_seq_lt in Ha by done. injection Ha as <-.
  rewrite lookup_take_lt, lookup_drop in Hc by done. cbn [Nat.add]. rewrite <- Nat2Z.inj_add, fbyte_padded by lia.
  by apply aget_lookup.
Qed.
End sees.

Lemma sees_ok fs m k f n size :
  data_ok fs m -> fs !! k = Some f -> dinode_fits (set_dsize (din_of f) size) ->
  fi_type f = T_DIR \/ fi_type f = T_FILE -> holds_din (m_img m) n (set_dsize (din_of f) size) ->
  512 * Z.of_nat (length (fi_blocks f)) <= size < 2 ^ 31 \/ size = Z.of_nat (length (fi_data f)) ->
  kernel_sees (m_img m) n (fi_type f) size (take (idx size) (padded f)).
Proof.
  intros Hok Hk Hfit Hty (d & Hd & Hdl & Ht) Hsize p s i y Hc Hr Hview Hdisk Hy.
  pose proof (dinode_off_range n) as Ho. pose proof (do_files _ _ Hok _ _ Hk) as Hf. pose proof (fr_max _ _ Hf). pose proof (fr_len _ _ Hf).
  destruct (decode_din d (dinode_off n) _ y Ht ltac:(lia) Hfit Hy eq_refl) as (x & Hdec & Hxt & Hxs & Hxn & Hxm & Hxa & Hxu & _).
  exists d, x. split_and!; try done. intros Hxi Hdev off cnt Hoff Hcnt Hle.
  assert (length (padded f) = 512 * length (fi_blocks f))%nat as Hlp by apply length_pad.
  rewrite length_take, Hlp in Hle. cbn [din_of set_dsize d_size] in Hxs. unfold idx in Hle.
  destruct (readi_covered p i x off cnt s) as (u & Hu & Hlo); try done; try lia.
  { rewrite Hxt. cbn. unfold T_DEV. destruct Hty as [-> | ->]; unfold T_DIR, T_FILE; lia. }
  { intros j Hj. replace (j / BSIZE) with (Z.of_nat (idx (j / BSIZE))).
    - eapply blocks_mapped; try done. unfold idx, BSIZE. pose proof (Z.div_mod j 512 ltac:(lia)). pose proof (Z.mod_pos_bound j 512). lia.
    - unfold idx, BSIZE. pose proof (Z.div_pos j 512). lia. }
  exists u. split; [|done]. rewrite Z.min_l in Hu by lia. rewrite Hu. do 3 f_equal.
  rewrite <- (Z2Nat.id off) at 1 by lia. rewrite (fbytes_padded fs m k f s x Hok Hk Hxa Hview) by (unfold idx; lia).
  unfold idx. rewrite !take_drop_commute, take_take. do 2 f_equal. lia.
Qed.

(** ** The whole program *)

Definition file_data (h : hostfile) : list Z := concat (until_empty (default [] (h_reads h))).

Definition file_name (h : hostfile) : list Z := skip_underscore (h_name h).

(** The entries of the root directory: ., .., and the files from inode 2 on. *)
Definition root_data (files : list hostfile) : list Z :=
  dirent 1 (chars ".") ++ dirent 1 (chars "..") ++ concat (imap (fun k h => dirent (Z.of_nat k + 2) (file_name h)) files).

Definition expected (files : list hostfile) : list (Z * list Z) :=
  (T_DIR, root_data files) :: ((fun h => (T_FILE, file_data h)) <$> files).

(** The arguments are names without a slash of files that can be opened, none
    is too large, and all of them fit the image. *)
Record args_fit (files : list hostfile) : Prop := {
  af_count : (length files < 199)%nat;
  af_files : Forall (fun h => (47 ∉ h_name h) /\ is_Some (h_reads h) /\ (length (file_data h) <= max_bytes)%nat) files;
  af_cost : (cost (expected files) <= capacity)%nat
}.

Lemma kfor_wsect l d m : exists m', kfor l (fun i => wsect i d) m = inr (tt, m') /\ m_sb m' = m_sb m /\
  m_freeinode m' = m_freeinode m /\ m_freeblock m' = m_freeblock m /\
  forall b, m_img m' !! b = if decide (b ∈ l) then Some d else m_img m !! b.
Proof.
  revert m. induction l as [|i l IH]; intros m.
  - exists m. split_and!; try done.
  - destruct (IH (wrote m i d)) as (m' & Hrun & H1 & H2 & H3 & Himg). exists m'. split_and!; try done.
    intros b. rewrite Himg. cbn [wrote m_img]. destruct (decide (b = i)) as [->|Hne].
    + rewrite lookup_insert_eq. by do 2 case_decide; set_solver.
    + rewrite lookup_insert_ne by done. do 2 case_decide; set_solver.
Qed.

Lemma format_ok m : m_freeblock m = nmeta -> m_freeinode m = 1 -> m_sb m = the_sb ->
  (forall b, m_img m !! b = if decide (b ∈ seqZ 0 FSSIZE) then Some zeros else None) ->
  image_is [] (wrote m 1 super_block).
Proof.
  intros Hb Hn Hs Himg. exists []. split; [|done]. split; try done.
  - assert (data_ok [] m) as Hok; [|by apply data_ok_low]. split; try done.
    + intros b d Hd. rewrite Himg in Hd. case_decide as He; [|done]. injection Hd as <-. apply elem_of_seqZ in He.
      split; [lia|apply length_replicate].
    + intros b He. rewrite Himg, decide_True; [done|]. apply elem_of_seqZ. lia.
    + intros b He. rewrite Himg, decide_True; [done|]. apply elem_of_seqZ. unfold nmeta in *. lia.
  - cbn. by rewrite lookup_insert_eq.
  - cbn. lia.
Qed.

Lemma length_dirent n name : length (dirent n name) = 16%nat.
Proof. unfold dirent. rewrite length_app, length_word, length_take, length_app, length_replicate. lia. Qed.

Lemma appends_ok reads ex m k ty data :
  image_is ex m -> ex !! k = Some (ty, data) -> (length (data ++ concat reads) <= max_bytes)%nat ->
  (cost (<[k := (ty, data ++ concat reads)]> ex) <= capacity)%nat ->
  exists m', kfor reads (iappend (Z.of_nat k + 1)) m = inr (tt, m') /\ image_is (<[k := (ty, data ++ concat reads)]> ex) m'.
Proof.
  revert ex m data. induction reads as [|p reads IH]; intros ex m data Hi Hk Hmax Hcap; cbn [concat kfor] in *.
  - rewrite app_nil_r in *. exists m. by rewrite list_insert_id.
  - pose proof (lookup_lt_Some _ _ _ Hk) as Hlt. pose proof (cost_insert ex k (ty, data) (ty, data ++ p) Hk) as H1.
    pose proof (cost_insert ex k (ty, data) (ty, data ++ p ++ concat reads) Hk) as H2. cbn [snd] in *. rewrite !length_app in *.
    pose proof (need_mono (length data + length p) (length data + (length p + length (concat reads))) ltac:(lia)).
    destruct (iappend_ok ex m k ty data p Hi Hk ltac:(lia) ltac:(lia)) as (m1 & Hrun & Hi1).
    destruct (IH (<[k := (ty, data ++ p)]> ex) m1 (data ++ p) Hi1) as (m2 & Hrun2 & Hi2).
    + by apply list_lookup_insert_eq.
    + rewrite !length_app. lia.
    + rewrite list_insert_insert_eq, <- app_assoc. done.
    + exists m2. rewrite (kbind_ok _ _ _ _ _ Hrun). split; [done|]. by rewrite list_insert_insert_eq, <- app_assoc in Hi2.
Qed.

Lemma imap_snoc {A B} (f : nat -> A -> B) l x : imap f (l ++ [x]) = imap f l ++ [f (length l) x].
Proof. rewrite imap_app. cbn. by rewrite Nat.add_0_r. Qed.

Lemma root_data_snoc files h : root_data (files ++ [h]) = root_data files ++ dirent (Z.of_nat (length files) + 2) (file_name h).
Proof. unfold root_data. rewrite imap_snoc, concat_app. cbn [concat]. by rewrite app_nil_r, !app_assoc. Qed.

Lemma length_root_data files : length (root_data files) = (16 * (length files + 2))%nat.
Proof.
  induction files as [|h files IH] using rev_ind; [by unfold root_data; rewrite !length_app, !length_dirent|].
  rewrite root_data_snoc, !length_app, length_dirent, IH. cbn. lia.
Qed.

Lemma cost_cons x ex : cost (x :: ex) = (need (length x.2) + cost ex)%nat.
Proof. done. Qed.

Lemma expected_snoc files h : expected (files ++ [h]) =
  (T_DIR, root_data (files ++ [h])) :: ((fun h => (T_FILE, file_data h)) <$> files) ++ [(T_FILE, file_data h)].
Proof. unfold expected. by rewrite fmap_app. Qed.

Lemma cost_snoc_le files h : (cost (expected files) <= cost (expected (files ++ [h])))%nat.
Proof.
  rewrite expected_snoc. unfold expected. rewrite !cost_cons, cost_app. cbn [snd].
  pose proof (need_mono (length (root_data files)) (length (root_data (files ++ [h]))) ltac:(rewrite !length_root_data, length_app; lia)). lia.
Qed.

Lemma add_file_ok files h m :
  image_is (expected files) m -> args_fit (files ++ [h]) ->
  exists m', add_file 1 h m = inr (tt, m') /\ image_is (expected (files ++ [h])) m'.
Proof.
  intros Hi [Hcnt Hfiles Hcost]. rewrite length_app in Hcnt. cbn in Hcnt. apply Forall_app in Hfiles as [_ [(Hn & [reads Hr] & Hmax) _]%Forall_cons].
  assert (file_data h = concat (until_empty reads)) as Hfd by (unfold file_data; by rewrite Hr). rewrite Hfd in Hmax.
  rewrite expected_snoc in Hcost |- *. rewrite cost_cons, cost_app in Hcost. cbn [snd] in Hcost. rewrite cost_cons in Hcost. cbn [snd] in Hcost.
  destruct (ialloc_ok (expected files) m T_FILE Hi ltac:(by right)) as (m1 & Hia & Hi1); [cbn; rewrite length_fmap; lia|].
  assert (Z.of_nat (length (expected files)) + 1 = Z.of_nat (length files) + 2) as Hno by (cbn; rewrite length_fmap; lia). rewrite Hno in Hia.
  destruct (iappend_ok _ m1 0 T_DIR (root_data files) (dirent (Z.of_nat (length files) + 2) (file_name h)) Hi1 eq_refl) as (m2 & Hap & Hi2).
  { rewrite length_root_data, length_dirent. unfold max_bytes. lia. }
  { rewrite <- root_data_snoc. cbn [expected app insert list_insert]. rewrite cost_cons, cost_app. cbn [snd]. change (cost [(T_FILE, [])]) with 0%nat. lia. }
  rewrite <- root_data_snoc in Hi2. cbn [expected app insert list_insert] in Hi2.
  destruct (appends_ok (until_empty reads) _ m2 (S (length files)) T_FILE [] Hi2) as (m3 & Hap3 & Hi3).
  - change ((?x :: ?l) !! S ?i) with (l !! i). rewrite lookup_app_r by (rewrite length_fmap; lia). by rewrite length_fmap, Nat.sub_diag.
  - done.
  - change (<[S ?i := ?v]> (?x :: ?l)) with (x :: <[i := v]> l). rewrite insert_app_r_alt by (rewrite length_fmap; lia).
    rewrite length_fmap, Nat.sub_diag. cbn [insert list_insert app]. rewrite cost_cons, cost_app, cost_cons. cbn [snd]. rewrite Hfd in Hcost. lia.
  - exists m3. split.
    + unfold add_file. rewrite bool_decide_true by done. rewrite (kbind_ok _ _ m tt m eq_refl), Hr.
      rewrite (kbind_ok _ _ _ _ _ Hia). fold (file_name h). rewrite (kbind_ok _ _ _ _ _ Hap).
      replace (Z.of_nat (length files) + 2) with (Z.of_nat (S (length files)) + 1) by lia. done.
    + change (<[S ?i := ?v]> (?x :: ?l)) with (x :: <[i := v]> l) in Hi3. rewrite insert_app_r_alt in Hi3 by (rewrite length_fmap; lia). rewrite length_fmap, Nat.sub_diag in Hi3. cbn [insert list_insert app] in Hi3.
      by rewrite Hfd.
Qed.

Lemma args_fit_prefix files h : args_fit (files ++ [h]) -> args_fit files.
Proof.
  intros [H1 H2 H3]. rewrite length_app in H1. apply Forall_app in H2 as [H2 _]. pose proof (cost_snoc_le files h). split; [lia|done|lia].
Qed.

Lemma kfor_app {A} l l' (f : A -> mkfs unit) m m' : kfor l f m = inr (tt, m') -> kfor (l ++ l') f m = kfor l' f m'.
Proof.
  revert m. induction l as [|x l IH]; intros m; cbn [kfor app].
  - by intros [= ->].
  - unfold kbind. destruct (f x m) as [e|[[] m1]]; [done|]. apply IH.
Qed.

Lemma add_files_ok files m : image_is (expected []) m -> args_fit files ->
  exists m', kfor files (add_file 1) m = inr (tt, m') /\ image_is (expected files) m'.
Proof.
  intros Hi. induction files as [|h files IH] using rev_ind; intros Hfit; [by exists m|].
  destruct (IH (args_fit_prefix _ _ Hfit)) as (m1 & Hrun & Hi1). destruct (add_file_ok files h m1 Hi1 Hfit) as (m2 & Hrun2 & Hi2).
  exists m2. split; [|done]. rewrite (kfor_app _ _ _ _ _ Hrun). cbn [kfor]. by rewrite (kbind_ok _ _ _ _ _ Hrun2).
Qed.

(** *** The bitmap *)

Lemma length_set_bits l d : length (foldl set_bit d l) = length d.
Proof. revert d. induction l as [|i l IH]; intros d; cbn; [done|]. rewrite IH. apply length_alter. Qed.

Lemma bits_set n d b : (n <= 8 * length d)%nat -> bit_at (foldl set_bit d (seq 0 n)) b = bool_decide (b < n)%nat || bit_at d b.
Proof.
  intros Hn. induction n as [|n IH]; [by rewrite bool_decide_false by lia|]. rewrite seq_S, foldl_app. cbn [foldl].
  rewrite bit_set by (rewrite length_set_bits; apply Nat.Div0.div_lt_upper_bound; lia). rewrite IH by lia.
  rewrite orb_assoc. f_equal. apply eq_iff_eq_true. rewrite orb_true_iff, !bool_decide_eq_true. lia.
Qed.

Lemma bit_zeros b : (b < 4096)%nat -> bit_at zeros b = false.
Proof.
  intros Hb. unfold bit_at, zeros, aget. rewrite lookup_replicate_2; [apply Z.testbit_0_l|].
  apply Nat.Div0.div_lt_upper_bound. lia.
Qed.

(** *** The image *)

Definition root_size (files : list hostfile) : Z := (Z.of_nat (length (root_data files)) / BSIZE + 1) * BSIZE.

(** The blocks of the files and their indirect blocks are among the first data
    blocks, and no two of them are the same. *)
Definition layout_ok (img : gmap Z (list Z)) (ex : list (Z * list Z)) : Prop :=
  exists fs, contents fs = ex /\
    (forall k f, fs !! k = Some f -> exists size, holds_din img (Z.of_nat k + 1) (set_dsize (din_of f) size)) /\
    (forall k f r b, fs !! k = Some f -> has f r b -> nmeta <= b < nmeta + Z.of_nat (cost ex)) /\
    (forall k f r k' f' r' b, fs !! k = Some f -> has f r b -> fs !! k' = Some f' -> has f' r' b -> k = k' /\ r = r').

(** The bitmap marks the blocks below [n] and no other. *)
Definition bitmap_is (img : gmap Z (list Z)) (n : Z) : Prop :=
  exists d, img !! sb_bmapstart the_sb = Some d /\ forall b : nat, Z.of_nat b < FSSIZE -> (bit_at d b = true <-> Z.of_nat b < n).

(** What the last steps of main make of the image. *)
Lemma finish_ok ex data m :
  image_is ((T_DIR, data) :: ex) m -> let size := (Z.of_nat (length data) / BSIZE + 1) * BSIZE in
  (length data <= max_bytes)%nat -> (cost ((T_DIR, data) :: ex) <= capacity)%nat ->
  exists m', mkfs_finish 1 m = inr (tt, m') /\
    exists fs, contents fs = (T_DIR, data) :: ex /\ data_ok fs m' /\ m_img m' !! 1 = Some super_block /\
      (forall k f, fs !! k = Some f -> tight f /\ dinode_fits (set_dsize (din_of f) (if decide (k = 0)%nat then size else Z.of_nat (length (fi_data f)))) /\
         holds_din (m_img m') (Z.of_nat k + 1) (set_dsize (din_of f) (if decide (k = 0)%nat then size else Z.of_nat (length (fi_data f))))) /\
      bitmap_is (m_img m') (nmeta + Z.of_nat (cost ((T_DIR, data) :: ex))).
Proof.
  intros (fs & Hi & Hex) size Hmax Hcap. pose proof (im_data _ _ Hi) as Hok. destruct fs as [|f fs]; [done|]. pose proof Hex as Hex'.
  injection Hex' as Hty Hd Hrest. pose proof (im_inode _ _ Hi 0 f eq_refl) as Hin. change (Z.of_nat 0 + 1) with 1 in Hin.
  pose proof (din_of_fits _ _ 0 f Hi eq_refl) as Hfit. assert (0 <= size < 2 ^ 31) as Hsize.
  { unfold size, BSIZE, max_bytes in *. pose proof (Z.div_mod (Z.of_nat (length data)) 512). pose proof (Z.mod_pos_bound (Z.of_nat (length data)) 512). lia. }
  destruct (winode_ok _ m 1 (set_dsize (din_of f) size) Hok ltac:(lia)) as (m1 & Hw & Hok1 & _ & Hfb1 & Hd1 & Himg1 & Hoth1).
  { apply length_dinode_bytes; apply Hfit. }
  pose proof (do_free _ _ Hok) as Hfree. rewrite (used_cost _ (im_tight _ _ Hi)), Hex in Hfree. unfold capacity in Hcap.
  set (bm := foldl set_bit zeros (seq 0 (idx (m_freeblock m1)))). exists (wrote m1 58 bm). split.
  - unfold mkfs_finish. rewrite (kbind_ok _ _ _ _ _ (rinode_ok _ m 1 _ Hok Hin Hfit)). cbn [din_of d_size]. rewrite Hd.
    unfold max_bytes in Hmax. rewrite (xint_id (Z.of_nat (length data))) by lia. fold size. unfold u32. rewrite Z.mod_small, xint_id by lia.
    rewrite (kbind_ok _ _ _ _ _ Hw), (kbind_ok _ _ m1 (m_freeblock m1) m1 eq_refl). unfold mkfs_balloc, kassert.
    rewrite (proj2 (Z.ltb_lt _ _)) by (rewrite Hfb1, Hfree; unfold nmeta, BSIZE; lia).
    rewrite (kbind_ok _ _ m1 tt m1 eq_refl). unfold kbind, kgets. by rewrite (do_sb _ _ Hok1).
  - assert (length bm = 512%nat) as Hbm by (unfold bm; by rewrite length_set_bits).
    assert (forall n d, 0 <= n < 200 -> holds_din (m_img m1) n d -> holds_din (m_img (wrote m1 58 bm)) n d) as Hkeep.
    { intros n d Hn (buf & Hb & Ht). exists buf. split; [|done]. cbn. rewrite lookup_insert_ne; [done|]. pose proof (iblock_range n Hn). lia. }
    exists (f :: fs). split; [done|]. split; [by apply data_ok_low|]. split.
    { cbn. rewrite lookup_insert_ne by done. rewrite Himg1; [apply (im_super _ _ Hi)|]. pose proof (iblock_range 1). lia. }
    split.
    + intros k g Hg. split; [by eapply im_tight|]. pose proof (lookup_lt_Some _ _ _ Hg). pose proof (im_count _ _ Hi). case_decide as Hk0.
      * subst k. injection Hg as <-. split; [|apply Hkeep; [lia|done]]. destruct Hfit. split; try done. cbn. lia.
      * split; [by apply (din_of_fits _ _ k g Hi)|]. apply Hkeep; [lia|]. apply Hoth1; [lia|lia|]. by apply (im_inode _ _ Hi).
    + exists bm. cbn [wrote m_img]. split; [by rewrite lookup_insert_eq|]. intros b Hb. unfold FSSIZE in Hb. unfold bm. rewrite bits_set.
      * rewrite bit_zeros by lia. rewrite orb_false_r, bool_decide_eq_true, Hfb1, Hfree. unfold nmeta, idx. lia.
      * rewrite Hfb1, Hfree. unfold idx, nmeta. change (length zeros) with 512%nat. lia.
Qed.

Lemma format_main : exists m, mkfs_format mfs0 = inr (1, m) /\ image_is (expected []) m.
Proof.
  set (m0 := mk_mfs ∅ the_sb 1 nmeta).
  destruct (kfor_wsect (seqZ 0 FSSIZE) zeros m0) as (m1 & Hrun & Hsb & Hfi & Hfb & Himg).
  assert (image_is [] (wrote m1 1 super_block)) as Hi1 by (apply format_ok; [done..|]; intros b; by rewrite Himg).
  destruct (ialloc_ok _ _ T_DIR Hi1 ltac:(by left) ltac:(cbn; lia)) as (m2 & Hia & Hi2).
  destruct (iappend_ok _ m2 0 T_DIR [] (dirent 1 (chars ".")) Hi2 eq_refl) as (m3 & Ha3 & Hi3);
    [rewrite length_dirent; cbn [length]; unfold max_bytes; lia|apply Nat.leb_le; vm_compute; reflexivity|].
  destruct (iappend_ok _ m3 0 T_DIR (dirent 1 (chars ".")) (dirent 1 (chars "..")) Hi3 eq_refl) as (m4 & Ha4 & Hi4);
    [rewrite !length_dirent; unfold max_bytes; lia|apply Nat.leb_le; vm_compute; reflexivity|].
  exists m4. split.
  - unfold mkfs_format. rewrite (kbind_ok _ _ mfs0 tt m0) by (vm_compute; reflexivity). fold zeros. rewrite (kbind_ok _ _ _ _ _ Hrun).
    rewrite (kbind_ok _ _ m1 tt (wrote m1 1 super_block)) by done.
    rewrite (kbind_ok _ _ _ _ _ Hia). cbn [length Z.of_nat Z.add]. change (1 =? 1) with true.
    rewrite (kbind_ok _ _ m2 tt m2 eq_refl). change (Z.of_nat 0 + 1) with 1 in *. by rewrite (kbind_ok _ _ _ _ _ Ha3), (kbind_ok _ _ _ _ _ Ha4).
  - replace (expected []) with (<[0%nat := (T_DIR, dirent 1 (chars ".") ++ dirent 1 (chars ".."))]> (<[0%nat := (T_DIR, [] ++ dirent 1 (chars "."))]>
      ([] ++ [(T_DIR, [])]))); [done|]. unfold expected, root_data. cbn [imap concat]. by rewrite app_nil_r.
Qed.

Lemma take_padded f : (length (fi_data f) <= 512 * length (fi_blocks f))%nat -> take (length (fi_data f)) (padded f) = fi_data f.
Proof. intros Hl. unfold padded, pad. rewrite take_take, Nat.min_l by lia. by rewrite take_app_length. Qed.

(** C7: mkfs builds the file system the kernel reads.  Whatever files it is
    given that fit the image, however the host's reads cut them up, mkfs
    succeeds, and on the image it writes: the super block decodes to the layout
    of the disk; each file is an inode of root with one link that the kernel
    decodes with the right type and size and whose bytes readi() returns,
    through direct and indirect blocks; inode 1 is the directory of all of
    them with ., .. and the names, its size rounded up; no two files share a
    block; and the bitmap marks exactly the blocks in use. *)
Theorem mkfs_image files : args_fit files ->
  exists m, mkfs_main files mfs0 = inr (tt, m) /\ let img := m_img m in
    (forall b, is_Some (img !! b) <-> 0 <= b < FSSIZE) /\ map_Forall (fun _ d => length d = 512%nat) img /\
    decode_sb <$> img !! 1 = Some the_sb /\
    (forall k h, files !! k = Some h ->
       kernel_sees img (Z.of_nat k + 2) T_FILE (Z.of_nat (length (file_data h))) (file_data h)) /\
    kernel_sees img 1 T_DIR (root_size files) (pad (512 * nblk (length (root_data files))) (root_data files)) /\
    layout_ok img (expected files) /\
    bitmap_is img (nmeta + Z.of_nat (cost (expected files))).
Proof.
  intros Hfit. destruct format_main as (m0 & Hstart & Hi0). destruct (add_files_ok files m0 Hi0 Hfit) as (m1 & Hrun & Hi1).
  pose proof (af_count _ Hfit). assert (length (root_data files) <= max_bytes)%nat as Hmax by (rewrite length_root_data; unfold max_bytes; lia).
  destruct (finish_ok _ _ m1 Hi1 Hmax (af_cost _ Hfit)) as (m & Hfin & fs & Hex & Hok & Hsup & Hin & Hbm).
  exists m. split; [unfold mkfs_main; by rewrite (kbind_ok _ _ _ _ _ Hstart), (kbind_ok _ _ _ _ _ Hrun)|]. fold (expected files) in *. cbn zeta.
  assert (forall k ty data, expected files !! k = Some (ty, data) -> exists f, fs !! k = Some f /\ fi_type f = ty /\ fi_data f = data) as Hget
    by (intros k ty data He; rewrite <- Hex in He; by apply contents_lookup).
  split; [|split; [|split; [|split; [|split; [|split; [|exact Hbm]]]]]].
  - intros b. split; [intros [d Hd]; by apply (do_img _ _ Hok) in Hd as [? _]|apply (do_all _ _ Hok)].
  - intros b d Hd. by apply (do_img _ _ Hok) in Hd as [_ ?].
  - rewrite Hsup. vm_compute. reflexivity.
  - intros k h Hk. destruct (Hget (S k) T_FILE (file_data h)) as (f & Hf & Ht & Hd); [unfold expected; change ((?x :: ?l) !! S ?i) with (l !! i); by rewrite list_lookup_fmap, Hk|].
    destruct (Hin _ _ Hf) as ([Hl _] & Hft & Hdin). cbn [decide] in Hft, Hdin. replace (Z.of_nat (S k) + 1) with (Z.of_nat k + 2) in Hdin by lia.
    pose proof (sees_ok _ m _ f _ _ Hok Hf Hft ltac:(by right) Hdin ltac:(by right)) as Hs. unfold idx in Hs.
    rewrite Nat2Z.id, take_padded in Hs by apply (fr_len _ _ (do_files _ _ Hok _ _ Hf)). by rewrite Ht, Hd in Hs.
  - destruct (Hget 0%nat T_DIR (root_data files) eq_refl) as (f & Hf & Ht & Hd). destruct (Hin _ _ Hf) as ([Hl _] & Hft & Hdin).
    cbn [decide] in Hft, Hdin. fold (root_size files) in *. pose proof (nblk_bounds (length (root_data files))) as Hnb. unfold max_bytes in Hmax.
    assert (512 * Z.of_nat (length (fi_blocks f)) <= root_size files < 2 ^ 31) as Hsz.
    { rewrite Hl, Hd. unfold root_size, BSIZE. pose proof (Z.div_mod (Z.of_nat (length (root_data files))) 512).
      pose proof (Z.mod_pos_bound (Z.of_nat (length (root_data files))) 512). lia. }
    pose proof (sees_ok _ m _ f 1 _ Hok Hf Hft ltac:(by left) Hdin (or_introl Hsz)) as Hs.
    rewrite take_ge in Hs by (unfold padded, idx; rewrite length_pad; lia). unfold padded in Hs. by rewrite Hl, Ht, Hd in Hs.
  - exists fs. split; [done|]. split; [intros k f Hf; eexists; by apply (Hin _ _ Hf)|]. split; [|apply (do_inj _ _ Hok)].
    intros k f r b Hf Hb. pose proof (do_range _ _ Hok _ _ _ _ Hf Hb) as Hr. rewrite (do_free _ _ Hok) in Hr.
    rewrite used_cost, Hex in Hr by (intros j g Hg; apply (Hin _ _ Hg)). done.
Qed.

(** A kernel that has just booted from the image, with one inode loaded. *)
Definition booted (img : gmap Z (list Z)) (x : inode) : kstate := (idle img) <| k_inode := [x] |>.

Lemma cache_ok_inodes p held s l : cache_ok p held s -> cache_ok p held (s <| k_inode := l |>).
Proof. intros []. by split. Qed.

Lemma room_inodes held s l : room held s -> room held (s <| k_inode := l |>).
Proof. done. Qed.

Lemma bview_inodes s l b : bview (s <| k_inode := l |>) b = bview s b.
Proof. done. Qed.

Lemma bview_idle img b : bview (idle img) b = k_disk (idle img) !! b.
Proof.
  unfold bview. destruct (list_find _ _) as [[j i]|] eqn:E; [|done].
  apply list_find_Some in E as (Hj & (_ & _ & Hf) & _). apply lookup_seq in Hj as [-> Hj]. by rewrite bget_idle in Hf.
Qed.

Lemma booted_ok img x : map_Forall (fun _ d => length d = 512%nat) img ->
  cache_ok 1 [] (booted img x) /\ room [] (booted img x) /\ forall b, bview (booted img x) b = img !! b.
Proof.
  intros Hl. unfold booted. split; [|split].
  - apply cache_ok_inodes, idle_ok, Hl.
  - apply room_inodes, idle_room.
  - intros b. rewrite bview_inodes, bview_idle. reflexivity.
Qed.

(** A small file arrives: the kernel reads back its three bytes. *)
Definition one_file : list hostfile := [mk_hostfile (chars "_cat") (Some [[1; 2]; [3]])].

Lemma one_file_fits : args_fit one_file.
Proof.
  split; [cbn; lia| |apply Nat.leb_le; vm_compute; reflexivity].
  apply Forall_singleton. split; [apply (bool_decide_unpack _); vm_compute; exact I|]. split; [by eexists|].
  cbn [file_data h_reads one_file until_empty default from_option id concat app length]. unfold max_bytes. lia.
Qed.

Lemma mkfs_image_witness : exists m x u, mkfs_main one_file mfs0 = inr (tt, m) /\
  itype x = T_FILE /\ isize x = 3 /\ readi 0 0 3 (booted (m_img m) x) = Done (Ok (3, [1; 2; 3])) u.
Proof.
  destruct (mkfs_image one_file one_file_fits) as (m & Hrun & _ & Hl & _ & Hf & _).
  specialize (Hf 0%nat _ eq_refl). set (y := inode0 <| idev := 1 |>).
  destruct (booted_ok (m_img m) y Hl) as (Hc & Hr & Hv).
  destruct (Hf 1%nat _ 0%nat y Hc Hr Hv ltac:(done) ltac:(done)) as (d & x & Hd & Hx & Ht & Hs & _).
  destruct (booted_ok (m_img m) x Hl) as (Hc2 & Hr2 & Hv2).
  destruct (Hf 1%nat _ 0%nat y Hc2 Hr2 Hv2 ltac:(done) ltac:(done)) as (d2 & x2 & Hd2 & Hx2 & _ & _ & _ & _ & _ & Hread).
  rewrite Hd in Hd2. injection Hd2 as <-. rewrite Hx in Hx2. injection Hx2 as <-.
  destruct (Hread eq_refl) with (off := 0) (cnt := 3) as (u & Hu & _); [|lia|lia|vm_compute; congruence|].
  - unfold decode_dinode in Hx. destruct (strcpy _ _) as [v|]; [|done]. by injection Hx as <-.
  - exists m, x, u. split; [exact Hrun|]. split; [exact Ht|]. split; [exact Hs|exact Hu].
Defined.
