(* ===== verification/Mp.v ===== *)
(** * The multiprocessor tables (mp.c, mp.h)

    mpinit reads the tables the BIOS left in physical memory.  Memory is a
    function from addresses to bytes; what mpinit finds is a state of its own. *)

From S2P Require Import Prelude Kernel.

(** ** The search *)

Section tables.
Context (mem : Z -> Z).

(** [n] bytes of memory, and a little-endian value *)
Definition mem_bytes (a : Z) (n : nat) : list Z := (fun k => mem (a + Z.of_nat k)) <$> seq 0 n.

Definition mem_le (n : nat) (a : Z) : Z := le_load n (mem_bytes a n) 0.

(** int sum, returned as a uchar *)
Definition sum (a : Z) (len : Z) : Z := u8 (foldl (fun s c => i32 (s + c)) 0 (mem_bytes a (idx len))).

Definition sizeof_mp : Z := 16.

(** for(p = addr; p < e; p += sizeof(struct mp)) *)
Fixpoint mpsearch1_loop (fuel : nat) (p e : Z) : option Z :=
  match fuel with
  | O => None
  | S fuel' =>
      if negb (p <? e) then None
      else if bool_decide (mem_bytes p 4 = chars "_MP_") && (sum p sizeof_mp =? 0) then Some p
      else mpsearch1_loop fuel' (p + sizeof_mp) e
  end.

Definition mpsearch1 (a len : Z) : option Z := mpsearch1_loop (idx (len / sizeof_mp) + 2) a (a + len).

Definition mpsearch : option Z :=
  let p := Z.shiftl (Z.lor (Z.shiftl (mem (0x400 + 0x0F)) 8) (mem (0x400 + 0x0E))) 4 in
  let first :=
    if negb (p =? 0) then mpsearch1 p 1024
    else
      let p := Z.lor (Z.shiftl (mem (0x400 + 0x14)) 8) (mem (0x400 + 0x13)) * 1024 in
      mpsearch1 (u32 (p - 1024)) 1024 in
  match first with
  | Some mp => Some mp
  | None => mpsearch1 0xF0000 0x10000
  end.

Definition mp_physaddr (mp : Z) : Z := mem_le 4 (mp + 4).
Definition mp_imcrp (mp : Z) : Z := mem (mp + 12).
Definition conf_length (conf : Z) : Z := mem_le 2 (conf + 4).
Definition conf_version (conf : Z) : Z := mem (conf + 6).
Definition conf_lapicaddr (conf : Z) : Z := mem_le 4 (conf + 36).
Definition sizeof_mpconf : Z := 44.

Definition mpconfig : option (Z * Z) :=
  match mpsearch with
  | None => None
  | Some mp =>
      let conf := mp_physaddr mp in
      if conf =? 0 then None
      else if negb (bool_decide (mem_bytes conf 4 = chars "PCMP")) then None
      else if negb (conf_version conf =? 1) && negb (conf_version conf =? 4) then None
      else if negb (sum conf (conf_length conf) =? 0) then None
      else Some (mp, conf)
  end.

(** ** mpinit *)

(** lapic, the apic ids of cpus[0..ncpu), ioapicid, and the bytes sent to ports *)
Record mpst := mk_mpst { mp_lapic : Z; mp_cpus : list Z; mp_ioapicid : Z; mp_out : list (Z * Z) }.

Definition MPPROC : Z := 0.
Definition MPBUS : Z := 1.
Definition MPIOAPIC : Z := 2.
Definition MPIOINTR : Z := 3.
Definition MPLINTR : Z := 4.

(** if(ncpu < NCPU) { cpus[ncpu].apicid = ...; ncpu++; } *)
Definition add_cpu (id : Z) (m : mpst) : mpst :=
  if (length (mp_cpus m) <? NCPU)%nat then mk_mpst (mp_lapic m) (mp_cpus m ++ [id]) (mp_ioapicid m) (mp_out m) else m.

Definition set_ioapicid (id : Z) (m : mpst) : mpst := mk_mpst (mp_lapic m) (mp_cpus m) id (mp_out m).

(** for(p = conf + 1, e = conf + conf->length; p < e; ).  The break of the
    default case leaves the switch, not the loop. *)
Fixpoint mpinit_loop (fuel : nat) (p e : Z) (ismp : bool) : M mpst bool :=
  if negb (p <? e) then ret ismp
  else
    match fuel with
    | O => halt (Hang "mpinit")
    | S fuel' =>
        let t := mem p in
        if t =? MPPROC then
          modify (add_cpu (mem (p + 1))) ;;;
          mpinit_loop fuel' (p + 20) e ismp
        else if t =? MPIOAPIC then
          modify (set_ioapicid (mem (p + 1))) ;;;
          mpinit_loop fuel' (p + 8) e ismp
        else if (t =? MPBUS) || (t =? MPIOINTR) || (t =? MPLINTR) then mpinit_loop fuel' (p + 8) e ismp
        else mpinit_loop fuel' p e false
    end.

Definition outb (port v : Z) : M mpst unit :=
  modify (fun m => mk_mpst (mp_lapic m) (mp_cpus m) (mp_ioapicid m) (mp_out m ++ [(port, v)])).

(** [imcr] is what inb(0x23) returns. *)
Definition mpinit (fuel : nat) (imcr : Z) : M mpst unit :=
  match mpconfig with
  | None => panic "Expect to run on an SMP"
  | Some (mp, conf) =>
      modify (fun m => mk_mpst (conf_lapicaddr conf) (mp_cpus m) (mp_ioapicid m) (mp_out m)) ;;;
      ismp <- mpinit_loop fuel (conf + sizeof_mpconf) (conf + conf_length conf) true ;;
      if negb ismp then panic "Didn't find a suitable machine"
      else
        when (negb (mp_imcrp mp =? 0))
          (outb 0x22 0x70 ;;;
           outb 0x23 (Z.lor imcr 1))
  end.
End tables.

(** ** The search finds the first table *)

Section search.
Context (mem : Z -> Z).

Definition is_table (p : Z) : Prop := mem_bytes mem p 4 = chars "_MP_" /\ sum mem p sizeof_mp = 0.

Lemma mpsearch1_loop_ok fuel p e : e - p <= 16 * Z.of_nat fuel ->
  match mpsearch1_loop mem fuel p e with
  | Some q => exists k : nat, q = p + 16 * Z.of_nat k /\ q < e /\ is_table q /\ forall j : nat, (j < k)%nat -> ~ is_table (p + 16 * Z.of_nat j)
  | None => forall k : nat, p + 16 * Z.of_nat k < e -> ~ is_table (p + 16 * Z.of_nat k)
  end.
Proof.
  revert p. induction fuel as [|fuel IH]; intros p Hf; cbn [mpsearch1_loop]; [intros k Hk; lia|].
  destruct (Z.ltb_spec p e) as [Hlt|Hge]; cbn [negb]; [|intros k Hk; lia].
  destruct (bool_decide _ && _) eqn:Hb; bsplit.
  - exists 0%nat. split; [lia|]. split; [done|]. split; [done|]. intros j Hj. lia.
  - assert (~ is_table p) as Hno.
    { intros [H1 H2]. rewrite H2, bool_decide_true in Hb by done. done. }
    specialize (IH (p + sizeof_mp) ltac:(unfold sizeof_mp; lia)). unfold sizeof_mp in *. destruct (mpsearch1_loop _ _ _ _) as [q|].
    + destruct IH as (k & -> & Hq & Ht & Hj). exists (S k). split; [lia|]. split; [done|]. split; [done|].
      intros [|j] Hlt'; [by rewrite Z.add_0_r|]. replace (p + 16 * Z.of_nat (S j)) with (p + 16 + 16 * Z.of_nat j) by lia. apply Hj. lia.
    + intros [|k] Hk; [by rewrite Z.add_0_r|]. replace (p + 16 * Z.of_nat (S k)) with (p + 16 + 16 * Z.of_nat k) in * by lia. by apply IH.
Qed.

(** mpsearch1 returns the first table in its range, and its fuel is enough. *)
Lemma mpsearch1_first a len :
  match mpsearch1 mem a len with
  | Some q => exists k : nat, q = a + 16 * Z.of_nat k /\ q < a + len /\ is_table q /\ forall j : nat, (j < k)%nat -> ~ is_table (a + 16 * Z.of_nat j)
  | None => forall k : nat, a + 16 * Z.of_nat k < a + len -> ~ is_table (a + 16 * Z.of_nat k)
  end.
Proof.
  apply mpsearch1_loop_ok. unfold sizeof_mp, idx. pose proof (Z.div_mod len 16 ltac:(lia)). pose proof (Z.mod_pos_bound len 16 ltac:(lia)). lia.
Qed.

(** ** The entries of a table *)

Inductive entry :=
| EProc (id : Z)
| EIoapic (id : Z)
| EOther.

(** The entries from [p] to [e] are [l]; they end at a byte that is no type of
    entry when [ok] is false. *)
Inductive entries (e : Z) : Z -> list entry -> bool -> Prop :=
| entries_end p : e <= p -> entries e p [] true
| entries_bad p : p < e -> mem p ∉ [MPPROC; MPBUS; MPIOAPIC; MPIOINTR; MPLINTR] -> entries e p [] false
| entries_proc p l ok : p < e -> mem p = MPPROC -> entries e (p + 20) l ok -> entries e p (EProc (mem (p + 1)) :: l) ok
| entries_ioapic p l ok : p < e -> mem p = MPIOAPIC -> entries e (p + 8) l ok -> entries e p (EIoapic (mem (p + 1)) :: l) ok
| entries_other p l ok : p < e -> mem p ∈ [MPBUS; MPIOINTR; MPLINTR] -> entries e (p + 8) l ok -> entries e p (EOther :: l) ok.

Definition take_entry (m : mpst) (x : entry) : mpst :=
  match x with
  | EProc id => add_cpu id m
  | EIoapic id => set_ioapicid id m
  | EOther => m
  end.

Definition proc_ids (l : list entry) : list Z := omap (fun x => match x with EProc id => Some id | _ => None end) l.

(** Every range of memory is a table of entries, good or bad. *)
Lemma entries_total e p : exists l ok, entries e p l ok /\ (length l <= idx (e - p))%nat.
Proof.
  remember (idx (e - p)) as n eqn:Hn. revert p Hn. induction n as [n IH] using lt_wf_ind. intros p ->. unfold idx in *.
  destruct (decide (e <= p)) as [Hle|Hlt]; [exists [], true; split; [by constructor|cbn; lia]|].
  destruct (decide (mem p = MPPROC)) as [H0|H0].
  { destruct (IH (Z.to_nat (e - (p + 20)))) with (p := p + 20) as (l & ok & Hl & Hlen); [lia|done|].
    exists (EProc (mem (p + 1)) :: l), ok. split; [constructor; [lia|done|done]|cbn; lia]. }
  destruct (decide (mem p = MPIOAPIC)) as [H2|H2].
  { destruct (IH (Z.to_nat (e - (p + 8)))) with (p := p + 8) as (l & ok & Hl & Hlen); [lia|done|].
    exists (EIoapic (mem (p + 1)) :: l), ok. split; [constructor; [lia|done|done]|cbn; lia]. }
  destruct (decide (mem p ∈ [MPBUS; MPIOINTR; MPLINTR])) as [H3|H3].
  { destruct (IH (Z.to_nat (e - (p + 8)))) with (p := p + 8) as (l & ok & Hl & Hlen); [lia|done|].
    exists (EOther :: l), ok. split; [constructor; [lia|done|done]|cbn; lia]. }
  exists [], false. split; [constructor; [lia|set_solver]|cbn; lia].
Qed.

Lemma entries_det e p l ok l' ok' : entries e p l ok -> entries e p l' ok' -> ok = ok'.
Proof.
  intros H. revert l' ok'.
  induction H as [p Hp|p Hp Hm|p l ok Hp Hm He IH|p l ok Hp Hm He IH|p l ok Hp Hm He IH]; intros l' ok' H'; inversion H'; subst;
    try done; try lia; try (by eapply IH); exfalso; rewrite ?list_elem_of_In in *; cbn in *;
    unfold MPPROC, MPBUS, MPIOAPIC, MPIOINTR, MPLINTR in *; lia.
Qed.

Lemma bad_entry_loops fuel e p ismp m : p < e -> mem p ∉ [MPPROC; MPBUS; MPIOAPIC; MPIOINTR; MPLINTR] ->
  mpinit_loop mem fuel p e ismp m = Done (Stop (Hang "mpinit")) m.
Proof.
  intros Hp Hm. revert ismp. induction fuel as [|fuel IH]; intros ismp; cbn [mpinit_loop]; rewrite (proj2 (Z.ltb_lt _ _) Hp); [done|]. cbn [negb].
  rewrite (proj2 (Z.eqb_neq _ MPPROC)), (proj2 (Z.eqb_neq _ MPIOAPIC)), (proj2 (Z.eqb_neq _ MPBUS)), (proj2 (Z.eqb_neq _ MPIOINTR)),
    (proj2 (Z.eqb_neq _ MPLINTR)) by set_solver. apply IH.
Qed.

Lemma mpinit_loop_ok e p l ok fuel m : entries e p l ok -> (length l <= fuel)%nat ->
  mpinit_loop mem fuel p e true m =
    if ok then Done (Ok true) (foldl take_entry m l) else Done (Stop (Hang "mpinit")) (foldl take_entry m l).
Proof.
  intros He. revert fuel m. induction He as [p Hp|p Hp Hm|p l ok Hp Hm He IH|p l ok Hp Hm He IH|p l ok Hp Hm He IH]; intros fuel m Hf.
  - destruct fuel; cbn [mpinit_loop]; by rewrite (proj2 (Z.ltb_ge _ _) Hp).
  - by apply bad_entry_loops.
  - destruct fuel as [|fuel]; [cbn in Hf; lia|]. cbn [mpinit_loop foldl take_entry]. rewrite (proj2 (Z.ltb_lt _ _) Hp), Hm. apply IH. cbn in Hf. lia.
  - destruct fuel as [|fuel]; [cbn in Hf; lia|]. cbn [mpinit_loop foldl take_entry]. rewrite (proj2 (Z.ltb_lt _ _) Hp), Hm. apply IH. cbn in Hf. lia.
  - destruct fuel as [|fuel]; [cbn in Hf; lia|]. cbn [mpinit_loop foldl take_entry]. rewrite (proj2 (Z.ltb_lt _ _) Hp).
    assert (mem p = MPBUS \/ mem p = MPIOINTR \/ mem p = MPLINTR) as [H|[H|H]] by set_solver; rewrite H; apply IH; cbn in Hf; lia.
Qed.

(** With a bad entry no amount of fuel is enough. *)
Lemma bad_table_hangs e p l ok fuel m : entries e p l ok -> ok = false -> exists m', mpinit_loop mem fuel p e true m = Done (Stop (Hang "mpinit")) m'.
Proof.
  intros He Hok. revert fuel m.
  induction He as [p Hp|p Hp Hm|p l ok Hp Hm He IH|p l ok Hp Hm He IH|p l ok Hp Hm He IH]; intros fuel m; [done| | | |].
  - exists m. by apply bad_entry_loops.
  - destruct fuel as [|fuel]; cbn [mpinit_loop]; rewrite (proj2 (Z.ltb_lt _ _) Hp); [by exists m|]. rewrite Hm. apply IH. done.
  - destruct fuel as [|fuel]; cbn [mpinit_loop]; rewrite (proj2 (Z.ltb_lt _ _) Hp); [by exists m|]. rewrite Hm. apply IH. done.
  - destruct fuel as [|fuel]; cbn [mpinit_loop]; rewrite (proj2 (Z.ltb_lt _ _) Hp); [by exists m|].
    assert (mem p = MPBUS \/ mem p = MPIOINTR \/ mem p = MPLINTR) as [H|[H|H]] by set_solver; rewrite H; by apply IH.
Qed.

Lemma take_entries_cpus l m : (length (mp_cpus m) <= NCPU)%nat ->
  mp_cpus (foldl take_entry m l) = take NCPU (mp_cpus m ++ proc_ids l) /\ mp_lapic (foldl take_entry m l) = mp_lapic m /\
  mp_out (foldl take_entry m l) = mp_out m.
Proof.
  revert m. induction l as [|x l IH]; intros m Hm; cbn [foldl].
  { by rewrite app_nil_r, take_ge. }
  destruct x as [id|id|]; cbn [take_entry proc_ids omap list_omap]; fold (proc_ids l); [|by destruct (IH (set_ioapicid id m) Hm)|by apply IH].
  unfold add_cpu. destruct (Nat.ltb_spec (length (mp_cpus m)) NCPU) as [Hlt|Hge].
  - destruct (IH (mk_mpst (mp_lapic m) (mp_cpus m ++ [id]) (mp_ioapicid m) (mp_out m))) as (-> & -> & ->); [cbn; rewrite length_app; cbn; lia|].
    cbn. by rewrite <- app_assoc.
  - destruct (IH m Hm) as (-> & -> & ->). assert (length (mp_cpus m) = NCPU) as <- by lia. by rewrite !take_app_length.
Qed.
End search.

(** C37: mpinit() and a table with an unknown entry.  Given a table that passes
    the checks, either all its entries have a known type, and then mpinit
    finishes with the APIC ids of the processors in the order of the table, at
    most NCPU of them, and the address of the local APIC; or it meets an entry
    of another type, and then, however long it runs, it neither finishes nor
    panics: the break in the default case does not leave the loop, and the
    panic for such a machine is never reached. *)
Theorem mpinit_outcome mem imcr m mp conf : mpconfig mem = Some (mp, conf) -> (length (mp_cpus m) <= NCPU)%nat ->
  exists l ok, entries mem (conf + conf_length mem conf) (conf + sizeof_mpconf) l ok /\
    if ok : bool then
      forall fuel, (length l <= fuel)%nat -> exists m', mpinit mem fuel imcr m = Done (Ok tt) m' /\
        mp_cpus m' = take NCPU (mp_cpus m ++ proc_ids l) /\ mp_lapic m' = conf_lapicaddr mem conf
    else forall fuel, exists m', mpinit mem fuel imcr m = Done (Stop (Hang "mpinit")) m'.
Proof.
  intros Hc Hm. destruct (entries_total mem (conf + conf_length mem conf) (conf + sizeof_mpconf)) as (l & ok & Hl & _).
  exists l, ok. split; [done|]. set (m1 := mk_mpst (conf_lapicaddr mem conf) (mp_cpus m) (mp_ioapicid m) (mp_out m)).
  unfold mpinit. rewrite Hc. destruct ok.
  - intros fuel Hf. pose proof (mpinit_loop_ok mem _ _ l true fuel m1 Hl Hf) as Hrun.
    destruct (take_entries_cpus l m1 Hm) as (H1 & H2 & H3). rewrite bind_modify. fold m1. rewrite (bind_Done _ _ _ _ _ Hrun). cbn [negb].
    unfold when. destruct (negb (mp_imcrp mem mp =? 0)); (eexists; split; [reflexivity|]; done).
  - intros fuel. rewrite bind_modify. fold m1.
    destruct (bad_table_hangs mem _ _ l false fuel m1 Hl eq_refl) as [m' Hm']. exists m'. by rewrite (bind_Stop _ _ _ _ _ Hm').
Qed.

(** Memory with a table at 0xF0000: its header, one processor with APIC id 3
    and then an entry of type 9. *)
Definition table_bytes : list Z :=
  chars "_MP_" ++ [16; 0; 15; 0] ++ [1; 4; 129; 0] ++ replicate 4 0 ++
  chars "PCMP" ++ [65; 0; 4; 161] ++ replicate 28 0 ++ [0; 0; 224; 254] ++ replicate 4 0 ++
  [0; 3] ++ replicate 18 0 ++ [9].

Definition table_mem (a : Z) : Z := if (0xF0000 <=? a) && (a <? 0xF0100) then default 0 (table_bytes !! idx (a - 0xF0000)) else 0.

Lemma mpinit_outcome_witness : exists m', mpinit table_mem 1000 0 (mk_mpst 0 [] 0 []) = Done (Stop (Hang "mpinit")) m'.
Proof.
  destruct (mpinit_outcome table_mem 0 (mk_mpst 0 [] 0 []) 0xF0000 0xF0010) as (l & ok & Hl & Hrun).
  - vm_compute. reflexivity.
  - cbn. lia.
  - assert (ok = false) as ->; [|exact (Hrun 1000%nat)]. eapply entries_det; [exact Hl|].
    apply entries_proc; [vm_compute; reflexivity|vm_compute; reflexivity|].
    apply entries_bad; [vm_compute; reflexivity|]. apply (bool_decide_unpack _). vm_compute. exact I.
Defined.
