(* ===== verification/Ide.v ===== *)
(** * The IDE disk driver (ide.c)

    The driver on the state idelock protects: the request queue linked through
    the buffers, and the disk controller.  A path holds idelock from acquire to
    sleep or release, so what it does in between is one step; sleep gives up
    the processor.  The controller is hardware: a type with the port
    operations, and the laws of the ATA command protocol the driver relies
    on. *)

From S2P Require Import Prelude Kernel.

(** ** The controller *)

Definition IDE_BSY : Z := 0x80.
Definition IDE_DRDY : Z := 0x40.
Definition IDE_DF : Z := 0x20.
Definition IDE_ERR : Z := 0x01.
Definition IDE_CMD_READ : Z := 0x20.
Definition IDE_CMD_WRITE : Z := 0x30.
Definition IDE_CMD_RDMUL : Z := 0xc4.
Definition IDE_CMD_WRMUL : Z := 0xc5.
Definition SECTOR_SIZE : Z := 512.

(** The port operations; [d_complete] is the controller's own step from a
    command to its interrupt, [d_disk] the sectors of its two drives. *)
Class Controller (D : Type) := {
  d_outb : Z -> Z -> D -> D;
  d_outsl : Z -> list Z -> D -> D;
  d_inb : Z -> D -> Z * D;
  d_insl : Z -> nat -> D -> list Z * D;
  d_complete : D -> D;
  d_disk : D -> Z -> Z -> option (list Z)
}.

(** struct buf, and the driver's variables; [i_woken] records wakeup(b). *)
Record ibuf := mk_ibuf { b_flags : Z; b_dev : Z; b_blockno : Z; b_qnext : option nat; b_data : list Z }.

#[export] Instance ibuf_inhabited : Inhabited ibuf := populate (mk_ibuf 0 0 0 None []).

Record ide (D : Type) := mk_ide { i_head : option nat; i_bufs : list ibuf; i_d : D; i_disk1 : bool; i_woken : list nat }.
Arguments mk_ide {D}.
Arguments i_head {D}.
Arguments i_bufs {D}.
Arguments i_d {D}.
Arguments i_disk1 {D}.
Arguments i_woken {D}.

Section driver.
Context {D : Type} `{!Controller D}.

Definition ibget (s : ide D) (b : nat) : ibuf := aget (i_bufs s) b.

Definition set_head (h : option nat) (s : ide D) : ide D := mk_ide h (i_bufs s) (i_d s) (i_disk1 s) (i_woken s).

Definition upd_buf (b : nat) (f : ibuf -> ibuf) (s : ide D) : ide D :=
  mk_ide (i_head s) (alter f b (i_bufs s)) (i_d s) (i_disk1 s) (i_woken s).

Definition upd_d (f : D -> D) (s : ide D) : ide D := mk_ide (i_head s) (i_bufs s) (f (i_d s)) (i_disk1 s) (i_woken s).

Definition set_qnext (q : option nat) (x : ibuf) : ibuf := mk_ibuf (b_flags x) (b_dev x) (b_blockno x) q (b_data x).

Definition set_flags (f : Z) (x : ibuf) : ibuf := mk_ibuf f (b_dev x) (b_blockno x) (b_qnext x) (b_data x).

Definition set_data (d : list Z) (x : ibuf) : ibuf := mk_ibuf (b_flags x) (b_dev x) (b_blockno x) (b_qnext x) d.

Definition outb (port v : Z) : M (ide D) unit := modify (upd_d (d_outb port v)).

Definition outsl (port : Z) (l : list Z) : M (ide D) unit := modify (upd_d (d_outsl port l)).

Definition inb (port : Z) : M (ide D) Z :=
  r <- gets (fun s => d_inb port (i_d s)) ;;
  modify (upd_d (fun _ => r.2)) ;;;
  ret r.1.

Definition insl (port : Z) (cnt : nat) : M (ide D) (list Z) :=
  r <- gets (fun s => d_insl port cnt (i_d s)) ;;
  modify (upd_d (fun _ => r.2)) ;;;
  ret r.1.

(** ** The driver *)

(** while(((r = inb(0x1f7)) & (IDE_BSY|IDE_DRDY)) != IDE_DRDY) *)
Fixpoint idewait (fuel : nat) (checkerr : bool) : M (ide D) Z :=
  r <- inb 0x1f7 ;;
  if negb (Z.land r (Z.lor IDE_BSY IDE_DRDY) =? IDE_DRDY) then
    match fuel with
    | O => halt (Hang "idewait")
    | S fuel' => idewait fuel' checkerr
    end
  else if checkerr && negb (Z.land r (Z.lor IDE_DF IDE_ERR) =? 0) then ret (-1)
  else ret 0.

(** for(i=0; i<1000; i++) if(inb(0x1f7) != 0){ havedisk1 = 1; break; } *)
Fixpoint probe (n : nat) : M (ide D) unit :=
  match n with
  | O => ret tt
  | S n' =>
      r <- inb 0x1f7 ;;
      if negb (r =? 0) then modify (fun s => mk_ide (i_head s) (i_bufs s) (i_d s) true (i_woken s))
      else probe n'
  end.

(** ideinit, without initlock and ioapicenable *)
Definition ideinit (fuel : nat) : M (ide D) unit :=
  idewait fuel false ;;;
  outb 0x1f6 (Z.lor 0xe0 (Z.shiftl 1 4)) ;;;
  probe 1000 ;;;
  outb 0x1f6 (Z.lor 0xe0 (Z.shiftl 0 4)).

Definition idestart (fuel : nat) (b : option nat) : M (ide D) unit :=
  match b with
  | None => panic "idestart"
  | Some b =>
      x <- gets (fun s => ibget s b) ;;
      if FSSIZE <=? b_blockno x then panic "incorrect blockno"
      else
        let sector_per_block := BSIZE / SECTOR_SIZE in
        let sector := i32 (b_blockno x * sector_per_block) in
        let read_cmd := if sector_per_block =? 1 then IDE_CMD_READ else IDE_CMD_RDMUL in
        let write_cmd := if sector_per_block =? 1 then IDE_CMD_WRITE else IDE_CMD_WRMUL in
        if 7 <? sector_per_block then panic "idestart"
        else
          idewait fuel false ;;;
          outb 0x3f6 0 ;;;
          outb 0x1f2 sector_per_block ;;;
          outb 0x1f3 (Z.land sector 0xff) ;;;
          outb 0x1f4 (Z.land (Z.shiftr sector 8) 0xff) ;;;
          outb 0x1f5 (Z.land (Z.shiftr sector 16) 0xff) ;;;
          outb 0x1f6 (Z.lor (Z.lor 0xe0 (Z.shiftl (Z.land (b_dev x) 1) 4)) (Z.land (Z.shiftr sector 24) 0x0f)) ;;;
          if negb (Z.land (b_flags x) B_DIRTY =? 0) then
            outb 0x1f7 write_cmd ;;;
            outsl 0x1f0 (b_data x)
          else outb 0x1f7 read_cmd
  end.

Definition wakeup_buf (b : nat) : M (ide D) unit :=
  modify (fun s => mk_ide (i_head s) (i_bufs s) (i_d s) (i_disk1 s) (i_woken s ++ [b])).

Definition ideintr (fuel : nat) : M (ide D) unit :=
  h <- gets i_head ;;
  match h with
  | None => ret tt
  | Some b =>
      x <- gets (fun s => ibget s b) ;;
      modify (set_head (b_qnext x)) ;;;
      (if Z.land (b_flags x) B_DIRTY =? 0 then
         r <- idewait fuel true ;;
         when (0 <=? r)
           (l <- insl 0x1f0 (idx (BSIZE / 4)) ;;
            modify (upd_buf b (set_data l)))
       else ret tt) ;;;
      modify (upd_buf b (fun x => set_flags (Z.lor (b_flags x) B_VALID) x)) ;;;
      modify (upd_buf b (fun x => set_flags (Z.land (b_flags x) (Z.lnot B_DIRTY)) x)) ;;;
      wakeup_buf b ;;;
      h' <- gets i_head ;;
      when (bool_decide (is_Some h')) (idestart fuel h')
  end.

(** The loop that appends [b]: pp points to the qnext field of the buffer
    [at_], or to idequeue itself. *)
Fixpoint enqueue (fuel : nat) (at_ : option nat) (b : nat) : M (ide D) unit :=
  p <- gets (fun s => match at_ with None => i_head s | Some a => b_qnext (ibget s a) end) ;;
  match p with
  | None =>
      match at_ with
      | None => modify (set_head (Some b))
      | Some a => modify (upd_buf a (set_qnext (Some b)))
      end
  | Some a =>
      match fuel with
      | O => halt (Hang "idequeue")
      | S fuel' => enqueue fuel' (Some a) b
      end
  end.

(** iderw up to the wait; [hold] is holdingsleep(&b->lock). *)
Definition iderw_start (fuel : nat) (hold : bool) (b : nat) : M (ide D) unit :=
  x <- gets (fun s => ibget s b) ;;
  d1 <- gets i_disk1 ;;
  if negb hold then panic "iderw: buf not locked"
  else if Z.land (b_flags x) (Z.lor B_VALID B_DIRTY) =? B_VALID then panic "iderw: nothing to do"
  else if negb (b_dev x =? 0) && negb d1 then panic "iderw: ide disk 1 not present"
  else
    modify (upd_buf b (set_qnext None)) ;;;
    n <- gets (fun s => length (i_bufs s)) ;;
    enqueue n None b ;;;
    h <- gets i_head ;;
    when (bool_decide (h = Some b)) (idestart fuel (Some b)).

(** while((b->flags & (B_VALID|B_DIRTY)) != B_VALID) sleep(b, &idelock); *)
Fixpoint iderw_wait (n : nat) (b : nat) : M (ide D) unit :=
  x <- gets (fun s => ibget s b) ;;
  if negb (Z.land (b_flags x) (Z.lor B_VALID B_DIRTY) =? B_VALID) then
    match n with
    | O => halt (Hang "iderw")
    | S n' => swtch ;;; iderw_wait n' b
    end
  else ret tt.

Definition iderw (fuel n : nat) (hold : bool) (b : nat) : M (ide D) unit :=
  iderw_start fuel hold b ;;;
  iderw_wait n b.
End driver.

(** ** The protocol of the controller *)

Section protocol.
Context {D : Type} `{!Controller D}.

(** The registers for one sector of a drive, in the order of the driver. *)
Definition program (dev sector : Z) (d : D) : D :=
  d_outb 0x1f6 (Z.lor (Z.lor 0xe0 (Z.shiftl (Z.land dev 1) 4)) (Z.land (Z.shiftr sector 24) 0x0f))
    (d_outb 0x1f5 (Z.land (Z.shiftr sector 16) 0xff)
      (d_outb 0x1f4 (Z.land (Z.shiftr sector 8) 0xff)
        (d_outb 0x1f3 (Z.land sector 0xff) (d_outb 0x1f2 1 (d_outb 0x3f6 0 d))))).

(** The status says the drive is ready, and without an error. *)
Definition status_ready (d : D) : Prop := exists r, d_inb 0x1f7 d = (r, d) /\ Z.land r (Z.lor IDE_BSY IDE_DRDY) = IDE_DRDY.

Definition status_good (d : D) : Prop :=
  exists r, d_inb 0x1f7 d = (r, d) /\ Z.land r (Z.lor IDE_BSY IDE_DRDY) = IDE_DRDY /\ Z.land r (Z.lor IDE_DF IDE_ERR) = 0.

Definition same_disk (d d' : D) : Prop := forall v n, d_disk d' v n = d_disk d v n.
End protocol.

(** The laws of the ATA protocol for drives without errors: a READ ends with
    the sector in the data port, a WRITE with the data on the disk. *)
Class ControllerLaws (D : Type) `{!Controller D} := {
  d_ready : D -> Prop;
  d_ready_status d : d_ready d -> status_ready d;
  d_read d dev n l : d_ready d -> dev = 0 \/ dev = 1 -> 0 <= n < FSSIZE -> d_disk d dev n = Some l ->
    let d1 := d_complete (d_outb 0x1f7 IDE_CMD_READ (program dev n d)) in
    status_good d1 /\ exists d2, d_insl 0x1f0 128 d1 = (l, d2) /\ d_ready d2 /\ same_disk d d2;
  d_write d dev n l : d_ready d -> dev = 0 \/ dev = 1 -> 0 <= n < FSSIZE -> length l = 512%nat ->
    let d1 := d_complete (d_outsl 0x1f0 l (d_outb 0x1f7 IDE_CMD_WRITE (program dev n d))) in
    d_ready d1 /\ forall v k, d_disk d1 v k = if decide (v = dev /\ k = n) then Some l else d_disk d v k
}.

(** ** The queue as a list, and the specification *)

(** The buffers linked from a pointer on. *)
Fixpoint chain (bufs : list ibuf) (h : option nat) (l : list nat) : Prop :=
  match l with
  | [] => h = None
  | b :: l' => h = Some b /\ (b < length bufs)%nat /\ chain bufs (b_qnext (aget bufs b)) l'
  end.

Definition pending (x : ibuf) : Prop := Z.land (b_flags x) (Z.lor B_VALID B_DIRTY) <> B_VALID.

Definition dirty (x : ibuf) : Prop := Z.land (b_flags x) B_DIRTY <> 0.

#[export] Instance dirty_dec x : Decision (dirty x).
Proof. unfold dirty. apply _. Defined.

(** A request that can be served. *)
Record req_ok (st : gmap (Z * Z) (list Z)) (x : ibuf) : Prop := {
  rq_pending : pending x;
  rq_dev : b_dev x = 0 \/ b_dev x = 1;
  rq_block : 0 <= b_blockno x < FSSIZE;
  rq_len : length (b_data x) = 512%nat;
  rq_disk : is_Some (st !! (b_dev x, b_blockno x))
}.

(** The buffer after its request: valid and clean. *)
Definition done_flags (f : Z) : Z := Z.land (Z.lor f B_VALID) (Z.lnot B_DIRTY).

(** The specification: requests are served one at a time in the order they
    were made; a read gets the block, a write sets it.  [f_disk] holds the
    blocks of the drives. *)
Record fifo := mk_fifo { f_queue : list nat; f_bufs : list ibuf; f_disk : gmap (Z * Z) (list Z) }.

Inductive event :=
| Request (b : nat)
| Interrupt.

Definition fifo_step (e : event) (a : fifo) : fifo :=
  match e with
  | Request b => mk_fifo (f_queue a ++ [b]) (f_bufs a) (f_disk a)
  | Interrupt =>
      match f_queue a with
      | [] => a
      | b :: q =>
          let x := aget (f_bufs a) b in
          let at_ := (b_dev x, b_blockno x) in
          if decide (dirty x) then
            mk_fifo q (alter (fun x => set_flags (done_flags (b_flags x)) x) b (f_bufs a)) (<[at_ := b_data x]> (f_disk a))
          else
            mk_fifo q (alter (fun x => set_flags (done_flags (b_flags x)) (set_data (default [] (f_disk a !! at_)) x)) b (f_bufs a)) (f_disk a)
      end
  end.

(** A request is made by the process that holds the buffer, once, for a block
    that exists; the drive interrupts only while it serves one. *)
Definition event_ok (e : event) (disk1 : bool) (a : fifo) : Prop :=
  match e with
  | Request b => (b ∉ f_queue a) /\ (b < length (f_bufs a))%nat /\ req_ok (f_disk a) (aget (f_bufs a) b) /\
                 (b_dev (aget (f_bufs a) b) = 0 \/ disk1 = true)
  | Interrupt => f_queue a <> []
  end.

Fixpoint events_ok (es : list event) (disk1 : bool) (a : fifo) : Prop :=
  match es with
  | [] => True
  | e :: es' => event_ok e disk1 a /\ events_ok es' disk1 (fifo_step e a)
  end.

(** The links are not part of the specification. *)
Definition unlink (bufs : list ibuf) : list ibuf := set_qnext None <$> bufs.

Section refine.
Context {D : Type} `{!Controller D, !ControllerLaws D}.

Definition holds_disk (d : D) (st : gmap (Z * Z) (list Z)) : Prop := forall v n, d_disk d v n = st !! (v, n).

(** The controller has the command for buffer [x], given when it was [d]. *)
Definition started (d : D) (x : ibuf) : D :=
  if decide (dirty x) then d_outsl 0x1f0 (b_data x) (d_outb 0x1f7 IDE_CMD_WRITE (program (b_dev x) (b_blockno x) d))
  else d_outb 0x1f7 IDE_CMD_READ (program (b_dev x) (b_blockno x) d).

(** The driver's state implements the specification's. *)
Record ide_rel (a : fifo) (s : ide D) : Prop := {
  ir_chain : chain (i_bufs s) (i_head s) (f_queue a);
  ir_nodup : NoDup (f_queue a);
  ir_bufs : unlink (i_bufs s) = f_bufs a;
  ir_reqs : Forall (fun b => req_ok (f_disk a) (ibget s b)) (f_queue a);
  ir_dev : match f_queue a with
           | [] => d_ready (i_d s) /\ holds_disk (i_d s) (f_disk a)
           | b :: _ => exists d, d_ready d /\ holds_disk d (f_disk a) /\ i_d s = started d (ibget s b)
           end
}.

(** What an event does to the driver. *)
Definition ide_event (fuel : nat) (e : event) : M (ide D) unit :=
  match e with
  | Request b => iderw_start fuel true b
  | Interrupt => modify (upd_d d_complete) ;;; ideintr fuel
  end.

Lemma upd_d_id (s : ide D) : upd_d (fun _ => i_d s) s = s.
Proof. by destruct s. Qed.

Lemma ibget_upd b f (s : ide D) c : (b < length (i_bufs s))%nat -> ibget (upd_buf b f s) c = if decide (c = b) then f (ibget s b) else ibget s c.
Proof.
  intros Hb. unfold ibget, upd_buf, aget. cbn. case_decide as Hc.
  - subst. rewrite list_lookup_alter_eq. destruct (lookup_lt_is_Some_2 _ _ Hb) as [x ->]. done.
  - by rewrite list_lookup_alter_ne.
Qed.

Lemma inb_ok port (s : ide D) r : d_inb port (i_d s) = (r, i_d s) -> inb port s = Done (Ok r) s.
Proof. intros H. unfold inb. rewrite bind_gets, H. cbn [fst snd]. rewrite bind_modify, upd_d_id. done. Qed.

Lemma idewait_ready fuel (s : ide D) : status_ready (i_d s) -> idewait fuel false s = Done (Ok 0) s.
Proof.
  intros (r & Hr & Hb). destruct fuel; cbn [idewait]; by rewrite (bind_Done _ _ _ _ _ (inb_ok _ _ _ Hr)), Hb.
Qed.

Lemma idewait_good fuel (s : ide D) : status_good (i_d s) -> idewait fuel true s = Done (Ok 0) s.
Proof.
  intros (r & Hr & Hb & He). destruct fuel; cbn [idewait]; by rewrite (bind_Done _ _ _ _ _ (inb_ok _ _ _ Hr)), Hb, He.
Qed.

(** idestart gives the controller the command. *)
Lemma idestart_ok fuel b (s : ide D) : d_ready (i_d s) -> 0 <= b_blockno (ibget s b) < FSSIZE ->
  idestart fuel (Some b) s = Done (Ok tt) (upd_d (fun d => started d (ibget s b)) s).
Proof.
  intros Hr Hb. unfold idestart. rewrite bind_gets. rewrite (proj2 (Z.leb_gt _ _)) by lia.
  change (BSIZE / SECTOR_SIZE) with 1. change (7 <? 1) with false. change (1 =? 1) with true. cbv match.
  rewrite (bind_Done _ _ _ _ _ (idewait_ready fuel s (d_ready_status _ Hr))). rewrite Z.mul_1_r.
  rewrite i32_id by (unfold FSSIZE in *; lia). unfold outb, outsl. rewrite !bind_modify. unfold started, dirty.
  case_decide as Hd.
  - rewrite (proj2 (Z.eqb_neq _ _) Hd). cbn [negb]. by rewrite bind_modify.
  - by rewrite Hd.
Qed.

(** *** The linked queue *)

Lemma chain_bound bufs h l b : chain bufs h l -> b ∈ l -> (b < length bufs)%nat.
Proof.
  revert h. induction l as [|c l IH]; intros h Hc Hb; [by apply elem_of_nil in Hb|]. destruct Hc as (_ & Hl & Hc).
  assert (b = c \/ b ∈ l) as [->|Hb'] by set_solver; [done|]. by eapply IH.
Qed.

(** Changing a buffer that is not in the chain, or not its link. *)
Lemma chain_alter bufs h l a f : chain bufs h l -> (a ∉ l) \/ (forall x, b_qnext (f x) = b_qnext x) -> chain (alter f a bufs) h l.
Proof.
  revert h. induction l as [|c l IH]; intros h Hc Ha; [done|]. destruct Hc as (Hh & Hl & Hc). cbn [chain]. rewrite length_alter.
  split; [done|]. split; [done|].
  assert (b_qnext (aget (alter f a bufs) c) = b_qnext (aget bufs c)) as ->.
  { unfold aget. destruct (decide (a = c)) as [->|Hne]; [|by rewrite list_lookup_alter_ne].
    rewrite list_lookup_alter_eq. destruct (lookup_lt_is_Some_2 _ _ Hl) as [x Hx]. rewrite Hx. cbn.
    destruct Ha as [Ha|Ha]; [set_solver|apply Ha]. }
  apply IH; [done|]. destruct Ha as [Ha|Ha]; [left; set_solver|by right].
Qed.

Lemma chain_snoc bufs h l a b : chain bufs h (l ++ [a]) -> NoDup (l ++ [a]) -> (b ∉ l ++ [a]) -> (b < length bufs)%nat ->
  b_qnext (aget bufs b) = None -> chain (alter (set_qnext (Some b)) a bufs) h ((l ++ [a]) ++ [b]).
Proof.
  intros Hc Hnd Hb Hlen Hq. revert h Hc. induction l as [|c l IH]; intros h Hc; cbn [app] in *.
  - destruct Hc as (-> & Ha & Hn). cbn [chain]. rewrite length_alter. split; [done|]. split; [done|].
    unfold aget in *. rewrite list_lookup_alter_eq. destruct (lookup_lt_is_Some_2 _ _ Ha) as [x Hx]. rewrite Hx. cbn.
    split; [done|]. split; [done|]. rewrite list_lookup_alter_ne by set_solver. done.
  - destruct Hc as (-> & Ha & Hn). apply NoDup_cons in Hnd as [Hc Hnd]. cbn [chain]. rewrite length_alter. split; [done|]. split; [done|].
    unfold aget at 1. rewrite list_lookup_alter_ne by set_solver. apply IH; [done|set_solver|done].
Qed.

(** The pointer that the loop of iderw ends at. *)
Definition link (l : list nat) (b : nat) (s : ide D) : ide D :=
  match last l with
  | None => set_head (Some b) s
  | Some a => upd_buf a (set_qnext (Some b)) s
  end.

Lemma enqueue_from fuel a l b (s : ide D) : chain (i_bufs s) (b_qnext (ibget s a)) l -> (length l <= fuel)%nat ->
  enqueue fuel (Some a) b s = Done (Ok tt) (link (a :: l) b s).
Proof.
  revert a l. induction fuel as [|fuel IH]; intros a l Hc Hf; cbn [enqueue]; rewrite bind_gets.
  - destruct l; [|cbn in Hf; lia]. cbn in Hc. by rewrite Hc.
  - destruct l as [|c l]; [cbn in Hc; by rewrite Hc|]. destruct Hc as (-> & _ & Hc). rewrite (IH c l) by (done || (cbn in Hf; lia)). done.
Qed.

Lemma enqueue_ok fuel l b (s : ide D) : chain (i_bufs s) (i_head s) l -> (length l <= fuel)%nat ->
  enqueue fuel None b s = Done (Ok tt) (link l b s).
Proof.
  intros Hc Hf. destruct l as [|a l].
  - cbn in Hc. destruct fuel; cbn [enqueue]; rewrite bind_gets, Hc; done.
  - destruct Hc as (Hh & _ & Hc). destruct fuel as [|fuel]; [cbn in Hf; lia|]. cbn [enqueue]. rewrite bind_gets, Hh.
    apply enqueue_from; [done|]. cbn in Hf. lia.
Qed.

Lemma unlink_alter_link bufs a q : unlink (alter (set_qnext q) a bufs) = unlink bufs.
Proof. unfold unlink. apply fmap_alter_same. by intros x. Qed.

Lemma link_chain l b (s : ide D) : chain (i_bufs s) (i_head s) l -> NoDup l -> (b ∉ l) -> (b < length (i_bufs s))%nat ->
  b_qnext (ibget s b) = None -> chain (i_bufs (link l b s)) (i_head (link l b s)) (l ++ [b]).
Proof.
  intros Hc Hnd Hb Hlen Hq. unfold link. destruct l as [|a l _] using rev_ind.
  - cbn. done.
  - rewrite last_snoc. cbn [upd_buf i_bufs i_head]. by apply chain_snoc.
Qed.

Lemma chain_length bufs h l : chain bufs h l -> NoDup l -> (length l <= length bufs)%nat.
Proof.
  intros Hc Hnd. rewrite <- (length_seq (length bufs) 0). apply submseteq_length, NoDup_submseteq; [done|].
  intros b Hb. apply elem_of_seq. pose proof (chain_bound _ _ _ _ Hc Hb). lia.
Qed.

Lemma ibget_link l b c s : (forall a, a ∈ l -> (a < length (i_bufs s))%nat) -> set_qnext None (ibget (link l b s) c) = set_qnext None (ibget s c).
Proof.
  intros Hl. unfold link. destruct (last l) as [a|] eqn:Ha; [|done]. apply last_Some_elem_of in Ha.
  rewrite ibget_upd by auto. by case_decide; subst.
Qed.

(** A request depends on no link. *)
Lemma req_ok_link st x y : set_qnext None x = set_qnext None y -> req_ok st x -> req_ok st y.
Proof. destruct x, y. cbn. intros [= -> -> -> ->] [H1 H2 H3 H4 H5]. by split. Qed.

Lemma started_link d x y : set_qnext None x = set_qnext None y -> started d x = started d y.
Proof. destruct x, y. cbn. by intros [= -> -> -> ->]. Qed.

(** *** Requests *)

Lemma request_ok fuel a s b :
  ide_rel a s -> event_ok (Request b) (i_disk1 s) a ->
  exists s', ide_event fuel (Request b) s = Done (Ok tt) s' /\ ide_rel (fifo_step (Request b) a) s' /\
    i_disk1 s' = i_disk1 s /\ i_woken s' = i_woken s.
Proof.
  intros [Hc Hnd Hbufs Hreqs Hdev] (Hb & Hlen & Hrq & Hd1). rewrite <- Hbufs in Hlen. unfold unlink in Hlen. rewrite length_fmap in Hlen.
  assert (set_qnext None (aget (f_bufs a) b) = set_qnext None (ibget s b)) as Hx.
  { rewrite <- Hbufs. unfold unlink, ibget, aget. rewrite list_lookup_fmap. by destruct (lookup_lt_is_Some_2 _ _ Hlen) as [x ->]. }
  pose proof (req_ok_link _ _ _ Hx Hrq) as Hr. assert (b_dev (aget (f_bufs a) b) = b_dev (ibget s b)) as Hdv by (by injection Hx).
  rewrite Hdv in Hd1. set (s1 := upd_buf b (set_qnext None) s).
  assert (chain (i_bufs s1) (i_head s1) (f_queue a)) as Hc1 by (apply chain_alter; [done|by left]).
  assert (ibget s1 b = set_qnext None (ibget s b)) as Hb1 by (unfold s1; by rewrite ibget_upd, decide_True).
  assert (forall c, set_qnext None (ibget s1 c) = set_qnext None (ibget s c)) as Hs1.
  { intros c. unfold s1. rewrite ibget_upd by done. by case_decide; subst. }
  set (s2 := link (f_queue a) b s1).
  assert (forall c, set_qnext None (ibget s2 c) = set_qnext None (ibget s c)) as Hs2.
  { intros c. unfold s2. rewrite ibget_link, Hs1; [done|]. intros c' Hc'. by eapply chain_bound. }
  assert (chain (i_bufs s2) (i_head s2) (f_queue a ++ [b])) as Hc2.
  { apply link_chain; [done|done|done|unfold s1; cbn; by rewrite length_alter|by rewrite Hb1]. }
  assert (unlink (i_bufs s2) = f_bufs a) as Hu2.
  { rewrite <- Hbufs. unfold s2, link. destruct (last _); cbn; by rewrite !unlink_alter_link. }
  assert (i_d s2 = i_d s /\ i_disk1 s2 = i_disk1 s /\ i_woken s2 = i_woken s) as (Hd2 & H12 & Hw2) by (unfold s2, link; by destruct (last _)).
  set (s3 := if decide (f_queue a = []) then upd_d (fun d => started d (ibget s2 b)) s2 else s2).
  assert (req_ok (f_disk a) (ibget s2 b)) as Hr2 by (eapply req_ok_link; [symmetry; apply Hs2|done]).
  exists s3. split; [|split; [split|]].
  - unfold ide_event, iderw_start. rewrite !bind_gets. cbn [negb]. rewrite (proj2 (Z.eqb_neq _ _) (rq_pending _ _ Hr)).
    replace (negb (b_dev (ibget s b) =? 0) && negb (i_disk1 s)) with false by (destruct Hd1 as [-> | ->]; [done|by rewrite andb_false_r]).
    rewrite bind_modify. fold s1. rewrite bind_gets.
    rewrite (bind_Done _ _ _ _ _ (enqueue_ok _ (f_queue a) b s1 Hc1 (chain_length _ _ _ Hc1 Hnd))). fold s2. rewrite bind_gets. unfold s3.
    destruct (f_queue a) as [|c q] eqn:Hq; cbn [app chain] in Hc2; destruct Hc2 as (Hh2 & _); rewrite Hh2.
    + rewrite bool_decide_true by done. apply idestart_ok; [rewrite Hd2; apply Hdev|apply (rq_block _ _ Hr2)].
    + rewrite bool_decide_false by (intros [= ->]; set_solver). done.
  - cbn. unfold s3. by case_decide.
  - cbn. apply NoDup_app. split; [done|]. split; [|apply NoDup_singleton]. intros c Hc' ->%list_elem_of_singleton. done.
  - unfold s3. by case_decide.
  - cbn. apply Forall_app. split.
    + eapply Forall_impl; [exact Hreqs|]. intros c Hc'. cbn in Hc'. apply (req_ok_link _ (ibget s c)); [|done]. unfold s3. symmetry. case_decide; apply Hs2.
    + apply Forall_singleton. unfold s3. by case_decide.
  - cbn. unfold s3. destruct (f_queue a) as [|c q] eqn:Hq; cbn [app].
    + rewrite decide_True by done. exists (i_d s2). rewrite Hd2. split; [apply Hdev|]. split; [apply Hdev|done].
    + rewrite decide_False by done. destruct Hdev as (d & H1 & H2 & H3). exists d. split; [done|]. split; [done|].
      rewrite Hd2, H3. apply started_link. symmetry. apply Hs2.
  - unfold s3. by case_decide.
Qed.

(** *** Interrupts *)

(** The end of ideintr: the flags of the buffer, the wakeup, and the next
    request. *)
Definition intr_tail (fuel : nat) (b : nat) : M (ide D) unit :=
  modify (upd_buf b (fun x => set_flags (Z.lor (b_flags x) B_VALID) x)) ;;;
  modify (upd_buf b (fun x => set_flags (Z.land (b_flags x) (Z.lnot B_DIRTY)) x)) ;;;
  wakeup_buf b ;;;
  h' <- gets i_head ;;
  when (bool_decide (is_Some h')) (idestart fuel h').

Definition served (x : ibuf) : ibuf := set_flags (done_flags (b_flags x)) x.

Lemma intr_tail_ok fuel b q st (t : ide D) :
  chain (i_bufs t) (i_head t) q -> (b ∉ q) -> d_ready (i_d t) -> holds_disk (i_d t) st -> Forall (fun c => req_ok st (ibget t c)) q ->
  exists s', intr_tail fuel b t = Done (Ok tt) s' /\ i_bufs s' = alter served b (i_bufs t) /\ i_head s' = i_head t /\
    i_disk1 s' = i_disk1 t /\ i_woken s' = i_woken t ++ [b] /\
    match q with
    | [] => d_ready (i_d s') /\ holds_disk (i_d s') st
    | c :: _ => exists d, d_ready d /\ holds_disk d st /\ i_d s' = started d (ibget s' c)
    end.
Proof.
  intros Hc Hb Hr Hd Hq. unfold intr_tail, wakeup_buf. rewrite !bind_modify, bind_gets.
  set (t1 := mk_ide (i_head t) (alter served b (i_bufs t)) (i_d t) (i_disk1 t) (i_woken t ++ [b])).
  match goal with |- context [when _ _ ?u] => assert (u = t1) as -> end.
  { unfold t1, upd_buf. cbn. f_equal. apply list_eq. intros j. destruct (decide (j = b)) as [->|Hj].
    - rewrite !list_lookup_alter_eq. by destruct (i_bufs t !! b).
    - by rewrite !list_lookup_alter_ne. }
  cbn [i_head t1]. destruct q as [|c q]; cbn [chain] in Hc.
  - rewrite Hc. exists t1. rewrite bool_decide_false by (by intros [? ?]). cbn. by rewrite Hc.
  - destruct Hc as (Hh & Hlc & _). rewrite Hh, bool_decide_true by done. apply Forall_cons in Hq as [Hq _].
    assert (ibget t1 c = ibget t c) as Hct by (unfold ibget, aget, t1; cbn; rewrite list_lookup_alter_ne by set_solver; done).
    exists (upd_d (fun d => started d (ibget t1 c)) t1). cbn [when]. split; [|cbn; rewrite Hh; split_and!; try done].
    + apply idestart_ok; [done|]. rewrite Hct. apply (rq_block _ _ Hq).
    + exists (i_d t). split; [done|]. by split.
Qed.

Lemma intr_tail_rel fuel b q st bufs (t : ide D) :
  chain (i_bufs t) (i_head t) q -> (b ∉ q) -> NoDup q -> d_ready (i_d t) -> holds_disk (i_d t) st ->
  Forall (fun c => req_ok st (ibget t c)) q -> unlink (i_bufs t) = bufs ->
  exists s', intr_tail fuel b t = Done (Ok tt) s' /\ ide_rel (mk_fifo q (alter served b bufs) st) s' /\
    i_disk1 s' = i_disk1 t /\ i_woken s' = i_woken t ++ [b].
Proof.
  intros Hc Hb Hnd Hr Hd Hq Hu. destruct (intr_tail_ok fuel b q st t Hc Hb Hr Hd Hq) as (s' & Hrun & Hb' & Hh' & H1' & Hw' & Hdev').
  exists s'. split; [done|]. split; [|done]. split; cbn [f_queue f_bufs f_disk]; try done.
  - rewrite Hb', Hh'. by apply chain_alter; [|left].
  - rewrite Hb', <- Hu. unfold unlink. apply list_fmap_alter. by apply Forall_true.
  - rewrite Forall_forall in Hq |- *. intros c Hcq. unfold ibget, aget. rewrite Hb', list_lookup_alter_ne by set_solver. by apply Hq.
Qed.

Lemma interrupt_ok fuel a s :
  ide_rel a s -> event_ok Interrupt (i_disk1 s) a ->
  exists s', ide_event fuel Interrupt s = Done (Ok tt) s' /\ ide_rel (fifo_step Interrupt a) s' /\ i_disk1 s' = i_disk1 s /\
    i_woken s' = i_woken s ++ take 1 (f_queue a).
Proof.
  intros [Hc Hnd Hbufs Hreqs Hdev] Hne. cbn in Hne. cbn [fifo_step]. destruct (f_queue a) as [|b q]; [done|].
  destruct Hc as (Hh & Hlen & Hc). apply NoDup_cons in Hnd as [Hbq Hnd]. apply Forall_cons in Hreqs as [Hrb Hreqs].
  destruct Hdev as (d & Hr & Hd & Hs).
  assert (aget (f_bufs a) b = set_qnext None (ibget s b)) as Hx.
  { rewrite <- Hbufs. unfold unlink, ibget, aget. rewrite list_lookup_fmap. by destruct (lookup_lt_is_Some_2 _ _ Hlen) as [x ->]. }
  rewrite Hx. cbn [set_qnext b_dev b_blockno b_data]. set (x := ibget s b) in *.
  unfold ide_event. rewrite bind_modify. unfold ideintr. rewrite bind_gets. cbn [upd_d i_head]. rewrite Hh, bind_gets.
  change (ibget (upd_d d_complete s) b) with x. rewrite bind_modify.
  set (s1 := set_head (b_qnext x) (upd_d d_complete s)). fold (intr_tail fuel b).
  change (dirty (set_qnext None x)) with (dirty x). destruct (decide (dirty x)) as [Hdy|Hdy].
  - rewrite (proj2 (Z.eqb_neq _ _) Hdy), bind_ret_l.
    destruct (d_write d (b_dev x) (b_blockno x) (b_data x) Hr (rq_dev _ _ Hrb) (rq_block _ _ Hrb) (rq_len _ _ Hrb)) as [Hr1 Hd1].
    assert (i_d s1 = d_complete (d_outsl 0x1f0 (b_data x) (d_outb 0x1f7 IDE_CMD_WRITE (program (b_dev x) (b_blockno x) d)))) as Hds.
    { unfold s1. cbn. rewrite Hs. unfold started. by rewrite decide_True. }
    rewrite <- Hds in Hr1, Hd1.
    apply (intr_tail_rel fuel b q (<[(b_dev x, b_blockno x) := b_data x]> (f_disk a)) (f_bufs a) s1); try done.
    + intros v n. rewrite Hd1. case_decide as He; [destruct He as [-> ->]; by rewrite lookup_insert_eq|].
      rewrite lookup_insert_ne by (intros [= <- <-]; by apply He). apply Hd.
    + eapply Forall_impl; [exact Hreqs|]. intros c [H1 H2 H3 H4 H5]. split; try done. apply lookup_insert_is_Some'. by right.
  - assert (Z.land (b_flags x) B_DIRTY = 0) as Hdz by (unfold dirty in Hdy; lia). rewrite Hdz. change (0 =? 0) with true. cbv match.
    destruct (rq_disk _ _ Hrb) as [l Hl]. fold x in Hl. rewrite Hl. cbn [default from_option id].
    destruct (d_read d (b_dev x) (b_blockno x) l Hr (rq_dev _ _ Hrb) (rq_block _ _ Hrb)) as (Hg & d2 & Hin & Hr2 & Hd2); [by rewrite Hd|].
    assert (i_d s1 = d_complete (d_outb 0x1f7 IDE_CMD_READ (program (b_dev x) (b_blockno x) d))) as Hds.
    { unfold s1. cbn. rewrite Hs. unfold started. by rewrite decide_False. }
    rewrite <- Hds in Hg, Hin. set (t := upd_buf b (set_data l) (upd_d (fun _ => d2) s1)).
    assert ((r <- idewait fuel true ;; when (0 <=? r) (l <- insl 496 (idx (BSIZE / 4)) ;; modify (upd_buf b (set_data l)))) s1 = Done (Ok tt) t) as Hread.
    { rewrite (bind_Done _ _ _ _ _ (idewait_good fuel s1 Hg)). cbn [when Z.leb Z.compare]. unfold insl. change (idx (BSIZE / 4)) with 128%nat.
      unfold bind at 1 2, gets. cbn [xbind]. rewrite Hin. done. }
    rewrite (bind_Done _ _ _ _ _ Hread).
    replace (alter (fun x0 => set_flags (done_flags (b_flags x0)) (set_data l x0)) b (f_bufs a)) with (alter served b (alter (set_data l) b (f_bufs a))).
    2: { apply list_eq. intros j. destruct (decide (j = b)) as [->|Hj]; [rewrite !list_lookup_alter_eq; by destruct (f_bufs a !! b)|by rewrite !list_lookup_alter_ne]. }
    apply (intr_tail_rel fuel b q (f_disk a) (alter (set_data l) b (f_bufs a)) t); try done.
    + unfold t. cbn. by apply chain_alter; [|right].
    + intros v n. cbn. by rewrite Hd2.
    + rewrite Forall_forall in Hreqs |- *. intros c Hcq. unfold t, ibget, aget. cbn. rewrite list_lookup_alter_ne by set_solver. by apply Hreqs.
    + unfold t. cbn. rewrite <- Hbufs. unfold unlink. apply list_fmap_alter. by apply Forall_true.
Qed.

Lemma event_rel fuel e a s : ide_rel a s -> event_ok e (i_disk1 s) a ->
  exists s', ide_event fuel e s = Done (Ok tt) s' /\ ide_rel (fifo_step e a) s' /\ i_disk1 s' = i_disk1 s.
Proof.
  intros Hr He. destruct e as [b|].
  - destruct (request_ok fuel a s b Hr He) as (s' & H1 & H2 & H3 & _). by exists s'.
  - destruct (interrupt_ok fuel a s Hr He) as (s' & H1 & H2 & H3 & _). by exists s'.
Qed.

(** A buffer that was served is valid and clean: iderw leaves its loop. *)
Lemma served_done f : Z.land (done_flags f) (Z.lor B_VALID B_DIRTY) = B_VALID.
Proof.
  unfold done_flags. rewrite <- Z.land_assoc. change (Z.land (Z.lnot B_DIRTY) (Z.lor B_VALID B_DIRTY)) with B_VALID.
  apply Z.bits_inj'. intros n Hn. rewrite Z.land_spec, Z.lor_spec. by destruct (Z.testbit f n), (Z.testbit B_VALID n).
Qed.

Lemma iderw_wait_served n b (s : ide D) f : b_flags (ibget s b) = done_flags f -> iderw_wait n b s = Done (Ok tt) s.
Proof. intros Hf. destruct n; cbn [iderw_wait]; rewrite bind_gets, Hf, served_done; done. Qed.
End refine.

(** C3: the IDE driver serves the disk requests in order.  For a controller that
    follows the ATA protocol, any sequence of requests by processes that hold
    their buffers and of interrupts of the drive takes the driver, without a
    panic and without the queue breaking, to a state that implements the
    specification in which requests are served first come, first served: the
    linked list through the buffers is the queue, the controller has exactly
    the command of its first buffer, each interrupt finishes that request, with
    the block's contents in the buffer or the buffer's on the disk and the
    flags valid and clean, and starts the next one. *)
Theorem ide_refines_fifo {D} `{!Controller D, !ControllerLaws D} fuel es a (s : ide D) :
  ide_rel a s -> events_ok es (i_disk1 s) a ->
  exists s', mfor es (ide_event fuel) s = Done (Ok tt) s' /\ ide_rel (foldl (fun a e => fifo_step e a) a es) s'.
Proof.
  revert a s. induction es as [|e es IH]; intros a s Hr He; [by exists s|]. destruct He as [He Hes].
  destruct (event_rel fuel e a s Hr He) as (s1 & Hrun & Hr1 & Hd1). rewrite <- Hd1 in Hes.
  destruct (IH _ _ Hr1 Hes) as (s2 & Hrun2 & Hr2). exists s2. split; [|done]. cbn [mfor]. by rewrite (bind_Done _ _ _ _ _ Hrun).
Qed.

(** ** A controller *)

(** Two drives with the address registers, the last command and the data port. *)
Record ctl := mk_ctl { c_3 : Z; c_4 : Z; c_5 : Z; c_6 : Z; c_cmd : Z; c_data : list Z; c_err : bool; c_disk : gmap (Z * Z) (list Z) }.

Definition ctl_outb (port v : Z) (d : ctl) : ctl :=
  let '(mk_ctl r3 r4 r5 r6 cmd data err disk) := d in
  if port =? 0x1f3 then mk_ctl v r4 r5 r6 cmd data err disk
  else if port =? 0x1f4 then mk_ctl r3 v r5 r6 cmd data err disk
  else if port =? 0x1f5 then mk_ctl r3 r4 v r6 cmd data err disk
  else if port =? 0x1f6 then mk_ctl r3 r4 r5 v cmd data err disk
  else if port =? 0x1f7 then mk_ctl r3 r4 r5 r6 v data err disk
  else d.

Definition ctl_at (d : ctl) : Z * Z :=
  (Z.land (Z.shiftr (c_6 d) 4) 1, c_3 d + 256 * c_4 d + 65536 * c_5 d + 16777216 * Z.land (c_6 d) 15).

Definition ctl_complete (d : ctl) : ctl :=
  let '(mk_ctl r3 r4 r5 r6 cmd data err disk) := d in
  if cmd =? IDE_CMD_READ then mk_ctl r3 r4 r5 r6 0 (default [] (disk !! ctl_at d)) err disk
  else if cmd =? IDE_CMD_WRITE then mk_ctl r3 r4 r5 r6 0 data err (<[ctl_at d := data]> disk)
  else d.

#[export] Instance ctl_controller : Controller ctl := {
  d_outb := ctl_outb;
  d_outsl _ l d := mk_ctl (c_3 d) (c_4 d) (c_5 d) (c_6 d) (c_cmd d) l (c_err d) (c_disk d);
  d_inb _ d := (if c_err d then Z.lor IDE_DRDY IDE_ERR else IDE_DRDY, d);
  d_insl _ _ d := (c_data d, d);
  d_complete := ctl_complete;
  d_disk d v n := c_disk d !! (v, n)
}.

Lemma ctl_program d dev n : dev = 0 \/ dev = 1 -> 0 <= n < FSSIZE ->
  ctl_at (program dev n d) = (dev, n) /\ c_disk (program dev n d) = c_disk d /\ c_err (program dev n d) = c_err d.
Proof.
  intros Hdev Hn. unfold FSSIZE in Hn. destruct d as [r3 r4 r5 r6 cmd data err disk]. cbn [program d_outb ctl_controller ctl_outb Z.eqb Pos.eqb].
  split; [|done]. unfold ctl_at. cbn [c_3 c_4 c_5 c_6]. rewrite !Z.shiftr_div_pow2 by lia.
  change 255 with (Z.ones 8). change 15 with (Z.ones 4). rewrite !Z.land_ones by lia.
  rewrite (Z.div_small n (2 ^ 16)), (Z.div_small n (2 ^ 24)) by lia. change (0 mod 2 ^ 8) with 0. change (0 mod 2 ^ 4) with 0. rewrite Z.lor_0_r.
  f_equal; [by destruct Hdev as [-> | ->]|]. rewrite (Z.mod_small (n / 2 ^ 8)).
  - assert (Z.lor 224 (Z.shiftl (Z.land dev 1) 4) mod 2 ^ 4 = 0) as -> by (by destruct Hdev as [-> | ->]).
    pose proof (Z.div_mod n 256). change (2 ^ 8) with 256. lia.
  - split; [apply Z.div_pos; lia|apply Z.div_lt_upper_bound; lia].
Qed.

#[export] Instance ctl_laws : ControllerLaws ctl.
Proof.
  refine {| d_ready d := c_err d = false |}.
  - intros d Hd. exists IDE_DRDY. cbn. by rewrite Hd.
  - intros d dev n l Hd Hdev Hn Hl d1. destruct (ctl_program d dev n Hdev Hn) as (Ha & Hs & He).
    set (p := program dev n d) in *. destruct p as [r3 r4 r5 r6 cmd data err disk] eqn:Hp. cbn in Hs, He. subst err disk.
    assert (d1 = mk_ctl r3 r4 r5 r6 0 l (c_err d) (c_disk d)) as ->.
    { unfold d1. cbn. change (ctl_at _) with (ctl_at (mk_ctl r3 r4 r5 r6 cmd data (c_err d) (c_disk d))). rewrite Ha. cbn in Hl. by rewrite Hl. }
    split; [exists IDE_DRDY; cbn; by rewrite Hd|]. eexists. split; [done|]. by split.
  - intros d dev n l Hd Hdev Hn Hl d1. destruct (ctl_program d dev n Hdev Hn) as (Ha & Hs & He).
    set (p := program dev n d) in *. destruct p as [r3 r4 r5 r6 cmd data err disk] eqn:Hp. cbn in Hs, He. subst err disk.
    assert (d1 = mk_ctl r3 r4 r5 r6 0 l (c_err d) (<[(dev, n) := l]> (c_disk d))) as ->.
    { unfold d1. cbn. change (ctl_at _) with (ctl_at (mk_ctl r3 r4 r5 r6 cmd data (c_err d) (c_disk d))). by rewrite Ha. }
    split; [done|]. intros v k. cbn. case_decide as Hvk; [destruct Hvk as [-> ->]; apply lookup_insert_eq|].
    apply lookup_insert_ne. intros [= <- <-]. by apply Hvk.
Defined.

(** Buffer 0 writes a block and buffer 1 reads the same block, both queued. *)
Definition two_bufs : list ibuf := [mk_ibuf B_DIRTY 1 7 None (replicate 512 9); mk_ibuf 0 1 7 None (replicate 512 0)].

Definition ctl0 : ctl := mk_ctl 0 0 0 0 0 [] false {[ (1, 7) := replicate 512 0 ]}.

Lemma ide_refines_fifo_witness : exists s', mfor [Request 0; Request 1; Interrupt; Interrupt] (ide_event 0) (mk_ide None two_bufs ctl0 true []) = Done (Ok tt) s' /\
  b_data <$> unlink (i_bufs s') = [replicate 512 9; replicate 512 9].
Proof.
  destruct (ide_refines_fifo 0 [Request 0; Request 1; Interrupt; Interrupt] (mk_fifo [] two_bufs (c_disk ctl0)) (mk_ide None two_bufs ctl0 true []))
    as (s' & Hrun & Hr).
  - split; [done|constructor|done|constructor|done].
  - assert (forall st x, b_dev x = 1 -> b_blockno x = 7 -> length (b_data x) = 512%nat -> pending x -> is_Some (st !! (1, 7)) -> req_ok st x) as Hq.
    { intros st x H1 H2 H3 H4 H5. split; [done|by right|rewrite H2; unfold FSSIZE; lia|done|by rewrite H1, H2]. }
    split; [|split; [|split; [|split]]]; cbn -[replicate]; try done.
    + split; [set_solver|]. split; [lia|]. split; [apply Hq; vm_compute; (done || by eexists)|by right].
    + split; [set_solver|]. split; [lia|]. split; [apply Hq; vm_compute; (done || by eexists)|by right].
  - exists s'. split; [exact Hrun|]. rewrite (ir_bufs _ _ Hr). vm_compute. reflexivity.
Defined.

(** A read that fails is reported as a valid buffer.  When the drive ends a
    READ with an error in its status, ideintr() leaves the buffer's old bytes
    in place and still sets B_VALID, so that iderw() returns as if the block
    had been read. *)
Theorem ide_error_marks_valid : exists s', ide_event 0 Interrupt
    (mk_ide (Some 0%nat) [mk_ibuf 0 1 7 None (replicate 512 5)] (mk_ctl 7 0 0 0xf0 IDE_CMD_READ [] true {[ (1, 7) := replicate 512 1 ]}) true []) = Done (Ok tt) s' /\
  ibget s' 0 = mk_ibuf B_VALID 1 7 None (replicate 512 5) /\ iderw_wait 0 0 s' = Done (Ok tt) s'.
Proof. eexists. split; [vm_compute; reflexivity|]. split; vm_compute; reflexivity. Qed.
