(* ===== verification/Boot.v ===== *)
(** * The boot loader (bootmain.c)

    bootmain runs before the kernel, with physical memory, a function from
    addresses to bytes, and the disk controller, which it polls.  Addresses are
    32-bit, and a store wraps around at the end of memory. *)

From S2P Require Import Prelude Cstring Kernel Spinlock ProcCore Console Vm Bio Log Inode Fs Proc Exec Mp Ide.
From Stdlib Require Import Sorting.Sorted.

Record boot (D : Type) := mk_boot { bt_mem : Z -> Z; bt_d : D }.
Arguments mk_boot {D}.
Arguments bt_mem {D}.
Arguments bt_d {D}.

(** The bytes [l] stored from address [a] on. *)
Definition put (a : Z) (l : list Z) (mem : Z -> Z) : Z -> Z :=
  fun x => let k := u32 (x - a) in if k <? Z.of_nat (length l) then aget l (idx k) else mem x.

Definition SECTSIZE : Z := 512.

Section loader.
Context {D : Type} `{!Controller D}.

Definition boot_out (port v : Z) : M (boot D) unit :=
  modify (fun s => mk_boot (bt_mem s) (d_outb port (u8 v) (bt_d s))).

Definition boot_load (n : nat) (a : Z) : M (boot D) Z := gets (fun s => mem_le (bt_mem s) n a).

(** while((inb(0x1F7) & 0xC0) != 0x40) *)
Fixpoint waitdisk (fuel : nat) : M (boot D) unit :=
  r <- gets (fun s => d_inb 0x1F7 (bt_d s)) ;;
  modify (fun s => mk_boot (bt_mem s) r.2) ;;;
  if negb (Z.land r.1 0xC0 =? 0x40) then
    match fuel with
    | O => halt (Hang "waitdisk")
    | S fuel' => waitdisk fuel'
    end
  else ret tt.

Definition readsect (fuel : nat) (dst offset : Z) : M (boot D) unit :=
  waitdisk fuel ;;;
  boot_out 0x1F2 1 ;;;
  boot_out 0x1F3 offset ;;;
  boot_out 0x1F4 (Z.shiftr offset 8) ;;;
  boot_out 0x1F5 (Z.shiftr offset 16) ;;;
  boot_out 0x1F6 (Z.lor (Z.shiftr offset 24) 0xE0) ;;;
  boot_out 0x1F7 0x20 ;;;
  waitdisk fuel ;;;
  r <- gets (fun s => d_insl 0x1F0 (idx (SECTSIZE / 4)) (bt_d s)) ;;
  modify (fun s => mk_boot (put dst r.1 (bt_mem s)) r.2).

(** for(; pa < epa; pa += SECTSIZE, offset++) readsect(pa, offset); with [n]
    turns left *)
Fixpoint readseg_loop (n fuel : nat) (pa epa offset : Z) : M (boot D) unit :=
  if negb (pa <? epa) then ret tt
  else
    match n with
    | O => halt (Hang "readseg")
    | S n' =>
        readsect fuel pa offset ;;;
        readseg_loop n' fuel (u32 (pa + SECTSIZE)) epa (u32 (offset + 1))
    end.

Definition readseg (fuel : nat) (pa count offset : Z) : M (boot D) unit :=
  let epa := u32 (pa + count) in
  let pa := u32 (pa - offset mod SECTSIZE) in
  let offset := u32 (offset / SECTSIZE + 1) in
  readseg_loop (idx (count / SECTSIZE) + 2) fuel pa epa offset.

(** struct elfhdr *elf = 0x10000 *)
Definition elf : Z := 0x10000.

(** The loop over the program headers, read from memory as they are needed. *)
Fixpoint bootmain_loop (n fuel : nat) (ph eph : Z) : M (boot D) unit :=
  if negb (ph <? eph) then ret tt
  else
    match n with
    | O => halt (Hang "bootmain")
    | S n' =>
        pa <- boot_load 4 (ph + 12) ;;
        filesz <- boot_load 4 (ph + 16) ;;
        off <- boot_load 4 (ph + 4) ;;
        readseg fuel pa filesz off ;;;
        memsz <- boot_load 4 (ph + 20) ;;
        filesz <- boot_load 4 (ph + 16) ;;
        when (filesz <? memsz)
          (modify (fun s => mk_boot (put (u32 (pa + filesz)) (replicate (idx (memsz - filesz)) 0) (bt_mem s)) (bt_d s))) ;;;
        bootmain_loop n' fuel (u32 (ph + sizeof_proghdr)) eph
    end.

(** bootmain: the address it jumps to, [None] when it returns to bootasm.S *)
Definition bootmain (fuel : nat) : M (boot D) (option Z) :=
  readseg fuel elf 4096 0 ;;;
  magic <- boot_load 4 elf ;;
  if negb (magic =? ELF_MAGIC) then ret None
  else
    phoff <- boot_load 4 (elf + 28) ;;
    phnum <- boot_load 2 (elf + 44) ;;
    let ph := u32 (elf + phoff) in
    let eph := u32 (ph + sizeof_proghdr * phnum) in
    bootmain_loop (idx phnum) fuel ph eph ;;;
    entry <- boot_load 4 (elf + 24) ;;
    ret (Some entry).
End loader.

(** ** The drive as it is polled *)

Section polling.
Context {D : Type} `{!Controller D}.

(** After [n] reads of the status that say busy, one says ready. *)
Fixpoint settles (n : nat) (d d' : D) : Prop :=
  match n with
  | O => exists r, d_inb 0x1F7 d = (r, d') /\ Z.land r 0xC0 = 0x40
  | S n' => exists r d1, d_inb 0x1F7 d = (r, d1) /\ Z.land r 0xC0 <> 0x40 /\ settles n' d1 d'
  end.

(** The registers for one sector of drive 0 in LBA mode. *)
Definition lba (n : Z) (d : D) : D :=
  d_outb 0x1F6 (u8 (Z.lor (Z.shiftr n 24) 0xE0))
    (d_outb 0x1F5 (u8 (Z.shiftr n 16)) (d_outb 0x1F4 (u8 (Z.shiftr n 8)) (d_outb 0x1F3 (u8 n) (d_outb 0x1F2 (u8 1) d)))).
End polling.

(** The ATA protocol for a polled drive without errors: it gets ready within
    [pl_bound] reads of its status, and a READ SECTORS command ends, within as
    many, with the sector in the data port. *)
Class PollLaws (D : Type) `{!Controller D} := {
  pl_bound : nat;
  pl_idle : D -> Prop;
  pl_set : D -> Prop;
  pl_wait d : pl_idle d -> exists n d', (n <= pl_bound)%nat /\ settles n d d' /\ pl_set d' /\ same_disk d d';
  pl_read d n l : pl_set d -> 0 <= n < 2 ^ 28 -> d_disk d 0 n = Some l ->
    exists k d1 d2, (k <= pl_bound)%nat /\ settles k (d_outb 0x1F7 (u8 0x20) (lba n d)) d1 /\
      d_insl 0x1F0 128 d1 = (l, d2) /\ pl_idle d2 /\ same_disk d d2
}.

(** ** The kernel file *)

(** [F] is the file, byte by byte; it lies on the sectors 1 to [N]. *)
Definition holds_file {D} `{!Controller D} (F : Z -> Z) (N : Z) (d : D) : Prop :=
  forall n, 1 <= n <= N -> d_disk d 0 n = Some (mem_bytes F (512 * (n - 1)) 512).

(** A segment, from its program header. *)
Record seg := mk_seg { sg_off : Z; sg_pa : Z; sg_filesz : Z; sg_memsz : Z }.

Definition seg_at (F : Z -> Z) (ph : Z) : seg :=
  mk_seg (mem_le F 4 (ph + 4)) (mem_le F 4 (ph + 12)) (mem_le F 4 (ph + 16)) (mem_le F 4 (ph + 20)).

Definition segs_of (F : Z -> Z) : list seg :=
  (fun i => seg_at F (mem_le F 4 28 + 32 * Z.of_nat i)) <$> seq 0 (idx (mem_le F 2 44)).

(** The first byte the loader writes for a segment, the first one after it,
    and how many sectors it reads. *)
Definition seg_lo (g : seg) : Z := sg_pa g - sg_off g mod 512.
Definition seg_hi (g : seg) : Z := sg_pa g + Z.max (sg_filesz g) (sg_memsz g).
Definition seg_sectors (g : seg) : Z := (sg_filesz g + sg_off g mod 512 + 511) / 512.

(** The segment is above the scratch page, fits in memory and in the file. *)
Record seg_ok (N : Z) (g : seg) : Prop := {
  so_lo : elf + 4096 <= seg_lo g;
  so_hi : seg_hi g + 512 < 2 ^ 32;
  so_file : sg_off g / 512 + seg_sectors g <= N
}.

(** A header with nothing to load, as PT_GNU_STACK has. *)
Definition inert (g : seg) : bool := (sg_filesz g =? 0) && (sg_memsz g =? 0) && (sg_off g mod 512 =? 0).

(** The segments with something to load. *)
Definition live (l : list seg) : list seg := filter (fun g => inert g = false) l.

(** The segment is in memory: its bytes of the file, and zeros up to memsz. *)
Definition loaded (F mem : Z -> Z) (g : seg) : Prop :=
  (forall k, 0 <= k < sg_filesz g -> mem (sg_pa g + k) = F (sg_off g + k)) /\
  (forall k, sg_filesz g <= k < sg_memsz g -> mem (sg_pa g + k) = 0).

(** ** Memory *)

Lemma put_in a l m x : 0 <= x - a < Z.of_nat (length l) -> x - a < 2 ^ 32 -> put a l m x = aget l (idx (x - a)).
Proof. intros H1 H2. unfold put. rewrite u32_id by lia. by rewrite (proj2 (Z.ltb_lt _ _)) by lia. Qed.

Lemma put_out a l m x : 0 <= x < a -> a + Z.of_nat (length l) <= 2 ^ 32 -> put a l m x = m x.
Proof.
  intros Hx Ha. unfold put, u32. rewrite <- (Z.mod_unique_pos (x - a) (2 ^ 32) (-1) (x - a + 2 ^ 32)) by lia.
  by rewrite (proj2 (Z.ltb_ge _ _)) by lia.
Qed.

Lemma put_after a l m x : 0 <= a -> a + Z.of_nat (length l) <= x < 2 ^ 32 -> put a l m x = m x.
Proof. intros Ha Hx. unfold put. rewrite u32_id by lia. by rewrite (proj2 (Z.ltb_ge _ _)) by lia. Qed.

Lemma length_mem_bytes mem a n : length (mem_bytes mem a n) = n.
Proof. unfold mem_bytes. by rewrite length_fmap, length_seq. Qed.

Lemma aget_mem_bytes mem a n k : (k < n)%nat -> aget (mem_bytes mem a n) k = mem (a + Z.of_nat k).
Proof. intros Hk. apply aget_lookup. unfold mem_bytes. by rewrite list_lookup_fmap, lookup_seq_lt. Qed.

Lemma mem_le_ext m m' n a b : (forall k : nat, (k < n)%nat -> m (a + Z.of_nat k) = m' (b + Z.of_nat k)) -> mem_le m n a = mem_le m' n b.
Proof.
  intros H. unfold mem_le. apply le_load_ext. intros j Hj. rewrite !aget_mem_bytes by lia. apply H. lia.
Qed.

(** ** Reading *)

Section reading.
Context {D : Type} `{!Controller D, !PollLaws D}.
Context (F : Z -> Z) (N : Z) (fuel : nat).
Hypothesis (Hfuel : (pl_bound <= fuel)%nat).

Lemma waitdisk_settles n f m (d d' : D) : (n <= f)%nat -> settles n d d' -> waitdisk f (mk_boot m d) = Done (Ok tt) (mk_boot m d').
Proof.
  revert f d. induction n as [|n IH]; intros f d Hf Hs; [destruct f|destruct f as [|f]; [lia|]];
    cbn [waitdisk]; rewrite bind_gets, bind_modify; cbn [bt_mem bt_d].
  1,2: destruct Hs as (r & -> & Hr); cbn [fst snd]; by rewrite Hr.
  destruct Hs as (r & d1 & -> & Hr & Hs). cbn [fst snd]. rewrite (proj2 (Z.eqb_neq _ _) Hr). cbn [negb]. apply IH; [lia|done].
Qed.

(** The drive is idle and holds the file. *)
Definition drive_ok (d : D) : Prop := pl_idle d /\ holds_file F N d.

Lemma holds_file_same d d' : same_disk d d' -> holds_file F N d -> holds_file F N d'.
Proof. intros Hs Hd n Hn. rewrite Hs. by apply Hd. Qed.

Lemma readsect_ok m d dst n : drive_ok d -> 1 <= n <= N -> n < 2 ^ 28 ->
  exists d', readsect fuel dst n (mk_boot m d) = Done (Ok tt) (mk_boot (put dst (mem_bytes F (512 * (n - 1)) 512) m) d') /\ drive_ok d'.
Proof.
  intros [Hi Hf] Hn H28. destruct (pl_wait d Hi) as (k1 & d1 & Hk1 & Hs1 & Hset & Hd1).
  pose proof (holds_file_same _ _ Hd1 Hf) as Hf1.
  destruct (pl_read d1 n (mem_bytes F (512 * (n - 1)) 512) Hset) as (k2 & d2 & d3 & Hk2 & Hs2 & Hin & Hi3 & Hd3); [lia|by apply Hf1|].
  exists d3. split; [|split; [done|by eapply holds_file_same]]. unfold readsect, boot_out.
  rewrite (bind_Done _ _ _ _ _ (waitdisk_settles k1 fuel m d d1 ltac:(lia) Hs1)).
  rewrite !bind_modify. cbn [bt_mem bt_d]. fold (lba n d1). change (Z.to_nat _) with 0%nat.
  rewrite (bind_Done _ _ _ _ _ (waitdisk_settles k2 fuel m _ d2 ltac:(lia) Hs2)).
  rewrite bind_gets. cbn [bt_d]. change (idx (SECTSIZE / 4)) with 128%nat. by rewrite Hin.
Qed.

(** [k] sectors of the file, from sector [n] on, at [pa]. *)
Lemma readseg_loop_ok k j m d pa epa n :
  drive_ok d -> (k <= j)%nat -> 0 <= pa -> pa + 512 * Z.of_nat k < 2 ^ 32 -> 1 <= n -> n + Z.of_nat k - 1 <= N -> n + Z.of_nat k <= 2 ^ 28 ->
  pa + 512 * Z.of_nat k - 512 < epa <= pa + 512 * Z.of_nat k \/ (k = 0%nat /\ epa <= pa) ->
  exists m' d', readseg_loop j fuel pa epa n (mk_boot m d) = Done (Ok tt) (mk_boot m' d') /\ drive_ok d' /\
    (forall x, 0 <= x < pa -> m' x = m x) /\
    (forall x, pa <= x < pa + 512 * Z.of_nat k -> m' x = F (512 * (n - 1) + (x - pa))).
Proof.
  revert j m d pa n. induction k as [|k IH]; intros j m d pa n Hd Hj Hpa Hmem Hn HN H28 Hepa.
  - exists m, d. destruct j; cbn [readseg_loop]; rewrite (proj2 (Z.ltb_ge _ _)) by lia; (split; [done|]; split; [done|]; split; [done|lia]).
  - destruct j as [|j]; [lia|]. cbn [readseg_loop]. rewrite (proj2 (Z.ltb_lt _ _)) by lia. cbn [negb].
    destruct (readsect_ok m d pa n Hd) as (d1 & Hr & Hd1); [lia|lia|]. rewrite (bind_Done _ _ _ _ _ Hr).
    unfold SECTSIZE. rewrite !u32_id by lia.
    destruct (IH j (put pa (mem_bytes F (512 * (n - 1)) 512) m) d1 (pa + 512) (n + 1) Hd1) as (m' & d' & Hl & Hd' & Hlow & Hin);
      [lia|lia|lia|lia|lia|lia|lia|].
    exists m', d'. split; [done|]. split; [done|]. split.
    + intros x Hx. rewrite Hlow by lia. apply put_out; [lia|]. rewrite length_mem_bytes. lia.
    + intros x Hx. destruct (decide (x < pa + 512)) as [Hlt|Hge].
      * rewrite Hlow by lia. rewrite put_in by (rewrite ?length_mem_bytes; lia). rewrite aget_mem_bytes by (unfold idx; lia).
        f_equal. unfold idx. lia.
      * rewrite Hin by lia. f_equal. lia.
Qed.

(** A segment's bytes, and nothing below its first sector. *)
Lemma readseg_ok m d pa count off :
  drive_ok d -> 0 <= off -> 0 <= count -> 0 <= pa - off mod 512 -> pa + count + 512 < 2 ^ 32 ->
  off / 512 + (count + off mod 512 + 511) / 512 <= N -> N < 2 ^ 28 ->
  exists m' d', readseg fuel pa count off (mk_boot m d) = Done (Ok tt) (mk_boot m' d') /\ drive_ok d' /\
    (forall x, 0 <= x < pa - off mod 512 -> m' x = m x) /\
    (forall k, 0 <= k < count -> m' (pa + k) = F (off + k)).
Proof.
  intros Hd Hoff Hcount Hlo Hhi HN H28. unfold readseg, SECTSIZE. set (k := (count + off mod 512 + 511) / 512) in *.
  pose proof (Z.mod_pos_bound off 512 ltac:(lia)). pose proof (Z.div_mod off 512 ltac:(lia)).
  pose proof (Z.div_mod (count + off mod 512 + 511) 512 ltac:(lia)). pose proof (Z.mod_pos_bound (count + off mod 512 + 511) 512 ltac:(lia)).
  pose proof (Z.div_mod count 512 ltac:(lia)). pose proof (Z.mod_pos_bound count 512 ltac:(lia)). fold k in H1.
  assert (0 <= off / 512) by (apply Z.div_pos; lia). assert (0 <= k) by (apply Z.div_pos; lia).
  rewrite !u32_id by lia.
  destruct (readseg_loop_ok (Z.to_nat k) (idx (count / 512) + 2) m d (pa - off mod 512) (pa + count) (off / 512 + 1) Hd)
    as (m' & d' & Hl & Hd' & Hlow & Hin); [unfold idx; lia|lia|lia|lia|lia|lia|lia|].
  exists m', d'. split; [done|]. split; [done|]. split; [done|]. intros x Hx. rewrite Hin by lia. f_equal. lia.
Qed.
End reading.

(** ** Loading *)

Section loading.
Context (F : Z -> Z).

(** The first page of the file is in the scratch page. *)
Definition header (m : Z -> Z) : Prop := forall x, 0 <= x < 4096 -> m (elf + x) = F x.

Lemma header_le m n x : header m -> 0 <= x -> x + Z.of_nat n <= 4096 -> mem_le m n (elf + x) = mem_le F n x.
Proof. intros Hm H0 Hx. apply mem_le_ext. intros k Hk. rewrite <- Z.add_assoc. apply Hm. lia. Qed.

Hypothesis (Hbytes : forall x, 0 <= F x < 256).

Lemma mem_le_range n a : 0 <= mem_le F n a < 256 ^ Z.of_nat n.
Proof.
  apply le_load_range. apply Forall_fmap, Forall_forall. intros k _. apply Hbytes.
Qed.

Context {D : Type} `{!Controller D, !PollLaws D}.
Context (N : Z) (fuel : nat).
Hypothesis (Hfuel : (pl_bound <= fuel)%nat).
Hypothesis (HN : 8 <= N < 2 ^ 28).

(** A program header is read from the scratch page, before and after the
    segment is. *)
Lemma seg_step m d o n eph :
  drive_ok F N d -> header m -> 0 <= o -> o + 32 <= 4096 -> seg_ok N (seg_at F o) -> elf + o < eph ->
  exists m1 d1, bootmain_loop (S n) fuel (elf + o) eph (mk_boot m d) =
      bootmain_loop n fuel (elf + (o + 32)) eph (mk_boot m1 d1) /\
    drive_ok F N d1 /\ loaded F m1 (seg_at F o) /\ forall x, 0 <= x < seg_lo (seg_at F o) -> m1 x = m x.
Proof.
  intros Hd Hm Ho Hend [Hlo Hhi Hfile] Heph. unfold seg_lo, seg_hi, seg_sectors, seg_at in *. cbn [sg_off sg_pa sg_filesz sg_memsz] in *.
  assert (forall x, 0 <= mem_le F 4 x < 2 ^ 32) as Hr by (intros x; apply (mem_le_range 4)).
  cbn [bootmain_loop]. rewrite (proj2 (Z.ltb_lt _ _)) by lia. cbn [negb]. unfold boot_load. rewrite !bind_gets. cbn [bt_mem].
  rewrite <- !Z.add_assoc, !header_le by (done || lia).
  set (pa := mem_le F 4 (o + 12)) in *. set (fsz := mem_le F 4 (o + 16)) in *. set (off := mem_le F 4 (o + 4)) in *. set (msz := mem_le F 4 (o + 20)) in *.
  assert (0 <= fsz /\ 0 <= off /\ 0 <= msz) as (Hf0 & Ho0 & Hm0) by (split; [apply Hr|split; apply Hr]).
  unfold elf in Hlo. pose proof (Z.mod_pos_bound off 512 ltac:(lia)).
  destruct (readseg_ok F N fuel Hfuel m d pa fsz off Hd) as (m1 & d1 & Hrun & Hd1 & Hlow & Hin); [lia|lia|lia|lia|lia|lia|].
  assert (header m1) as Hm1 by (intros x Hx; rewrite Hlow by (unfold elf; lia); by apply Hm).
  rewrite (bind_Done _ _ _ _ _ Hrun), !bind_gets. cbn [bt_mem].
  rewrite !header_le by (done || lia). fold fsz msz. unfold when.
  replace (u32 (elf + (o + sizeof_proghdr))) with (elf + (o + 32)) by (rewrite u32_id; unfold elf, sizeof_proghdr in *; lia).
  destruct (Z.ltb_spec fsz msz) as [Hlt|Hge].
  - eexists _, d1. split; [rewrite bind_modify; cbn [bt_mem bt_d]; reflexivity|]. split; [done|]. rewrite u32_id by lia. cbn [bt_mem bt_d].
    assert (length (replicate (idx (msz - fsz)) 0) = idx (msz - fsz)) as Hlen by apply length_replicate. unfold idx in *.
    split; [split|]; cbn [sg_off sg_pa sg_filesz sg_memsz].
    + intros k Hk. rewrite put_out by lia. by apply Hin.
    + intros k Hk. rewrite put_in by lia. unfold aget, idx. by rewrite lookup_replicate_2 by lia.
    + intros x Hx. rewrite put_out by lia. apply Hlow. lia.
  - exists m1, d1. split; [by rewrite bind_ret_l|]. split; [done|]. split; [split|]; cbn [sg_off sg_pa sg_filesz sg_memsz]; [done|lia|].
    intros x Hx. apply Hlow. lia.
Qed.

Lemma inert_step m d o n eph :
  header m -> 0 <= o -> o + 32 <= 4096 -> inert (seg_at F o) = true -> elf + o < eph ->
  bootmain_loop (S n) fuel (elf + o) eph (mk_boot m d) = bootmain_loop n fuel (elf + (o + 32)) eph (mk_boot m d).
Proof.
  intros Hm Ho Hend [[Hfz%Z.eqb_eq Hmz%Z.eqb_eq]%andb_true_iff Hof%Z.eqb_eq]%andb_true_iff Heph.
  unfold seg_at in *. cbn [sg_off sg_pa sg_filesz sg_memsz] in *.
  cbn [bootmain_loop]. rewrite (proj2 (Z.ltb_lt _ _)) by lia. cbn [negb]. unfold boot_load. rewrite !bind_gets. cbn [bt_mem].
  rewrite <- !Z.add_assoc, !header_le by (done || lia). rewrite Hfz.
  rewrite (bind_Done _ _ _ tt (mk_boot m d)).
  2:{ unfold readseg, SECTSIZE. rewrite Hof, Z.sub_0_r, Z.add_0_r. change (idx (0 / 512) + 2)%nat with 2%nat. cbn [readseg_loop]. by rewrite Z.ltb_irrefl. }
  rewrite !bind_gets. cbn [bt_mem]. rewrite !header_le by (done || lia). rewrite Hfz, Hmz.
  change (0 <? 0) with false. unfold when. rewrite bind_ret_l.
  replace (u32 (elf + (o + sizeof_proghdr))) with (elf + (o + 32)) by (rewrite u32_id; unfold elf, sizeof_proghdr in *; lia).
  done.
Qed.

Lemma inert_loaded m g : inert g = true -> loaded F m g.
Proof.
  intros [[Hfz%Z.eqb_eq Hmz%Z.eqb_eq]%andb_true_iff _]%andb_true_iff. split; intros k Hk; lia.
Qed.

(** The segments come in increasing order. *)
Definition ascending (l : list seg) : Prop := StronglySorted (fun g h => seg_hi g <= seg_lo h) l.

(** One segment is loaded, and those after it do not touch it. *)
Lemma loaded_kept m m1 g o :
  g = seg_at F o -> seg_ok N g -> loaded F m1 g -> (forall x, 0 <= x < seg_hi g -> m x = m1 x) -> loaded F m g.
Proof.
  intros -> Hg [Hl1 Hl2] Hkeep. pose proof (so_lo _ _ Hg). unfold seg_lo, seg_hi, elf in *.
  pose proof (Z.mod_pos_bound (sg_off (seg_at F o)) 512 ltac:(lia)).
  pose proof (mem_le_range 4 (o + 16)) as Hf. change (mem_le F 4 (o + 16)) with (sg_filesz (seg_at F o)) in Hf.
  split; intros k Hk; rewrite Hkeep by lia; auto.
Qed.

Lemma bootmain_loop_ok n i phoff num m d :
  (i + n = num)%nat -> drive_ok F N d -> header m -> 0 <= phoff -> phoff + 32 * Z.of_nat num <= 4096 ->
  let segs := (fun j => seg_at F (phoff + 32 * Z.of_nat j)) <$> seq i n in
  Forall (seg_ok N) (live segs) -> ascending (live segs) ->
  exists m' d', bootmain_loop n fuel (elf + (phoff + 32 * Z.of_nat i)) (elf + (phoff + 32 * Z.of_nat num)) (mk_boot m d) =
      Done (Ok tt) (mk_boot m' d') /\
    Forall (loaded F m') segs /\ forall x, 0 <= x -> Forall (fun g => x < seg_lo g) (live segs) -> m' x = m x.
Proof.
  revert i m d. induction n as [|n IH]; intros i m d Hi Hd Hm Hp Hend segs Hok Hasc.
  { exists m, d. cbn [bootmain_loop]. rewrite (proj2 (Z.ltb_ge _ _)) by lia. split; [done|]. split; [constructor|done]. }
  unfold segs, live in *. cbn [seq fmap list_fmap] in *. set (o := phoff + 32 * Z.of_nat i) in *.
  assert (o + 32 = phoff + 32 * Z.of_nat (S i)) as Hnext by lia.
  destruct (inert (seg_at F o)) eqn:Hin.
  - rewrite filter_cons_False in * by (by rewrite Hin). rewrite inert_step by (done || lia). rewrite Hnext.
    destruct (IH (S i) m d) as (m' & d' & Hrun & Hall & Hrest); [lia|done|done|done|done|done|done|].
    exists m', d'. split; [done|]. split; [constructor; [by apply inert_loaded|done]|done].
  - rewrite filter_cons_True in * by done. apply Forall_cons in Hok as [Hg Hok].
    apply StronglySorted_inv in Hasc as [Hasc Hhi].
    destruct (seg_step m d o n (elf + (phoff + 32 * Z.of_nat num)) Hd Hm) as (m1 & d1 & -> & Hd1 & Hl1 & Hlow);
      [lia|lia|done|lia|].
    pose proof (so_lo _ _ Hg) as Hso. unfold elf in Hso.
    assert (header m1) as Hm1 by (intros x Hx; rewrite Hlow by (unfold elf; lia); by apply Hm).
    rewrite Hnext.
    destruct (IH (S i) m1 d1) as (m' & d' & Hrun & Hall & Hrest); [lia|done|done|done|done|done|done|].
    exists m', d'. split; [done|]. split.
    + constructor; [|done]. apply (loaded_kept m' m1 _ o); [done..|].
      intros x Hx. apply Hrest; [lia|]. eapply Forall_impl; [exact Hhi|]. cbn. lia.
    + intros x Hx Hlt. apply Forall_cons in Hlt as [Hx1 Hlt]. rewrite Hrest by done. apply Hlow. lia.
Qed.
End loading.

(** C8: the boot loader loads the kernel.  For a drive that follows the ATA
    protocol and holds the kernel file from sector 1 on, with the program
    headers in its first page and the segments in increasing order, each
    starting on or after the end of the one before it when it is rounded down
    to a sector of the file (headers with nothing to load, such as
    PT_GNU_STACK, may stand anywhere among them), bootmain ends with the jump to the entry point of
    the file, and every segment is in memory: its bytes from the file, and
    zeros up to its size in memory.  The sectors that are read past the end of
    a segment do no harm, as the comment of readseg says. *)
Theorem bootmain_loads {D} `{!Controller D, !PollLaws D} (F : Z -> Z) N fuel m (d : D) :
  (pl_bound <= fuel)%nat -> (forall x, 0 <= F x < 256) -> 8 <= N < 2 ^ 28 ->
  pl_idle d -> holds_file F N d ->
  mem_le F 4 0 = ELF_MAGIC -> mem_le F 4 28 + 32 * mem_le F 2 44 <= 4096 ->
  Forall (seg_ok N) (live (segs_of F)) -> ascending (live (segs_of F)) ->
  exists m' d', bootmain fuel (mk_boot m d) = Done (Ok (Some (mem_le F 4 24))) (mk_boot m' d') /\
    Forall (loaded F m') (segs_of F).
Proof.
  intros Hfuel Hb HN Hi Hf Hmagic Hph Hok Hasc. unfold bootmain.
  destruct (readseg_ok F N fuel Hfuel m d elf 4096 0) as (m1 & d1 & Hrun & Hd1 & _ & Hin);
    [by split|done|done|done|done|change (_ + _) with 8; lia|lia|].
  assert (header F m1) as Hm1 by (intros x Hx; by rewrite Hin).
  rewrite (bind_Done _ _ _ _ _ Hrun). unfold boot_load. rewrite bind_gets. cbn [bt_mem].
  replace (mem_le m1 4 elf) with (mem_le F 4 0) by (rewrite <- (header_le F m1 4 0 Hm1) by lia; done).
  rewrite Hmagic, Z.eqb_refl. cbn [negb]. rewrite !bind_gets. cbn [bt_mem]. rewrite !(header_le F) by (done || lia).
  pose proof (mem_le_range F Hb 4 28) as H28. pose proof (mem_le_range F Hb 2 44) as H44.
  change (256 ^ Z.of_nat 4) with (2 ^ 32) in H28. unfold sizeof_proghdr. rewrite !u32_id by (unfold elf; lia).
  destruct (bootmain_loop_ok F Hb N fuel Hfuel HN (idx (mem_le F 2 44)) 0 (mem_le F 4 28) (idx (mem_le F 2 44)) m1 d1)
    as (m' & d' & Hl & Hall & Hrest); [done|done|done|lia|unfold idx; lia|done|done|].
  replace (elf + (mem_le F 4 28 + 32 * Z.of_nat 0)) with (elf + mem_le F 4 28) in Hl by lia.
  replace (elf + (mem_le F 4 28 + 32 * Z.of_nat (idx (mem_le F 2 44)))) with (elf + mem_le F 4 28 + 32 * mem_le F 2 44) in Hl by (unfold idx; lia).
  rewrite (bind_Done _ _ _ _ _ Hl), bind_gets. cbn [bt_mem]. exists m', d'. split; [|done].
  assert (header F m') as Hm'.
  { intros x Hx. rewrite Hrest; [by apply Hm1|unfold elf; lia|]. eapply Forall_impl; [exact Hok|].
    intros g Hg. pose proof (so_lo _ _ Hg). cbn. unfold elf in *. lia. }
  by rewrite (header_le F) by (done || lia).
Qed.

(** ** A drive *)

(** The address registers, how many more reads of the status say busy, the data
    port and the sectors. *)
Record pio := mk_pio { p_3 : Z; p_4 : Z; p_5 : Z; p_6 : Z; p_busy : nat; p_buf : list Z; p_sect : Z -> option (list Z) }.

Definition pio_lba (d : pio) : Z := p_3 d + 2 ^ 8 * p_4 d + 2 ^ 16 * p_5 d + 2 ^ 24 * (p_6 d mod 16).

Definition pio_outb (port v : Z) (d : pio) : pio :=
  let '(mk_pio r3 r4 r5 r6 busy buf sect) := d in
  if port =? 0x1F3 then mk_pio v r4 r5 r6 busy buf sect
  else if port =? 0x1F4 then mk_pio r3 v r5 r6 busy buf sect
  else if port =? 0x1F5 then mk_pio r3 r4 v r6 busy buf sect
  else if port =? 0x1F6 then mk_pio r3 r4 r5 v busy buf sect
  else if (port =? 0x1F7) && (v =? 0x20) then mk_pio r3 r4 r5 r6 3 (default [] (sect (pio_lba d))) sect
  else d.

Definition pio_inb (port : Z) (d : pio) : Z * pio :=
  let '(mk_pio r3 r4 r5 r6 busy buf sect) := d in
  match busy with
  | O => (0x40, d)
  | S n => (0x80, mk_pio r3 r4 r5 r6 n buf sect)
  end.

#[export] Instance pio_controller : Controller pio := {
  d_outb := pio_outb;
  d_outsl _ _ d := d;
  d_inb := pio_inb;
  d_insl _ _ d := (p_buf d, d);
  d_complete d := d;
  d_disk d v n := if decide (v = 0) then p_sect d n else None
}.

Lemma pio_settles r3 r4 r5 r6 busy buf sect :
  settles busy (mk_pio r3 r4 r5 r6 busy buf sect) (mk_pio r3 r4 r5 r6 0 buf sect).
Proof.
  induction busy as [|n IH]; cbn [settles].
  - by exists 0x40.
  - exists 0x80, (mk_pio r3 r4 r5 r6 n buf sect). done.
Qed.

Lemma lba_high x : 0 <= x < 16 -> u8 (Z.lor x 0xE0) mod 16 = x.
Proof.
  intros Hx. assert (x ∈ seqZ 0 16) as Hin by (apply elem_of_seqZ; lia).
  assert (Forall (fun x => u8 (Z.lor x 0xE0) mod 16 = x) (seqZ 0 16)) as Hall by (apply (bool_decide_unpack _); by vm_compute).
  rewrite Forall_forall in Hall. by apply Hall.
Qed.

Lemma pio_lba_ok n d : 0 <= n < 2 ^ 28 -> pio_lba (lba n d) = n.
Proof.
  intros Hn. destruct d as [r3 r4 r5 r6 busy buf sect]. unfold pio_lba. cbn -[Z.add Z.mul Z.pow Z.shiftr Z.lor Z.modulo u8].
  rewrite !Z.shiftr_div_pow2 by lia. rewrite lba_high by (split; [apply Z.div_pos; lia|apply Z.div_lt_upper_bound; lia]).
  unfold u8. change (2 ^ 16) with (2 ^ 8 * 2 ^ 8). change (2 ^ 24) with (2 ^ 8 * (2 ^ 8 * 2 ^ 8)). rewrite <- !Z.div_div by lia.
  pose proof (Z.div_mod n (2 ^ 8)). pose proof (Z.div_mod (n / 2 ^ 8) (2 ^ 8)). pose proof (Z.div_mod (n / 2 ^ 8 / 2 ^ 8) (2 ^ 8)). lia.
Qed.

Lemma pio_command d :
  pio_outb 0x1F7 (u8 0x20) d = mk_pio (p_3 d) (p_4 d) (p_5 d) (p_6 d) 3 (default [] (p_sect d (pio_lba d))) (p_sect d).
Proof. by destruct d. Qed.

Lemma pio_lba_sect n d : p_sect (lba n d) = p_sect d.
Proof. by destruct d. Qed.

#[export] Instance pio_laws : PollLaws pio.
Proof.
  refine {| pl_bound := 3; pl_idle d := (p_busy d <= 3)%nat; pl_set d := p_busy d = 0%nat |}.
  - intros [r3 r4 r5 r6 busy buf sect] Hd. cbn in Hd. exists busy, (mk_pio r3 r4 r5 r6 0 buf sect). split; [done|].
    split; [apply pio_settles|]. by split.
  - intros d n l Hd Hn Hl. change (p_sect d n = Some l) in Hl.
    change (d_outb 0x1F7 (u8 0x20) (lba n d)) with (pio_outb 0x1F7 (u8 0x20) (lba n d)).
    rewrite pio_command, pio_lba_ok, pio_lba_sect, Hl by done. exists 3%nat. eexists _, _. split; [done|].
    split; [apply pio_settles|]. split; [done|]. split; [cbn; lia|done].
Defined.

(** A file with one segment of 8 bytes at offset 116, and 4 more in memory, and a
    PT_GNU_STACK header. *)
Definition tiny_kernel : list Z :=
  [127; 69; 76; 70] ++ replicate 20 0 ++ [116; 0; 16; 0] ++ [52; 0; 0; 0] ++ replicate 12 0 ++ [2; 0] ++ replicate 6 0 ++
  [1; 0; 0; 0] ++ [116; 0; 0; 0] ++ replicate 4 0 ++ [116; 0; 16; 0] ++ [8; 0; 0; 0] ++ [12; 0; 0; 0] ++ replicate 8 0 ++
  [81; 229; 116; 100] ++ replicate 20 0 ++ [7; 0; 0; 0] ++ [16; 0; 0; 0] ++ seqZ 1 8.

Definition tiny_file (x : Z) : Z := default 0 (tiny_kernel !! idx x).

Definition tiny_drive : pio := mk_pio 0 0 0 0 2 [] (fun n => Some (mem_bytes tiny_file (512 * (n - 1)) 512)).

Lemma tiny_bytes x : 0 <= tiny_file x < 256.
Proof.
  unfold tiny_file. destruct (tiny_kernel !! idx x) as [c|] eqn:Hc; [|done].
  assert (Forall (fun c => 0 <= c < 256) tiny_kernel) as Hall by (apply (bool_decide_unpack _); by vm_compute).
  by apply (Forall_lookup_1 _ _ _ _ Hall Hc).
Qed.

Lemma bootmain_loads_witness : exists m' d',
  bootmain 3 (mk_boot (fun _ => 0) tiny_drive) = Done (Ok (Some 0x100074)) (mk_boot m' d') /\ m' 0x100076 = 3 /\ m' 0x10007c = 0.
Proof.
  destruct (bootmain_loads tiny_file 8 3 (fun _ => 0) tiny_drive) as (m' & d' & Hrun & Hall).
  - done.
  - apply tiny_bytes.
  - done.
  - cbn. lia.
  - intros n Hn. done.
  - vm_compute. reflexivity.
  - vm_compute. discriminate.
  - change (live (segs_of tiny_file)) with [mk_seg 116 0x100074 8 12]. repeat constructor; vm_compute; congruence.
  - change (live (segs_of tiny_file)) with [mk_seg 116 0x100074 8 12]. repeat constructor.
  - change (segs_of tiny_file) with [mk_seg 116 0x100074 8 12; mk_seg 0 0 0 0] in Hall. apply Forall_cons in Hall as [[H1 H2] _].
    exists m', d'. split; [exact Hrun|]. split; [exact (H1 2 ltac:(cbn; lia))|exact (H2 8 ltac:(cbn; lia))].
Defined.
