(* ===== verification/Gates.v ===== *)
(** * Segment and gate descriptors (mmu.h, seginit of vm.c, tvinit and idtinit of trap.c)

    Descriptors are structs of bit fields, which the compiler packs from the
    low bit on into 64-bit words.  The theorems read the words as the processor
    does. *)

From S2P Require Import Prelude Kernel.

(** ** Bit fields *)

(** Fields of the given widths, from the low bit on. *)
Fixpoint pack (l : list (Z * Z)) : Z :=
  match l with
  | [] => 0
  | (w, v) :: l' => v mod 2 ^ w + 2 ^ w * pack l'
  end.

Definition width (l : list (Z * Z)) : Z := foldr (fun x n => x.1 + n) 0 l.

(** The [w] bits of a word from bit [o] on. *)
Definition bits (o w x : Z) : Z := (x / 2 ^ o) mod 2 ^ w.

(** ** Segment descriptors *)

Definition SEG_KCODE : Z := 1.
Definition SEG_KDATA : Z := 2.
Definition SEG_UCODE : Z := 3.
Definition SEG_UDATA : Z := 4.
Definition SEG_TSS : Z := 5.
Definition NSEGS : nat := 6.
Definition DPL_USER : Z := 3.
Definition STA_X : Z := 8.
Definition STA_W : Z := 2.
Definition STA_R : Z := 2.
Definition STS_T32A : Z := 9.
Definition STS_IG32 : Z := 14.
Definition STS_TG32 : Z := 15.

Record segdesc := mk_segdesc {
  lim_15_0 : Z; base_15_0 : Z; base_23_16 : Z; sd_type : Z; sd_s : Z; sd_dpl : Z; sd_p : Z;
  lim_19_16 : Z; avl : Z; sd_rsv1 : Z; db : Z; gran : Z; base_31_24 : Z
}.

Definition segdesc_word (d : segdesc) : Z :=
  pack [(16, lim_15_0 d); (16, base_15_0 d); (8, base_23_16 d); (4, sd_type d); (1, sd_s d); (2, sd_dpl d); (1, sd_p d);
        (4, lim_19_16 d); (1, avl d); (1, sd_rsv1 d); (1, db d); (1, gran d); (8, base_31_24 d)].

#[export] Instance segdesc_inhabited : Inhabited segdesc := populate (mk_segdesc 0 0 0 0 0 0 0 0 0 0 0 0 0).

Definition SEG (type base lim dpl : Z) : segdesc :=
  mk_segdesc (Z.land (Z.shiftr lim 12) 0xffff) (Z.land (u32 base) 0xffff) (Z.land (Z.shiftr (u32 base) 16) 0xff) type 1 dpl 1
    (Z.shiftr (u32 lim) 28) 0 0 1 1 (Z.shiftr (u32 base) 24).

Definition SEG16 (type base lim dpl : Z) : segdesc :=
  mk_segdesc (Z.land lim 0xffff) (Z.land (u32 base) 0xffff) (Z.land (Z.shiftr (u32 base) 16) 0xff) type 1 dpl 1
    (Z.shiftr (u32 lim) 16) 0 0 1 0 (Z.shiftr (u32 base) 24).

(** c->gdt[] after seginit, from the table [gdt] it was before *)
Definition seginit (gdt : list segdesc) : list segdesc :=
  let gdt := <[idx SEG_KCODE := SEG (Z.lor STA_X STA_R) 0 0xffffffff 0]> gdt in
  let gdt := <[idx SEG_KDATA := SEG STA_W 0 0xffffffff 0]> gdt in
  let gdt := <[idx SEG_UCODE := SEG (Z.lor STA_X STA_R) 0 0xffffffff DPL_USER]> gdt in
  <[idx SEG_UDATA := SEG STA_W 0 0xffffffff DPL_USER]> gdt.

(** ** Gate descriptors *)

Record gatedesc := mk_gatedesc {
  off_15_0 : Z; gd_cs : Z; gd_args : Z; gd_rsv1 : Z; gd_type : Z; gd_s : Z; gd_dpl : Z; gd_p : Z; off_31_16 : Z
}.

Definition gatedesc_word (g : gatedesc) : Z :=
  pack [(16, off_15_0 g); (16, gd_cs g); (5, gd_args g); (3, gd_rsv1 g); (4, gd_type g); (1, gd_s g); (2, gd_dpl g);
        (1, gd_p g); (16, off_31_16 g)].

#[export] Instance gatedesc_inhabited : Inhabited gatedesc := populate (mk_gatedesc 0 0 0 0 0 0 0 0 0).

Definition SETGATE (istrap : bool) (sel off d : Z) : gatedesc :=
  mk_gatedesc (Z.land (u32 off) 0xffff) sel 0 0 (if istrap then STS_TG32 else STS_IG32) 0 d 1 (Z.shiftr (u32 off) 16).

Definition VEC_SYSCALL : nat := 64.
Definition VEC_MYSYSCALL : nat := 128.

(** idt[] after tvinit; vectors[] is in vectors.S, which the build generates. *)
Definition tvinit (vectors : nat -> Z) : list gatedesc :=
  let sel := Z.shiftl SEG_KCODE 3 in
  let idt := (fun i => SETGATE false sel (vectors i) 0) <$> seq 0 256 in
  let idt := <[VEC_SYSCALL := SETGATE true sel (vectors VEC_SYSCALL) DPL_USER]> idt in
  <[VEC_MYSYSCALL := SETGATE true sel (vectors VEC_MYSYSCALL) DPL_USER]> idt.

(** The pseudo-descriptor pd[3] of lgdt and lidt for the table at [p]. *)
Definition table_reg (p size : Z) : list Z := [u16 (size - 1); u16 (u32 p); u16 (Z.shiftr (u32 p) 16)].

Definition idtinit (idt : Z) : list Z := table_reg idt (8 * 256).

(** ** How the processor reads them *)

Definition gate_offset (w : Z) : Z := bits 0 16 w + 2 ^ 16 * bits 48 16 w.
Definition gate_selector (w : Z) : Z := bits 16 16 w.
Definition gate_type (w : Z) : Z := bits 40 4 w.
Definition gate_dpl (w : Z) : Z := bits 45 2 w.
Definition gate_present (w : Z) : bool := (bits 47 1 w =? 1) && (bits 44 1 w =? 0).

Definition seg_base (w : Z) : Z := bits 16 24 w + 2 ^ 24 * bits 56 8 w.
Definition seg_limit (w : Z) : Z :=
  let l := bits 0 16 w + 2 ^ 16 * bits 48 4 w in
  if bits 55 1 w =? 1 then 2 ^ 12 * l + (2 ^ 12 - 1) else l.
Definition seg_dpl (w : Z) : Z := bits 45 2 w.
Definition seg_code (w : Z) : bool := bits 43 1 w =? 1.
Definition seg_present (w : Z) : bool := (bits 47 1 w =? 1) && (bits 44 1 w =? 1).

(** ** Packing and reading *)

Lemma width_pos l : Forall (fun x => 0 <= x.1) l -> 0 <= width l.
Proof. unfold width. induction 1 as [|[w v] l Hw Hl IH]; cbn in *; lia. Qed.

Lemma pack_drop l1 l2 : Forall (fun x => 0 <= x.1) l1 -> pack (l1 ++ l2) / 2 ^ width l1 = pack l2.
Proof.
  induction 1 as [|[w v] l Hw Hl IH]; cbn [app pack width foldr fst snd]; [apply Z.div_1_r|].
  cbn in Hw. pose proof (width_pos l Hl) as Hp. unfold width in Hp. rewrite Z.pow_add_r, <- Z.div_div by lia.
  rewrite Z.mul_comm, Z.div_add by lia. rewrite (Z.div_small (v mod 2 ^ w)) by (apply Z.mod_pos_bound; lia). exact IH.
Qed.

(** The field [k] is read back modulo its width. *)
Lemma bits_pack k l w v o : Forall (fun x => 0 <= x.1) l -> l !! k = Some (w, v) -> width (take k l) = o ->
  bits o w (pack l) = v mod 2 ^ w.
Proof.
  intros Hl Hk <-. pose proof (Forall_lookup_1 _ _ _ _ Hl Hk) as Hw. cbn in Hw.
  rewrite <- (take_drop_middle l k (w, v) Hk) at 2. unfold bits. rewrite pack_drop by (by apply Forall_take). cbn [pack].
  rewrite Z.mul_comm, Z.mod_add by lia. by rewrite Z.mod_mod by lia.
Qed.

Lemma halves off : 0 <= off < 2 ^ 32 ->
  Z.land off 0xffff mod 2 ^ 16 + 2 ^ 16 * (Z.shiftr off 16 mod 2 ^ 16) = off.
Proof.
  intros Ho. change 0xffff with (Z.ones 16). rewrite Z.land_ones, Z.shiftr_div_pow2, Z.mod_mod by lia.
  rewrite (Z.mod_small (off / 2 ^ 16)) by (split; [apply Z.div_pos; lia|apply Z.div_lt_upper_bound; lia]).
  pose proof (Z.div_mod off (2 ^ 16)). lia.
Qed.

(** What SETGATE writes is what the processor reads. *)
Lemma setgate_reads istrap sel off d : 0 <= sel < 2 ^ 16 -> 0 <= off < 2 ^ 32 -> 0 <= d < 4 ->
  let w := gatedesc_word (SETGATE istrap sel off d) in
  gate_offset w = off /\ gate_selector w = sel /\ gate_type w = (if istrap then STS_TG32 else STS_IG32) /\
  gate_dpl w = d /\ gate_present w = true.
Proof.
  intros Hs Ho Hd w. unfold w, gatedesc_word, SETGATE, gate_offset, gate_selector, gate_type, gate_dpl, gate_present.
  cbn [off_15_0 gd_cs gd_args gd_rsv1 gd_type gd_s gd_dpl gd_p off_31_16]. rewrite u32_id by lia.
  set (ty := if istrap then STS_TG32 else STS_IG32). set (lo := Z.land off 0xffff). set (hi := Z.shiftr off 16).
  assert (forall l o w v k, Forall (fun x => 0 <= x.1) l -> l !! k = Some (w, v) -> width (take k l) = o -> bits o w (pack l) = v mod 2 ^ w)
    as Hb by (intros; by eapply bits_pack).
  split; [|split; [|split; [|split]]].
  - rewrite (Hb _ 0 16 lo 0%nat), (Hb _ 48 16 hi 8%nat) by (done || by repeat constructor). by apply halves.
  - rewrite (Hb _ 16 16 sel 1%nat) by (done || by repeat constructor). apply Z.mod_small. lia.
  - rewrite (Hb _ 40 4 ty 4%nat) by (done || by repeat constructor). by destruct istrap.
  - rewrite (Hb _ 45 2 d 6%nat) by (done || by repeat constructor). apply Z.mod_small. lia.
  - by rewrite (Hb _ 47 1 1 7%nat), (Hb _ 44 1 0 5%nat) by (done || by repeat constructor).
Qed.

(** The entry of the table. *)
Lemma tvinit_at vectors i : (i < 256)%nat ->
  aget (tvinit vectors) i =
    (if decide (i = VEC_SYSCALL \/ i = VEC_MYSYSCALL) then SETGATE true 8 (vectors i) DPL_USER else SETGATE false 8 (vectors i) 0).
Proof.
  intros Hi. apply aget_lookup. unfold tvinit. change (Z.shiftl SEG_KCODE 3) with 8. unfold VEC_SYSCALL, VEC_MYSYSCALL.
  assert (length ((fun i => SETGATE false 8 (vectors i) 0) <$> seq 0 256) = 256%nat) as Hlen by (by rewrite length_fmap, length_seq).
  destruct (decide (i = 128%nat)) as [->|H128].
  { rewrite list_lookup_insert_eq by (rewrite length_insert; lia). by rewrite decide_True by tauto. }
  rewrite list_lookup_insert_ne by done. destruct (decide (i = 64%nat)) as [->|H64].
  { rewrite list_lookup_insert_eq by lia. by rewrite decide_True by tauto. }
  rewrite list_lookup_insert_ne, list_lookup_fmap, lookup_seq_lt by done. by rewrite decide_False by tauto.
Qed.

(** The segment descriptors as the processor reads them. *)
Lemma seginit_reads gdt : length gdt = NSEGS ->
  let word k := segdesc_word (aget (seginit gdt) (idx k)) in
  Forall (fun k => seg_base (word k) = 0 /\ seg_limit (word k) = 2 ^ 32 - 1 /\ seg_present (word k) = true)
    [SEG_KCODE; SEG_KDATA; SEG_UCODE; SEG_UDATA] /\
  (seg_code (word SEG_KCODE), seg_code (word SEG_KDATA), seg_code (word SEG_UCODE), seg_code (word SEG_UDATA)) = (true, false, true, false) /\
  (seg_dpl (word SEG_KCODE), seg_dpl (word SEG_KDATA), seg_dpl (word SEG_UCODE), seg_dpl (word SEG_UDATA)) = (0, 0, 3, 3).
Proof.
  intros Hl. destruct gdt as [|g0 [|g1 [|g2 [|g3 [|g4 [|g5 [|]]]]]]]; try discriminate Hl. clear Hl.
  split; [|split]; [|by vm_compute|by vm_compute]. repeat constructor; by vm_compute.
Qed.

(** C31: how traps enter the kernel.  After seginit and tvinit the processor
    finds, for each of the 256 vectors, a present gate to the vector's entry
    point in vectors.S, through a selector of the kernel's code segment, which
    is a present code segment of privilege 0 with base 0 that spans all of
    memory.  User code can raise the two system call vectors and no other, and
    these are the only ones that leave interrupts enabled. *)
Theorem traps_enter_kernel vectors gdt i :
  length gdt = NSEGS -> (i < 256)%nat -> 0 <= vectors i < 2 ^ 32 ->
  let w := gatedesc_word (aget (tvinit vectors) i) in
  let cs := segdesc_word (aget (seginit gdt) (idx (gate_selector w / 8))) in
  gate_present w = true /\ gate_offset w = vectors i /\
  (gate_type w, gate_dpl w) = (if decide (i = VEC_SYSCALL \/ i = VEC_MYSYSCALL) then (STS_TG32, DPL_USER) else (STS_IG32, 0)) /\
  (seg_present cs, seg_code cs, seg_dpl cs, seg_base cs, seg_limit cs) = (true, true, 0, 0, 2 ^ 32 - 1).
Proof.
  intros Hl Hi Hv w cs.
  assert (gate_selector w = 8 /\ gate_present w = true /\ gate_offset w = vectors i /\
    (gate_type w, gate_dpl w) = (if decide (i = VEC_SYSCALL \/ i = VEC_MYSYSCALL) then (STS_TG32, DPL_USER) else (STS_IG32, 0))) as (Hs & Hp & Ho & Ht).
  { unfold w. rewrite tvinit_at by done. case_decide.
    - destruct (setgate_reads true 8 (vectors i) DPL_USER) as (H1 & H2 & H3 & H4 & H5); [done|done|done|]. cbn [andb] in *.
      rewrite H1, H2, H3, H4, H5. done.
    - destruct (setgate_reads false 8 (vectors i) 0) as (H1 & H2 & H3 & H4 & H5); [done|done|done|]. rewrite H1, H2, H3, H4, H5. done. }
  split; [done|]. split; [done|]. split; [done|]. unfold cs. rewrite Hs. change (8 / 8) with SEG_KCODE.
  destruct (seginit_reads gdt Hl) as (Hall & Hc & Hd). apply Forall_cons in Hall as [(Hb & Hlim & Hpr) _].
  injection Hc as Hc _ _ _. injection Hd as Hd _ _ _. by rewrite Hb, Hlim, Hpr, Hc, Hd.
Qed.

Lemma traps_enter_kernel_witness :
  let w := gatedesc_word (aget (tvinit (fun i => 0x80105000 + 10 * Z.of_nat i)) 64) in
  gate_offset w = 0x80105280 /\ gate_dpl w = 3.
Proof.
  destruct (traps_enter_kernel (fun i => 0x80105000 + 10 * Z.of_nat i) (replicate 6 inhabitant) 64) as (_ & Ho & Ht & _).
  - reflexivity.
  - lia.
  - vm_compute. split; [discriminate|reflexivity].
  - split; [exact Ho|]. exact (f_equal snd Ht).
Defined.

(** idtinit gives the processor the address of the table. *)
Lemma idtinit_table p : 0 <= p < 2 ^ 32 -> idtinit p = [2047; p mod 2 ^ 16; p / 2 ^ 16].
Proof.
  intros Hp. unfold idtinit, table_reg. rewrite u32_id by lia. rewrite Z.shiftr_div_pow2 by lia. unfold u16.
  rewrite (Z.mod_small (p / 2 ^ 16)) by (split; [apply Z.div_pos; lia|apply Z.div_lt_upper_bound; lia]). done.
Qed.
