(* ===== verification/Apic.v ===== *)
(** * Interrupt controllers, clock and serial port (lapic.c, ioapic.c, picirq.c, uart.c)

    Drivers that only write and read device registers.  The devices are a type
    with the port and register operations; what the documents of a chip say
    about them is a class of laws.  lapicid, which the locks need, is with the
    locks, and the characters of the console with the console. *)

From S2P Require Import Prelude Kernel Spinlock ProcCore Console Vm Proc Kbd Sysarg Exec Users Sysfile Trap.

(** ** The devices *)

(** in and out, the registers of the local APIC, and the two registers of the
    I/O APIC, through which its others are reached. *)
Class Hw (D : Type) := {
  hw_outb : Z -> Z -> D -> D;
  hw_inb : Z -> D -> Z * D;
  lapic_set : Z -> Z -> D -> D;
  lapic_get : Z -> D -> Z * D;
  ioapic_reg : Z -> D -> D;
  ioapic_put : Z -> D -> D;
  ioapic_get : D -> Z * D
}.

(** The devices, the variables lapic (is it set?) and uart of the drivers, the
    warm reset vector in low memory and the messages to the console. *)
Record devs (D : Type) := mk_devs { h_d : D; h_lapic : bool; h_uart : bool; h_wrv : Z * Z; h_msgs : list string }.
Arguments mk_devs {D}.
Arguments h_d {D}.
Arguments h_lapic {D}.
Arguments h_uart {D}.
Arguments h_wrv {D}.
Arguments h_msgs {D}.

Definition IRQ_TIMER : Z := 0.
Definition IRQ_COM1 : Z := 4.
Definition IRQ_ERROR : Z := 19.
Definition IRQ_SPURIOUS : Z := 31.

Section drivers.
Context {D : Type} `{!Hw D}.

Definition dev (f : D -> D) : M (devs D) unit :=
  modify (fun s => mk_devs (f (h_d s)) (h_lapic s) (h_uart s) (h_wrv s) (h_msgs s)).

Definition dev_read (f : D -> Z * D) : M (devs D) Z :=
  r <- gets (fun s => f (h_d s)) ;;
  dev (fun _ => r.2) ;;;
  ret r.1.

Definition outb (port v : Z) : M (devs D) unit := dev (hw_outb port (u8 v)).

Definition inb (port : Z) : M (devs D) Z := dev_read (hw_inb port).

(** ** lapic.c *)

Definition ID : Z := 0x20 / 4.
Definition VER : Z := 0x30 / 4.
Definition TPR : Z := 0x80 / 4.
Definition EOI : Z := 0xB0 / 4.
Definition SVR : Z := 0xF0 / 4.
Definition ENABLE : Z := 0x100.
Definition ESR : Z := 0x280 / 4.
Definition ICRLO : Z := 0x300 / 4.
Definition INIT : Z := 0x500.
Definition STARTUP : Z := 0x600.
Definition DELIVS : Z := 0x1000.
Definition ASSERT : Z := 0x4000.
Definition LEVEL : Z := 0x8000.
Definition BCAST : Z := 0x80000.
Definition ICRHI : Z := 0x310 / 4.
Definition TIMER : Z := 0x320 / 4.
Definition X1 : Z := 0xB.
Definition PERIODIC : Z := 0x20000.
Definition PCINT : Z := 0x340 / 4.
Definition LINT0 : Z := 0x350 / 4.
Definition LINT1 : Z := 0x360 / 4.
Definition ERROR : Z := 0x370 / 4.
Definition MASKED : Z := 0x10000.
Definition TICR : Z := 0x380 / 4.
Definition TDCR : Z := 0x3E0 / 4.

Definition lapicw (index value : Z) : M (devs D) unit :=
  dev (lapic_set index value) ;;;
  dev_read (lapic_get ID) ;;;
  ret tt.

(** while(lapic[ICRLO] & DELIVS) *)
Fixpoint wait_delivery (fuel : nat) : M (devs D) unit :=
  r <- dev_read (lapic_get ICRLO) ;;
  if negb (Z.land r DELIVS =? 0) then
    match fuel with
    | O => halt (Hang "lapicinit")
    | S fuel' => wait_delivery fuel'
    end
  else ret tt.

Definition lapicinit (fuel : nat) : M (devs D) unit :=
  l <- gets h_lapic ;;
  if negb l then ret tt
  else
    lapicw SVR (Z.lor ENABLE (T_IRQ0 + IRQ_SPURIOUS)) ;;;
    lapicw TDCR X1 ;;;
    lapicw TIMER (Z.lor PERIODIC (T_IRQ0 + IRQ_TIMER)) ;;;
    lapicw TICR 10000000 ;;;
    lapicw LINT0 MASKED ;;;
    lapicw LINT1 MASKED ;;;
    v <- dev_read (lapic_get VER) ;;
    when (4 <=? Z.land (Z.shiftr v 16) 0xFF) (lapicw PCINT MASKED) ;;;
    lapicw ERROR (T_IRQ0 + IRQ_ERROR) ;;;
    lapicw ESR 0 ;;;
    lapicw ESR 0 ;;;
    lapicw EOI 0 ;;;
    lapicw ICRHI 0 ;;;
    lapicw ICRLO (Z.lor (Z.lor BCAST INIT) LEVEL) ;;;
    wait_delivery fuel ;;;
    lapicw TPR 0.

Definition lapiceoi : M (devs D) unit :=
  l <- gets h_lapic ;;
  when l (lapicw EOI 0).

Definition CMOS_PORT : Z := 0x70.
Definition CMOS_RETURN : Z := 0x71.

(** The body of the loop of lapicstartap; microdelay does nothing. *)
Definition send_startup (apicid addr : Z) : M (devs D) unit :=
  lapicw ICRHI (Z.shiftl apicid 24) ;;;
  lapicw ICRLO (Z.lor STARTUP (Z.shiftr addr 12)).

Definition lapicstartap (apicid addr : Z) : M (devs D) unit :=
  outb CMOS_PORT 0xF ;;;
  outb (CMOS_PORT + 1) 0x0A ;;;
  modify (fun s => mk_devs (h_d s) (h_lapic s) (h_uart s) (0, u16 (Z.shiftr addr 4)) (h_msgs s)) ;;;
  lapicw ICRHI (Z.shiftl apicid 24) ;;;
  lapicw ICRLO (Z.lor (Z.lor INIT LEVEL) ASSERT) ;;;
  lapicw ICRLO (Z.lor INIT LEVEL) ;;;
  send_startup apicid addr ;;;
  send_startup apicid addr.

(** *** The clock *)

Definition CMOS_STATA : Z := 0x0a.
Definition CMOS_STATB : Z := 0x0b.
Definition CMOS_UIP : Z := Z.shiftl 1 7.
Definition SECS : Z := 0x00.
Definition MINS : Z := 0x02.
Definition HOURS : Z := 0x04.
Definition DAY : Z := 0x07.
Definition MONTH : Z := 0x08.
Definition YEAR : Z := 0x09.

Record rtcdate := mk_date { second : Z; minute : Z; hour : Z; day : Z; month : Z; year : Z }.

Definition cmos_read (reg : Z) : M (devs D) Z :=
  outb CMOS_PORT reg ;;;
  inb CMOS_RETURN.

Definition fill_rtcdate : M (devs D) rtcdate :=
  s <- cmos_read SECS ;;
  m <- cmos_read MINS ;;
  h <- cmos_read HOURS ;;
  d <- cmos_read DAY ;;
  mo <- cmos_read MONTH ;;
  y <- cmos_read YEAR ;;
  ret (mk_date s m h d mo y).

#[export] Instance rtcdate_eq_dec : EqDecision rtcdate.
Proof. solve_decision. Defined.

(** for(;;): two equal readings, the first one when no update was under way *)
Fixpoint cmos_loop (fuel : nat) : M (devs D) rtcdate :=
  let again := match fuel with O => halt (Hang "cmostime") | S fuel' => cmos_loop fuel' end in
  t1 <- fill_rtcdate ;;
  a <- cmos_read CMOS_STATA ;;
  if negb (Z.land a CMOS_UIP =? 0) then again
  else
    t2 <- fill_rtcdate ;;
    if decide (t1 = t2) then ret t1 else again.

(** CONV(x) *)
Definition conv (x : Z) : Z := u32 (Z.shiftr x 4 * 10 + Z.land x 0xf).

Definition cmostime (fuel : nat) : M (devs D) rtcdate :=
  sb <- cmos_read CMOS_STATB ;;
  let bcd := Z.land sb (Z.shiftl 1 2) =? 0 in
  t1 <- cmos_loop fuel ;;
  let t1 :=
    if bcd then mk_date (conv (second t1)) (conv (minute t1)) (conv (hour t1)) (conv (day t1)) (conv (month t1)) (conv (year t1))
    else t1 in
  ret (mk_date (second t1) (minute t1) (hour t1) (day t1) (month t1) (u32 (year t1 + 2000))).

(** ** ioapic.c *)

Definition REG_ID : Z := 0x00.
Definition REG_VER : Z := 0x01.
Definition REG_TABLE : Z := 0x10.
Definition INT_DISABLED : Z := 0x10000.

Definition ioapicread (reg : Z) : M (devs D) Z :=
  dev (ioapic_reg reg) ;;;
  dev_read ioapic_get.

Definition ioapicwrite (reg data : Z) : M (devs D) unit :=
  dev (ioapic_reg reg) ;;;
  dev (ioapic_put data).

(** Mark interrupt [i] disabled and not routed to any CPU. *)
Definition ioapic_mask (i : Z) : M (devs D) unit :=
  ioapicwrite (REG_TABLE + 2 * i) (Z.lor INT_DISABLED (T_IRQ0 + i)) ;;;
  ioapicwrite (REG_TABLE + 2 * i + 1) 0.

(** ioapicinit; [ioapicid] is what mpinit found *)
Definition ioapicinit (ioapicid : Z) : M (devs D) unit :=
  v <- ioapicread REG_VER ;;
  let maxintr := Z.land (Z.shiftr v 16) 0xFF in
  r <- ioapicread REG_ID ;;
  let id := Z.shiftr r 24 in
  when (negb (id =? ioapicid))
    (modify (fun s => mk_devs (h_d s) (h_lapic s) (h_uart s) (h_wrv s)
                        (h_msgs s ++ ["ioapicinit: id isn't equal to ioapicid; not a MP"]))) ;;;
  mfor (seqZ 0 (maxintr + 1)) ioapic_mask.

Definition ioapicenable (irq cpunum : Z) : M (devs D) unit :=
  ioapicwrite (REG_TABLE + 2 * irq) (T_IRQ0 + irq) ;;;
  ioapicwrite (REG_TABLE + 2 * irq + 1) (u32 (Z.shiftl cpunum 24)).

(** ** picirq.c *)

Definition IO_PIC1 : Z := 0x20.
Definition IO_PIC2 : Z := 0xA0.

Definition picinit : M (devs D) unit :=
  outb (IO_PIC1 + 1) 0xFF ;;;
  outb (IO_PIC2 + 1) 0xFF.

(** ** uart.c *)

Definition COM1 : Z := 0x3f8.

(** for(i = 0; i < 128 && !(inb(COM1+5) & 0x20); i++) microdelay(10); *)
Fixpoint uart_ready (n : nat) : M (devs D) unit :=
  match n with
  | O => ret tt
  | S n' =>
      r <- inb (COM1 + 5) ;;
      if Z.land r 0x20 =? 0 then uart_ready n' else ret tt
  end.

Definition uart_putc (c : Z) : M (devs D) unit :=
  u <- gets h_uart ;;
  if negb u then ret tt
  else
    uart_ready 128 ;;;
    outb (COM1 + 0) c.

Definition uartgetc : M (devs D) Z :=
  u <- gets h_uart ;;
  if negb u then ret (-1)
  else
    r <- inb (COM1 + 5) ;;
    if Z.land r 0x01 =? 0 then ret (-1)
    else inb (COM1 + 0).

Definition uartinit : M (devs D) unit :=
  outb (COM1 + 2) 0 ;;;
  outb (COM1 + 3) 0x80 ;;;
  outb (COM1 + 0) (115200 / 9600) ;;;
  outb (COM1 + 1) 0 ;;;
  outb (COM1 + 3) 0x03 ;;;
  outb (COM1 + 4) 0 ;;;
  outb (COM1 + 1) 0x01 ;;;
  r <- inb (COM1 + 5) ;;
  if r =? 0xFF then ret tt
  else
    modify (fun s => mk_devs (h_d s) (h_lapic s) true (h_wrv s) (h_msgs s)) ;;;
    inb (COM1 + 2) ;;;
    inb (COM1 + 0) ;;;
    ioapicenable IRQ_COM1 0 ;;;
    mfor (chars "xv6..." ++ [10]) uart_putc.
End drivers.

(** ** What the I/O APIC does (82093AA data sheet)

    The registers behind the index register; the entries of the redirection
    table can be written except for their status bits and reserved bits. *)

(** The status bits 12 and 14 and the reserved bits are not written. *)
Definition writable (r v : Z) : Prop :=
  if Z.even r then 0 <= v < 2 ^ 17 /\ Z.land v 0x5000 = 0 else 0 <= v < 2 ^ 32 /\ v mod 2 ^ 24 = 0.

Class IoapicLaws (D : Type) `{!Hw D} := {
  io_regs : D -> Z -> Z;
  io_get d r : r = REG_ID \/ r = REG_VER ->
    exists d', ioapic_get (ioapic_reg r d) = (io_regs d r, d') /\ forall x, io_regs d' x = io_regs d x;
  io_put d r v : REG_TABLE <= r <= REG_TABLE + 2 * Z.land (Z.shiftr (io_regs d REG_VER) 16) 0xFF + 1 -> writable r v ->
    forall x, io_regs (ioapic_put v (ioapic_reg r d)) x = if decide (x = r) then v else io_regs d x
}.

(** The fields of an entry of the table. *)
Definition int_masked (lo : Z) : bool := Z.testbit lo 16.
Definition int_vector (lo : Z) : Z := lo mod 2 ^ 8.
Definition int_mode (lo : Z) : Z := (lo / 2 ^ 8) mod 2 ^ 8.
Definition int_dest (hi : Z) : Z := hi / 2 ^ 24.

Section routing.
Context {D : Type} `{!Hw D, !IoapicLaws D}.

Definition io_maxintr (d : D) : Z := Z.land (Z.shiftr (io_regs d REG_VER) 16) 0xFF.

(** The entry that sends interrupt [i] to a CPU, or to none. *)
Definition entry_for (cpu : option Z) (i : Z) : Z * Z :=
  match cpu with
  | None => (Z.lor INT_DISABLED (T_IRQ0 + i), 0)
  | Some c => (T_IRQ0 + i, c * 2 ^ 24)
  end.

Definition io_entry (d : D) (i : Z) : Z * Z := (io_regs d (REG_TABLE + 2 * i), io_regs d (REG_TABLE + 2 * i + 1)).

Lemma maxintr_range d : 0 <= io_maxintr d < 256.
Proof. unfold io_maxintr. change 0xFF with (Z.ones 8). rewrite Z.land_ones by lia. apply Z.mod_pos_bound. lia. Qed.

(** A whole entry is written. *)
Lemma write_entry i lo hi d l u w msgs :
  0 <= i <= io_maxintr d -> writable 0 lo -> writable 1 hi ->
  exists d', (ioapicwrite (REG_TABLE + 2 * i) lo ;;; ioapicwrite (REG_TABLE + 2 * i + 1) hi) (mk_devs d l u w msgs) =
      Done (Ok tt) (mk_devs d' l u w msgs) /\
    io_maxintr d' = io_maxintr d /\ io_entry d' i = (lo, hi) /\ forall j, j <> i -> 0 <= j -> io_entry d' j = io_entry d j.
Proof.
  intros Hi Hlo Hhi. eexists. split; [reflexivity|].
  set (r := REG_TABLE + 2 * i). set (d1 := ioapic_put lo (ioapic_reg r d)).
  assert (forall k, Z.even (REG_TABLE + 2 * k) = true /\ Z.even (REG_TABLE + 2 * k + 1) = false) as Heven.
  { intros k. unfold REG_TABLE. rewrite !Z.even_add, Z.even_mul. done. }
  assert (forall x, io_regs d1 x = if decide (x = r) then lo else io_regs d x) as H1.
  { apply io_put; [unfold r, io_maxintr, REG_TABLE in *; lia|]. unfold writable, r. by rewrite (proj1 (Heven i)). }
  assert (io_regs d1 REG_VER = io_regs d REG_VER) as Hv1 by (rewrite H1, decide_False; [done|unfold REG_VER, r, REG_TABLE; lia]).
  assert (forall x, io_regs (ioapic_put hi (ioapic_reg (r + 1) d1)) x = if decide (x = r + 1) then hi else io_regs d1 x) as H2.
  { apply io_put; [rewrite Hv1; unfold r, io_maxintr, REG_TABLE in *; lia|]. unfold writable, r. by rewrite (proj2 (Heven i)). }
  split; [unfold io_maxintr; rewrite H2, decide_False by (unfold REG_VER, r, REG_TABLE; lia); by rewrite Hv1|].
  split; intros; unfold io_entry; rewrite !H2, !H1; fold r.
  - by rewrite decide_False, decide_True, decide_True by lia.
  - unfold r. by rewrite !decide_False by lia.
Qed.

Lemma vectors_writable i : 0 <= i < 256 -> writable 0 (Z.lor INT_DISABLED (T_IRQ0 + i)) /\ writable 0 (T_IRQ0 + i).
Proof.
  intros Hi. assert (i ∈ seqZ 0 256) as Hin by (apply elem_of_seqZ; lia).
  assert (Forall (fun i => (0 <= Z.lor INT_DISABLED (T_IRQ0 + i) < 2 ^ 17 /\ Z.land (Z.lor INT_DISABLED (T_IRQ0 + i)) 0x5000 = 0) /\
    (0 <= T_IRQ0 + i < 2 ^ 17 /\ Z.land (T_IRQ0 + i) 0x5000 = 0)) (seqZ 0 256)) as Hall by (apply (bool_decide_unpack _); by vm_compute).
  rewrite Forall_forall in Hall. by apply Hall.
Qed.

(** Every entry is for the CPU that the map gives. *)
Definition routes (m : gmap Z Z) (n : Z) (d : D) : Prop := forall i, 0 <= i < n -> io_entry d i = entry_for (m !! i) i.

Lemma mask_all k d l u w msgs n : Z.of_nat k <= io_maxintr d + 1 - n -> 0 <= n -> routes ∅ n d ->
  exists d', mfor (seqZ n (Z.of_nat k)) ioapic_mask (mk_devs d l u w msgs) = Done (Ok tt) (mk_devs d' l u w msgs) /\
    io_maxintr d' = io_maxintr d /\ routes ∅ (n + Z.of_nat k) d'.
Proof.
  revert d n. induction k as [|k IH]; intros d n Hk Hn Hr.
  - exists d. rewrite Z.add_0_r. done.
  - rewrite seqZ_cons by lia. cbn [mfor]. pose proof (maxintr_range d).
    destruct (write_entry n (Z.lor INT_DISABLED (T_IRQ0 + n)) 0 d l u w msgs) as (d1 & Hrun & Hmax & He & Ho); [lia|apply vectors_writable; lia|done|].
    unfold ioapic_mask at 1. rewrite (bind_Done _ _ _ _ _ Hrun).
    replace (Z.pred (Z.of_nat (S k))) with (Z.of_nat k) by lia.
    destruct (IH d1 (Z.succ n)) as (d' & Hrun' & Hmax' & Hr'); [lia|lia| |].
    { intros i Hi. rewrite lookup_empty. destruct (decide (i = n)) as [->|Hne]; [by rewrite He|].
      rewrite Ho by lia. rewrite Hr by lia. by rewrite lookup_empty. }
    exists d'. split; [done|]. split; [congruence|]. by replace (n + Z.of_nat (S k)) with (Z.succ n + Z.of_nat k) by lia.
Qed.

Lemma enable_one irq cpu m d l u w msgs : 0 <= irq <= io_maxintr d -> 0 <= cpu < 256 -> routes m (io_maxintr d + 1) d ->
  exists d', ioapicenable irq cpu (mk_devs d l u w msgs) = Done (Ok tt) (mk_devs d' l u w msgs) /\
    io_maxintr d' = io_maxintr d /\ routes (<[irq := cpu]> m) (io_maxintr d + 1) d'.
Proof.
  intros Hirq Hcpu Hr. pose proof (maxintr_range d). unfold ioapicenable. rewrite Z.shiftl_mul_pow2, u32_id by lia.
  destruct (write_entry irq (T_IRQ0 + irq) (cpu * 2 ^ 24) d l u w msgs) as (d1 & Hrun & Hmax & He & Ho);
    [done|apply vectors_writable; lia|split; [lia|]; by rewrite Z.mod_mul|].
  exists d1. split; [done|]. split; [done|]. intros i Hi. destruct (decide (i = irq)) as [->|Hne].
  - by rewrite He, lookup_insert_eq.
  - rewrite Ho, lookup_insert_ne by lia. by apply Hr.
Qed.

Lemma enable_all calls m d l u w msgs :
  Forall (fun c => 0 <= c.1 <= io_maxintr d /\ 0 <= c.2 < 256) calls -> routes m (io_maxintr d + 1) d ->
  exists d', mfor calls (fun c => ioapicenable c.1 c.2) (mk_devs d l u w msgs) = Done (Ok tt) (mk_devs d' l u w msgs) /\
    io_maxintr d' = io_maxintr d /\ routes (foldl (fun m c => <[c.1 := c.2]> m) m calls) (io_maxintr d + 1) d'.
Proof.
  revert m d. induction calls as [|[irq cpu] calls IH]; intros m d Hc Hr; [by exists d|].
  apply Forall_cons in Hc as [[Hi Hcpu] Hc]. cbn [mfor foldl fst snd].
  destruct (enable_one irq cpu m d l u w msgs Hi Hcpu Hr) as (d1 & Hrun & Hmax & Hr1). rewrite (bind_Done _ _ _ _ _ Hrun).
  destruct (IH (<[irq := cpu]> m) d1) as (d' & Hrun' & Hmax' & Hr'); rewrite ?Hmax in *; [done|done|].
  exists d'. split; [done|]. by rewrite Hmax'.
Qed.

Lemma ioapicread_ok r v d d' l u w msgs : ioapic_get (ioapic_reg r d) = (v, d') ->
  ioapicread r (mk_devs d l u w msgs) = Done (Ok v) (mk_devs d' l u w msgs).
Proof.
  intros H. unfold ioapicread, dev. rewrite bind_modify. unfold dev_read. rewrite bind_gets.
  cbn [h_d h_lapic h_uart h_wrv h_msgs]. by rewrite H.
Qed.

(** ioapicinit leaves every interrupt masked. *)
Lemma ioapicinit_ok id d l u w msgs :
  exists d' msgs', ioapicinit id (mk_devs d l u w msgs) = Done (Ok tt) (mk_devs d' l u w msgs') /\
    io_maxintr d' = io_maxintr d /\ routes ∅ (io_maxintr d + 1) d'.
Proof.
  destruct (io_get d REG_VER) as (d1 & H1 & Hr1); [by right|]. destruct (io_get d1 REG_ID) as (d2 & H2 & Hr2); [by left|].
  assert (io_maxintr d2 = io_maxintr d) as Hmax by (unfold io_maxintr; by rewrite Hr2, Hr1).
  set (msgs' := if negb (Z.shiftr (io_regs d1 REG_ID) 24 =? id)
    then msgs ++ ["ioapicinit: id isn't equal to ioapicid; not a MP"] else msgs).
  pose proof (maxintr_range d).
  destruct (mask_all (Z.to_nat (io_maxintr d + 1)) d2 l u w msgs' 0) as (d' & Hrun & Hmax' & Hr'); [lia|lia|intros i Hi; lia|].
  rewrite Z2Nat.id in Hrun, Hr' by lia. exists d', msgs'. split; [|split; [congruence|done]].
  unfold ioapicinit. rewrite (bind_Done _ _ _ _ _ (ioapicread_ok _ _ _ _ l u w msgs H1)).
  rewrite (bind_Done _ _ _ _ _ (ioapicread_ok _ _ _ _ l u w msgs H2)). fold (io_maxintr d).
  unfold msgs' in Hrun. unfold when. by destruct (negb _).
Qed.
End routing.

(** C38: interrupts go where the kernel sends them.  After ioapicinit and any
    sequence of calls of ioapicenable, every entry of the redirection table is
    masked if no call named its interrupt, and otherwise delivers the
    interrupt, edge-triggered and in fixed mode, with the vector T_IRQ0 + irq
    to the CPU of the last call that named it. *)
Theorem ioapic_routes {D} `{!Hw D, !IoapicLaws D} id calls (d : D) l u w msgs :
  io_maxintr d <= 223 -> Forall (fun c => 0 <= c.1 <= io_maxintr d /\ 0 <= c.2 < 256) calls ->
  exists d' msgs',
    (ioapicinit id ;;; mfor calls (fun c => ioapicenable c.1 c.2)) (mk_devs d l u w msgs) = Done (Ok tt) (mk_devs d' l u w msgs') /\
    forall i, 0 <= i <= io_maxintr d ->
      let '(lo, hi) := io_entry d' i in
      match foldl (fun m c => <[c.1 := c.2]> m) (∅ : gmap Z Z) calls !! i with
      | None => int_masked lo = true
      | Some cpu => int_masked lo = false /\ int_mode lo = 0 /\ int_vector lo = T_IRQ0 + i /\ int_dest hi = cpu
      end.
Proof.
  intros Hmax Hc. destruct (ioapicinit_ok id d l u w msgs) as (d1 & msgs' & Hrun & Hmax1 & Hr1).
  rewrite <- Hmax1 in Hc, Hr1. destruct (enable_all calls ∅ d1 l u w msgs' Hc Hr1) as (d' & Hrun' & Hmax' & Hr').
  exists d', msgs'. split; [by rewrite (bind_Done _ _ _ _ _ Hrun)|]. intros i Hi. rewrite (Hr' i) by lia.
  destruct (foldl _ _ _ !! i) as [cpu|]; cbn [entry_for].
  - unfold int_masked, int_mode, int_vector, int_dest, T_IRQ0. rewrite Z.testbit_false by lia.
    rewrite (Z.div_small (32 + i) (2 ^ 16)), (Z.div_small (32 + i) (2 ^ 8)), (Z.mod_small (32 + i)), Z.div_mul by lia. done.
  - unfold int_masked. by rewrite Z.lor_spec.
Qed.

(** ** A chip *)

(** The index register and the others. *)
Record chip := mk_chip { ch_reg : Z; ch_regs : Z -> Z; ch_sent : list (Z * Z) }.

#[export] Instance chip_hw : Hw chip := {
  hw_outb p v d := mk_chip (ch_reg d) (ch_regs d) (ch_sent d ++ [(p, v)]);
  hw_inb _ d := (0, d);
  lapic_set _ _ d := d;
  lapic_get _ d := (0, d);
  ioapic_reg r d := mk_chip r (ch_regs d) (ch_sent d);
  ioapic_put v d := mk_chip (ch_reg d) (fun x => if decide (x = ch_reg d) then v else ch_regs d x) (ch_sent d);
  ioapic_get d := (ch_regs d (ch_reg d), d)
}.

#[export] Instance chip_laws : IoapicLaws chip.
Proof.
  refine {| io_regs := ch_regs |}.
  - intros d r _. by exists (mk_chip r (ch_regs d) (ch_sent d)).
  - done.
Defined.

Definition chip24 : chip := mk_chip 0 (fun r => if r =? 1 then Z.shiftl 23 16 else 0) [].

(** The keyboard to CPU 0 and the disk first to CPU 0, then to CPU 1. *)
Lemma ioapic_routes_witness : exists d msgs',
  (ioapicinit 0 ;;; mfor [(1, 0); (14, 0); (14, 1)] (fun c => ioapicenable c.1 c.2)) (mk_devs chip24 true false (0, 0) []) =
    Done (Ok tt) (mk_devs d true false (0, 0) msgs') /\
  int_dest (io_entry d 14).2 = 1 /\ int_masked (io_entry d 4).1 = true.
Proof.
  destruct (ioapic_routes 0 [(1, 0); (14, 0); (14, 1)] chip24 true false (0, 0) []) as (d & msgs' & Hrun & Hall).
  - vm_compute. discriminate.
  - apply (bool_decide_unpack _). vm_compute. exact I.
  - exists d, msgs'. split; [exact Hrun|].
    pose proof (Hall 14 ltac:(vm_compute; split; discriminate)) as H14. pose proof (Hall 4 ltac:(vm_compute; split; discriminate)) as H4.
    destruct (io_entry d 14) as [lo hi], (io_entry d 4) as [lo' hi']. vm_compute (_ !! _) in H14. vm_compute (_ !! _) in H4.
    split; [apply H14|apply H4].
Defined.
